(** * A shallow embedding of the ins replicated coordination service

  The development follows the C++ sources:
  - [storage/binlog.cc]      : [LogEntry::Dump], [LogEntry::Load], [BinLogger]
  - [storage/storage_manage.cc] : [StorageManager]
  - [server/ins_node_impl.cc]  : [InsNodeImpl] (election, replication,
    commit/apply worker and the client request surface).

  Conventions.  A [std::string] is a Rocq [string] (a sequence of 8-bit
  characters).  A fixed-width integer is a [Z] together with the
  wrap-around of its C++ type written out ([to_int32], [to_int64]).  A
  [std::map] is a [gmap].  A failed [assert], an [abort()] and an
  out-of-bounds [memcpy] are all the outcome [None]. *)

From Stdlib Require Import ZArith String Ascii List Lia Bool.
From Stdlib Require DecimalString DecimalPos.
From stdpp Require Import base option gmap strings list sorting.

Local Open Scope Z_scope.

(* stdpp's set_solver clears hypotheses it has already consumed. *)
#[local] Set Warnings "-clear-no-such-hyp".

(** ** Fixed-width integers and their in-memory representation *)

Module Wire.

Definition wrap_signed (bits z : Z) : Z :=
  (z + 2 ^ (bits - 1)) mod 2 ^ bits - 2 ^ (bits - 1).

(** Conversion to [int32_t] / [int64_t] / [uint8_t]. *)
Definition to_int32 (z : Z) : Z := wrap_signed 32 z.
Definition to_int64 (z : Z) : Z := wrap_signed 64 z.
Definition to_uint8 (z : Z) : Z := z mod 256.

Definition int32_min : Z := - 2 ^ 31.
Definition int32_max : Z := 2 ^ 31 - 1.
Definition int64_min : Z := - 2 ^ 63.
Definition int64_max : Z := 2 ^ 63 - 1.

Definition byte_of (z : Z) : ascii := ascii_of_N (Z.to_N (z mod 256)).
Definition byte_val (c : ascii) : Z := Z.of_N (N_of_ascii c).

(** [static_cast<...>(value[0])] for a (signed) [char]. *)
Definition char_val (c : ascii) : Z :=
  if byte_val c <? 128 then byte_val c else byte_val c - 256.

Definition strlen (s : string) : Z := Z.of_nat (String.length s).

(** The [n] bytes that [memcpy] copies out of an integer object, least
    significant byte first (the sources copy in host order; the hosts
    this code runs on are little-endian). *)
Fixpoint le_bytes (n : nat) (z : Z) : string :=
  match n with
  | O => EmptyString
  | S n' => String (byte_of z) (le_bytes n' (z / 256))
  end.

(** The unsigned value of a little-endian byte sequence. *)
Fixpoint le_value (s : string) : Z :=
  match s with
  | EmptyString => 0
  | String c s' => byte_val c + 256 * le_value s'
  end.

(** [memcpy(p, &v, sizeof v)] and [memcpy(&v, p, sizeof v)]. *)
Definition store_int32 (v : Z) : string := le_bytes 4 v.
Definition store_int64 (v : Z) : string := le_bytes 8 v.
Definition load_int32 (s : string) : Z := to_int32 (le_value s).
Definition load_int64 (s : string) : Z := to_int64 (le_value s).

(** A read cursor ([const char* p]) over the remaining bytes: take [n]
    bytes and advance.  Reading past the end is undefined in the source. *)
Fixpoint read_bytes (n : nat) (p : string) : option (string * string) :=
  match n with
  | O => Some (EmptyString, p)
  | S n' =>
      match p with
      | EmptyString => None
      | String c p' =>
          '(s, rest) ← read_bytes n' p'; Some (String c s, rest)
      end
  end.

End Wire.

Import Wire.

(** ** Log entries and their framing (storage/binlog.cc) *)

(** [LogOperation] is a protobuf enum; after [static_cast] it is the
  underlying integer.  The enumerators are declared in the generated
  header, which is not part of the sources at hand, so they are taken as
  parameters where a definition names one. *)
Definition LogOperation : Type := Z.

Module LogEntry.

Record t : Type := mk {
  op : LogOperation;
  user : string;
  key : string;
  value : string;
  term : Z
}.

(** The bytes [LogEntry::Dump] writes, field by field. *)
Definition framing (e : t) : string :=
  String (byte_of (to_uint8 (op e))) EmptyString
  +:+ store_int32 (to_int32 (strlen (user e))) +:+ user e
  +:+ store_int32 (to_int32 (strlen (key e))) +:+ key e
  +:+ store_int32 (to_int32 (strlen (value e))) +:+ value e
  +:+ store_int64 (term e).

(** [int32_t LogEntry::Dump(std::string* buf) const]: the buffer is
    resized to [total_len] (an [int32_t]) and then filled; the writes stay
    inside the buffer exactly when [total_len] is the number of bytes
    written. *)
Definition Dump (e : t) : option (Z * string) :=
  let total_len :=
    to_int32 (1 + 4 + strlen (user e) + 4 + strlen (key e)
              + 4 + strlen (value e) + 8) in
  let buf := framing e in
  if decide (total_len = strlen buf) then Some (total_len, buf) else None.

(** A length-prefixed field: [memcpy] the size, [resize], [memcpy] the
    data.  A negative size makes [resize] throw. *)
Definition read_field (p : string) : option (string * string) :=
  '(raw, p) ← read_bytes 4 p;
  let size := load_int32 raw in
  if decide (size < 0) then None else read_bytes (Z.to_nat size) p.

(** [void LogEntry::Load(const std::string& buf)]. *)
Definition Load (buf : string) : option t :=
  '(opcode, p) ← read_bytes 1 buf;
  '(user, p) ← read_field p;
  '(key, p) ← read_field p;
  '(value, p) ← read_field p;
  '(raw_term, _) ← read_bytes 8 p;
  Some {| op := le_value opcode; user := user; key := key; value := value;
          term := load_int64 raw_term |}.

(** The framing of the entry fits the [int32_t] that [Dump] computes. *)
Definition fits_int32 (e : t) : Prop :=
  21 + strlen (user e) + strlen (key e) + strlen (value e) <= int32_max.

(** The entry as it is kept in a slot: [Dump] stores the operation code
    through [static_cast<uint8_t>] and the term in an [int64_t]. *)
Definition stored (e : t) : t :=
  {| op := to_uint8 (op e); user := user e; key := key e; value := value e;
     term := to_int64 (term e) |}.

End LogEntry.

(** ** The binary log (storage/binlog.cc) *)

Module BinLogger.

(** [db_] is the LevelDB handle (an ordered byte-string map; its writes are
    taken to succeed, as the source asserts). *)
Record t : Type := mk {
  db_ : gmap string string;
  length_ : Z;
  last_log_term_ : Z
}.

Definition length_tag : string := "#BINLOG_LEN#".

Definition IntToString (num : Z) : string := store_int64 num.

(** [assert(s.size() == sizeof(int64_t))]. *)
Definition StringToInt (s : string) : option Z :=
  if decide (String.length s = 8%nat) then Some (load_int64 s) else None.

Definition GetLength (b : t) : Z := length_ b.
Definition GetLastLogIndex (b : t) : Z := to_int64 (length_ b - 1).
Definition GetLastLogIndexAndTerm (b : t) : Z * Z :=
  (to_int64 (length_ b - 1), last_log_term_ b).

(** What [ReadSlot] hands back: [true] with the entry loaded, [false], or a
    [Load] that runs off the stored value. *)
Inductive slot : Type :=
| SlotOk (log_entry : LogEntry.t)
| SlotNotFound
| SlotBroken.

Definition ReadSlot (b : t) (slot_index : Z) : slot :=
  match db_ b !! IntToString slot_index with
  | Some value =>
      match LogEntry.Load value with
      | Some log_entry => SlotOk log_entry
      | None => SlotBroken
      end
  | None => SlotNotFound
  end.

Definition AppendEntry (b : t) (log_entry : LogEntry.t) : option t :=
  '(_, buf) ← LogEntry.Dump log_entry;
  let batch :=
    <[length_tag := IntToString (to_int64 (length_ b + 1))]>
      (<[IntToString (length_ b) := buf]> (db_ b)) in
  Some {| db_ := batch;
          length_ := to_int64 (length_ b + 1);
          last_log_term_ := LogEntry.term log_entry |}.

(** The loop of [AppendEntryList]: entry [i] goes to slot [cur_index + i]. *)
Fixpoint put_entries (db : gmap string string) (last_term cur_index : Z)
    (entries : list LogEntry.t) : option (gmap string string * Z) :=
  match entries with
  | [] => Some (db, last_term)
  | log_entry :: rest =>
      '(_, buf) ← LogEntry.Dump log_entry;
      put_entries (<[IntToString cur_index := buf]> db)
                  (LogEntry.term log_entry) (to_int64 (cur_index + 1)) rest
  end.

Definition AppendEntryList (b : t) (entries : list LogEntry.t) : option t :=
  let next_index := IntToString (to_int64 (length_ b + Z.of_nat (length entries))) in
  '(db, last_term) ← put_entries (db_ b) (last_log_term_ b) (length_ b) entries;
  Some {| db_ := <[length_tag := next_index]> db;
          length_ := to_int64 (length_ b + Z.of_nat (length entries));
          last_log_term_ := last_term |}.

(** [void BinLogger::Truncate(int64_t trunk_slot_index)]. *)
Definition Truncate (b : t) (trunk_slot_index : Z) : option t :=
  let trunk_slot_index :=
    if decide (trunk_slot_index < -1) then -1 else trunk_slot_index in
  let length := to_int64 (trunk_slot_index + 1) in
  let b' := {| db_ := <[length_tag := IntToString length]> (db_ b);
               length_ := length;
               last_log_term_ := last_log_term_ b |} in
  if decide (length > 0) then
    match ReadSlot b' (length - 1) with
    | SlotOk log_entry =>
        Some {| db_ := db_ b'; length_ := length;
                last_log_term_ := LogEntry.term log_entry |}
    | _ => None
    end
  else Some b'.

(** A freshly created log. *)
Definition empty : t := {| db_ := ∅; length_ := 0; last_log_term_ := -1 |}.

(** [BinLogger::BinLogger(...)] on an existing database: the members start
    at [length_(0), last_log_term_(-1)] and are then read back from the
    length tag and from the last slot. *)
Definition Open (db : gmap string string) : option t :=
  match db !! length_tag with
  | Some value =>
      if decide (value = EmptyString)
      then Some {| db_ := db; length_ := 0; last_log_term_ := -1 |}
      else
        length ← StringToInt value;
        if decide (length > 0) then
          match ReadSlot {| db_ := db; length_ := length; last_log_term_ := -1 |}
                         (length - 1) with
          | SlotOk log_entry =>
              Some {| db_ := db; length_ := length;
                      last_log_term_ := LogEntry.term log_entry |}
          | _ => None
          end
        else Some {| db_ := db; length_ := length; last_log_term_ := -1 |}
  | None => Some {| db_ := db; length_ := 0; last_log_term_ := -1 |}
  end.

(** [bool BinLogger::RemoveSlot(int64_t slot_index)]. *)
Definition RemoveSlot (b : t) (slot_index : Z) : bool * t :=
  match db_ b !! IntToString slot_index with
  | Some _ =>
      (true, {| db_ := delete (IntToString slot_index) (db_ b);
                length_ := length_ b; last_log_term_ := last_log_term_ b |})
  | None => (false, b)
  end.

End BinLogger.

(** ** The application key/value store (storage/storage_manage.cc) *)

(** [galaxy::ins::Status], as far as the sources at hand use it. *)
Inductive Status : Type := kOk | kNotFound | kUnknownUser | kError.

#[global] Instance Status_eq_dec : EqDecision Status.
Proof. solve_decision. Defined.

Module StorageManager.

(** [dbs_] maps a namespace to its open LevelDB handle, here the contents
    of that database; [disk_] holds the databases that exist in the data
    directory without an open handle.  LevelDB reads and writes on an open
    handle are taken to succeed. *)
Record t : Type := mk {
  dbs_ : gmap string (gmap string string);
  disk_ : gmap string (gmap string string)
}.

Definition anonymous_user : string := "".

(** [options.create_if_missing = true]: an existing database is opened as
    it is, a missing one is created empty.  Only a call in which
    [leveldb::DB::Open] succeeds is modelled.  When it fails (a name that
    is no directory name, an I/O error) the source stores a NULL handle,
    after which [FindDB] answers [kError], and returns false; no state of
    this model stands for that, so nothing is stated here about such a
    call. *)
Definition OpenDatabase (sm : t) (name : string) : bool * t :=
  match dbs_ sm !! name with
  | Some _ => (true, sm)
  | None =>
      (true, {| dbs_ := <[name := default ∅ (disk_ sm !! name)]> (dbs_ sm);
                disk_ := delete name (disk_ sm) |})
  end.

(** [void StorageManager::CloseDatabase(name)]: the handle is deleted, the
    database stays in the data directory. *)
Definition CloseDatabase (sm : t) (name : string) : t :=
  match dbs_ sm !! name with
  | Some db => {| dbs_ := delete name (dbs_ sm);
                  disk_ := <[name := db]> (disk_ sm) |}
  | None => sm
  end.

Definition FindDB (sm : t) (name : string) : Status * gmap string string :=
  match dbs_ sm !! name with
  | Some db => (kOk, db)
  | None => (kUnknownUser, ∅)
  end.

(** [Get] leaves [*value] as the caller initialised it (empty, at every call
    site) unless the key is found. *)
Definition Get (sm : t) (name key : string) : Status * string :=
  match FindDB sm name with
  | (kOk, db) =>
      match db !! key with
      | Some value => (kOk, value)
      | None => (kNotFound, EmptyString)
      end
  | (s, _) => (s, EmptyString)
  end.

Definition Put (sm : t) (name key value : string) : Status * t :=
  match FindDB sm name with
  | (kOk, db) =>
      (kOk, {| dbs_ := <[name := <[key := value]> db]> (dbs_ sm);
               disk_ := disk_ sm |})
  | (s, _) => (s, sm)
  end.

(** LevelDB reports success for deleting a key that does not exist. *)
Definition Delete (sm : t) (name key : string) : Status * t :=
  match FindDB sm name with
  | (kOk, db) =>
      (kOk, {| dbs_ := <[name := delete key db]> (dbs_ sm);
               disk_ := disk_ sm |})
  | (s, _) => (s, sm)
  end.

(** *** Iterators

    A LevelDB iterator walks the database in bytewise key order, which is
    also the order of [std::string::operator<]. *)

Definition key_lt (a b : string) : bool := String.ltb a b.

Definition entry_le (a b : string * string) : Prop := String.le a.1 b.1.

#[global] Instance entry_le_dec : RelDecision entry_le.
Proof. intros a b. unfold entry_le. apply _. Defined.

Definition ordered_entries (db : gmap string string) : list (string * string) :=
  merge_sort entry_le (map_to_list db).

(** The iterator's position is the list of entries from the current one
    on; an exhausted iterator is not [Valid]. *)
Record Iterator : Type := mkIterator {
  snapshot : list (string * string);
  it_ : list (string * string)
}.

Definition NewIterator (sm : t) (name : string) : option Iterator :=
  match FindDB sm name with
  | (kOk, db) =>
      Some {| snapshot := ordered_entries db; it_ := ordered_entries db |}
  | _ => None
  end.

Fixpoint seek_from (target : string) (l : list (string * string))
    : list (string * string) :=
  match l with
  | [] => []
  | e :: rest => if key_lt e.1 target then seek_from target rest else l
  end.

Definition Seek (it : Iterator) (key : string) : Iterator :=
  {| snapshot := snapshot it; it_ := seek_from key (snapshot it) |}.

Definition Next (it : Iterator) : Iterator :=
  {| snapshot := snapshot it; it_ := tail (it_ it) |}.

Definition Valid (it : Iterator) : bool :=
  match it_ it with [] => false | _ => true end.

End StorageManager.

(** ** The node (server/ins_node_impl.cc) *)

(** The enumerators of [LogOperation] (generated from the protobuf
    description, which is not among the sources at hand). *)
Class LogOperationValues : Type := {
  kNop : LogOperation;
  kPut : LogOperation;
  kDel : LogOperation;
  kLock : LogOperation;
  kUnLock : LogOperation;
  kLogin : LogOperation;
  kLogout : LogOperation;
  kRegister : LogOperation
}.

(** What the compiler guarantees about them: the [case] labels of a
    [switch] are pairwise distinct, and each fits a non-negative [char]. *)
Definition enumerators_wf `{LogOperationValues} : Prop :=
  NoDup [kNop; kPut; kDel; kLock; kUnLock; kLogin; kLogout; kRegister]
  /\ Forall (fun v => 0 <= v < 128)
            [kNop; kPut; kDel; kLock; kUnLock; kLogin; kLogout; kRegister].

(** The interface of [UserManager] (server/user_manage.h, not among the
    sources at hand) that the node calls. *)
Class UserManagerApi : Type := {
  UserManager : Type;
  IsLoggedIn : UserManager -> string -> bool;
  GetUsernameFromUuid : UserManager -> string -> string;
  um_Login : UserManager -> string -> string -> string -> Status * UserManager;
  um_Logout : UserManager -> string -> Status * UserManager;
  um_Register : UserManager -> string -> string -> Status * UserManager
}.

Inductive NodeStatus : Type := kFollower | kCandidate | kLeader.

#[global] Instance NodeStatus_eq_dec : EqDecision NodeStatus.
Proof. solve_decision. Defined.

(** [storage/meta.cc]: the term and vote files are append-only. *)
Module Meta.
Record t : Type := mk {
  term_file_ : list Z;
  vote_file_ : list (Z * string)
}.
Definition WriteCurrentTerm (m : t) (current_term : Z) : t :=
  {| term_file_ := term_file_ m ++ [current_term]; vote_file_ := vote_file_ m |}.
Definition WriteVotedFor (m : t) (term : Z) (server_id : string) : t :=
  {| term_file_ := term_file_ m; vote_file_ := vote_file_ m ++ [(term, server_id)] |}.

(** [int64_t Meta::ReadCurrentTerm()]: the loop keeps the last term it
    scans, 0 when there is none.  (A record is taken to be scanned as it
    was printed.) *)
Definition ReadCurrentTerm (m : t) : Z := default 0 (last (term_file_ m)).

(** *** The vote file as text

    [WriteVotedFor] prints a record with
    [fprintf(vote_file_, "%ld %s\n", term, server_id.c_str())], and
    [ReadVotedFor] scans the file from its beginning with
    [fscanf(vote_file_, "%ld %1023s", &term, server_id)] for as long as a
    call returns 2.  What is scanned is not the list of records but their
    text, so an id is read back as it was written only if it is one
    token. *)

(** [server_id.c_str()] under [%s]: the bytes before the first NUL. *)
Fixpoint c_str (s : string) : string :=
  match s with
  | EmptyString => EmptyString
  | String c rest =>
      if decide (c = "000"%char) then EmptyString else String c (c_str rest)
  end.

(** [%ld] of [fprintf]: the decimal digits, after a ['-'] for a negative
    number. *)
Definition print_long (z : Z) : string :=
  DecimalString.NilZero.string_of_int (Z.to_int z).

Definition vote_record (r : Z * string) : string :=
  print_long r.1 +:+ " " +:+ c_str r.2 +:+ String "010" EmptyString.

Definition vote_text (m : t) : string :=
  foldr (fun r text => vote_record r +:+ text) EmptyString (vote_file_ m).

(** [isspace] in the C locale. *)
Definition isspace (c : ascii) : bool :=
  bool_decide (c ∈ [" "; "009"; "010"; "011"; "012"; "013"]%char).

Definition digit_of (c : ascii) : option Z :=
  if decide (48 <= byte_val c <= 57) then Some (byte_val c - 48) else None.

(** Where a run of [fscanf] calls stands in the text: at the white space
    before a number, after its sign, inside its digits, at the white space
    before the id, inside the id, or stopped because a call did not
    return 2. *)
Inductive scan : Type :=
| AtNumber
| AfterSign (negative : bool)
| InNumber (negative : bool) (magnitude : Z)
| AtId (term : Z)
| InId (term : Z) (id : string)
| Stopped.

(** The value [%ld] stores for a digit string: out of the range of
    [long] the conversion of the C library ([strtol]) gives [LONG_MIN] or
    [LONG_MAX]. *)
Definition strtol (negative : bool) (magnitude : Z) : Z :=
  Z.max int64_min (Z.min int64_max (if negative then - magnitude else magnitude)).

(** [%ld] at the character [c]: white space is skipped, a sign or a digit
    starts the number, anything else is a matching failure. *)
Definition start_number (c : ascii) : scan :=
  if isspace c then AtNumber
  else if decide (c = "-"%char) then AfterSign true
  else if decide (c = "+"%char) then AfterSign false
  else match digit_of c with
       | Some d => InNumber false d
       | None => Stopped
       end.

(** The blank of the format and [%1023s] at the character [c]: white
    space is skipped, any other character starts the id. *)
Definition start_id (term : Z) (c : ascii) : scan :=
  if isspace c then AtId term else InId term (String c EmptyString).

(** One character of the file; [last] is the record of the last call that
    returned 2 ([last_term], [last_vote_for]). *)
Definition scan_step (st : scan * option (Z * string)) (c : ascii)
    : scan * option (Z * string) :=
  let '(state, last) := st in
  match state with
  | AtNumber => (start_number c, last)
  | AfterSign negative =>
      match digit_of c with
      | Some d => (InNumber negative d, last)
      | None => (Stopped, last)
      end
  | InNumber negative magnitude =>
      match digit_of c with
      | Some d => (InNumber negative (10 * magnitude + d), last)
      | None => (start_id (strtol negative magnitude) c, last)
      end
  | AtId term => (start_id term c, last)
  | InId term id =>
      if isspace c then (AtNumber, Some (term, id))
      else if decide (String.length id < 1023)%nat
      then (InId term (id +:+ String c EmptyString), last)
      else (start_number c, Some (term, id))
  | Stopped => (Stopped, last)
  end.

(** The end of the file: an id that was being read is complete, and the
    call returns 2; in every other state the last call returns less. *)
Definition scan_end (st : scan * option (Z * string)) : option (Z * string) :=
  match st with
  | (InId term id, _) => Some (term, id)
  | (_, last) => last
  end.

Fixpoint scan_chars (st : scan * option (Z * string)) (text : string)
    : scan * option (Z * string) :=
  match text with
  | EmptyString => st
  | String c rest => scan_chars (scan_step st c) rest
  end.

(** The record of the last call that returned 2 when the whole text has
    been scanned, if there is one. *)
Definition scan_text (text : string) : option (Z * string) :=
  scan_end (scan_chars (AtNumber, None) text).

(** [void Meta::ReadVotedFor(std::map<int64_t, std::string>&)]: only the
    record of the last successful [fscanf] is put into the map. *)
Definition ReadVotedFor (m : t) : gmap Z string :=
  match scan_text (vote_text m) with
  | Some (last_term, last_vote_for) =>
      if decide (last_vote_for = EmptyString) then ∅
      else {[ last_term := last_vote_for ]}
  | None => ∅
  end.

(** An id that [%s] prints and [%1023s] scans back as it is: not empty,
    at most 1023 bytes, without white space and without NUL. *)
Definition token (id : string) : bool :=
  negb (bool_decide (id = EmptyString))
  && bool_decide (String.length id <= 1023)%nat
  && forallb (fun c => negb (isspace c) && negb (bool_decide (c = "000"%char)))
       (list_ascii_of_string id).

(** A record whose term is an [int64_t] and whose id is a token. *)
Definition plain_record (r : Z * string) : bool :=
  bool_decide (int64_min <= r.1 <= int64_max) && token r.2.
End Meta.

Record Session : Type := mkSession {
  session_id : string;
  last_report_time : Z;
  uuid : string
}.

(** A response object together with its [done] closure is named by a
    number (the pointer, in the source). *)
Definition rpc_handle : Type := nat.

Record WatchEvent : Type := mkWatchEvent {
  watch_key_ : string;
  watch_session_id_ : string;
  ack_ : rpc_handle
}.

(** [ClientAck]: one pointer per kind of pending response. *)
Record ClientAck : Type := mkClientAck {
  done : option rpc_handle;
  response : option rpc_handle;
  del_response : option rpc_handle;
  lock_response : option rpc_handle;
  unlock_response : option rpc_handle;
  login_response : option rpc_handle;
  logout_response : option rpc_handle;
  register_response : option rpc_handle
}.

Definition ClientAck_new : ClientAck :=
  mkClientAck None None None None None None None None.

(** The part of the node that is fixed after [Init]: the membership, the
    start time and the gflags. *)
Record Config : Type := mkConfig {
  members_ : list string;
  self_id_ : string;
  server_start_timestamp_ : Z;
  FLAGS_max_commit_pending : Z;
  FLAGS_max_write_pending : Z;
  FLAGS_session_expire_timeout : Z;
  FLAGS_elect_timeout_min : Z;
  FLAGS_log_rep_batch_max : Z
}.

Definition others_ (cfg : Config) : list string :=
  filter (fun server => server <> self_id_ cfg) (members_ cfg).

Definition single_node_mode_ (cfg : Config) : bool :=
  bool_decide (length (members_ cfg) = 1%nat).

Definition tag_last_applied_index : string := "#TAG_LAST_APPLIED_INDEX#".

Definition sMaxPBSize : Z := Z.shiftl 26 20.

(** *** RPC messages (the protobuf fields the handlers read and write;
    an unset field has its protobuf default) *)

Module VoteRequest.
Record t : Type := mk {
  term : Z; candidate_id : string; last_log_index : Z; last_log_term : Z
}.
End VoteRequest.

Module VoteResponse.
Record t : Type := mk { vote_granted : bool; term : Z }.
End VoteResponse.

Module AppendEntriesRequest.
Record t : Type := mk {
  term : Z; leader_id : string; prev_log_index : Z; prev_log_term : Z;
  leader_commit_index : Z; entries : list LogEntry.t
}.
End AppendEntriesRequest.

Module AppendEntriesResponse.
Record t : Type := mk {
  current_term : Z; success : bool; log_length : Z; is_busy : bool
}.
End AppendEntriesResponse.

Module GetRequest.
Record t : Type := mk { key : string; uuid : string }.
End GetRequest.

Module GetResponse.
Record t : Type := mk {
  hit : bool; success : bool; leader_id : string; value : string;
  uuid_expired : bool
}.
End GetResponse.

Module PutRequest.
Record t : Type := mk { key : string; value : string; uuid : string }.
End PutRequest.

Module DelRequest.
Record t : Type := mk { key : string; uuid : string }.
End DelRequest.

Module LockRequest.
Record t : Type := mk { key : string; session_id : string; uuid : string }.
End LockRequest.

Module UnLockRequest.
Record t : Type := mk { key : string; session_id : string; uuid : string }.
End UnLockRequest.

(** [PutResponse], [DelResponse], [LockResponse] and [UnLockResponse] carry
    the same three fields. *)
Module WriteResponse.
Record t : Type := mk { success : bool; leader_id : string; uuid_expired : bool }.
End WriteResponse.

Module ScanRequest.
Record t : Type := mk {
  start_key : string; end_key : string; size_limit : Z; uuid : string
}.
End ScanRequest.

Module ScanItem.
Record t : Type := mk { key : string; value : string }.
End ScanItem.

Module ScanResponse.
Record t : Type := mk {
  items : list ScanItem.t; has_more : bool; success : bool;
  leader_id : string; uuid_expired : bool
}.
End ScanResponse.

Module WatchRequest.
Record t : Type := mk {
  key : string; session_id : string; old_value : string; key_exist : bool;
  uuid : string
}.
End WatchRequest.

Module WatchResponse.
Record t : Type := mk {
  watch_key : string; key : string; value : string; deleted : bool;
  success : bool; leader_id : string; canceled : bool; uuid_expired : bool
}.
End WatchResponse.

Module KeepAliveRequest.
Record t : Type := mk {
  session_id : string; uuid : string; locks : list string;
  forward_from_leader : bool
}.
End KeepAliveRequest.

Module KeepAliveResponse.
Record t : Type := mk { success : bool; leader_id : string }.
End KeepAliveResponse.

(** What a handler leaves behind for its caller: the response it completed
    with [done->Run()], or nothing yet (the response is held by a pending
    ack, a read context or a watch). *)
Inductive Reply (R : Type) : Type :=
| Replied (r : R)
| Held.
Arguments Replied {R} r.
Arguments Held {R}.

Section Node.

Context `{ops : LogOperationValues} `{um : UserManagerApi}.
Context (cfg : Config).

(** The mutable members of [InsNodeImpl]. *)
Record InsNodeImpl : Type := mkNode {
  current_term_ : Z;
  status_ : NodeStatus;
  heartbeat_count_ : Z;
  current_leader_ : string;
  voted_for_ : gmap Z string;
  meta_ : Meta.t;
  binlogger_ : BinLogger.t;
  data_store_ : StorageManager.t;
  user_manager_ : UserManager;
  sessions_ : gmap string Session;
  session_locks_ : gmap string (gset string);
  watch_events_ : list WatchEvent;
  next_index_ : gmap string Z;
  match_index_ : gmap string Z;
  in_safe_mode_ : bool;
  commit_index_ : Z;
  last_applied_index_ : Z;
  client_ack_ : gmap Z ClientAck;
  heartbeat_read_timestamp_ : Z
}.

Definition set_current_term_ (v : Z) (n : InsNodeImpl) : InsNodeImpl :=
  mkNode v (status_ n) (heartbeat_count_ n) (current_leader_ n) (voted_for_
    n) (meta_ n) (binlogger_ n) (data_store_ n) (user_manager_ n) (sessions_
    n) (session_locks_ n) (watch_events_ n) (next_index_ n) (match_index_ n)
    (in_safe_mode_ n) (commit_index_ n) (last_applied_index_ n) (client_ack_
    n) (heartbeat_read_timestamp_ n).

Definition set_status_ (v : NodeStatus) (n : InsNodeImpl) : InsNodeImpl :=
  mkNode (current_term_ n) v (heartbeat_count_ n) (current_leader_ n)
    (voted_for_ n) (meta_ n) (binlogger_ n) (data_store_ n) (user_manager_
    n) (sessions_ n) (session_locks_ n) (watch_events_ n) (next_index_ n)
    (match_index_ n) (in_safe_mode_ n) (commit_index_ n)
    (last_applied_index_ n) (client_ack_ n) (heartbeat_read_timestamp_ n).

Definition set_heartbeat_count_ (v : Z) (n : InsNodeImpl) : InsNodeImpl :=
  mkNode (current_term_ n) (status_ n) v (current_leader_ n) (voted_for_ n)
    (meta_ n) (binlogger_ n) (data_store_ n) (user_manager_ n) (sessions_ n)
    (session_locks_ n) (watch_events_ n) (next_index_ n) (match_index_ n)
    (in_safe_mode_ n) (commit_index_ n) (last_applied_index_ n) (client_ack_
    n) (heartbeat_read_timestamp_ n).

Definition set_current_leader_ (v : string) (n : InsNodeImpl) : InsNodeImpl :=
  mkNode (current_term_ n) (status_ n) (heartbeat_count_ n) v (voted_for_ n)
    (meta_ n) (binlogger_ n) (data_store_ n) (user_manager_ n) (sessions_ n)
    (session_locks_ n) (watch_events_ n) (next_index_ n) (match_index_ n)
    (in_safe_mode_ n) (commit_index_ n) (last_applied_index_ n) (client_ack_
    n) (heartbeat_read_timestamp_ n).

Definition set_voted_for_ (v : gmap Z string) (n : InsNodeImpl) : InsNodeImpl :=
  mkNode (current_term_ n) (status_ n) (heartbeat_count_ n) (current_leader_
    n) v (meta_ n) (binlogger_ n) (data_store_ n) (user_manager_ n)
    (sessions_ n) (session_locks_ n) (watch_events_ n) (next_index_ n)
    (match_index_ n) (in_safe_mode_ n) (commit_index_ n)
    (last_applied_index_ n) (client_ack_ n) (heartbeat_read_timestamp_ n).

Definition set_meta_ (v : Meta.t) (n : InsNodeImpl) : InsNodeImpl :=
  mkNode (current_term_ n) (status_ n) (heartbeat_count_ n) (current_leader_
    n) (voted_for_ n) v (binlogger_ n) (data_store_ n) (user_manager_ n)
    (sessions_ n) (session_locks_ n) (watch_events_ n) (next_index_ n)
    (match_index_ n) (in_safe_mode_ n) (commit_index_ n)
    (last_applied_index_ n) (client_ack_ n) (heartbeat_read_timestamp_ n).

Definition set_binlogger_ (v : BinLogger.t) (n : InsNodeImpl) : InsNodeImpl :=
  mkNode (current_term_ n) (status_ n) (heartbeat_count_ n) (current_leader_
    n) (voted_for_ n) (meta_ n) v (data_store_ n) (user_manager_ n)
    (sessions_ n) (session_locks_ n) (watch_events_ n) (next_index_ n)
    (match_index_ n) (in_safe_mode_ n) (commit_index_ n)
    (last_applied_index_ n) (client_ack_ n) (heartbeat_read_timestamp_ n).

Definition set_data_store_ (v : StorageManager.t) (n : InsNodeImpl) : InsNodeImpl :=
  mkNode (current_term_ n) (status_ n) (heartbeat_count_ n) (current_leader_
    n) (voted_for_ n) (meta_ n) (binlogger_ n) v (user_manager_ n)
    (sessions_ n) (session_locks_ n) (watch_events_ n) (next_index_ n)
    (match_index_ n) (in_safe_mode_ n) (commit_index_ n)
    (last_applied_index_ n) (client_ack_ n) (heartbeat_read_timestamp_ n).

Definition set_user_manager_ (v : UserManager) (n : InsNodeImpl) : InsNodeImpl :=
  mkNode (current_term_ n) (status_ n) (heartbeat_count_ n) (current_leader_
    n) (voted_for_ n) (meta_ n) (binlogger_ n) (data_store_ n) v (sessions_
    n) (session_locks_ n) (watch_events_ n) (next_index_ n) (match_index_ n)
    (in_safe_mode_ n) (commit_index_ n) (last_applied_index_ n) (client_ack_
    n) (heartbeat_read_timestamp_ n).

Definition set_sessions_ (v : gmap string Session) (n : InsNodeImpl) : InsNodeImpl :=
  mkNode (current_term_ n) (status_ n) (heartbeat_count_ n) (current_leader_
    n) (voted_for_ n) (meta_ n) (binlogger_ n) (data_store_ n)
    (user_manager_ n) v (session_locks_ n) (watch_events_ n) (next_index_ n)
    (match_index_ n) (in_safe_mode_ n) (commit_index_ n)
    (last_applied_index_ n) (client_ack_ n) (heartbeat_read_timestamp_ n).

Definition set_session_locks_ (v : gmap string (gset string)) (n : InsNodeImpl) : InsNodeImpl :=
  mkNode (current_term_ n) (status_ n) (heartbeat_count_ n) (current_leader_
    n) (voted_for_ n) (meta_ n) (binlogger_ n) (data_store_ n)
    (user_manager_ n) (sessions_ n) v (watch_events_ n) (next_index_ n)
    (match_index_ n) (in_safe_mode_ n) (commit_index_ n)
    (last_applied_index_ n) (client_ack_ n) (heartbeat_read_timestamp_ n).

Definition set_watch_events_ (v : list WatchEvent) (n : InsNodeImpl) : InsNodeImpl :=
  mkNode (current_term_ n) (status_ n) (heartbeat_count_ n) (current_leader_
    n) (voted_for_ n) (meta_ n) (binlogger_ n) (data_store_ n)
    (user_manager_ n) (sessions_ n) (session_locks_ n) v (next_index_ n)
    (match_index_ n) (in_safe_mode_ n) (commit_index_ n)
    (last_applied_index_ n) (client_ack_ n) (heartbeat_read_timestamp_ n).

Definition set_next_index_ (v : gmap string Z) (n : InsNodeImpl) : InsNodeImpl :=
  mkNode (current_term_ n) (status_ n) (heartbeat_count_ n) (current_leader_
    n) (voted_for_ n) (meta_ n) (binlogger_ n) (data_store_ n)
    (user_manager_ n) (sessions_ n) (session_locks_ n) (watch_events_ n) v
    (match_index_ n) (in_safe_mode_ n) (commit_index_ n)
    (last_applied_index_ n) (client_ack_ n) (heartbeat_read_timestamp_ n).

Definition set_match_index_ (v : gmap string Z) (n : InsNodeImpl) : InsNodeImpl :=
  mkNode (current_term_ n) (status_ n) (heartbeat_count_ n) (current_leader_
    n) (voted_for_ n) (meta_ n) (binlogger_ n) (data_store_ n)
    (user_manager_ n) (sessions_ n) (session_locks_ n) (watch_events_ n)
    (next_index_ n) v (in_safe_mode_ n) (commit_index_ n)
    (last_applied_index_ n) (client_ack_ n) (heartbeat_read_timestamp_ n).

Definition set_in_safe_mode_ (v : bool) (n : InsNodeImpl) : InsNodeImpl :=
  mkNode (current_term_ n) (status_ n) (heartbeat_count_ n) (current_leader_
    n) (voted_for_ n) (meta_ n) (binlogger_ n) (data_store_ n)
    (user_manager_ n) (sessions_ n) (session_locks_ n) (watch_events_ n)
    (next_index_ n) (match_index_ n) v (commit_index_ n)
    (last_applied_index_ n) (client_ack_ n) (heartbeat_read_timestamp_ n).

Definition set_commit_index_ (v : Z) (n : InsNodeImpl) : InsNodeImpl :=
  mkNode (current_term_ n) (status_ n) (heartbeat_count_ n) (current_leader_
    n) (voted_for_ n) (meta_ n) (binlogger_ n) (data_store_ n)
    (user_manager_ n) (sessions_ n) (session_locks_ n) (watch_events_ n)
    (next_index_ n) (match_index_ n) (in_safe_mode_ n) v
    (last_applied_index_ n) (client_ack_ n) (heartbeat_read_timestamp_ n).

Definition set_last_applied_index_ (v : Z) (n : InsNodeImpl) : InsNodeImpl :=
  mkNode (current_term_ n) (status_ n) (heartbeat_count_ n) (current_leader_
    n) (voted_for_ n) (meta_ n) (binlogger_ n) (data_store_ n)
    (user_manager_ n) (sessions_ n) (session_locks_ n) (watch_events_ n)
    (next_index_ n) (match_index_ n) (in_safe_mode_ n) (commit_index_ n) v
    (client_ack_ n) (heartbeat_read_timestamp_ n).

Definition set_client_ack_ (v : gmap Z ClientAck) (n : InsNodeImpl) : InsNodeImpl :=
  mkNode (current_term_ n) (status_ n) (heartbeat_count_ n) (current_leader_
    n) (voted_for_ n) (meta_ n) (binlogger_ n) (data_store_ n)
    (user_manager_ n) (sessions_ n) (session_locks_ n) (watch_events_ n)
    (next_index_ n) (match_index_ n) (in_safe_mode_ n) (commit_index_ n)
    (last_applied_index_ n) v (heartbeat_read_timestamp_ n).

Definition set_heartbeat_read_timestamp_ (v : Z) (n : InsNodeImpl) : InsNodeImpl :=
  mkNode (current_term_ n) (status_ n) (heartbeat_count_ n) (current_leader_
    n) (voted_for_ n) (meta_ n) (binlogger_ n) (data_store_ n)
    (user_manager_ n) (sessions_ n) (session_locks_ n) (watch_events_ n)
    (next_index_ n) (match_index_ n) (in_safe_mode_ n) (commit_index_ n)
    (last_applied_index_ n) (client_ack_ n) v.
(** *** Election and replication *)

Definition TransToFollower (n : InsNodeImpl) (new_term : Z) : InsNodeImpl :=
  set_meta_ (Meta.WriteCurrentTerm (meta_ n) new_term)
    (set_current_term_ new_term (set_status_ kFollower n)).

(** [void InsNodeImpl::Vote(...)]. *)
Definition Vote (n : InsNodeImpl) (request : VoteRequest.t)
    : InsNodeImpl * VoteResponse.t :=
  let refuse (n : InsNodeImpl) :=
    (n, {| VoteResponse.vote_granted := false;
           VoteResponse.term := current_term_ n |}) in
  if decide (VoteRequest.term request < current_term_ n) then refuse n
  else
    let '(last_log_index, last_log_term) :=
      BinLogger.GetLastLogIndexAndTerm (binlogger_ n) in
    if decide (VoteRequest.last_log_term request < last_log_term) then refuse n
    else if decide (VoteRequest.last_log_term request = last_log_term
                    /\ VoteRequest.last_log_index request < last_log_index)
    then refuse n
    else
      let n :=
        if decide (VoteRequest.term request > current_term_ n)
        then TransToFollower n (VoteRequest.term request) else n in
      match voted_for_ n !! current_term_ n with
      | Some voted =>
          if decide (voted <> VoteRequest.candidate_id request) then refuse n
          else (n, {| VoteResponse.vote_granted := true;
                      VoteResponse.term := current_term_ n |})
      | None =>
          let n :=
            set_meta_ (Meta.WriteVotedFor (meta_ n) (current_term_ n)
                         (VoteRequest.candidate_id request))
              (set_voted_for_
                 (<[current_term_ n := VoteRequest.candidate_id request]>
                    (voted_for_ n)) n) in
          (n, {| VoteResponse.vote_granted := true;
                 VoteResponse.term := current_term_ n |})
      end.

(** [match_index_[server]]: [std::map::operator[]] inserts a
    value-initialised entry (0) for a key that is not there. *)
Definition index_at (m : gmap string Z) (server : string) : Z * gmap string Z :=
  match m !! server with
  | Some v => (v, m)
  | None => (0, <[server := 0]> m)
  end.

(** The counting loop of [UpdateCommitIndex] ([match_count] is a
    [uint32_t]). *)
Fixpoint count_matches (members : list string) (a_index : Z)
    (m : gmap string Z) (match_count : Z) : Z * gmap string Z :=
  match members with
  | [] => (match_count, m)
  | server :: rest =>
      let '(v, m) := index_at m server in
      count_matches rest a_index m
        (if decide (v >= a_index) then (match_count + 1) mod 2 ^ 32
         else match_count)
  end.

(** [void InsNodeImpl::UpdateCommitIndex(int64_t a_index)]; the boolean
    says whether [commit_cond_] was signalled. *)
Definition UpdateCommitIndex (n : InsNodeImpl) (a_index : Z)
    : InsNodeImpl * bool :=
  let '(match_count, m) :=
    count_matches (members_ cfg) a_index (match_index_ n) 0 in
  let n := set_match_index_ m n in
  if decide (match_count >= Z.of_nat (size m) / 2 /\ a_index > commit_index_ n)
  then (set_commit_index_ a_index n, true)
  else (n, false).

(** The batch loop of [ReplicateLog]: the largest term among the slots
    [index .. index + batch_span - 1], or [None] at a bad slot. *)
Fixpoint batch_max_term (b : BinLogger.t) (idx : Z) (batch_span : nat)
    (max_term : Z) : option Z :=
  match batch_span with
  | O => Some max_term
  | S k =>
      match BinLogger.ReadSlot b idx with
      | BinLogger.SlotOk log_entry =>
          batch_max_term b (idx + 1) k (Z.max max_term (LogEntry.term log_entry))
      | _ => None
      end
  end.

(** [ReplicateLog], from the return of [SendRequest] to the end of the loop
    body: [index], [batch_span] and [max_term] are the locals computed
    before the request was sent, [ok] is the result of the RPC. *)
Definition ReplicateLog_response (n : InsNodeImpl) (follower_id : string)
    (index batch_span max_term : Z) (ok : bool)
    (response : AppendEntriesResponse.t) : InsNodeImpl * bool :=
  let n :=
    if ok && bool_decide (AppendEntriesResponse.current_term response
                          > current_term_ n)
    then TransToFollower n (AppendEntriesResponse.current_term response)
    else n in
  if decide (status_ n <> kLeader) then (n, false)
  else if ok then
    if AppendEntriesResponse.success response then
      let n := set_next_index_
                 (<[follower_id := index + batch_span]> (next_index_ n)) n in
      let n := set_match_index_
                 (<[follower_id := index + batch_span - 1]> (match_index_ n)) n in
      if decide (max_term = current_term_ n)
      then UpdateCommitIndex n (index + batch_span - 1)
      else (n, false)
    else if AppendEntriesResponse.is_busy response then (n, false)
    else
      let '(next, m) := index_at (next_index_ n) follower_id in
      let next := Z.min (next - 1) (AppendEntriesResponse.log_length response) in
      let next := if decide (next < 0) then 0 else next in
      (set_next_index_ (<[follower_id := next]> m) n, false)
  else (n, false).

(** [void InsNodeImpl::StartReplicateLog()]: every follower without a running
    replicator gets [next_index_] at the end of the log and [match_index_]
    -1; then the no-op of the new term is appended.  [replicating_] is the
    set of followers whose replicator is still running. *)
Definition StartReplicateLog (n : InsNodeImpl) (replicating_ : gset string)
    : option InsNodeImpl :=
  let n :=
    foldl (fun (n : InsNodeImpl) uuid =>
             if decide (uuid ∈ replicating_) then n
             else
               set_match_index_ (<[uuid := -1]> (match_index_ n))
                 (set_next_index_
                    (<[uuid := BinLogger.GetLength (binlogger_ n)]>
                       (next_index_ n)) n))
          n (others_ cfg) in
  b ← BinLogger.AppendEntry (binlogger_ n)
        {| LogEntry.op := kNop; LogEntry.user := EmptyString;
           LogEntry.key := "Ping"; LogEntry.value := EmptyString;
           LogEntry.term := current_term_ n |};
  Some (set_binlogger_ b n).

(** [void InsNodeImpl::TransToLeader()]. *)
Definition TransToLeader (n : InsNodeImpl) (replicating_ : gset string)
    : option InsNodeImpl :=
  StartReplicateLog
    (set_current_leader_ (self_id_ cfg)
       (set_status_ kLeader (set_in_safe_mode_ true n)))
    replicating_.

(** [void InsNodeImpl::DoAppendEntries(...)]; the boolean says whether
    [commit_cond_] was signalled. *)
Definition DoAppendEntries (n : InsNodeImpl) (request : AppendEntriesRequest.t)
    : option (InsNodeImpl * AppendEntriesResponse.t * bool) :=
  let answer (n : InsNodeImpl) (success is_busy : bool) :=
    {| AppendEntriesResponse.current_term := current_term_ n;
       AppendEntriesResponse.success := success;
       AppendEntriesResponse.log_length := BinLogger.GetLength (binlogger_ n);
       AppendEntriesResponse.is_busy := is_busy |} in
  let finish (n : InsNodeImpl) :=
    let old_commit_index := commit_index_ n in
    let n := set_commit_index_
               (Z.min (BinLogger.GetLastLogIndex (binlogger_ n))
                      (AppendEntriesRequest.leader_commit_index request)) n in
    Some (n, answer n true false,
          bool_decide (commit_index_ n > old_commit_index)) in
  if decide (AppendEntriesRequest.term request < current_term_ n)
  then Some (n, answer n false false, false)
  else
    let n := if decide (status_ n <> kFollower)
             then set_status_ kFollower n else n in
    let n :=
      if decide (AppendEntriesRequest.term request > current_term_ n)
      then set_meta_ (Meta.WriteCurrentTerm (meta_ n)
                        (AppendEntriesRequest.term request))
             (set_current_term_ (AppendEntriesRequest.term request) n)
      else n in
    let n := set_heartbeat_count_ (heartbeat_count_ n + 1)
               (set_current_leader_ (AppendEntriesRequest.leader_id request) n) in
    let prev_log_index := AppendEntriesRequest.prev_log_index request in
    if decide (0 < length (AppendEntriesRequest.entries request))%nat then
      if decide (prev_log_index >= BinLogger.GetLength (binlogger_ n))
      then Some (n, answer n false false, false)
      else
        prev_log_term ←
          (if decide (prev_log_index >= 0) then
             match BinLogger.ReadSlot (binlogger_ n) prev_log_index with
             | BinLogger.SlotOk prev_log_entry =>
                 Some (LogEntry.term prev_log_entry)
             | _ => None
             end
           else Some (-1));
        if decide (prev_log_term <> AppendEntriesRequest.prev_log_term request)
        then
          b ← BinLogger.Truncate (binlogger_ n) (to_int64 (prev_log_index - 1));
          let n := set_binlogger_ b n in
          Some (n, answer n false false, false)
        else if decide (to_int64 (commit_index_ n - last_applied_index_ n)
                        > FLAGS_max_commit_pending cfg)
        then Some (n, answer n false true, false)
        else
          b ← (if decide (BinLogger.GetLength (binlogger_ n)
                          > to_int64 (prev_log_index + 1))
               then BinLogger.Truncate (binlogger_ n) prev_log_index
               else Some (binlogger_ n));
          b ← BinLogger.AppendEntryList b (AppendEntriesRequest.entries request);
          finish (set_binlogger_ b n)
    else finish n.

(** *** Values, sessions and parent keys *)

(** [ParseValue] assigns its two out-parameters only when the stored value
    is non-empty; [op] and [real_value] stand for what the caller's locals
    held before the call (an uninitialised [LogOperation] and an empty
    string, at every call site). *)
Definition ParseValue (value : string) (op : LogOperation) (real_value : string)
    : LogOperation * string :=
  match value with
  | String c rest => (char_val c, rest)
  | EmptyString => (op, real_value)
  end.

(** [type_and_value.append(1, static_cast<char>(op)); append(value)]. *)
Definition tagged (op : LogOperation) (value : string) : string :=
  String (byte_of op) value.

Definition IsExpiredSession (n : InsNodeImpl) (session_id : string) : bool :=
  bool_decide (sessions_ n !! session_id = None).

Definition BindKeyAndUser (user key : string) : string :=
  user +:+ "::" +:+ key.

(** [key.rfind("/")]. *)
Fixpoint rfind (c : ascii) (s : string) : option nat :=
  match s with
  | EmptyString => None
  | String a rest =>
      match rfind c rest with
      | Some i => Some (S i)
      | None => if decide (a = c) then Some O else None
      end
  end.

Definition GetParentKey (key : string) : option string :=
  match rfind "/"%char key with
  | Some tail_index => Some (substring 0 tail_index key)
  | None => None
  end.

(** The result of [data_store_->Put] is dropped. *)
Definition TouchParentKey (sm : StorageManager.t)
    (user key changed_session action : string) : StorageManager.t :=
  match GetParentKey key with
  | Some parent_key =>
      (StorageManager.Put sm user parent_key
         (tagged kPut (action +:+ "," +:+ changed_session))).2
  | None => sm
  end.

(** *** Admission of client requests *)

Definition uuid_unknown (n : InsNodeImpl) (uuid : string) : bool :=
  negb (bool_decide (uuid = EmptyString)) && negb (IsLoggedIn (user_manager_ n) uuid).

Definition refuse (leader_id : string) (uuid_expired : bool) : WriteResponse.t :=
  {| WriteResponse.success := false; WriteResponse.leader_id := leader_id;
     WriteResponse.uuid_expired := uuid_expired |}.

(** The tail shared by the write handlers: append the entry, record the
    pending ack at its index ([client_ack_[cur_index]] keeps whatever other
    pointers an earlier ack at that index had), wake the replicators, and in
    single-node mode advance the commit index at once. *)
Definition append_and_ack (n : InsNodeImpl) (log_entry : LogEntry.t)
    (fill : ClientAck -> ClientAck) : option (InsNodeImpl * bool) :=
  b ← BinLogger.AppendEntry (binlogger_ n) log_entry;
  let n := set_binlogger_ b n in
  let cur_index := BinLogger.GetLastLogIndex (binlogger_ n) in
  let ack := default ClientAck_new (client_ack_ n !! cur_index) in
  let n := set_client_ack_ (<[cur_index := fill ack]> (client_ack_ n)) n in
  if single_node_mode_ cfg
  then Some (UpdateCommitIndex n (BinLogger.GetLastLogIndex (binlogger_ n)))
  else Some (n, false).

Definition ack_put (h : rpc_handle) (a : ClientAck) : ClientAck :=
  mkClientAck (Some h) (Some h) (del_response a) (lock_response a)
    (unlock_response a) (login_response a) (logout_response a)
    (register_response a).
Definition ack_del (h : rpc_handle) (a : ClientAck) : ClientAck :=
  mkClientAck (Some h) (response a) (Some h) (lock_response a)
    (unlock_response a) (login_response a) (logout_response a)
    (register_response a).
Definition ack_lock (h : rpc_handle) (a : ClientAck) : ClientAck :=
  mkClientAck (Some h) (response a) (del_response a) (Some h)
    (unlock_response a) (login_response a) (logout_response a)
    (register_response a).
Definition ack_unlock (h : rpc_handle) (a : ClientAck) : ClientAck :=
  mkClientAck (Some h) (response a) (del_response a) (lock_response a)
    (Some h) (login_response a) (logout_response a) (register_response a).

(** [void InsNodeImpl::Put(...)]. *)
Definition Put (n : InsNodeImpl) (request : PutRequest.t) (h : rpc_handle)
    : option (InsNodeImpl * Reply WriteResponse.t * bool) :=
  if decide (status_ n = kFollower)
  then Some (n, Replied (refuse (current_leader_ n) false), false)
  else if decide (status_ n = kCandidate)
  then Some (n, Replied (refuse EmptyString false), false)
  else if decide (Z.of_nat (size (client_ack_ n))
                  > FLAGS_max_write_pending cfg mod 2 ^ 64)
  then Some (n, Replied (refuse EmptyString false), false)
  else if uuid_unknown n (PutRequest.uuid request)
  then Some (n, Replied (refuse EmptyString true), false)
  else
    let log_entry :=
      {| LogEntry.op := kPut;
         LogEntry.user :=
           GetUsernameFromUuid (user_manager_ n) (PutRequest.uuid request);
         LogEntry.key := PutRequest.key request;
         LogEntry.value := PutRequest.value request;
         LogEntry.term := current_term_ n |} in
    '(n, signalled) ← append_and_ack n log_entry (ack_put h);
    Some (n, Held, signalled).

(** [void InsNodeImpl::Delete(...)]. *)
Definition Delete (n : InsNodeImpl) (request : DelRequest.t) (h : rpc_handle)
    : option (InsNodeImpl * Reply WriteResponse.t * bool) :=
  if decide (status_ n = kFollower)
  then Some (n, Replied (refuse (current_leader_ n) false), false)
  else if decide (status_ n = kCandidate)
  then Some (n, Replied (refuse EmptyString false), false)
  else if uuid_unknown n (DelRequest.uuid request)
  then Some (n, Replied (refuse EmptyString true), false)
  else
    let log_entry :=
      {| LogEntry.op := kDel;
         LogEntry.user :=
           GetUsernameFromUuid (user_manager_ n) (DelRequest.uuid request);
         LogEntry.key := DelRequest.key request;
         LogEntry.value := EmptyString;
         LogEntry.term := current_term_ n |} in
    '(n, signalled) ← append_and_ack n log_entry (ack_del h);
    Some (n, Held, signalled).

(** [void InsNodeImpl::UnLock(...)]. *)
Definition UnLock (n : InsNodeImpl) (request : UnLockRequest.t) (h : rpc_handle)
    : option (InsNodeImpl * Reply WriteResponse.t * bool) :=
  if decide (status_ n = kFollower)
  then Some (n, Replied (refuse (current_leader_ n) false), false)
  else if decide (status_ n = kCandidate)
  then Some (n, Replied (refuse EmptyString false), false)
  else if uuid_unknown n (UnLockRequest.uuid request)
  then Some (n, Replied (refuse EmptyString true), false)
  else
    let log_entry :=
      {| LogEntry.op := kUnLock;
         LogEntry.user :=
           GetUsernameFromUuid (user_manager_ n) (UnLockRequest.uuid request);
         LogEntry.key := UnLockRequest.key request;
         LogEntry.value := UnLockRequest.session_id request;
         LogEntry.term := current_term_ n |} in
    '(n, signalled) ← append_and_ack n log_entry (ack_unlock h);
    Some (n, Held, signalled).

(** [bool InsNodeImpl::LockIsAvailable(user, key, session_id)]; [op0] is the
    indeterminate initial value of the local [op]. *)
Definition LockIsAvailable (n : InsNodeImpl) (user key session_id : string)
    (op0 : LogOperation) : bool :=
  let '(s, value) := StorageManager.Get (data_store_ n) user key in
  let '(op, old_locker_session) := ParseValue value op0 EmptyString in
  if decide (s <> kOk) then
    bool_decide (is_Some (sessions_ n !! session_id))
  else if decide (op <> kLock) then false
  else
    match sessions_ n !! old_locker_session, sessions_ n !! session_id with
    | None, Some _ => true
    | Some old, _ => bool_decide (old_locker_session = session_id)
    | None, None => false
    end.

(** [void InsNodeImpl::Lock(...)]; [tm_now] is the clock reading. *)
Definition Lock (n : InsNodeImpl) (request : LockRequest.t) (h : rpc_handle)
    (tm_now : Z) (op0 : LogOperation)
    : option (InsNodeImpl * Reply WriteResponse.t * bool) :=
  if decide (status_ n = kFollower)
  then Some (n, Replied (refuse (current_leader_ n) false), false)
  else if decide (status_ n = kCandidate)
  then Some (n, Replied (refuse EmptyString false), false)
  else if uuid_unknown n (LockRequest.uuid request)
  then Some (n, Replied (refuse EmptyString true), false)
  else if bool_decide (status_ n = kLeader) && in_safe_mode_ n
  then Some (n, Replied (refuse EmptyString false), false)
  else if decide (status_ n = kLeader
                  /\ tm_now - server_start_timestamp_ cfg
                     < FLAGS_session_expire_timeout cfg)
  then Some (n, Replied (refuse EmptyString false), false)
  else
    let key := LockRequest.key request in
    let session_id := LockRequest.session_id request in
    let user := GetUsernameFromUuid (user_manager_ n) (LockRequest.uuid request) in
    let log_entry :=
      {| LogEntry.op := kLock; LogEntry.user := user; LogEntry.key := key;
         LogEntry.value := session_id; LogEntry.term := current_term_ n |} in
    if LockIsAvailable n user key session_id op0 then
      let '(st, sm) :=
        StorageManager.Put (data_store_ n) user key (tagged kLock session_id) in
      if decide (st = kOk) then
        '(n, signalled) ← append_and_ack (set_data_store_ sm n) log_entry
                            (ack_lock h);
        Some (n, Held, signalled)
      else None
    else Some (n, Replied (refuse EmptyString false), false).

(** *** Reads *)

Definition GetResponse_new : GetResponse.t :=
  GetResponse.mk false false EmptyString EmptyString false.

(** The block that [Get] and [HeartbeatForReadCallback] both run to serve a
    read from the local store: it sets [hit], [success] and [leader_id] on
    the response, and [value] on a hit. *)
Definition serve_read (n : InsNodeImpl) (request : GetRequest.t)
    (op0 : LogOperation) (response : GetResponse.t) : GetResponse.t :=
  let '(s, value) :=
    StorageManager.Get (data_store_ n)
      (GetUsernameFromUuid (user_manager_ n) (GetRequest.uuid request))
      (GetRequest.key request) in
  let '(op, real_value) := ParseValue value op0 EmptyString in
  let miss :=
    GetResponse.mk false true EmptyString (GetResponse.value response)
      (GetResponse.uuid_expired response) in
  let found :=
    GetResponse.mk true true EmptyString real_value
      (GetResponse.uuid_expired response) in
  if decide (s = kOk) then
    if decide (op = kLock) then
      if IsExpiredSession n real_value then miss else found
    else found
  else miss.

(** [ClientReadAck]: the context shared by the heartbeat callbacks of one
    quorum read.  [runs] collects the response as it stood at each
    [done->Run()]. *)
Record ClientReadAck : Type := mkClientReadAck {
  read_request : GetRequest.t;
  read_response : GetResponse.t;
  succ_count : Z;
  err_count : Z;
  triggered : bool;
  runs : list GetResponse.t
}.

Inductive GetOutcome : Type :=
| GetReplied (r : GetResponse.t)
| GetBroadcast (context : ClientReadAck).

(** [void InsNodeImpl::Get(...)]. *)
Definition Get (n : InsNodeImpl) (request : GetRequest.t) (now_timestamp : Z)
    (op0 : LogOperation) : GetOutcome :=
  if decide (status_ n = kFollower)
  then GetReplied (GetResponse.mk false false (current_leader_ n) EmptyString false)
  else if decide (status_ n = kCandidate)
  then GetReplied (GetResponse.mk false false EmptyString EmptyString false)
  else if bool_decide (status_ n = kLeader) && in_safe_mode_ n
  then GetReplied (GetResponse.mk false false EmptyString EmptyString false)
  else if uuid_unknown n (GetRequest.uuid request)
  then GetReplied (GetResponse.mk false false EmptyString EmptyString true)
  else if decide ((1 < length (members_ cfg))%nat
                  /\ now_timestamp - heartbeat_read_timestamp_ n
                     > 1000 * FLAGS_elect_timeout_min cfg)
  then GetBroadcast
         {| read_request := request; read_response := GetResponse_new;
            succ_count := 1; err_count := 0; triggered := false; runs := [] |}
  else GetReplied (serve_read n request op0 GetResponse_new).

(** Completing a read context: [done->Run()], [triggered = true]. *)
Definition complete_read (context : ClientReadAck) (response : GetResponse.t)
    : ClientReadAck :=
  {| read_request := read_request context; read_response := response;
     succ_count := succ_count context; err_count := err_count context;
     triggered := true; runs := runs context ++ [response] |}.

Definition fail_read (context : ClientReadAck) : ClientReadAck :=
  complete_read context
    (GetResponse.mk false false EmptyString
       (GetResponse.value (read_response context))
       (GetResponse.uuid_expired (read_response context))).

(** [void InsNodeImpl::HeartbeatForReadCallback(...)]. *)
Definition HeartbeatForReadCallback (n : InsNodeImpl)
    (response : AppendEntriesResponse.t) (failed : bool)
    (context : ClientReadAck) (now : Z) (op0 : LogOperation)
    : InsNodeImpl * ClientReadAck :=
  if triggered context then (n, context)
  else if decide (status_ n <> kLeader) then (n, fail_read context)
  else if negb failed
          && bool_decide (AppendEntriesResponse.current_term response
                          > current_term_ n)
  then (TransToFollower n (AppendEntriesResponse.current_term response),
        fail_read context)
  else
    let context :=
      if negb failed
      then mkClientReadAck (read_request context) (read_response context)
             (succ_count context + 1) (err_count context) (triggered context)
             (runs context)
      else mkClientReadAck (read_request context) (read_response context)
             (succ_count context) (err_count context + 1) (triggered context)
             (runs context) in
    let half := Z.of_nat (length (members_ cfg)) / 2 in
    let '(n, context) :=
      if decide (succ_count context > half)
      then (set_heartbeat_read_timestamp_ now n,
            complete_read context
              (serve_read n (read_request context) op0 (read_response context)))
      else (n, context) in
    let context :=
      if decide (err_count context > half) then fail_read context else context in
    (n, context).

(** The callbacks of one quorum read, in the order in which they run;
    each comes with the response, the [failed] flag and the clock reading. *)
Fixpoint HeartbeatForReadCallbacks (n : InsNodeImpl)
    (responses : list (AppendEntriesResponse.t * bool * Z))
    (context : ClientReadAck) (op0 : LogOperation)
    : InsNodeImpl * ClientReadAck :=
  match responses with
  | [] => (n, context)
  | (response, failed, now) :: rest =>
      let '(n, context) :=
        HeartbeatForReadCallback n response failed context now op0 in
      HeartbeatForReadCallbacks n rest context op0
  end.

(** *** Scan *)

(** The [for] loop of [Scan] over the iterator positioned by [Seek]:
    [count] is an [int32_t], [pb_size] a [size_t]; [op] and [real_value] are
    locals of the loop body. *)
Fixpoint scan_loop (n : InsNodeImpl) (it : list (string * string))
    (end_key : string) (size_limit : Z) (op0 : LogOperation)
    (count pb_size : Z) (items : list ScanItem.t) : list ScanItem.t * bool :=
  match it with
  | [] => (items, false)
  | (k, value) :: rest =>
      if negb (StorageManager.key_lt k end_key
               || bool_decide (end_key = EmptyString))
      then (items, false)
      else if decide (count > size_limit) then (items, true)
      else if decide (pb_size > sMaxPBSize) then (items, true)
      else if decide (k = tag_last_applied_index)
      then scan_loop n rest end_key size_limit op0 count pb_size items
      else
        let '(op, real_value) := ParseValue value op0 EmptyString in
        if bool_decide (op = kLock) && IsExpiredSession n real_value
        then scan_loop n rest end_key size_limit op0 count pb_size items
        else
          scan_loop n rest end_key size_limit op0
            (to_int32 (count + 1))
            ((pb_size + strlen k + strlen real_value) mod 2 ^ 64)
            (items ++ [ScanItem.mk k real_value])
  end.

Definition refuse_scan (leader_id : string) (uuid_expired : bool)
    : ScanResponse.t :=
  ScanResponse.mk [] false false leader_id uuid_expired.

(** [void InsNodeImpl::Scan(...)]. *)
Definition Scan (n : InsNodeImpl) (request : ScanRequest.t) (tm_now : Z)
    (op0 : LogOperation) : ScanResponse.t :=
  if decide (status_ n = kFollower) then refuse_scan (current_leader_ n) false
  else if decide (status_ n = kCandidate) then refuse_scan EmptyString false
  else if uuid_unknown n (ScanRequest.uuid request)
  then refuse_scan EmptyString true
  else if bool_decide (status_ n = kLeader) && in_safe_mode_ n
  then refuse_scan EmptyString false
  else if decide (status_ n = kLeader
                  /\ tm_now - server_start_timestamp_ cfg
                     < FLAGS_session_expire_timeout cfg)
  then refuse_scan EmptyString false
  else
    match StorageManager.NewIterator (data_store_ n)
            (GetUsernameFromUuid (user_manager_ n) (ScanRequest.uuid request))
    with
    | None => ScanResponse.mk [] false true EmptyString true
    | Some it =>
        let it := StorageManager.Seek it (ScanRequest.start_key request) in
        let '(items, has_more) :=
          scan_loop n (StorageManager.it_ it) (ScanRequest.end_key request)
            (ScanRequest.size_limit request) op0 0 0 [] in
        ScanResponse.mk items has_more true EmptyString false
    end.

(** *** Watches *)

Definition WatchResponse_new : WatchResponse.t :=
  WatchResponse.mk EmptyString EmptyString EmptyString false false EmptyString
    false false.

(** [event_key.find_first_of(":")]. *)
Fixpoint find_first_of (c : ascii) (s : string) : option nat :=
  match s with
  | EmptyString => None
  | String a rest =>
      if decide (a = c) then Some O else S <$> find_first_of c rest
  end.

(** [event_key.substr(event_key.find_first_of(":") + 2)]: [npos + 2] wraps
    to 1, and [substr] throws when the position is past the end. *)
Definition GetKeyFromEvent (event_key : string) : option string :=
  let pos := match find_first_of ":"%char event_key with
             | Some i => (i + 2)%nat
             | None => 1%nat
             end in
  if decide (String.length event_key < pos)%nat then None
  else Some (substring pos (String.length event_key - pos) event_key).

(** [RemoveEventBySessionAndKey]: the registrations of this session on
    this key are erased, their responses marked [canceled]. *)
Definition RemoveEventBySessionAndKey (events : list WatchEvent)
    (session_id key : string)
    : list WatchEvent * list (rpc_handle * WatchResponse.t) :=
  let hit (e : WatchEvent) :=
    bool_decide (watch_session_id_ e = session_id)
    && bool_decide (watch_key_ e = key) in
  (List.filter (fun e => negb (hit e)) events,
   List.map (fun e => (ack_ e,
                       WatchResponse.mk EmptyString EmptyString EmptyString
                         false false EmptyString true false))
            (List.filter hit events)).

(** [TriggerEventBySessionAndKey]. *)
Definition TriggerEventBySessionAndKey (events : list WatchEvent)
    (session_id key value : string) (deleted : bool)
    : option (list WatchEvent * list (rpc_handle * WatchResponse.t)) :=
  let hit (e : WatchEvent) :=
    bool_decide (watch_session_id_ e = session_id)
    && bool_decide (watch_key_ e = key) in
  match List.filter hit events with
  | [] => Some (events, [])
  | fired =>
      stripped ← GetKeyFromEvent key;
      Some (List.filter (fun e => negb (hit e)) events,
            List.map (fun e => (ack_ e,
                                WatchResponse.mk stripped stripped value deleted
                                  true EmptyString false false))
                     fired)
  end.

Definition refuse_watch (leader_id : string) (uuid_expired : bool)
    : WatchResponse.t :=
  WatchResponse.mk EmptyString EmptyString EmptyString false false leader_id
    false uuid_expired.

(** [void InsNodeImpl::Watch(...)]: the reply of this request (if it is
    refused), and the responses of the registrations that were cancelled
    or fired on the way. *)
Definition Watch (n : InsNodeImpl) (request : WatchRequest.t) (h : rpc_handle)
    (tm_now : Z) (op0 : LogOperation)
    : option (InsNodeImpl * Reply WatchResponse.t
              * list (rpc_handle * WatchResponse.t)) :=
  if decide (status_ n = kFollower)
  then Some (n, Replied (refuse_watch (current_leader_ n) false), [])
  else if decide (status_ n = kCandidate)
  then Some (n, Replied (refuse_watch EmptyString false), [])
  else if uuid_unknown n (WatchRequest.uuid request)
  then Some (n, Replied (refuse_watch EmptyString true), [])
  else
    let key := WatchRequest.key request in
    let user := GetUsernameFromUuid (user_manager_ n) (WatchRequest.uuid request) in
    let bindedkey := BindKeyAndUser user key in
    let session_id := WatchRequest.session_id request in
    let '(events, cancelled) :=
      RemoveEventBySessionAndKey (watch_events_ n) session_id bindedkey in
    let events := events ++ [mkWatchEvent bindedkey session_id h] in
    if decide (tm_now - server_start_timestamp_ cfg
               > FLAGS_session_expire_timeout cfg) then
      let '(s, raw_value) := StorageManager.Get (data_store_ n) user key in
      let key_exist := bool_decide (s = kOk) in
      let '(op, real_value) := ParseValue raw_value op0 EmptyString in
      if decide (real_value <> WatchRequest.old_value request
                 \/ key_exist <> WatchRequest.key_exist request) then
        '(events, fired) ←
          TriggerEventBySessionAndKey events session_id bindedkey real_value
            (bool_decide (s = kNotFound));
        Some (set_watch_events_ events n, Held, cancelled ++ fired)
      else if bool_decide (op = kLock) && IsExpiredSession n real_value then
        '(events, fired) ←
          TriggerEventBySessionAndKey events session_id bindedkey EmptyString
            true;
        Some (set_watch_events_ events n, Held, cancelled ++ fired)
      else Some (set_watch_events_ events n, Held, cancelled)
    else Some (set_watch_events_ events n, Held, cancelled).

(** *** The application worker *)

(** A task handed to the [event_trigger_] pool. *)
Inductive Task : Type :=
| TriggerEventWithParent (key value : string) (deleted : bool).

(** A pending client response completed by the worker. *)
Inductive AckReply : Type :=
| AckWrite (h : rpc_handle) (r : WriteResponse.t)
| AckLogin (h : rpc_handle) (status : Status) (uuid leader_id : string)
| AckStatus (h : rpc_handle) (status : Status) (leader_id : string).

(** [s = op(...); if (s == kUnknownUser) { if (OpenDatabase(user)) s = op(...); }] *)
Definition retry_opening (sm : StorageManager.t) (user : string)
    (store_op : StorageManager.t -> Status * StorageManager.t)
    : Status * StorageManager.t :=
  let '(s, sm) := store_op sm in
  if decide (s = kUnknownUser) then
    let '(opened, sm) := StorageManager.OpenDatabase sm user in
    if opened then store_op sm else (s, sm)
  else (s, sm).

Definition add_session_lock (locks : gmap string (gset string))
    (session key : string) : gmap string (gset string) :=
  <[session := {[key]} ∪ default ∅ (locks !! session)]> locks.

(** What the [switch] of [CommitIndexObserv] leaves behind. *)
Record Applied : Type := mkApplied {
  applied_node : InsNodeImpl;
  nop_committed : bool;
  tasks : list Task;
  log_status : Status;
  new_uuid : string
}.

(** The [switch (log_entry.op)] of [CommitIndexObserv], run without the main
    lock; a failed [assert] is [None]. *)
Definition apply_switch (n : InsNodeImpl) (log_entry : LogEntry.t)
    (nop_committed : bool) (op0 : LogOperation) : option Applied :=
  let op := LogEntry.op log_entry in
  let user := LogEntry.user log_entry in
  let key := LogEntry.key log_entry in
  let value := LogEntry.value log_entry in
  let untouched := mkApplied n nop_committed [] kError EmptyString in
  if decide (op = kPut \/ op = kLock) then
    let '(s, sm) :=
      retry_opening (data_store_ n) user
        (fun sm => StorageManager.Put sm user key (tagged op value)) in
    let sm := if decide (op = kLock)
              then TouchParentKey sm user key value "lock" else sm in
    let locks := if decide (op = kLock)
                 then add_session_lock (session_locks_ n) value key
                 else session_locks_ n in
    if decide (s = kOk) then
      Some (mkApplied (set_session_locks_ locks (set_data_store_ sm n))
              nop_committed
              [TriggerEventWithParent (BindKeyAndUser user key) value false]
              kError EmptyString)
    else None
  else if decide (op = kDel) then
    let '(s, sm) :=
      retry_opening (data_store_ n) user
        (fun sm => StorageManager.Delete sm user key) in
    if decide (s = kOk) then
      Some (mkApplied (set_data_store_ sm n) nop_committed
              [TriggerEventWithParent (BindKeyAndUser user key) value true]
              kError EmptyString)
    else None
  else if decide (op = kNop) then
    Some (mkApplied n
            (if decide (LogEntry.term log_entry = current_term_ n)
             then true else nop_committed)
            [] kError EmptyString)
  else if decide (op = kUnLock) then
    let old_session := value in
    let '(s, stored) := StorageManager.Get (data_store_ n) user key in
    if decide (s = kOk) then
      let '(stored_op, cur_session) := ParseValue stored op0 EmptyString in
      if decide (stored_op = kLock /\ cur_session = old_session) then
        let '(s, sm) :=
          retry_opening (data_store_ n) user
            (fun sm => StorageManager.Delete sm user key) in
        if decide (s = kOk) then
          let sm := TouchParentKey sm user key cur_session "unlock" in
          Some (mkApplied (set_data_store_ sm n) nop_committed
                  [TriggerEventWithParent (BindKeyAndUser user key)
                     old_session true]
                  kError EmptyString)
        else None
      else Some untouched
    else Some untouched
  else if decide (op = kLogin) then
    let '(log_status, m) := um_Login (user_manager_ n) key value user in
    let n := set_user_manager_ m n in
    if decide (log_status = kOk) then
      Some (mkApplied
              (set_data_store_
                 (StorageManager.OpenDatabase (data_store_ n) key).2 n)
              nop_committed [] log_status user)
    else Some (mkApplied n nop_committed [] log_status EmptyString)
  else if decide (op = kLogout) then
    let '(log_status, m) := um_Logout (user_manager_ n) user in
    Some (mkApplied (set_user_manager_ m n) nop_committed [] log_status
            EmptyString)
  else if decide (op = kRegister) then
    let '(log_status, m) := um_Register (user_manager_ n) key value in
    Some (mkApplied (set_user_manager_ m n) nop_committed [] log_status
            EmptyString)
  else Some untouched.

(** The responses the worker completes for the ack at an index. *)
Definition ack_replies (ack : ClientAck) (log_status : Status)
    (new_uuid : string) : list AckReply :=
  let ok := WriteResponse.mk true EmptyString false in
  from_option (fun h => [AckWrite h ok]) [] (response ack)
  ++ from_option (fun h => [AckWrite h ok]) [] (del_response ack)
  ++ from_option (fun h => [AckWrite h ok]) [] (lock_response ack)
  ++ from_option (fun h => [AckWrite h ok]) [] (unlock_response ack)
  ++ from_option (fun h => [AckLogin h log_status new_uuid EmptyString]) []
       (login_response ack)
  ++ from_option (fun h => [AckStatus h log_status EmptyString]) []
       (logout_response ack)
  ++ from_option (fun h => [AckStatus h log_status EmptyString]) []
       (register_response ack).

(** One round of the [for] loop of [CommitIndexObserv], for log index [i]:
    read the slot, run the [switch], then under the main lock leave safe
    mode, complete the pending ack, and advance and persist
    [last_applied_index_]. *)
Definition apply_entry (n : InsNodeImpl) (i : Z) (nop_committed0 : bool)
    (op0 : LogOperation)
    : option (InsNodeImpl * bool * list Task * list AckReply) :=
  log_entry ← match BinLogger.ReadSlot (binlogger_ n) i with
              | BinLogger.SlotOk log_entry => Some log_entry
              | _ => None
              end;
  a ← apply_switch n log_entry nop_committed0 op0;
  let n := applied_node a in
  let n := if bool_decide (status_ n = kLeader) && nop_committed a
           then set_in_safe_mode_ false n else n in
  let '(n, replies) :=
    match client_ack_ n !! i with
    | Some ack =>
        if decide (status_ n = kLeader)
        then (set_client_ack_ (delete i (client_ack_ n)) n,
              ack_replies ack (log_status a) (new_uuid a))
        else (n, [])
    | None => (n, [])
    end in
  let n := set_last_applied_index_ (to_int64 (last_applied_index_ n + 1)) n in
  let '(sp, sm) :=
    StorageManager.Put (data_store_ n) StorageManager.anonymous_user
      tag_last_applied_index (BinLogger.IntToString (last_applied_index_ n)) in
  if decide (sp = kOk)
  then Some (set_data_store_ sm n, nop_committed a, tasks a, replies)
  else None.

(** The [for] loop over [from_idx + 1 .. to_idx]; [rounds] is the number of
    indices left. *)
Fixpoint apply_range (n : InsNodeImpl) (i : Z) (rounds : nat)
    (nop_committed0 : bool) (op0 : LogOperation)
    : option (InsNodeImpl * list Task * list AckReply) :=
  match rounds with
  | O => Some (n, [], [])
  | S k =>
      '(n, nop, ts, rs) ← apply_entry n i nop_committed0 op0;
      '(n, ts', rs') ← apply_range n (i + 1) k nop op0;
      Some (n, ts ++ ts', rs ++ rs')
  end.

(** One wake-up of [CommitIndexObserv] with work to do. *)
Definition CommitIndexObserv (n : InsNodeImpl) (op0 : LogOperation)
    : option (InsNodeImpl * list Task * list AckReply) :=
  let from_idx := last_applied_index_ n in
  let to_idx := commit_index_ n in
  apply_range n (from_idx + 1) (Z.to_nat (to_idx - from_idx)) false op0.

(** *** Election: the timer and the vote responses *)

(** [void InsNodeImpl::TryToBeLeader()]: the node after the timer fired and
    the vote requests it sends.  [vote_grant_] (declared in
    ins_node_impl.h, a map from a term to the number of votes received in
    it) is passed in and out. *)
Definition TryToBeLeader (n : InsNodeImpl) (vote_grant_ : gmap Z Z)
    : InsNodeImpl * gmap Z Z * list (string * VoteRequest.t) :=
  if single_node_mode_ cfg then
    let n := set_commit_index_ (last_applied_index_ n)
               (set_in_safe_mode_ false
                  (set_current_leader_ (self_id_ cfg) (set_status_ kLeader n))) in
    let n := set_current_term_ (to_int64 (current_term_ n + 1)) n in
    (set_meta_ (Meta.WriteCurrentTerm (meta_ n) (current_term_ n)) n,
     vote_grant_, [])
  else if decide (status_ n = kLeader) then (n, vote_grant_, [])
  else if decide (status_ n = kFollower /\ heartbeat_count_ n > 0)
  then (set_heartbeat_count_ 0 n, vote_grant_, [])
  else
    let n := set_current_term_ (to_int64 (current_term_ n + 1)) n in
    let n := set_meta_ (Meta.WriteCurrentTerm (meta_ n) (current_term_ n)) n in
    let n := set_status_ kCandidate n in
    let n := set_voted_for_ {[ current_term_ n := self_id_ cfg ]} n in
    let n := set_meta_ (Meta.WriteVotedFor (meta_ n) (current_term_ n)
                          (self_id_ cfg)) n in
    let vote_grant_ : gmap Z Z := {[ current_term_ n := 1 ]} in
    let '(last_log_index, last_log_term) :=
      BinLogger.GetLastLogIndexAndTerm (binlogger_ n) in
    (n, vote_grant_,
     List.map (fun server =>
                 (server,
                  {| VoteRequest.term := current_term_ n;
                     VoteRequest.candidate_id := self_id_ cfg;
                     VoteRequest.last_log_index := last_log_index;
                     VoteRequest.last_log_term := last_log_term |}))
              (others_ cfg)).

(** [void InsNodeImpl::VoteCallback(...)]. *)
Definition VoteCallback (n : InsNodeImpl) (vote_grant_ : gmap Z Z)
    (replicating_ : gset string) (response : VoteResponse.t) (failed : bool)
    : option (InsNodeImpl * gmap Z Z) :=
  if failed then Some (n, vote_grant_)
  else if decide (status_ n <> kCandidate) then Some (n, vote_grant_)
  else
    let their_term := VoteResponse.term response in
    if VoteResponse.vote_granted response
       && bool_decide (their_term = current_term_ n)
    then
      let count := default 0 (vote_grant_ !! current_term_ n) + 1 in
      let vote_grant_ := <[current_term_ n := count]> vote_grant_ in
      if decide (2 * count > Z.of_nat (length (members_ cfg))) then
        n ← TransToLeader n replicating_; Some (n, vote_grant_)
      else Some (n, vote_grant_)
    else if decide (their_term > current_term_ n)
    then Some (TransToFollower n their_term, vote_grant_)
    else Some (n, vote_grant_).

(** The responses of one election, taken in the order in which they
    arrive. *)
Fixpoint VoteCallbacks (n : InsNodeImpl) (vote_grant_ : gmap Z Z)
    (replicating_ : gset string) (responses : list (VoteResponse.t * bool))
    : option (InsNodeImpl * gmap Z Z) :=
  match responses with
  | [] => Some (n, vote_grant_)
  | (response, failed) :: rest =>
      '(n, vote_grant_) ← VoteCallback n vote_grant_ replicating_ response failed;
      VoteCallbacks n vote_grant_ replicating_ rest
  end.

(** The batch loop of [ReplicateLog] again, collecting the entries it adds
    to the request. *)
Fixpoint batch_entries (b : BinLogger.t) (idx : Z) (batch_span : nat)
    : option (list LogEntry.t) :=
  match batch_span with
  | O => Some []
  | S k =>
      match BinLogger.ReadSlot b idx with
      | BinLogger.SlotOk log_entry =>
          rest ← batch_entries b (idx + 1) k; Some (log_entry :: rest)
      | _ => None
      end
  end.

(** [ReplicateLog], from the end of the wait for new entries to
    [SendRequest]: the request, with the locals [index], [batch_span] and
    [max_term]; [None] when a bad slot ends the loop. *)
Definition ReplicateLog_request (n : InsNodeImpl) (follower_id : string)
    (latest_replicating_ok : bool)
    : option (InsNodeImpl * AppendEntriesRequest.t * Z * Z * Z) :=
  let '(index, m) := index_at (next_index_ n) follower_id in
  let n := set_next_index_ m n in
  let prev_index := to_int64 (index - 1) in
  let batch_span := to_int64 (BinLogger.GetLength (binlogger_ n) - index) in
  let batch_span := Z.min batch_span (FLAGS_log_rep_batch_max cfg) in
  let batch_span :=
    if latest_replicating_ok then batch_span else Z.min 1 batch_span in
  prev_term ←
    (if decide (prev_index > -1) then
       match BinLogger.ReadSlot (binlogger_ n) prev_index with
       | BinLogger.SlotOk prev_log_entry => Some (LogEntry.term prev_log_entry)
       | _ => None
       end
     else Some (-1));
  entries ← batch_entries (binlogger_ n) index (Z.to_nat batch_span);
  max_term ← batch_max_term (binlogger_ n) index (Z.to_nat batch_span) (-1);
  Some (n,
        {| AppendEntriesRequest.term := current_term_ n;
           AppendEntriesRequest.leader_id := self_id_ cfg;
           AppendEntriesRequest.prev_log_index := prev_index;
           AppendEntriesRequest.prev_log_term := prev_term;
           AppendEntriesRequest.leader_commit_index := commit_index_ n;
           AppendEntriesRequest.entries := entries |},
        index, batch_span, max_term).

(** The end of [InitStorage]: [last_applied_index_] keeps the -1 of the
    constructor unless the store holds the tag. *)
Definition InitStorage_last_applied (sm : StorageManager.t) : option Z :=
  match StorageManager.Get sm StorageManager.anonymous_user
          tag_last_applied_index with
  | (kOk, tag_value) => BinLogger.StringToInt tag_value
  | _ => Some (-1)
  end.

(** *** Sessions *)

(** [void InsNodeImpl::KeepAlive(...)] with [ForwardKeepAlive]: the
    response, and the requests forwarded to the other members.  [now] is
    the clock reading. *)
Definition KeepAlive (n : InsNodeImpl) (request : KeepAliveRequest.t) (now : Z)
    : InsNodeImpl * KeepAliveResponse.t * list (string * KeepAliveRequest.t) :=
  if bool_decide (status_ n = kFollower)
     && negb (KeepAliveRequest.forward_from_leader request)
  then (n, KeepAliveResponse.mk false (current_leader_ n), [])
  else if bool_decide (status_ n = kCandidate)
          && negb (KeepAliveRequest.forward_from_leader request)
  then (n, KeepAliveResponse.mk false EmptyString, [])
  else
    let session :=
      {| session_id := KeepAliveRequest.session_id request;
         last_report_time := now;
         uuid := KeepAliveRequest.uuid request |} in
    let n := set_sessions_ (<[session_id session := session]> (sessions_ n)) n in
    let n := set_session_locks_
               (<[session_id session :=
                    list_to_set (KeepAliveRequest.locks request)]>
                  (session_locks_ n)) n in
    (n, KeepAliveResponse.mk true EmptyString,
     if decide (status_ n <> kLeader) then []
     else
       List.map (fun server =>
                   (server,
                    KeepAliveRequest.mk (KeepAliveRequest.session_id request)
                      (KeepAliveRequest.uuid request)
                      (KeepAliveRequest.locks request) true))
                (others_ cfg)).

(** *** Firing watches *)

(** [bool InsNodeImpl::TriggerEvent(watch_key, key, value, deleted)]: what
    is left of the registrations, the responses completed, and the result. *)
Definition TriggerEvent (events : list WatchEvent)
    (watch_key key value : string) (deleted : bool)
    : option (list WatchEvent * list (rpc_handle * WatchResponse.t) * bool) :=
  let hit (e : WatchEvent) := bool_decide (watch_key_ e = watch_key) in
  match List.filter hit events with
  | [] => Some (events, [], false)
  | fired =>
      stripped_watch_key ← GetKeyFromEvent watch_key;
      stripped_key ← GetKeyFromEvent key;
      Some (List.filter (fun e => negb (hit e)) events,
            List.map (fun e => (ack_ e,
                                WatchResponse.mk stripped_watch_key stripped_key
                                  value deleted true EmptyString false false))
                     fired,
            true)
  end.

(** A call of [TriggerEvent] that [TriggerEventWithParent] puts off by two
    seconds. *)
Record DelayedTrigger : Type := mkDelayedTrigger {
  delayed_watch_key : string;
  delayed_key : string;
  delayed_value : string;
  delayed_deleted : bool
}.

(** [void InsNodeImpl::TriggerEventWithParent(key, value, deleted)]. *)
Definition run_TriggerEventWithParent (events : list WatchEvent)
    (key value : string) (deleted : bool)
    : option (list WatchEvent * list (rpc_handle * WatchResponse.t)
              * option DelayedTrigger) :=
  '(events, fired, triggered) ← TriggerEvent events key key value deleted;
  match GetParentKey key with
  | Some parent_key =>
      '(events, fired_parent, triggered) ←
        TriggerEvent events parent_key key value deleted;
      Some (events, fired ++ fired_parent,
            if (triggered : bool) then None
            else Some (mkDelayedTrigger parent_key key value deleted))
  | None => Some (events, fired, None)
  end.

(** *** Runs of the election state

    The requests, responses and timer events that touch the term, the
    role and the votes of a node, and a run of the node over a sequence
    of them. *)
Inductive Event : Type :=
| RecvVote (request : VoteRequest.t)
| RecvAppendEntries (request : AppendEntriesRequest.t)
| ElectionTimeout
| RecvVoteResponse (response : VoteResponse.t) (failed : bool).

(** Whether [TryToBeLeader] reaches the broadcast of vote requests. *)
Definition starts_election (n : InsNodeImpl) : bool :=
  negb (single_node_mode_ cfg)
  && negb (bool_decide (status_ n = kLeader))
  && negb (bool_decide (status_ n = kFollower /\ heartbeat_count_ n > 0)).

(** One event: the node and [vote_grant_] after it, and the vote it cast
    (for the candidate of a granted [Vote], or for itself when it starts an
    election). *)
Definition on_event (replicating_ : gset string)
    (s : InsNodeImpl * gmap Z Z) (ev : Event)
    : option (InsNodeImpl * gmap Z Z * option (Z * string)) :=
  let '(n, vote_grant_) := s in
  match ev with
  | RecvVote request =>
      let '(n', response) := Vote n request in
      Some (n', vote_grant_,
            if VoteResponse.vote_granted response
            then Some (VoteRequest.term request, VoteRequest.candidate_id request)
            else None)
  | RecvAppendEntries request =>
      match DoAppendEntries n request with
      | Some (n', _, _) => Some (n', vote_grant_, None)
      | None => None
      end
  | ElectionTimeout =>
      let '(n', vote_grant_, _) := TryToBeLeader n vote_grant_ in
      Some (n', vote_grant_,
            if starts_election n then Some (current_term_ n', self_id_ cfg)
            else None)
  | RecvVoteResponse response failed =>
      match VoteCallback n vote_grant_ replicating_ response failed with
      | Some (n', vote_grant_) => Some (n', vote_grant_, None)
      | None => None
      end
  end.

(** A run: the final state and the votes cast, oldest first. *)
Fixpoint run (replicating_ : gset string) (s : InsNodeImpl * gmap Z Z)
    (evs : list Event)
    : option (InsNodeImpl * gmap Z Z * list (Z * string)) :=
  match evs with
  | [] => Some (s, [])
  | ev :: rest =>
      match on_event replicating_ s ev with
      | Some (n, vote_grant_, vote) =>
          match run replicating_ (n, vote_grant_) rest with
          | Some (s', votes) =>
              Some (s', from_option (fun v => [v]) [] vote ++ votes)
          | None => None
          end
      | None => None
      end
  end.

(** What a restart would read back from the term and vote files agrees
    with the node: the term is the last one written, no vote is recorded
    for a term after the current one, and a vote of the current term is
    the last record of the vote file. *)
Definition persisted (n : InsNodeImpl) : Prop :=
  Meta.ReadCurrentTerm (meta_ n) = current_term_ n
  /\ (forall t c, voted_for_ n !! t = Some c -> t <= current_term_ n)
  /\ (forall c, voted_for_ n !! current_term_ n = Some c ->
        last (Meta.vote_file_ (meta_ n)) = Some (current_term_ n, c)).

(** A response that [VoteCallback] counts for a candidate [n]: delivered,
    granted, and for the candidate's current term. *)
Definition counted_vote (n : InsNodeImpl) (r : VoteResponse.t * bool) : bool :=
  negb r.2 && VoteResponse.vote_granted r.1
  && bool_decide (VoteResponse.term r.1 = current_term_ n).

(** The votes cast so far are for terms up to the current one, those of
    the current term are the vote the node remembers, and no term has
    votes for two candidates. *)
Definition votes_recorded (n : InsNodeImpl) (votes : list (Z * string)) : Prop :=
  (forall t c, (t, c) ∈ votes ->
     t <= current_term_ n
     /\ (t = current_term_ n -> voted_for_ n !! t = Some c))
  /\ (forall t c1 c2, (t, c1) ∈ votes -> (t, c2) ∈ votes -> c1 = c2).

(** *** Predicates in which the properties are stated *)

(** The candidate's log is at least as up to date as the node's. *)
Definition log_up_to_date (n : InsNodeImpl) (request : VoteRequest.t) : Prop :=
  let '(last_log_index, last_log_term) :=
    BinLogger.GetLastLogIndexAndTerm (binlogger_ n) in
  VoteRequest.last_log_term request > last_log_term
  \/ (VoteRequest.last_log_term request = last_log_term
      /\ VoteRequest.last_log_index request >= last_log_index).

(** The members that hold index [a_index]: the leader itself and every
    other member whose recorded match index has reached it. *)
Definition holders (n : InsNodeImpl)
    (a_index : Z) : Z :=
  1 + Z.of_nat (length (List.filter
                          (fun f => from_option (fun v => bool_decide (v >= a_index))
                                      false (match_index_ n !! f))
                          (others_ cfg))).

(** The session recorded in a Lock-tagged stored value, if the key holds
    one. *)
Definition lock_owner (n : InsNodeImpl) (user key : string)
    (op0 : LogOperation) : option string :=
  match StorageManager.Get (data_store_ n) user key with
  | (kOk, value) =>
      let '(op, owner) := ParseValue value op0 EmptyString in
      if decide (op = kLock) then Some owner else None
  | _ => None
  end.

(** The three ways in which a lock can be taken. *)
Definition lock_grantable (n : InsNodeImpl) (user key session_id : string)
    (op0 : LogOperation) : Prop :=
  ((StorageManager.Get (data_store_ n) user key).1 <> kOk
   /\ is_Some (sessions_ n !! session_id))
  \/ (exists owner, lock_owner n user key op0 = Some owner
                    /\ sessions_ n !! owner = None
                    /\ is_Some (sessions_ n !! session_id))
  \/ (lock_owner n user key op0 = Some session_id
      /\ is_Some (sessions_ n !! session_id)).


(** The requested key cannot be read from the caller's namespace. *)
Definition key_absent (n : InsNodeImpl) (request : GetRequest.t) : Prop :=
  (StorageManager.Get (data_store_ n)
     (GetUsernameFromUuid (user_manager_ n) (GetRequest.uuid request))
     (GetRequest.key request)).1 <> kOk.

Definition successful_miss (r : GetResponse.t) : Prop :=
  GetResponse.success r = true /\ GetResponse.hit r = false
  /\ GetResponse.leader_id r = EmptyString.

Definition quorum_half : Z := Z.of_nat (length (members_ cfg)) / 2.

(** A read context that has not completed has not yet seen a majority of
    either kind. *)
Definition read_pending (context : ClientReadAck) : Prop :=
  triggered context = false
  /\ succ_count context <= quorum_half /\ err_count context <= quorum_half.

(** A read context that has completed: [done] has run once, and a
    successful response was given with a majority counted. *)
Definition read_completed (context : ClientReadAck) : Prop :=
  triggered context = true
  /\ exists r, runs context = [r]
               /\ (if GetResponse.success r
                   then succ_count context > quorum_half
                   else GetResponse.hit r = false
                        /\ GetResponse.leader_id r = EmptyString).

(** Whether [match_index_[x] >= a_index] holds when the loop reads it. *)
Definition matched (m : gmap string Z) (a_index : Z) (x : string) : bool :=
  bool_decide (default 0 (m !! x) >= a_index).

End Node.

(** ** Concrete parameters for the worked examples *)

(** One admissible numbering of the enumerators. *)
Definition example_ops : LogOperationValues :=
  {| kNop := 10; kPut := 1; kDel := 2; kLock := 3; kUnLock := 4;
     kLogin := 11; kLogout := 12; kRegister := 13 |}.

(** A user manager in which every token is logged in and names its own
    namespace. *)
Definition example_um : UserManagerApi :=
  {| UserManager := unit;
     IsLoggedIn := fun _ _ => true;
     GetUsernameFromUuid := fun _ uuid => uuid;
     um_Login := fun m _ _ _ => (kOk, m);
     um_Logout := fun m _ => (kOk, m);
     um_Register := fun m _ _ => (kOk, m) |}.

Definition example_config (members : list string) : Config :=
  {| members_ := members; self_id_ := "A"; server_start_timestamp_ := 0;
     FLAGS_max_commit_pending := 10000; FLAGS_max_write_pending := 10000;
     FLAGS_session_expire_timeout := 6000000; FLAGS_elect_timeout_min := 150;
     FLAGS_log_rep_batch_max := 500 |}.

(** The log after appending [entries] to an empty one. *)
Definition log_of (entries : list LogEntry.t) : option BinLogger.t :=
  foldl (fun b e => b ≫= fun b => BinLogger.AppendEntry b e)
        (Some BinLogger.empty) entries.

Definition nop_entry (term : Z) : LogEntry.t :=
  LogEntry.mk (@kNop example_ops) "" "Ping" "" term.

(** A node as the constructor leaves it, with the given role, term, log,
    store and sessions. *)
Definition example_node (status : NodeStatus) (current_term : Z)
    (b : BinLogger.t) (sm : StorageManager.t) (sessions : gmap string Session)
    (in_safe_mode : bool) (commit_index last_applied : Z)
    : @InsNodeImpl example_um :=
  @mkNode example_um current_term status 0 "" ∅ (Meta.mk [] []) b sm tt
    sessions ∅ [] ∅ ∅ in_safe_mode commit_index last_applied ∅ 0.

Definition example_store (user : string) (kvs : list (string * string))
    : StorageManager.t :=
  StorageManager.mk (<[user := list_to_map kvs]> {[ "" := ∅ ]}) ∅.

(** * Facts about the embedding *)

(** ** Bytes and fixed-width integers *)

Section WireFacts.

Lemma append_cons c s t : String c s +:+ t = String c (s +:+ t).
Proof. reflexivity. Qed.

Lemma append_nil_l t : EmptyString +:+ t = t.
Proof. reflexivity. Qed.

Lemma length_append s t :
  String.length (s +:+ t) = (String.length s + String.length t)%nat.
Proof.
  induction s as [|c s IH]; [reflexivity|].
  rewrite append_cons. cbn [String.length]. now rewrite IH.
Qed.

Lemma strlen_append s t : strlen (s +:+ t) = strlen s + strlen t.
Proof. unfold strlen. rewrite length_append. lia. Qed.

Lemma strlen_nonneg s : 0 <= strlen s.
Proof. unfold strlen. lia. Qed.

Lemma length_le_bytes n z : String.length (le_bytes n z) = n.
Proof.
  revert z. induction n as [|n IH]; intros z; cbn; [reflexivity|].
  now rewrite IH.
Qed.

Lemma byte_val_of z : byte_val (byte_of z) = z mod 256.
Proof.
  unfold byte_val, byte_of.
  assert (0 <= z mod 256 < 256) by (apply Z.mod_pos_bound; lia).
  rewrite N_ascii_embedding by lia. lia.
Qed.

Lemma byte_val_bound c : 0 <= byte_val c < 256.
Proof.
  unfold byte_val. pose proof (N_ascii_bounded c). lia.
Qed.

Lemma le_value_bytes n z :
  le_value (le_bytes n z) = z mod 256 ^ Z.of_nat n.
Proof.
  revert z. induction n as [|n IH]; intros z.
  - cbn. now rewrite Z.mod_1_r.
  - cbn [le_bytes le_value]. rewrite byte_val_of, IH.
    rewrite Nat2Z.inj_succ, Z.pow_succ_r by lia.
    rewrite Z.rem_mul_r by lia. reflexivity.
Qed.

Lemma read_bytes_append s t :
  read_bytes (String.length s) (s +:+ t) = Some (s, t).
Proof.
  induction s as [|c s IH]; [reflexivity|].
  rewrite append_cons. cbn [String.length read_bytes].
  now rewrite IH.
Qed.

Lemma wrap_signed_id bits z :
  0 < bits -> - 2 ^ (bits - 1) <= z < 2 ^ (bits - 1) ->
  wrap_signed bits z = z.
Proof.
  intros Hb Hz. unfold wrap_signed.
  assert (2 ^ bits = 2 * 2 ^ (bits - 1)) as E.
  { rewrite <- Z.pow_succ_r by lia. f_equal. lia. }
  rewrite Z.mod_small by lia. lia.
Qed.

Lemma to_int32_id z : int32_min <= z <= int32_max -> to_int32 z = z.
Proof.
  unfold int32_min, int32_max, to_int32. intros H.
  apply wrap_signed_id; lia.
Qed.

Lemma to_int64_id z : int64_min <= z <= int64_max -> to_int64 z = z.
Proof.
  unfold int64_min, int64_max, to_int64. intros H.
  apply wrap_signed_id; lia.
Qed.

Lemma wrap_signed_mod bits z :
  0 < bits -> wrap_signed bits (z mod 2 ^ bits) = wrap_signed bits z.
Proof.
  intros Hb. unfold wrap_signed. f_equal.
  rewrite Zplus_mod_idemp_l. reflexivity.
Qed.

(** [memcpy] out and back in is the identity on an [int32_t]. *)
Lemma load_store_int32 z :
  int32_min <= z <= int32_max -> load_int32 (store_int32 z) = z.
Proof.
  intros H. unfold load_int32, store_int32. rewrite le_value_bytes.
  change (256 ^ Z.of_nat 4) with (2 ^ 32).
  unfold to_int32. rewrite wrap_signed_mod by lia.
  now apply to_int32_id.
Qed.

Lemma load_store_int64 z :
  int64_min <= z <= int64_max -> load_int64 (store_int64 z) = z.
Proof.
  intros H. unfold load_int64, store_int64. rewrite le_value_bytes.
  change (256 ^ Z.of_nat 8) with (2 ^ 64).
  unfold to_int64. rewrite wrap_signed_mod by lia.
  now apply to_int64_id.
Qed.

End WireFacts.

(** ** LogEntry::Dump and LogEntry::Load *)

Section LogEntryFacts.

Lemma read_bytes_le n z rest :
  read_bytes n (le_bytes n z +:+ rest) = Some (le_bytes n z, rest).
Proof.
  rewrite <- (length_le_bytes n z) at 1. apply read_bytes_append.
Qed.

Lemma append_nil_r s : s +:+ EmptyString = s.
Proof.
  induction s as [|c s IH]; [reflexivity|]. rewrite append_cons. now rewrite IH.
Qed.

Lemma read_bytes_one c rest :
  read_bytes 1 (String c EmptyString +:+ rest) = Some (String c EmptyString, rest).
Proof. reflexivity. Qed.

Lemma strlen_le_bytes n z : strlen (le_bytes n z) = Z.of_nat n.
Proof. unfold strlen. now rewrite length_le_bytes. Qed.

Lemma length_framing e :
  strlen (LogEntry.framing e)
  = 21 + strlen (LogEntry.user e) + strlen (LogEntry.key e)
    + strlen (LogEntry.value e).
Proof.
  unfold LogEntry.framing, store_int32, store_int64.
  rewrite !strlen_append, !strlen_le_bytes.
  change (strlen (String _ EmptyString)) with 1. lia.
Qed.

Lemma read_field_stored s rest :
  strlen s <= int32_max ->
  LogEntry.read_field (store_int32 (to_int32 (strlen s)) +:+ s +:+ rest)
  = Some (s, rest).
Proof.
  intros Hs. pose proof (strlen_nonneg s) as Hn.
  assert (int32_min <= strlen s <= int32_max) as Hr
    by (unfold int32_min; lia).
  unfold LogEntry.read_field. unfold store_int32 at 1.
  rewrite read_bytes_le. cbn [mbind option_bind].
  fold (store_int32 (to_int32 (strlen s))).
  rewrite (to_int32_id _ Hr), (load_store_int32 _ Hr).
  destruct (decide (strlen s < 0)) as [?|_]; [lia|].
  unfold strlen. rewrite Nat2Z.id. apply read_bytes_append.
Qed.

End LogEntryFacts.

(** C9.  For every log entry whose operation code is a byte, whose three
    strings together fit the [int32_t] total length, and whose term is an
    [int64_t], [LogEntry::Dump] produces exactly the framing
    op (1 byte) | user_len (4) | user | key_len (4) | key | value_len (4) |
    value | term (8), returns the total length 21 + |user| + |key| + |value|,
    and [LogEntry::Load] of that buffer rebuilds the same entry. *)
Theorem LogEntry_dump_load_roundtrip (e : LogEntry.t) :
  0 <= LogEntry.op e < 256 ->
  21 + strlen (LogEntry.user e) + strlen (LogEntry.key e)
     + strlen (LogEntry.value e) <= int32_max ->
  int64_min <= LogEntry.term e <= int64_max ->
  let buf :=
    String (byte_of (LogEntry.op e)) EmptyString
    +:+ le_bytes 4 (strlen (LogEntry.user e)) +:+ LogEntry.user e
    +:+ le_bytes 4 (strlen (LogEntry.key e)) +:+ LogEntry.key e
    +:+ le_bytes 4 (strlen (LogEntry.value e)) +:+ LogEntry.value e
    +:+ le_bytes 8 (LogEntry.term e) in
  LogEntry.Dump e
  = Some (21 + strlen (LogEntry.user e) + strlen (LogEntry.key e)
          + strlen (LogEntry.value e), buf)
  /\ strlen buf
     = 21 + strlen (LogEntry.user e) + strlen (LogEntry.key e)
       + strlen (LogEntry.value e)
  /\ LogEntry.Load buf = Some e.
Proof.
  intros Hop Hlen Hterm buf.
  pose proof (strlen_nonneg (LogEntry.user e)) as Hu.
  pose proof (strlen_nonneg (LogEntry.key e)) as Hk.
  pose proof (strlen_nonneg (LogEntry.value e)) as Hv.
  assert (forall z, 0 <= z <= int32_max -> to_int32 z = z) as Hid.
  { intros z Hz. apply to_int32_id. unfold int32_min. lia. }
  assert (LogEntry.framing e = buf) as Hbuf.
  { unfold LogEntry.framing, buf, store_int32, store_int64, to_uint8.
    rewrite !Hid by lia. unfold byte_of. now rewrite Z.mod_mod by lia. }
  assert (strlen buf
          = 21 + strlen (LogEntry.user e) + strlen (LogEntry.key e)
            + strlen (LogEntry.value e)) as Hsz.
  { rewrite <- Hbuf. apply length_framing. }
  split; [|split; [exact Hsz|]].
  - unfold LogEntry.Dump. rewrite Hbuf, Hsz.
    replace (1 + 4 + strlen (LogEntry.user e) + 4 + strlen (LogEntry.key e)
             + 4 + strlen (LogEntry.value e) + 8)
      with (21 + strlen (LogEntry.user e) + strlen (LogEntry.key e)
            + strlen (LogEntry.value e)) by lia.
    rewrite Hid by lia. now rewrite decide_True.
  - unfold LogEntry.Load, buf.
    rewrite read_bytes_one. cbn [mbind option_bind].
    rewrite <- (Hid (strlen (LogEntry.user e))) at 1 by lia.
    rewrite <- (Hid (strlen (LogEntry.key e))) at 1 by lia.
    rewrite <- (Hid (strlen (LogEntry.value e))) at 1 by lia.
    fold (store_int32 (to_int32 (strlen (LogEntry.user e)))).
    fold (store_int32 (to_int32 (strlen (LogEntry.key e)))).
    fold (store_int32 (to_int32 (strlen (LogEntry.value e)))).
    rewrite read_field_stored by lia. cbn [mbind option_bind].
    rewrite read_field_stored by lia. cbn [mbind option_bind].
    rewrite read_field_stored by lia. cbn [mbind option_bind].
    rewrite <- (append_nil_r (le_bytes 8 (LogEntry.term e))).
    rewrite read_bytes_le. cbn [mbind option_bind].
    fold (store_int64 (LogEntry.term e)).
    rewrite load_store_int64 by exact Hterm.
    cbn [le_value]. rewrite byte_val_of, Z.mod_small by lia.
    destruct e; cbn. f_equal. f_equal. lia.
Qed.

(** The round trip on a concrete Put entry. *)
Lemma LogEntry_dump_load_roundtrip_witness :
  let e := LogEntry.mk 1 "alice" "dir/key" "payload" 7 in
  LogEntry.Dump e = Some (40, LogEntry.framing e)
  /\ LogEntry.Load (LogEntry.framing e) = Some e.
Proof.
  intros e.
  destruct (LogEntry_dump_load_roundtrip e) as (Hd & _ & Hl);
    [cbn; lia | vm_compute; discriminate | vm_compute; split; discriminate |].
  split; [exact Hd | exact Hl].
Defined.

(** ** The binary log *)

Section BinLoggerFacts.

Lemma length_IntToString i : String.length (BinLogger.IntToString i) = 8%nat.
Proof. apply length_le_bytes. Qed.

Lemma IntToString_ne_tag i : BinLogger.IntToString i <> BinLogger.length_tag.
Proof.
  intros E. apply (f_equal String.length) in E.
  rewrite length_IntToString in E. discriminate E.
Qed.

Lemma ReadSlot_put_tag b v len lt i :
  BinLogger.ReadSlot
    (BinLogger.mk (<[BinLogger.length_tag := v]> (BinLogger.db_ b)) len lt) i
  = BinLogger.ReadSlot b i.
Proof.
  unfold BinLogger.ReadSlot. cbn [BinLogger.db_].
  rewrite lookup_insert_ne by (apply not_eq_sym, IntToString_ne_tag).
  reflexivity.
Qed.

Lemma Truncate_inv b k b' :
  BinLogger.Truncate b k = Some b' ->
  let k' := if decide (k < -1) then -1 else k in
  BinLogger.length_ b' = to_int64 (k' + 1)
  /\ BinLogger.db_ b'
     = <[BinLogger.length_tag := BinLogger.IntToString (to_int64 (k' + 1))]>
         (BinLogger.db_ b).
Proof.
  intros H. cbv zeta. unfold BinLogger.Truncate in H.
  destruct (decide (k < -1)); (destruct (decide (_ > 0));
    [destruct (BinLogger.ReadSlot _ _) | ]; inversion H; subst; cbn; auto).
Qed.

End BinLoggerFacts.

(** C4 (as amended).  After [Truncate(k)] with [k >= -1] the length is
    [k + 1] and a subsequent append is written at slot [k + 1]; [Truncate]
    neither deletes nor alters a slot and [ReadSlot] does not consult the
    length, so every slot index, also one greater than [k], reads exactly
    as it did before the truncation. *)
Theorem Truncate_keeps_slots (b b' : BinLogger.t) (k : Z) :
  -1 <= k < int64_max ->
  BinLogger.Truncate b k = Some b' ->
  BinLogger.GetLength b' = k + 1
  /\ (forall e b'', BinLogger.AppendEntry b' e = Some b'' ->
        BinLogger.db_ b'' !! BinLogger.IntToString (k + 1)
        = Some (LogEntry.framing e)
        /\ BinLogger.GetLength b'' = to_int64 (k + 2))
  /\ (forall i, BinLogger.ReadSlot b' i = BinLogger.ReadSlot b i).
Proof.
  intros Hk HT. apply Truncate_inv in HT. cbv zeta in HT.
  rewrite decide_False in HT by lia. destruct HT as [Hlen Hdb].
  rewrite to_int64_id in Hlen, Hdb by (unfold int64_min, int64_max in *; lia).
  split; [exact Hlen|split].
  - intros e b'' HA. unfold BinLogger.AppendEntry, LogEntry.Dump in HA.
    destruct (decide _) as [_|]; [|discriminate HA].
    cbn [mbind option_bind] in HA. inversion HA; subst b''; clear HA.
    unfold BinLogger.GetLength. cbn [BinLogger.db_ BinLogger.length_].
    rewrite Hlen. split.
    + rewrite lookup_insert_ne by (apply not_eq_sym, IntToString_ne_tag).
      apply lookup_insert_eq.
    + f_equal. lia.
  - intros i. destruct b' as [db' len' lt']. cbn in Hdb. subst db'.
    apply ReadSlot_put_tag.
Qed.

(** A three-entry log truncated to its first entry: the length is 1, the
    next append lands in slot 1, and slot 2 still reads as before. *)
Lemma Truncate_keeps_slots_witness :
  exists b b',
    log_of [nop_entry 1; nop_entry 2; nop_entry 3] = Some b
    /\ BinLogger.Truncate b 0 = Some b'
    /\ BinLogger.GetLength b' = 1
    /\ BinLogger.ReadSlot b' 2 = BinLogger.ReadSlot b 2.
Proof.
  destruct (log_of [nop_entry 1; nop_entry 2; nop_entry 3]) as [b|] eqn:Hb;
    [|vm_compute in Hb; discriminate Hb].
  destruct (BinLogger.Truncate b 0) as [b'|] eqn:Ht.
  - exists b, b'. split; [reflexivity|]. split; [exact Ht|].
    destruct (Truncate_keeps_slots b b' 0) as (Hl & _ & Hr);
      [vm_compute; split; [discriminate | reflexivity] | exact Ht |].
    split; [exact Hl | apply Hr].
  - exfalso. revert Ht. inversion Hb; subst b. vm_compute. discriminate.
Defined.

(** C4 (as stated) fails: after truncating a three-entry log to index 0,
    [ReadSlot(2)] still returns the third entry, not not-found. *)
Lemma Truncate_tail_still_readable :
  match log_of [nop_entry 1; nop_entry 2; nop_entry 3]
        ≫= (fun b => BinLogger.Truncate b 0) with
  | Some b' =>
      BinLogger.GetLength b' = 1
      /\ 2 > 0
      /\ BinLogger.ReadSlot b' 2 = BinLogger.SlotOk (nop_entry 3)
      /\ BinLogger.ReadSlot b' 2 <> BinLogger.SlotNotFound
  | None => False
  end.
Proof. vm_compute. repeat split; discriminate. Qed.

(** ** Election: the Vote handler *)

Section VoteFacts.

Context `{um : UserManagerApi}.


Lemma TransToFollower_fields (n : InsNodeImpl) t :
  status_ (TransToFollower n t) = kFollower
  /\ current_term_ (TransToFollower n t) = t
  /\ voted_for_ (TransToFollower n t) = voted_for_ n
  /\ binlogger_ (TransToFollower n t) = binlogger_ n.
Proof. repeat split. Qed.

End VoteFacts.

Ltac vote_case :=
  cbn; repeat split; intros;
  try lia; try discriminate; try tauto; try congruence;
  try (intuition lia); try (intuition congruence).

(** C3 (as amended).  A node grants a vote if and only if
    request.term >= current_term, the candidate's log is at least as up to
    date, and the node has no vote recorded for request.term or its vote
    there is for this candidate.  When request.term > current_term and the
    candidate's log is up to date, the node steps down to follower and
    adopts the higher term before it looks at the vote record; when the
    candidate's log is not up to date the request is refused first, with
    the node's state (role and term) left as it was. *)
Theorem Vote_grant_rule `{um : UserManagerApi} (n : InsNodeImpl)
    (request : VoteRequest.t) :
  (VoteResponse.vote_granted (Vote n request).2 = true
   <-> VoteRequest.term request >= current_term_ n
       /\ log_up_to_date n request
       /\ (voted_for_ n !! VoteRequest.term request = None
           \/ voted_for_ n !! VoteRequest.term request
              = Some (VoteRequest.candidate_id request)))
  /\ (VoteRequest.term request > current_term_ n ->
      log_up_to_date n request ->
      status_ (Vote n request).1 = kFollower
      /\ current_term_ (Vote n request).1 = VoteRequest.term request
      /\ VoteResponse.term (Vote n request).2 = VoteRequest.term request)
  /\ (VoteRequest.term request > current_term_ n ->
      ~ log_up_to_date n request ->
      (Vote n request).1 = n
      /\ VoteResponse.vote_granted (Vote n request).2 = false
      /\ VoteResponse.term (Vote n request).2 = current_term_ n).
Proof.
  unfold Vote, log_up_to_date.
  destruct (BinLogger.GetLastLogIndexAndTerm (binlogger_ n))
    as [last_log_index last_log_term].
  destruct (decide (VoteRequest.term request < current_term_ n)) as [Hlt|Hge];
    [vote_case|].
  destruct (decide (VoteRequest.last_log_term request < last_log_term))
    as [H1|H1]; [vote_case|].
  destruct (decide (VoteRequest.last_log_term request = last_log_term
                    /\ VoteRequest.last_log_index request < last_log_index))
    as [H2|H2]; [vote_case|].
  assert (VoteRequest.last_log_term request > last_log_term
          \/ VoteRequest.last_log_term request = last_log_term
             /\ VoteRequest.last_log_index request >= last_log_index) as Hup
    by lia.
  destruct (decide (VoteRequest.term request > current_term_ n)) as [Hgt|Heq].
  - cbn [voted_for_ current_term_ TransToFollower set_meta_ set_current_term_
         set_status_].
    destruct (voted_for_ n !! VoteRequest.term request) as [v|] eqn:Hv.
    + destruct (decide (v <> VoteRequest.candidate_id request)) as [Hne|He].
      * vote_case.
      * apply dec_stable in He. subst v. vote_case.
    + vote_case.
  - assert (VoteRequest.term request = current_term_ n) as Et by lia.
    rewrite Et.
    destruct (voted_for_ n !! current_term_ n) as [v|] eqn:Hv.
    + destruct (decide (v <> VoteRequest.candidate_id request)) as [Hne|He].
      * vote_case.
      * apply dec_stable in He. subst v. vote_case.
    + vote_case.
Qed.

(** C3 (as stated) fails: a leader at term 1 whose log ends in term 1 gets
    a vote request of term 5 from a candidate whose log ends in term 0.
    The request is refused before the term is looked at again: the node
    neither steps down nor adopts term 5. *)
Lemma Vote_stale_log_no_step_down :
  match log_of [nop_entry 1] with
  | Some b =>
      let n := example_node kLeader 1 b (example_store "" []) ∅ false 0 0 in
      let request := VoteRequest.mk 5 "B" 0 0 in
      VoteRequest.term request > current_term_ n
      /\ status_ (Vote n request).1 = kLeader
      /\ current_term_ (Vote n request).1 = 1
      /\ VoteResponse.vote_granted (Vote n request).2 = false
  | None => False
  end.
Proof. vm_compute. repeat split. Qed.

(** ** Commit index: what holds of it and of last_applied *)

Section CommitFacts.

Context `{ops : LogOperationValues} `{um : UserManagerApi}.
Context (cfg : Config).

(** [UpdateCommitIndex] never lowers the commit index and leaves
    last_applied alone; it signals exactly when it raises the index. *)
Lemma UpdateCommitIndex_monotone (n : InsNodeImpl) a_index :
  let '(n', signalled) := UpdateCommitIndex cfg n a_index in
  commit_index_ n <= commit_index_ n'
  /\ last_applied_index_ n' = last_applied_index_ n
  /\ (signalled = true -> commit_index_ n' = a_index /\ a_index > commit_index_ n)
  /\ (signalled = false -> commit_index_ n' = commit_index_ n).
Proof.
  unfold UpdateCommitIndex. destruct (count_matches _ _ _ _) as [c m].
  destruct (decide _) as [[_ Hgt]|]; cbn in *;
    repeat split; intros; try discriminate; lia.
Qed.

(** What the follower handler does to the commit index: on the paths that
    answer success it becomes min(last log index, leader_commit_index),
    whatever it was; on the others it is unchanged.  last_applied is never
    touched. *)
Lemma DoAppendEntries_commit_index (n n' : InsNodeImpl) request response signalled :
  DoAppendEntries cfg n request = Some (n', response, signalled) ->
  last_applied_index_ n' = last_applied_index_ n
  /\ (AppendEntriesResponse.success response = true ->
      commit_index_ n'
      = Z.min (BinLogger.GetLastLogIndex (binlogger_ n'))
              (AppendEntriesRequest.leader_commit_index request))
  /\ (AppendEntriesResponse.success response = false ->
      commit_index_ n' = commit_index_ n).
Proof.
  unfold DoAppendEntries.
  repeat match goal with
         | |- context [decide ?P] => destruct (decide P)
         | |- context [BinLogger.ReadSlot ?b ?i] => destruct (BinLogger.ReadSlot b i)
         | |- context [BinLogger.Truncate ?b ?i] => destruct (BinLogger.Truncate b i)
         | |- context [BinLogger.AppendEntryList ?b ?l] =>
             destruct (BinLogger.AppendEntryList b l)
         | |- _ => progress cbn [mbind option_bind]
         end;
    intros H; inversion H; subst; cbn;
    repeat split; intros; try discriminate; reflexivity.
Qed.

End CommitFacts.

Section ApplyFacts.

Context `{ops : LogOperationValues} `{um : UserManagerApi}.

Lemma apply_switch_indices (n : InsNodeImpl) e nop op0 a :
  apply_switch n e nop op0 = Some a ->
  commit_index_ (applied_node a) = commit_index_ n
  /\ last_applied_index_ (applied_node a) = last_applied_index_ n.
Proof.
  unfold apply_switch.
  repeat match goal with
         | |- context [decide ?P] => destruct (decide P)
         | |- context [retry_opening ?s ?u ?f] =>
             destruct (retry_opening s u f) as [? ?]
         | |- context [StorageManager.Get ?s ?u ?k] =>
             destruct (StorageManager.Get s u k) as [? ?]
         | |- context [ParseValue ?v ?o ?r] => destruct (ParseValue v o r) as [? ?]
         | |- context [um_Login ?m ?k ?v ?u] => destruct (um_Login m k v u) as [? ?]
         | |- context [um_Logout ?m ?u] => destruct (um_Logout m u) as [? ?]
         | |- context [um_Register ?m ?k ?v] => destruct (um_Register m k v) as [? ?]
         end;
    intros H; inversion H; subst; cbn; split; reflexivity.
Qed.

(** Each round of the worker raises last_applied by exactly one and leaves
    the commit index alone. *)
Lemma apply_entry_last_applied (n n' : InsNodeImpl) i nop op0 nop' ts rs :
  last_applied_index_ n < int64_max ->
  int64_min <= last_applied_index_ n ->
  apply_entry n i nop op0 = Some (n', nop', ts, rs) ->
  last_applied_index_ n' = last_applied_index_ n + 1
  /\ commit_index_ n' = commit_index_ n.
Proof.
  intros Hmax Hmin. unfold apply_entry.
  destruct (BinLogger.ReadSlot (binlogger_ n) i) as [e| |]; try discriminate.
  cbn [mbind option_bind].
  destruct (apply_switch n e nop op0) as [a|] eqn:HA; [|discriminate].
  cbn [mbind option_bind].
  destruct (apply_switch_indices _ _ _ _ _ HA) as [Hc Hl].
  destruct (_ && _); destruct (client_ack_ _ !! i);
    repeat match goal with
           | |- context [decide ?P] => destruct (decide P)
           | |- context [StorageManager.Put ?s ?u ?k ?v] =>
               destruct (StorageManager.Put s u k v) as [? ?]
           end;
    intros H; inversion H; subst; cbn;
    rewrite ?Hc, ?Hl; (split; [apply to_int64_id; lia | reflexivity]).
Qed.

End ApplyFacts.

(** C1 fails on the follower path: a follower at term 2 with three log
    entries, all committed and applied (commit_index = last_applied = 2),
    receives the heartbeat of a freshly restarted leader of term 3, whose
    own commit index is still -1.  The handler answers success and leaves
    commit_index at min(2, -1) = -1, below its previous value and below
    last_applied. *)
Theorem DoAppendEntries_commit_index_regresses :
  match log_of [nop_entry 1; nop_entry 2; nop_entry 2] with
  | Some b =>
      let cfg := example_config ["A"; "B"; "C"] in
      let n := example_node kFollower 2 b (example_store "" []) ∅ true 2 2 in
      let request := AppendEntriesRequest.mk 3 "B" 0 0 (-1) [] in
      match DoAppendEntries cfg n request with
      | Some (n', response, signalled) =>
          AppendEntriesResponse.success response = true
          /\ commit_index_ n = 2
          /\ commit_index_ n' = -1
          /\ commit_index_ n' < commit_index_ n
          /\ commit_index_ n' < last_applied_index_ n'
      | None => False
      end
  | None => False
  end.
Proof. vm_compute. repeat split. Qed.

(** ** The majority test of UpdateCommitIndex above index 0 *)

Section MajorityFacts.

Context `{um : UserManagerApi}.
Context (cfg : Config).


Lemma index_at_spec (m : gmap string Z) x :
  (index_at m x).1 = default 0 (m !! x)
  /\ dom (index_at m x).2 = dom m ∪ {[x]}
  /\ (forall y, default 0 ((index_at m x).2 !! y) = default 0 (m !! y)).
Proof.
  unfold index_at. destruct (m !! x) as [v|] eqn:E; cbn.
  - split; [reflexivity|]. split; [|reflexivity].
    apply elem_of_dom_2 in E. set_solver.
  - split; [reflexivity|]. split; [rewrite dom_insert_L; set_solver|].
    intros y. rewrite lookup_insert. case_decide; subst; cbn; [|reflexivity].
    now rewrite E.
Qed.

Lemma count_matches_spec a_index (l : list string) :
  forall (m : gmap string Z) c,
    0 <= c -> c + Z.of_nat (length l) < 2 ^ 32 ->
    (count_matches l a_index m c).1
    = c + Z.of_nat (length (List.filter (matched m a_index) l))
    /\ dom (count_matches l a_index m c).2 = dom m ∪ list_to_set l.
Proof.
  induction l as [|x l IH]; intros m c Hc Hb.
  - cbn. split; [lia | set_solver].
  - cbn [count_matches]. destruct (index_at_spec m x) as (Hv & Hd & Hsame).
    destruct (index_at m x) as [v m1]. cbn [fst snd] in Hv, Hd, Hsame.
    cbn [length] in Hb.
    assert (List.filter (matched m1 a_index) l = List.filter (matched m a_index) l)
      as Hf.
    { apply List.filter_ext. intros y. unfold matched. now rewrite Hsame. }
    assert (matched m a_index x = bool_decide (v >= a_index)) as Hmx
      by (unfold matched; now rewrite Hv).
    cbn [List.filter]. rewrite Hmx.
    destruct (decide (v >= a_index)) as [Hge|Hlt].
    + rewrite bool_decide_eq_true_2 by assumption.
      rewrite Z.mod_small by lia.
      destruct (IH m1 (c + 1)) as [-> ->]; [lia | lia |].
      rewrite Hf, Hd. cbn [length]. split; [lia | set_solver].
    + rewrite bool_decide_eq_false_2 by assumption.
      destruct (IH m1 c) as [-> ->]; [lia | lia |].
      rewrite Hf, Hd. split; [lia | set_solver].
Qed.

(** Counting over all members what the loop sees is counting the followers
    that reached [a_index], as long as the leader's own entry is absent (it
    reads as 0) and [a_index] is positive. *)
Lemma matched_members_followers (m : gmap string Z) a_index (l : list string) :
  0 < a_index ->
  m !! self_id_ cfg = None ->
  length (List.filter (matched m a_index) l)
  = length (List.filter
              (fun f => from_option (fun v => bool_decide (v >= a_index)) false
                          (m !! f))
              (filter (fun server => server <> self_id_ cfg) l)).
Proof.
  intros Ha Hself. induction l as [|x l IH]; [reflexivity|].
  cbn [List.filter]. destruct (decide (x = self_id_ cfg)) as [->|Hx].
  - rewrite filter_cons_False by auto. unfold matched at 1. rewrite Hself. cbn.
    rewrite bool_decide_eq_false_2 by lia. exact IH.
  - rewrite filter_cons_True by assumption. cbn [List.filter].
    unfold matched at 1. destruct (m !! x) as [v|]; cbn.
    + destruct (bool_decide (v >= a_index)); cbn; now rewrite IH.
    + rewrite bool_decide_eq_false_2 by lia. exact IH.
Qed.

(** Above index 0, on a leader whose [match_index_] has an entry for every
    other member and none for itself, [UpdateCommitIndex] commits exactly on
    a strict majority (counting the leader) with [a_index] beyond the commit
    index. *)
Lemma UpdateCommitIndex_majority (n : InsNodeImpl) a_index :
  NoDup (members_ cfg) ->
  self_id_ cfg ∈ members_ cfg ->
  Z.of_nat (length (members_ cfg)) < 2 ^ 32 ->
  dom (match_index_ n) = list_to_set (others_ cfg) ->
  0 < a_index ->
  (UpdateCommitIndex cfg n a_index).2 = true
  <-> 2 * holders cfg n a_index > Z.of_nat (length (members_ cfg))
      /\ a_index > commit_index_ n.
Proof.
  intros Hnd Hin Hlen Hdom Ha. unfold UpdateCommitIndex, holders.
  destruct (count_matches_spec a_index (members_ cfg) (match_index_ n) 0)
    as [Hc Hd]; [lia | lia |].
  destruct (count_matches _ _ _ _) as [c m]. cbn [fst snd] in Hc, Hd.
  assert (match_index_ n !! self_id_ cfg = None) as Hself.
  { apply not_elem_of_dom. rewrite Hdom. unfold others_.
    rewrite elem_of_list_to_set, list_elem_of_filter. tauto. }
  rewrite (matched_members_followers _ _ _ Ha Hself) in Hc.
  fold (others_ cfg) in Hc.
  assert (size m = length (members_ cfg)) as Hsize.
  { rewrite <- size_dom, Hd, Hdom.
    assert (list_to_set (others_ cfg) ∪ list_to_set (members_ cfg)
            = (list_to_set (members_ cfg) : gset string)) as ->.
    { unfold others_. apply set_eq. intros x.
      rewrite elem_of_union, !elem_of_list_to_set, list_elem_of_filter. tauto. }
    now apply size_list_to_set. }
  rewrite Hsize. cbn [commit_index_ set_match_index_].
  set (k := Z.of_nat (length (List.filter _ (others_ cfg)))) in *.
  assert (commit_index_ (set_match_index_ m n) = commit_index_ n) as Hci
    by reflexivity.
  destruct (decide _) as [[H1 H2]|Hno]; cbn [snd]; rewrite ?Hci in *.
  - split; [intros _|reflexivity]. split; [|lia].
    pose proof (Z.div_mod (Z.of_nat (length (members_ cfg))) 2 ltac:(lia)).
    pose proof (Z.mod_pos_bound (Z.of_nat (length (members_ cfg))) 2 ltac:(lia)).
    lia.
  - split; [discriminate|]. intros [H1 H2]. exfalso. apply Hno. split; [|lia].
    pose proof (Z.div_mod (Z.of_nat (length (members_ cfg))) 2 ltac:(lia)).
    pose proof (Z.mod_pos_bound (Z.of_nat (length (members_ cfg))) 2 ltac:(lia)).
    lia.
Qed.

End MajorityFacts.

(** C2 fails at index 0 of a five-member cluster: candidate A wins the
    election of term 1 on an empty log; [TransToLeader] gives every follower
    match index -1 and appends the no-op at index 0, and B acknowledges the
    entry.  [ReplicateLog] records match index 0 for B and calls
    [UpdateCommitIndex(0)]; the loop reads the leader's own [match_index_]
    entry, which the map's subscript operator creates as 0, so the count is
    2 and passes the test against 5 / 2: index 0 is committed and the worker
    signalled although only 2 of the 5 members hold the entry. *)
Theorem UpdateCommitIndex_commits_without_majority :
  let cfg := example_config ["A"; "B"; "C"; "D"; "E"] in
  let candidate :=
    example_node kCandidate 1 BinLogger.empty (example_store "" []) ∅ true
      (-1) (-1) in
  match TransToLeader (ops := example_ops) cfg candidate ∅ with
  | Some n =>
      let acked := AppendEntriesResponse.mk 1 true 1 false in
      let '(n', signalled) := ReplicateLog_response cfg n "B" 0 1 1 true acked in
      match_index_ n
      = list_to_map [("B", -1); ("C", -1); ("D", -1); ("E", -1)]
      /\ BinLogger.ReadSlot (binlogger_ n') 0 = BinLogger.SlotOk (nop_entry 1)
      /\ LogEntry.term (nop_entry 1) = current_term_ n'
      /\ commit_index_ n = -1
      /\ commit_index_ n' = 0
      /\ signalled = true
      /\ holders cfg n' 0 = 2
      /\ ~ (2 * holders cfg n' 0 > Z.of_nat (length (members_ cfg)))
  | None => False
  end.
Proof. vm_compute. repeat split; discriminate. Qed.

(** ** Admission of client requests in safe mode *)

Section AdmissionFacts.

Context `{ops : LogOperationValues} `{um : UserManagerApi}.
Context (cfg : Config).

Lemma find_first_of_bind (user key : string) :
  exists i, find_first_of ":"%char (BindKeyAndUser user key) = Some i
            /\ (i <= String.length user)%nat.
Proof.
  unfold BindKeyAndUser. induction user as [|c user IH].
  - exists O. split; [reflexivity | cbn; lia].
  - rewrite append_cons. cbn [find_first_of String.length].
    destruct (decide (c = ":"%char)).
    + exists O. split; [reflexivity | lia].
    + destruct IH as (i & -> & Hi). exists (S i). split; [reflexivity | lia].
Qed.

Lemma GetKeyFromEvent_bind (user key : string) :
  is_Some (GetKeyFromEvent (BindKeyAndUser user key)).
Proof.
  unfold GetKeyFromEvent.
  destruct (find_first_of_bind user key) as (i & -> & Hi).
  assert (String.length (BindKeyAndUser user key)
          = (String.length user + (2 + String.length key))%nat) as ->.
  { unfold BindKeyAndUser. now rewrite !length_append. }
  rewrite decide_False by lia. eauto.
Qed.

Lemma TriggerEventBySessionAndKey_bind events session user key value deleted :
  is_Some (TriggerEventBySessionAndKey events session
             (BindKeyAndUser user key) value deleted).
Proof.
  unfold TriggerEventBySessionAndKey.
  destruct (List.filter _ events); [eauto|].
  destruct (GetKeyFromEvent_bind user key) as [s ->]. cbn. eauto.
Qed.

Lemma UpdateCommitIndex_binlogger (n : InsNodeImpl) i :
  binlogger_ (UpdateCommitIndex cfg n i).1 = binlogger_ n.
Proof.
  unfold UpdateCommitIndex. destruct (count_matches _ _ _ _) as [c m].
  destruct (decide _); reflexivity.
Qed.

Lemma append_and_ack_binlogger (n n' : InsNodeImpl) e fill b' s :
  BinLogger.AppendEntry (binlogger_ n) e = Some b' ->
  append_and_ack cfg n e fill = Some (n', s) ->
  binlogger_ n' = b'.
Proof.
  unfold append_and_ack. intros ->. cbn [mbind option_bind].
  destruct (single_node_mode_ cfg); intros H; inversion H; subst.
  - change n' with ((n', s).1). rewrite <- H1.
    now rewrite UpdateCommitIndex_binlogger.
  - reflexivity.
Qed.

Lemma append_and_ack_appends (n : InsNodeImpl) e fill b' :
  BinLogger.AppendEntry (binlogger_ n) e = Some b' ->
  exists n' s, append_and_ack cfg n e fill = Some (n', s) /\ binlogger_ n' = b'.
Proof.
  intros Hb.
  destruct (append_and_ack cfg n e fill) as [[n' s]|] eqn:E.
  - exists n', s. split; [reflexivity|]. eapply append_and_ack_binlogger; eauto.
  - exfalso. unfold append_and_ack in E. rewrite Hb in E.
    cbn [mbind option_bind] in E. destruct (single_node_mode_ cfg); discriminate E.
Qed.

End AdmissionFacts.

Ltac leader_cases :=
  repeat match goal with
         | |- context [decide (kLeader = ?s)] =>
             destruct (decide (kLeader = s)) as [?|_]; [discriminate|]
         end.

Section WatchRegistrationFacts.

Context `{ops : LogOperationValues} `{um : UserManagerApi}.
Context (cfg : Config).

Lemma filter_filter_negb {A} (f : A -> bool) (l : list A) :
  List.filter f (List.filter (fun e => negb (f e)) l) = [].
Proof.
  induction l as [|a l IH]; [reflexivity|]. cbn.
  destruct (f a) eqn:E; cbn; [exact IH|]. now rewrite E.
Qed.

Lemma filter_negb_idem {A} (f : A -> bool) (l : list A) :
  List.filter (fun e => negb (f e)) (List.filter (fun e => negb (f e)) l)
  = List.filter (fun e => negb (f e)) l.
Proof.
  induction l as [|a l IH]; [reflexivity|]. cbn.
  destruct (f a) eqn:E; cbn; [exact IH|]. rewrite E. cbn. now rewrite IH.
Qed.

Lemma filter_snoc_fresh {A} (f : A -> bool) (l : list A) (a : A) :
  f a = true ->
  List.filter f (List.filter (fun e => negb (f e)) l ++ [a]) = [a]
  /\ List.filter (fun e => negb (f e))
       (List.filter (fun e => negb (f e)) l ++ [a])
     = List.filter (fun e => negb (f e)) l.
Proof.
  intros Hf.
  rewrite !List.filter_app, filter_filter_negb, filter_negb_idem.
  cbn [List.filter app]. rewrite Hf. cbn [negb]. now rewrite app_nil_r.
Qed.

(** Firing the watches of a session on a key right after the session has
    registered [h] there, all earlier ones having been removed. *)
Lemma TriggerEventBySessionAndKey_fresh events session user key h value deleted :
  exists stripped,
    GetKeyFromEvent (BindKeyAndUser user key) = Some stripped
    /\ TriggerEventBySessionAndKey
         (List.filter
            (fun e => negb (bool_decide (watch_session_id_ e = session)
                            && bool_decide
                                 (watch_key_ e = BindKeyAndUser user key)))
            events
          ++ [mkWatchEvent (BindKeyAndUser user key) session h])
         session (BindKeyAndUser user key) value deleted
       = Some (List.filter
                 (fun e => negb (bool_decide (watch_session_id_ e = session)
                                 && bool_decide
                                      (watch_key_ e = BindKeyAndUser user key)))
                 events,
               [(h, WatchResponse.mk stripped stripped value deleted true
                      EmptyString false false)]).
Proof.
  set (bk := BindKeyAndUser user key).
  set (hit := fun e : WatchEvent =>
                bool_decide (watch_session_id_ e = session)
                && bool_decide (watch_key_ e = bk)).
  destruct (GetKeyFromEvent_bind user key) as [stripped Hk].
  fold bk in Hk. exists stripped. split; [exact Hk|].
  assert (hit (mkWatchEvent bk session h) = true) as Hh.
  { unfold hit. cbn. now rewrite !bool_decide_eq_true_2. }
  destruct (filter_snoc_fresh hit events _ Hh) as [H1 H2].
  unfold TriggerEventBySessionAndKey. cbv zeta.
  unfold hit in *. cbv beta in H1, H2.
  rewrite H1, H2, Hk. reflexivity.
Qed.


End WatchRegistrationFacts.




(** ** Locks *)

Section LockFacts.

Context `{ops : LogOperationValues} `{um : UserManagerApi}.
Context (cfg : Config).


Lemma char_val_byte_of op : 0 <= op < 128 -> char_val (byte_of op) = op.
Proof.
  intros H. unfold char_val. rewrite byte_val_of, Z.mod_small by lia.
  destruct (Z.ltb_spec op 128); lia.
Qed.

Lemma ParseValue_tagged op value op0 r :
  0 <= op < 128 -> ParseValue (tagged op value) op0 r = (op, value).
Proof. intros H. unfold ParseValue, tagged. now rewrite char_val_byte_of. Qed.

Lemma Get_after_Put sm sm' user key value :
  StorageManager.Put sm user key value = (kOk, sm') ->
  StorageManager.Get sm' user key = (kOk, value).
Proof.
  unfold StorageManager.Put, StorageManager.Get, StorageManager.FindDB.
  destruct (StorageManager.dbs_ sm !! user) as [db|] eqn:E; [|discriminate].
  intros H. inversion H; subst sm'. cbn [StorageManager.dbs_].
  rewrite lookup_insert_eq. now rewrite lookup_insert_eq.
Qed.

Lemma LockIsAvailable_iff (n : InsNodeImpl) user key session_id op0 :
  LockIsAvailable n user key session_id op0 = true
  <-> lock_grantable n user key session_id op0.
Proof.
  unfold LockIsAvailable, lock_grantable, lock_owner.
  destruct (StorageManager.Get (data_store_ n) user key) as [s value].
  destruct (ParseValue value op0 EmptyString) as [op owner].
  cbn [fst]. destruct (decide (s <> kOk)) as [Hs|Hs].
  - rewrite bool_decide_eq_true. split; [tauto|].
    intros [[_ ?]|[(o & Ho & _)|[Ho _]]]; [assumption| |];
      destruct s; congruence.
  - apply dec_stable in Hs. subst s.
    destruct (decide (op <> kLock)) as [Hop|Hop].
    + rewrite decide_False by assumption. split; [discriminate|].
      intros [[? _]|[(o & Ho & _)|[Ho _]]]; congruence.
    + apply dec_stable in Hop. rewrite decide_True by assumption.
      destruct (sessions_ n !! owner) as [old|] eqn:Eo;
        destruct (sessions_ n !! session_id) as [self|] eqn:Es.
      * rewrite bool_decide_eq_true. split.
        -- intros ->. right; right. split; [reflexivity | eauto].
        -- intros [[? _]|[(o & Ho & Hn & _)|[Ho _]]]; congruence.
      * rewrite bool_decide_eq_true. split.
        -- intros ->. congruence.
        -- intros [[? _]|[(o & Ho & Hn & _)|[Ho _]]]; congruence.
      * split; [intros _|reflexivity].
        right; left. exists owner. split; [reflexivity|]. split; [assumption|eauto].
      * split; [discriminate|].
        intros [[_ [? ?]]|[(o & _ & _ & [? ?])|[_ [? ?]]]]; discriminate.
Qed.

Lemma UpdateCommitIndex_frame (n : InsNodeImpl) i :
  let n' := (UpdateCommitIndex cfg n i).1 in
  data_store_ n' = data_store_ n /\ sessions_ n' = sessions_ n
  /\ status_ n' = status_ n /\ in_safe_mode_ n' = in_safe_mode_ n
  /\ user_manager_ n' = user_manager_ n.
Proof.
  unfold UpdateCommitIndex. destruct (count_matches _ _ _ _) as [c m].
  destruct (decide _); cbn; auto.
Qed.

Lemma append_and_ack_frame (n n' : InsNodeImpl) e fill s :
  append_and_ack cfg n e fill = Some (n', s) ->
  data_store_ n' = data_store_ n /\ sessions_ n' = sessions_ n
  /\ status_ n' = status_ n /\ in_safe_mode_ n' = in_safe_mode_ n
  /\ user_manager_ n' = user_manager_ n.
Proof.
  unfold append_and_ack.
  destruct (BinLogger.AppendEntry (binlogger_ n) e) as [b|]; [|discriminate].
  cbn [mbind option_bind].
  destruct (single_node_mode_ cfg); intros H.
  - match type of H with
    | Some (UpdateCommitIndex _ ?x ?y) = _ =>
        pose proof (UpdateCommitIndex_frame x y) as F;
        destruct (UpdateCommitIndex cfg x y) as [n2 s2]
    end.
    inversion H; subst. exact F.
  - inversion H; subst. cbn; auto.
Qed.

End LockFacts.

Section LockHandlerFacts.

Context `{ops : LogOperationValues} `{um : UserManagerApi}.
Context (cfg : Config).

(** Past its admission checks, [Lock] is the availability test followed by
    the optimistic store and the append. *)
Lemma Lock_admitted (n : InsNodeImpl) request h tm_now op0 :
  status_ n = kLeader ->
  in_safe_mode_ n = false ->
  uuid_unknown n (LockRequest.uuid request) = false ->
  tm_now - server_start_timestamp_ cfg >= FLAGS_session_expire_timeout cfg ->
  let user := GetUsernameFromUuid (user_manager_ n) (LockRequest.uuid request) in
  let key := LockRequest.key request in
  let session_id := LockRequest.session_id request in
  Lock cfg n request h tm_now op0
  = if LockIsAvailable n user key session_id op0 then
      let '(st, sm) :=
        StorageManager.Put (data_store_ n) user key (tagged kLock session_id) in
      if decide (st = kOk) then
        '(n1, signalled) ←
          append_and_ack cfg (set_data_store_ sm n)
            (LogEntry.mk kLock user key session_id (current_term_ n))
            (ack_lock h);
        Some (n1, Held, signalled)
      else None
    else Some (n, Replied (WriteResponse.mk false EmptyString false), false).
Proof.
  intros Hl Hs Hu Ht. cbv zeta. unfold Lock. rewrite Hl, Hs, Hu. leader_cases.
  rewrite andb_false_r.
  destruct (decide (kLeader = kLeader /\ _)) as [[_ ?]|_]; [lia|].
  reflexivity.
Qed.

Lemma Put_ok_inv sm sm' user key value st :
  StorageManager.Put sm user key value = (st, sm') ->
  (st = kOk <-> is_Some (StorageManager.dbs_ sm !! user)).
Proof.
  unfold StorageManager.Put, StorageManager.FindDB.
  destruct (StorageManager.dbs_ sm !! user); intros H; inversion H; subst;
    split; intros; eauto; try discriminate.
  destruct H0 as [? ?]; discriminate.
Qed.

End LockHandlerFacts.

Section LockSequenceFacts.

Context `{ops : LogOperationValues} `{um : UserManagerApi}.
Context (cfg : Config).

Lemma Lock_held_inv (n n1 : InsNodeImpl) request h tm_now op0 s :
  status_ n = kLeader ->
  in_safe_mode_ n = false ->
  uuid_unknown n (LockRequest.uuid request) = false ->
  tm_now - server_start_timestamp_ cfg >= FLAGS_session_expire_timeout cfg ->
  Lock cfg n request h tm_now op0 = Some (n1, Held, s) ->
  let user := GetUsernameFromUuid (user_manager_ n) (LockRequest.uuid request) in
  let key := LockRequest.key request in
  let session_id := LockRequest.session_id request in
  LockIsAvailable n user key session_id op0 = true
  /\ exists sm,
       StorageManager.Put (data_store_ n) user key (tagged kLock session_id)
       = (kOk, sm)
       /\ append_and_ack cfg (set_data_store_ sm n)
            (LogEntry.mk kLock user key session_id (current_term_ n))
            (ack_lock h) = Some (n1, s).
Proof.
  intros Hl Hs Hu Ht HL. cbv zeta.
  rewrite (Lock_admitted cfg n request h tm_now op0 Hl Hs Hu Ht) in HL.
  cbv zeta in HL.
  destruct (LockIsAvailable n _ _ _ op0); [|discriminate HL].
  split; [reflexivity|].
  destruct (StorageManager.Put _ _ _ _) as [st sm].
  destruct (decide (st = kOk)) as [->|]; [|discriminate HL].
  exists sm. split; [reflexivity|].
  destruct (append_and_ack _ _ _ _) as [[n2 s2]|]; [|discriminate HL].
  cbn in HL. now inversion HL.
Qed.

Lemma Get_ok_open sm user key value :
  StorageManager.Get sm user key = (kOk, value) ->
  is_Some (StorageManager.dbs_ sm !! user).
Proof.
  unfold StorageManager.Get, StorageManager.FindDB.
  destruct (StorageManager.dbs_ sm !! user); [eauto | discriminate].
Qed.

Lemma lock_grantable_live (n : InsNodeImpl) user key session_id op0 :
  lock_grantable n user key session_id op0 ->
  is_Some (sessions_ n !! session_id).
Proof. intros [[_ ?]|[(o & _ & _ & ?)|[_ ?]]]; assumption. Qed.

(** Once [session_id] holds the lock on a live session, it may take it again
    and nobody else may. *)
Lemma held_lock_grantable (n : InsNodeImpl) user key session_id :
  0 <= kLock < 128 ->
  StorageManager.Get (data_store_ n) user key = (kOk, tagged kLock session_id) ->
  is_Some (sessions_ n !! session_id) ->
  forall other op1,
    lock_grantable n user key other op1 <-> other = session_id.
Proof.
  intros Hk HG Hlive other op1. unfold lock_grantable, lock_owner.
  rewrite HG, (ParseValue_tagged _ _ _ _ Hk). cbn [fst].
  rewrite decide_True by reflexivity. split.
  - intros [[? _]|[(o & Ho & Hn & _)|[Ho _]]]; [congruence| |congruence].
    inversion Ho; subst o. rewrite Hn in Hlive. destruct Hlive; discriminate.
  - intros ->. right; right. split; [reflexivity | assumption].
Qed.

End LockSequenceFacts.

(** C6 (as amended).  On a leader that admits the request, Lock(key,
    session) is granted -- the Lock-tagged value is written and the Lock
    entry appended -- if and only if (a) the key cannot be read in the
    caller's namespace and the caller's session exists, or (b) the stored
    value is Lock-tagged, its owning session is gone from the session table
    and the caller's session exists, or (c) the stored value is Lock-tagged,
    owned by the caller's own session, and that session still exists in the
    session table.  Consequently Lock(k,S) followed by Lock(k,S) succeeds,
    and Lock(k,S') by a different session fails while S holds the lock. *)
Theorem Lock_grant_rule `{ops : LogOperationValues} `{um : UserManagerApi}
    (cfg : Config) (n : InsNodeImpl) (request : LockRequest.t)
    (h : rpc_handle) (tm_now : Z) (op0 : LogOperation) :
  status_ n = kLeader ->
  in_safe_mode_ n = false ->
  uuid_unknown n (LockRequest.uuid request) = false ->
  tm_now - server_start_timestamp_ cfg >= FLAGS_session_expire_timeout cfg ->
  0 <= kLock < 128 ->
  let user := GetUsernameFromUuid (user_manager_ n) (LockRequest.uuid request) in
  let key := LockRequest.key request in
  let session_id := LockRequest.session_id request in
  let refused := WriteResponse.mk false EmptyString false in
  (~ lock_grantable n user key session_id op0 ->
   Lock cfg n request h tm_now op0 = Some (n, Replied refused, false))
  /\ (lock_grantable n user key session_id op0 ->
      forall b',
        is_Some (StorageManager.dbs_ (data_store_ n) !! user) ->
        BinLogger.AppendEntry (binlogger_ n)
          (LogEntry.mk kLock user key session_id (current_term_ n)) = Some b' ->
        exists n1 s,
          Lock cfg n request h tm_now op0 = Some (n1, Held, s)
          /\ binlogger_ n1 = b'
          /\ StorageManager.Get (data_store_ n1) user key
             = (kOk, tagged kLock session_id))
  /\ (forall n1 s,
        Lock cfg n request h tm_now op0 = Some (n1, Held, s) ->
        lock_grantable n user key session_id op0
        /\ (forall h' tm' op1 b2,
              tm' >= tm_now ->
              BinLogger.AppendEntry (binlogger_ n1)
                (LogEntry.mk kLock user key session_id (current_term_ n1))
              = Some b2 ->
              exists n2 s2,
                Lock cfg n1 request h' tm' op1 = Some (n2, Held, s2))
        /\ (forall other h' tm' op1,
              tm' >= tm_now ->
              other <> session_id ->
              Lock cfg n1 (LockRequest.mk key other (LockRequest.uuid request))
                h' tm' op1
              = Some (n1, Replied refused, false))).
Proof.
  intros Hl Hs Hu Ht Hk user key session_id refused.
  pose proof (Lock_admitted cfg n request h tm_now op0 Hl Hs Hu Ht) as HL.
  cbv zeta in HL. fold user key session_id in HL.
  split; [|split].
  - intros Hng. rewrite HL.
    destruct (LockIsAvailable n user key session_id op0) eqn:E; [|reflexivity].
    exfalso. apply Hng. now apply LockIsAvailable_iff.
  - intros Hg b' Hopen Hb. apply LockIsAvailable_iff in Hg. rewrite HL, Hg.
    destruct (StorageManager.Put (data_store_ n) user key
                (tagged kLock session_id)) as [st sm] eqn:EP.
    assert (st = kOk) as -> by (eapply Put_ok_inv; eauto).
    rewrite decide_True by reflexivity.
    destruct (append_and_ack_appends cfg (set_data_store_ sm n)
                (LogEntry.mk kLock user key session_id (current_term_ n))
                (ack_lock h) b' Hb) as (n1 & s & EA & Hb1).
    rewrite EA. cbn [mbind option_bind]. exists n1, s.
    split; [reflexivity|]. split; [exact Hb1|].
    destruct (append_and_ack_frame cfg _ _ _ _ _ EA) as (Hd & _).
    rewrite Hd. cbn [data_store_ set_data_store_].
    eapply Get_after_Put; eauto.
  - intros n1 s HH.
    destruct (Lock_held_inv cfg n n1 request h tm_now op0 s Hl Hs Hu Ht HH)
      as (Hav & sm & EP & EA).
    fold user key session_id in Hav, EP, EA.
    apply LockIsAvailable_iff in Hav.
    destruct (append_and_ack_frame cfg _ _ _ _ _ EA)
      as (Hd & Hse & Hst & Hsm & Hum).
    cbn [data_store_ sessions_ status_ in_safe_mode_ user_manager_
         set_data_store_] in Hd, Hse, Hst, Hsm, Hum.
    assert (StorageManager.Get (data_store_ n1) user key
            = (kOk, tagged kLock session_id)) as HG
      by (rewrite Hd; eapply Get_after_Put; eauto).
    assert (is_Some (sessions_ n1 !! session_id)) as Hlive
      by (rewrite Hse; eapply lock_grantable_live; eauto).
    assert (status_ n1 = kLeader) as Hl1 by congruence.
    assert (in_safe_mode_ n1 = false) as Hs1 by congruence.
    assert (forall u, uuid_unknown n1 u = uuid_unknown n u) as Hu1
      by (intros u; unfold uuid_unknown; now rewrite Hum).
    split; [exact Hav|split].
    + intros h' tm' op1 b2 Htm Hb2.
      rewrite (Lock_admitted cfg n1 request h' tm' op1 Hl1 Hs1)
        by (rewrite ?Hu1; first [exact Hu | lia]).
      cbv zeta. rewrite Hum. fold user key session_id.
      assert (LockIsAvailable n1 user key session_id op1 = true) as ->.
      { apply LockIsAvailable_iff.
        now apply (held_lock_grantable n1 user key session_id Hk HG Hlive). }
      destruct (StorageManager.Put (data_store_ n1) user key
                  (tagged kLock session_id)) as [st sm2] eqn:EP2.
      assert (st = kOk) as ->.
      { eapply Put_ok_inv; [exact EP2|]. eapply Get_ok_open; exact HG. }
      rewrite decide_True by reflexivity.
      destruct (append_and_ack_appends cfg (set_data_store_ sm2 n1)
                  (LogEntry.mk kLock user key session_id (current_term_ n1))
                  (ack_lock h') b2 Hb2) as (n2 & s2 & -> & _).
      cbn. eauto.
    + intros other h' tm' op1 Htm Hne.
      rewrite (Lock_admitted cfg n1 _ h' tm' op1 Hl1 Hs1)
        by (cbn [LockRequest.uuid]; rewrite ?Hu1; first [exact Hu | lia]).
      cbv zeta. cbn [LockRequest.uuid LockRequest.key LockRequest.session_id].
      rewrite Hum. fold user key.
      destruct (LockIsAvailable n1 user key other op1) eqn:E; [|reflexivity].
      exfalso. apply Hne. apply LockIsAvailable_iff in E.
      now apply (held_lock_grantable n1 user key session_id Hk HG Hlive) in E.
Qed.

(** A first Lock of a free key by the live session S is granted. *)
Lemma Lock_grant_rule_witness :
  let cfg := example_config ["A"; "B"; "C"] in
  let sessions : gmap string Session := {[ "S" := mkSession "S" 9000000 "" ]} in
  let n := example_node kLeader 1 BinLogger.empty (example_store "" []) sessions
             false (-1) (-1) in
  exists n1 s,
    Lock (ops := example_ops) cfg n (LockRequest.mk "k" "S" "") 7%nat 10000000 0
    = Some (n1, Held, s).
Proof.
  intros cfg sessions n.
  destruct (BinLogger.AppendEntry (binlogger_ n)
              (LogEntry.mk (@kLock example_ops) "" "k" "S" 1)) as [b'|] eqn:Hb;
    [|vm_compute in Hb; discriminate Hb].
  destruct (Lock_grant_rule (ops := example_ops) cfg n
              (LockRequest.mk "k" "S" "") 7%nat 10000000 0)
    as (_ & Hgrant & _);
    [reflexivity | reflexivity | reflexivity | vm_compute; discriminate
    | vm_compute; split; [discriminate | reflexivity] |].
  assert (lock_grantable (ops := example_ops) n "" "k" "S" 0) as Hg.
  { left. split; [vm_compute; discriminate | vm_compute; eauto]. }
  assert (is_Some (StorageManager.dbs_ (data_store_ n) !! "")) as Hopen
    by (vm_compute; eauto).
  destruct (Hgrant Hg b' Hopen Hb) as (n1 & s & HL & _).
  exists n1, s. exact HL.
Defined.

(** C6 (as stated) fails in case (c): the key holds a Lock-tagged value
    owned by session S, S is no longer in the session table, and S asks for
    the lock again.  The request is refused. *)
Lemma Lock_by_expired_owner_refused :
  let cfg := example_config ["A"; "B"; "C"] in
  let sm := example_store "" [("k", tagged (@kLock example_ops) "S")] in
  let n := example_node kLeader 1 BinLogger.empty sm ∅ false (-1) (-1) in
  lock_owner (ops := example_ops) n "" "k" 0 = Some "S"
  /\ Lock (ops := example_ops) cfg n (LockRequest.mk "k" "S" "") 7%nat 10000000 0
     = Some (n, Replied (WriteResponse.mk false EmptyString false), false).
Proof. vm_compute. split; reflexivity. Qed.

(** ** Scan *)

Section ScanFacts.

Context `{ops : LogOperationValues} `{um : UserManagerApi}.

(** The loop adds at most [size_limit + 1 - count] items. *)
Lemma scan_loop_bound (n : InsNodeImpl) end_key size_limit op0
    (it : list (string * string)) :
  size_limit < int32_max ->
  forall count pb_size items,
    int32_min <= count <= size_limit + 1 ->
    Z.of_nat (length (scan_loop n it end_key size_limit op0 count pb_size items).1)
    <= Z.of_nat (length items) + (size_limit + 1 - count).
Proof.
  intros Hlim. induction it as [|[k v] it IH]; intros count pb_size items Hc.
  - cbn. lia.
  - cbn [scan_loop].
    destruct (negb _); [cbn; lia|].
    destruct (decide (count > size_limit)); [cbn; lia|].
    destruct (decide (pb_size > sMaxPBSize)); [cbn; lia|].
    destruct (decide (k = tag_last_applied_index)); [apply IH; lia|].
    destruct (ParseValue v op0 EmptyString) as [op real_value].
    destruct (_ && _); [apply IH; lia|].
    rewrite to_int32_id by (unfold int32_max in *; lia).
    etransitivity; [apply IH; lia|]. rewrite length_app. cbn [length]. lia.
Qed.

(** A served Scan carries at most [size_limit + 1] items. *)
Lemma Scan_item_bound (cfg : Config) (n : InsNodeImpl) request tm_now op0 :
  -1 <= ScanRequest.size_limit request < int32_max ->
  Z.of_nat (length (ScanResponse.items (Scan cfg n request tm_now op0)))
  <= ScanRequest.size_limit request + 1.
Proof.
  intros Hs. unfold Scan, refuse_scan.
  repeat match goal with
         | |- context [if ?c then _ else _] => destruct c
         end; cbn [ScanResponse.items length]; try lia.
  destruct (StorageManager.NewIterator _ _) as [it|]; [|cbn; lia].
  pose proof (scan_loop_bound n (ScanRequest.end_key request)
                (ScanRequest.size_limit request) op0
                (StorageManager.it_
                   (StorageManager.Seek it (ScanRequest.start_key request)))
                ltac:(lia) 0 0 [] ltac:(unfold int32_min; lia)) as Hb.
  destruct (scan_loop _ _ _ _ _ _ _ _) as [items has_more].
  cbn in *. lia.
Qed.

End ScanFacts.

(** C7 fails on the item bound: a store holding the keys a, b, c is scanned
    from "a" with no upper bound and size_limit = 1.  The loop tests
    [count > size_limit] before it adds an item, so it stops only once
    count has reached 2: the response carries two items (and has_more, for
    the third). *)
Theorem Scan_exceeds_size_limit :
  let cfg := example_config ["A"; "B"; "C"] in
  let put_value v := tagged (@kPut example_ops) v in
  let sm := example_store ""
              [("a", put_value "1"); ("b", put_value "2"); ("c", put_value "3")] in
  let n := example_node kLeader 1 BinLogger.empty sm ∅ false (-1) (-1) in
  let request := ScanRequest.mk "a" "" 1 "" in
  let response := Scan (ops := example_ops) cfg n request 10000000 0 in
  response
  = ScanResponse.mk [ScanItem.mk "a" "1"; ScanItem.mk "b" "2"] true true
      EmptyString false
  /\ Z.of_nat (length (ScanResponse.items response))
     > ScanRequest.size_limit request.
Proof. vm_compute. split; reflexivity. Qed.

(** ** The application worker and parent keys *)

Section ParentKeyFacts.

Context `{ops : LogOperationValues} `{um : UserManagerApi}.

Lemma rfind_lt c s i : rfind c s = Some i -> (i < String.length s)%nat.
Proof.
  revert i. induction s as [|a s IH]; intros i; cbn [rfind String.length].
  - discriminate.
  - destruct (rfind c s) as [j|].
    + intros H. inversion H; subst. specialize (IH j eq_refl). lia.
    + destruct (decide (a = c)); [|discriminate].
      intros H. inversion H. lia.
Qed.

Lemma length_substring_0 i s :
  (i <= String.length s)%nat -> String.length (substring 0 i s) = i.
Proof.
  revert s. induction i as [|i IH]; intros s Hs.
  - destruct s; reflexivity.
  - destruct s as [|a s]; cbn [String.length] in Hs; [lia|].
    cbn [substring String.length]. rewrite IH by lia. reflexivity.
Qed.

(** A parent key is a proper prefix of the key. *)
Lemma GetParentKey_ne key parent : GetParentKey key = Some parent -> parent <> key.
Proof.
  unfold GetParentKey. destruct (rfind "/"%char key) as [i|] eqn:E; [|discriminate].
  intros H Heq. inversion H as [Hp]. apply rfind_lt in E.
  apply (f_equal String.length) in Hp.
  rewrite length_substring_0 in Hp by lia. rewrite Heq in Hp. lia.
Qed.

Lemma Put_open sm user key value db :
  StorageManager.dbs_ sm !! user = Some db ->
  StorageManager.Put sm user key value
  = (kOk, StorageManager.mk (<[user := <[key := value]> db]> (StorageManager.dbs_ sm))
            (StorageManager.disk_ sm)).
Proof. intros E. unfold StorageManager.Put, StorageManager.FindDB. now rewrite E. Qed.

Lemma Delete_open sm user key db :
  StorageManager.dbs_ sm !! user = Some db ->
  StorageManager.Delete sm user key
  = (kOk, StorageManager.mk (<[user := delete key db]> (StorageManager.dbs_ sm))
            (StorageManager.disk_ sm)).
Proof. intros E. unfold StorageManager.Delete, StorageManager.FindDB. now rewrite E. Qed.

Lemma Put_closed sm user key value :
  StorageManager.dbs_ sm !! user = None ->
  StorageManager.Put sm user key value = (kUnknownUser, sm).
Proof. intros E. unfold StorageManager.Put, StorageManager.FindDB. now rewrite E. Qed.

Lemma Delete_closed sm user key :
  StorageManager.dbs_ sm !! user = None ->
  StorageManager.Delete sm user key = (kUnknownUser, sm).
Proof. intros E. unfold StorageManager.Delete, StorageManager.FindDB. now rewrite E. Qed.

Lemma Get_open sm user key db :
  StorageManager.dbs_ sm !! user = Some db ->
  StorageManager.Get sm user key
  = match db !! key with Some v => (kOk, v) | None => (kNotFound, EmptyString) end.
Proof. intros E. unfold StorageManager.Get, StorageManager.FindDB. now rewrite E. Qed.

Lemma OpenDatabase_closed sm user :
  StorageManager.dbs_ sm !! user = None ->
  exists db,
    StorageManager.OpenDatabase sm user
    = (true, StorageManager.mk (<[user := db]> (StorageManager.dbs_ sm))
               (delete user (StorageManager.disk_ sm))).
Proof. intros E. unfold StorageManager.OpenDatabase. rewrite E. eauto. Qed.

(** A store operation on a key, retried after opening the namespace, leaves
    the namespace open and the other keys of an open namespace as they
    were. *)
Lemma retry_Put_ok sm sm' user key value :
  retry_opening sm user (fun sm => StorageManager.Put sm user key value)
  = (kOk, sm') ->
  is_Some (StorageManager.dbs_ sm' !! user)
  /\ (forall k', k' <> key -> is_Some (StorageManager.dbs_ sm !! user) ->
        StorageManager.Get sm' user k' = StorageManager.Get sm user k').
Proof.
  unfold retry_opening.
  destruct (StorageManager.dbs_ sm !! user) as [db|] eqn:E.
  - rewrite (Put_open _ _ _ _ _ E). rewrite decide_False by discriminate.
    intros H. inversion H; subst sm'; clear H. cbn [StorageManager.dbs_].
    rewrite lookup_insert_eq. split; [eauto|]. intros k' Hk _.
    erewrite Get_open by (cbn; apply lookup_insert_eq).
    erewrite (Get_open sm) by exact E.
    now rewrite lookup_insert_ne by congruence.
  - rewrite (Put_closed _ _ _ _ E). rewrite decide_True by reflexivity.
    destruct (OpenDatabase_closed _ _ E) as [db ->].
    erewrite Put_open by (cbn; apply lookup_insert_eq).
    intros H. inversion H; subst sm'; clear H. cbn [StorageManager.dbs_].
    rewrite lookup_insert_eq. split; [eauto|]. intros k' _ [? ?]. discriminate.
Qed.

Lemma retry_Delete_ok sm sm' user key :
  retry_opening sm user (fun sm => StorageManager.Delete sm user key)
  = (kOk, sm') ->
  is_Some (StorageManager.dbs_ sm' !! user)
  /\ (forall k', k' <> key -> is_Some (StorageManager.dbs_ sm !! user) ->
        StorageManager.Get sm' user k' = StorageManager.Get sm user k').
Proof.
  unfold retry_opening.
  destruct (StorageManager.dbs_ sm !! user) as [db|] eqn:E.
  - rewrite (Delete_open _ _ _ _ E). rewrite decide_False by discriminate.
    intros H. inversion H; subst sm'; clear H. cbn [StorageManager.dbs_].
    rewrite lookup_insert_eq. split; [eauto|]. intros k' Hk _.
    erewrite Get_open by (cbn; apply lookup_insert_eq).
    erewrite (Get_open sm) by exact E.
    now rewrite lookup_delete_ne by congruence.
  - rewrite (Delete_closed _ _ _ E). rewrite decide_True by reflexivity.
    destruct (OpenDatabase_closed _ _ E) as [db ->].
    erewrite Delete_open by (cbn; apply lookup_insert_eq).
    intros H. inversion H; subst sm'; clear H. cbn [StorageManager.dbs_].
    rewrite lookup_insert_eq. split; [eauto|]. intros k' _ [? ?]. discriminate.
Qed.

(** On an open namespace [TouchParentKey] stores the synthetic value. *)
Lemma TouchParentKey_stores sm user key parent session action :
  GetParentKey key = Some parent ->
  is_Some (StorageManager.dbs_ sm !! user) ->
  StorageManager.Get (TouchParentKey sm user key session action) user parent
  = (kOk, tagged kPut (action +:+ "," +:+ session)).
Proof.
  intros Hp [db Hdb]. unfold TouchParentKey. rewrite Hp.
  apply (Get_after_Put sm). rewrite (Put_open _ _ _ _ _ Hdb). reflexivity.
Qed.

Lemma enumerators_distinct :
  enumerators_wf ->
  kPut <> kLock /\ kDel <> kPut /\ kDel <> kLock
  /\ kUnLock <> kPut /\ kUnLock <> kLock /\ kUnLock <> kDel /\ kUnLock <> kNop.
Proof.
  intros [Hnd _].
  repeat match goal with
         | H : NoDup (_ :: _) |- _ => apply NoDup_cons in H as [? ?]
         end.
  set_solver.
Qed.

End ParentKeyFacts.

(** C8 (as amended).  When the application worker applies a Lock entry,
    or an UnLock entry that releases the lock (the stored value is
    Lock-tagged and owned by the entry's session), and the key has a parent,
    it writes the Put-tagged value "<action>,<session_id>" (action "lock" or
    "unlock") to the parent key in the same user's namespace.  An UnLock
    entry that releases nothing changes nothing, and applying a Put or a
    Del entry leaves the value stored at the parent key as it was. *)
Theorem apply_touches_parent `{ops : LogOperationValues} `{um : UserManagerApi}
    (n : InsNodeImpl) (e : LogEntry.t) (nop : bool) (op0 : LogOperation)
    (parent : string) (a : Applied) :
  enumerators_wf ->
  GetParentKey (LogEntry.key e) = Some parent ->
  apply_switch n e nop op0 = Some a ->
  let user := LogEntry.user e in
  let after := StorageManager.Get (data_store_ (applied_node a)) user parent in
  let before := StorageManager.Get (data_store_ n) user parent in
  (LogEntry.op e = kLock ->
   after = (kOk, tagged kPut ("lock" +:+ "," +:+ LogEntry.value e)))
  /\ (LogEntry.op e = kUnLock ->
      lock_owner n user (LogEntry.key e) op0 = Some (LogEntry.value e) ->
      after = (kOk, tagged kPut ("unlock" +:+ "," +:+ LogEntry.value e)))
  /\ (LogEntry.op e = kUnLock ->
      lock_owner n user (LogEntry.key e) op0 <> Some (LogEntry.value e) ->
      applied_node a = n)
  /\ (LogEntry.op e = kPut \/ LogEntry.op e = kDel ->
      is_Some (StorageManager.dbs_ (data_store_ n) !! user) ->
      after = before).
Proof.
  intros Hwf Hp HA.
  destruct (enumerators_distinct Hwf) as (D1 & D2 & D3 & D4 & D5 & D6 & D7).
  pose proof (GetParentKey_ne _ _ Hp) as Hne.
  cbv zeta. unfold apply_switch in HA.
  split; [|split; [|split]].
  - intros Hop. rewrite Hop in HA.
    rewrite decide_True in HA by auto.
    destruct (retry_opening _ _ _) as [s sm] eqn:ER.
    rewrite !(decide_True (P := kLock = kLock)) in HA by reflexivity.
    destruct (decide (s = kOk)) as [->|]; [|discriminate HA].
    inversion HA; subst a; clear HA. cbn [applied_node data_store_
      set_session_locks_ set_data_store_].
    apply TouchParentKey_stores; [exact Hp|]. eapply retry_Put_ok; exact ER.
  - intros Hop Hown. rewrite Hop in HA.
    rewrite decide_False in HA by (intros [?|?]; congruence).
    rewrite decide_False in HA by congruence.
    rewrite decide_False in HA by congruence.
    rewrite decide_True in HA by reflexivity.
    unfold lock_owner in Hown.
    destruct (StorageManager.Get (data_store_ n) (LogEntry.user e)
                (LogEntry.key e)) as [s stored].
    destruct s; try discriminate Hown.
    destruct (ParseValue stored op0 EmptyString) as [sop cur].
    destruct (decide (sop = kLock)) as [->|]; [|discriminate Hown].
    inversion Hown; subst cur; clear Hown.
    rewrite decide_True in HA by reflexivity.
    rewrite decide_True in HA by auto.
    destruct (retry_opening _ _ _) as [s2 sm2] eqn:ER.
    destruct (decide (s2 = kOk)) as [->|]; [|discriminate HA].
    inversion HA; subst a; clear HA. cbn [applied_node data_store_ set_data_store_].
    apply TouchParentKey_stores; [exact Hp|]. eapply retry_Delete_ok; exact ER.
  - intros Hop Hown. rewrite Hop in HA.
    rewrite decide_False in HA by (intros [?|?]; congruence).
    rewrite decide_False in HA by congruence.
    rewrite decide_False in HA by congruence.
    rewrite decide_True in HA by reflexivity.
    unfold lock_owner in Hown.
    destruct (StorageManager.Get (data_store_ n) (LogEntry.user e)
                (LogEntry.key e)) as [s stored].
    destruct (decide (s = kOk)) as [->|].
    + destruct (ParseValue stored op0 EmptyString) as [sop cur].
      destruct (decide (sop = kLock /\ cur = LogEntry.value e)) as [[-> ->]|].
      * exfalso. apply Hown. now rewrite decide_True by reflexivity.
      * now inversion HA.
    + now inversion HA.
  - intros [Hop|Hop] Hopen; rewrite Hop in HA.
    + rewrite decide_True in HA by auto.
      destruct (retry_opening _ _ _) as [s sm] eqn:ER.
      rewrite !(decide_False (P := kPut = kLock)) in HA by assumption.
      destruct (decide (s = kOk)) as [->|]; [|discriminate HA].
      inversion HA; subst a; clear HA. cbn [applied_node data_store_
        set_session_locks_ set_data_store_].
      eapply retry_Put_ok; eauto.
    + rewrite decide_False in HA by (intros [?|?]; congruence).
      rewrite decide_True in HA by reflexivity.
      destruct (retry_opening _ _ _) as [s sm] eqn:ER.
      destruct (decide (s = kOk)) as [->|]; [|discriminate HA].
      inversion HA; subst a; clear HA. cbn [applied_node data_store_ set_data_store_].
      eapply retry_Delete_ok; eauto.
Qed.

Lemma example_ops_wf : enumerators_wf (H := example_ops).
Proof.
  unfold enumerators_wf. cbn.
  split; [apply (bool_decide_unpack _) | apply (bool_decide_unpack _)];
    vm_compute; exact I.
Qed.

(** Applying the entry Lock("dir/k", session S) writes "lock,S" at "dir". *)
Lemma apply_touches_parent_witness :
  let n := example_node kFollower 1 BinLogger.empty (example_store "" []) ∅
             false (-1) (-1) in
  let e := LogEntry.mk (@kLock example_ops) "" "dir/k" "S" 1 in
  match apply_switch (ops := example_ops) n e false 0 with
  | Some a =>
      StorageManager.Get (data_store_ (applied_node a)) "" "dir"
      = (kOk, tagged (@kPut example_ops) "lock,S")
  | None => False
  end.
Proof.
  intros n e.
  destruct (apply_switch (ops := example_ops) n e false 0) as [a|] eqn:HA;
    [|vm_compute in HA; discriminate HA].
  destruct (apply_touches_parent (ops := example_ops) n e false 0 "dir" a
              example_ops_wf eq_refl HA) as (HL & _).
  apply HL. reflexivity.
Defined.

(** C8 (as stated) fails for Put: the worker applies the committed entry
    Put("dir/k", "v").  The value is stored at "dir/k", the watch trigger for
    the key is queued, and nothing is written at the parent key "dir". *)
Lemma apply_Put_leaves_parent_unwritten :
  match log_of [LogEntry.mk (@kPut example_ops) "" "dir/k" "v" 1] with
  | Some b =>
      let n := example_node kLeader 1 b (example_store "" []) ∅ false 0 (-1) in
      match CommitIndexObserv (ops := example_ops) n 0 with
      | Some (n', queued, _) =>
          GetParentKey "dir/k" = Some "dir"
          /\ last_applied_index_ n' = 0
          /\ StorageManager.Get (data_store_ n') "" "dir/k"
             = (kOk, tagged (@kPut example_ops) "v")
          /\ StorageManager.Get (data_store_ n') "" "dir"
             = (kNotFound, EmptyString)
          /\ queued = [TriggerEventWithParent "::dir/k" "v" false]
      | None => False
      end
  | None => False
  end.
Proof. vm_compute. repeat split. Qed.

(** ** Reads of a missing key *)

Section ReadFacts.

Context `{ops : LogOperationValues} `{um : UserManagerApi}.
Context (cfg : Config).


Lemma serve_read_absent (n : InsNodeImpl) request op0 response :
  key_absent n request ->
  successful_miss (serve_read n request op0 response).
Proof.
  unfold key_absent, serve_read. intros Ha.
  destruct (StorageManager.Get _ _ _) as [s value]. cbn [fst] in Ha.
  destruct (ParseValue value op0 EmptyString) as [op real_value].
  rewrite decide_False by assumption. repeat split.
Qed.

(** The context that [Get] hands to the heartbeat callbacks is pending. *)
Lemma Get_broadcast_pending (n : InsNodeImpl) request now op0 context :
  Get cfg n request now op0 = GetBroadcast context ->
  read_pending cfg context /\ read_request context = request /\ runs context = [].
Proof.
  unfold Get.
  destruct (decide (status_ n = kFollower)); [discriminate|].
  destruct (decide (status_ n = kCandidate)); [discriminate|].
  destruct (_ && _); [discriminate|].
  destruct (uuid_unknown _ _); [discriminate|].
  destruct (decide _) as [[Hm _]|]; [|discriminate].
  intros H. inversion H; subst context; clear H.
  assert (1 <= quorum_half cfg) as Hh.
  { unfold quorum_half. apply Z.div_le_lower_bound; lia. }
  unfold read_pending. cbn. repeat split; lia.
Qed.

(** A callback that does not complete the read leaves it pending. *)
Lemma HeartbeatForReadCallback_pending (n : InsNodeImpl) response failed
    context now op0 :
  read_pending cfg context ->
  triggered (HeartbeatForReadCallback cfg n response failed context now op0).2
  = false ->
  read_pending cfg (HeartbeatForReadCallback cfg n response failed context now op0).2.
Proof.
  intros (Ht & Hs & He). unfold read_pending, HeartbeatForReadCallback.
  fold (quorum_half cfg). set (hf := quorum_half cfg) in *. clearbody hf.
  destruct context as [rq rs sc ec tr ru]. cbn in Ht, Hs, He. subst tr. cbn.
  destruct (decide (status_ n <> kLeader)); [cbn; discriminate|].
  destruct (negb failed && _); [cbn; discriminate|].
  destruct failed; cbn; cbv [err_count succ_count].
  - destruct (decide (sc > hf)); [lia|].
    destruct (decide (ec + 1 > hf)); cbn; [discriminate|].
    intros _. repeat split; lia.
  - destruct (decide (sc + 1 > hf)); cbn.
    + destruct (decide (ec > hf)); cbn; discriminate.
    + destruct (decide (ec > hf)); cbn; [discriminate|].
      intros _. repeat split; lia.
Qed.

End ReadFacts.

(** C10.  When the requested key is absent from the store, a Get that is
    served reports a successful miss (success=true, hit=false, empty
    leader_id): a non-safe-mode leader either answers so at once or starts a
    quorum read, and on the quorum path the heartbeat answer that completes
    the majority completes the read exactly once, with that response. *)
Theorem Get_absent_key_is_successful_miss
    `{ops : LogOperationValues} `{um : UserManagerApi}
    (cfg : Config) (n : InsNodeImpl) (request : GetRequest.t) :
  key_absent n request ->
  (forall now op0,
      status_ n = kLeader ->
      in_safe_mode_ n = false ->
      uuid_unknown n (GetRequest.uuid request) = false ->
      (exists r, Get cfg n request now op0 = GetReplied r /\ successful_miss r)
      \/ (exists context,
            Get cfg n request now op0 = GetBroadcast context
            /\ read_pending cfg context
            /\ read_request context = request
            /\ runs context = []))
  /\ (forall context response now op0,
        read_request context = request ->
        read_pending cfg context ->
        status_ n = kLeader ->
        ~ AppendEntriesResponse.current_term response > current_term_ n ->
        succ_count context + 1 > quorum_half cfg ->
        let context' :=
          (HeartbeatForReadCallback cfg n response false context now op0).2 in
        triggered context' = true
        /\ exists r,
             runs context' = runs context ++ [r]
             /\ read_response context' = r
             /\ successful_miss r).
Proof.
  intros Ha. split.
  - intros now op0 Hl Hs Hu.
    destruct (Get cfg n request now op0) as [r|context] eqn:EG.
    + left. exists r. split; [reflexivity|].
      unfold Get in EG. rewrite Hl, Hs, Hu in EG. revert EG. leader_cases.
      rewrite andb_false_r. destruct (decide _); [discriminate|].
      intros EG. inversion EG. now apply serve_read_absent.
    + right. exists context. split; [reflexivity|].
      eapply Get_broadcast_pending; eauto.
  - intros context response now op0 Hr (Ht & Hs & He) Hl Hterm Hq. cbv zeta.
    unfold HeartbeatForReadCallback. fold (quorum_half cfg).
    set (hf := quorum_half cfg) in *. clearbody hf.
    rewrite Ht, Hl. rewrite decide_False by auto.
    rewrite bool_decide_eq_false_2 by assumption.
    destruct context as [rq rs sc ec tr ru]. cbn in Hr, Ht, Hs, He, Hq.
    subst tr rq. cbn. cbv [err_count succ_count].
    rewrite decide_True by assumption. cbn. cbv [err_count].
    rewrite decide_False by lia. cbn.
    split; [reflexivity|]. eexists. split; [reflexivity|]. split; [reflexivity|].
    now apply serve_read_absent.
Qed.

(** A non-safe-mode leader of a single-member cluster asked for a key that
    was never stored answers with a successful miss. *)
Lemma Get_absent_key_is_successful_miss_witness :
  let cfg := example_config ["A"] in
  let n := example_node kLeader 1 BinLogger.empty (example_store "" []) ∅
             false (-1) (-1) in
  Get (ops := example_ops) cfg n (GetRequest.mk "k" "") 10000000 0
  = GetReplied (GetResponse.mk false true EmptyString EmptyString false).
Proof.
  intros cfg n.
  destruct (Get_absent_key_is_successful_miss (ops := example_ops) cfg n
              (GetRequest.mk "k" ""))
    as (Hlocal & _); [vm_compute; discriminate|].
  destruct (Hlocal 10000000 0 eq_refl eq_refl eq_refl)
    as [(r & HG & _)|(c & HG & _)]; [|vm_compute in HG; discriminate HG].
  reflexivity.
Defined.

(** * Further properties of the code

  The sections below cover more of the sources: the binlog's index keys,
  appends, batches, truncation and recovery; the key/value store and its
  iterator; key helpers; elections over runs of events; log replication
  rounds; the apply worker; and the client surface (redirects, watches,
  quorum reads, scans, a single-node write end to end, and sessions). *)


(** [project E f v as H]: from [E : x = Some r] with [x] closed, the fact
    [H : f r = v], by evaluating [f <$> x]. *)
Tactic Notation "project" hyp(E) constr(f) constr(v) "as" ident(H) :=
  match type of E with
  | ?lhs = Some _ =>
      assert (H : f <$> lhs = Some v) by (vm_compute; reflexivity);
      rewrite E in H; cbn [fmap option_fmap option_map] in H;
      apply (inj Some) in H; cbn [fst snd] in H
  end.
(** ** The binary log: keys, appends and recovery *)

Section BinLogRoundTrips.

Lemma to_int64_mod_eq a b :
  to_int64 a = to_int64 b <-> a mod 2 ^ 64 = b mod 2 ^ 64.
Proof.
  unfold to_int64, wrap_signed. split; intros H.
  - assert ((a + 2 ^ (64 - 1)) mod 2 ^ 64 = (b + 2 ^ (64 - 1)) mod 2 ^ 64) as E
      by lia.
    change (64 - 1) with 63 in E.
    rewrite <- (Z.add_simpl_r a (2 ^ 63)), <- (Z.add_simpl_r b (2 ^ 63)).
    rewrite <- Zminus_mod_idemp_l, E, Zminus_mod_idemp_l. reflexivity.
  - rewrite <- (Zplus_mod_idemp_l a), H, Zplus_mod_idemp_l. reflexivity.
Qed.

Lemma to_int64_range z : int64_min <= to_int64 z <= int64_max.
Proof.
  unfold to_int64, wrap_signed, int64_min, int64_max.
  pose proof (Z.mod_pos_bound (z + 2 ^ (64 - 1)) (2 ^ 64)). lia.
Qed.

Lemma to_int32_range z : int32_min <= to_int32 z <= int32_max.
Proof.
  unfold to_int32, wrap_signed, int32_min, int32_max.
  pose proof (Z.mod_pos_bound (z + 2 ^ (32 - 1)) (2 ^ 32)). lia.
Qed.

Lemma to_int64_idem z : to_int64 (to_int64 z) = to_int64 z.
Proof. apply to_int64_id, to_int64_range. Qed.

Lemma to_int64_add_l a b : to_int64 (to_int64 a + b) = to_int64 (a + b).
Proof.
  apply to_int64_mod_eq.
  assert (to_int64 a mod 2 ^ 64 = a mod 2 ^ 64) as E
    by (apply to_int64_mod_eq, to_int64_idem).
  rewrite <- Zplus_mod_idemp_l, E, Zplus_mod_idemp_l. reflexivity.
Qed.

Lemma le_bytes_mod n z : le_bytes n (z mod 256 ^ Z.of_nat n) = le_bytes n z.
Proof.
  revert z. induction n as [|n IH]; intros z; [reflexivity|].
  cbn [le_bytes]. rewrite Nat2Z.inj_succ, Z.pow_succ_r by lia.
  rewrite Z.rem_mul_r by lia.
  rewrite (Z.mul_comm 256 ((z / 256) mod 256 ^ Z.of_nat n)).
  f_equal.
  - unfold byte_of. do 2 f_equal.
    rewrite Z.mod_add by lia. apply Z.mod_mod. lia.
  - rewrite Z.div_add by lia.
    rewrite (Z.div_small (z mod 256)) by (apply Z.mod_pos_bound; lia).
    cbn [Z.add]. apply IH.
Qed.

Lemma load_store_int64_wrap z : load_int64 (store_int64 z) = to_int64 z.
Proof.
  unfold load_int64, store_int64. rewrite le_value_bytes.
  change (256 ^ Z.of_nat 8) with (2 ^ 64).
  unfold to_int64. now rewrite wrap_signed_mod by lia.
Qed.

Lemma IntToString_eq i j :
  BinLogger.IntToString i = BinLogger.IntToString j <-> to_int64 i = to_int64 j.
Proof.
  rewrite to_int64_mod_eq. unfold BinLogger.IntToString, store_int64. split.
  - intros E. apply (f_equal le_value) in E. now rewrite !le_value_bytes in E.
  - intros E. rewrite <- (le_bytes_mod 8 i), <- (le_bytes_mod 8 j).
    change (256 ^ Z.of_nat 8) with (2 ^ 64). now rewrite E.
Qed.

Lemma IntToString_ne i j :
  int64_min <= i <= int64_max -> int64_min <= j <= int64_max -> i <> j ->
  BinLogger.IntToString i <> BinLogger.IntToString j.
Proof.
  intros Hi Hj Hne E. apply IntToString_eq in E.
  rewrite !to_int64_id in E by assumption. contradiction.
Qed.

Lemma Dump_spec e :
  (LogEntry.fits_int32 e ->
   LogEntry.Dump e = Some (strlen (LogEntry.framing e), LogEntry.framing e))
  /\ (~ LogEntry.fits_int32 e -> LogEntry.Dump e = None).
Proof.
  unfold LogEntry.fits_int32, LogEntry.Dump.
  pose proof (strlen_nonneg (LogEntry.user e)).
  pose proof (strlen_nonneg (LogEntry.key e)).
  pose proof (strlen_nonneg (LogEntry.value e)).
  rewrite length_framing.
  replace (1 + 4 + strlen (LogEntry.user e) + 4 + strlen (LogEntry.key e)
           + 4 + strlen (LogEntry.value e) + 8)
    with (21 + strlen (LogEntry.user e) + strlen (LogEntry.key e)
          + strlen (LogEntry.value e)) by lia.
  split; intros Hf.
  - rewrite to_int32_id by (unfold int32_min; lia).
    now rewrite decide_True.
  - rewrite decide_False; [reflexivity|].
    intros E.
    pose proof (to_int32_range
                  (21 + strlen (LogEntry.user e) + strlen (LogEntry.key e)
                   + strlen (LogEntry.value e))). lia.
Qed.

Lemma Dump_inv e len buf :
  LogEntry.Dump e = Some (len, buf) -> LogEntry.fits_int32 e /\ buf = LogEntry.framing e.
Proof.
  intros H. destruct (Dump_spec e) as [H1 H2].
  destruct (decide (LogEntry.fits_int32 e)) as [Hf|Hf].
  - rewrite (H1 Hf) in H. inversion H. auto.
  - rewrite (H2 Hf) in H. discriminate H.
Qed.

Lemma Load_framing e :
  LogEntry.fits_int32 e -> LogEntry.Load (LogEntry.framing e) = Some (LogEntry.stored e).
Proof.
  unfold LogEntry.fits_int32. intros Hf.
  pose proof (strlen_nonneg (LogEntry.user e)).
  pose proof (strlen_nonneg (LogEntry.key e)).
  pose proof (strlen_nonneg (LogEntry.value e)).
  unfold LogEntry.Load, LogEntry.framing.
  rewrite read_bytes_one. cbn [mbind option_bind].
  rewrite read_field_stored by lia. cbn [mbind option_bind].
  rewrite read_field_stored by lia. cbn [mbind option_bind].
  rewrite read_field_stored by lia. cbn [mbind option_bind].
  rewrite <- (append_nil_r (store_int64 (LogEntry.term e))).
  unfold store_int64 at 1. rewrite read_bytes_le. cbn [mbind option_bind].
  fold (store_int64 (LogEntry.term e)). rewrite load_store_int64_wrap.
  cbn [le_value]. rewrite byte_val_of. unfold LogEntry.stored, to_uint8.
  f_equal. f_equal. rewrite Z.mod_mod by lia. lia.
Qed.

Lemma AppendEntry_inv b e b' :
  BinLogger.AppendEntry b e = Some b' ->
  LogEntry.fits_int32 e
  /\ b' = BinLogger.mk
            (<[BinLogger.length_tag :=
                 BinLogger.IntToString (to_int64 (BinLogger.length_ b + 1))]>
               (<[BinLogger.IntToString (BinLogger.length_ b) :=
                    LogEntry.framing e]> (BinLogger.db_ b)))
            (to_int64 (BinLogger.length_ b + 1)) (LogEntry.term e).
Proof.
  unfold BinLogger.AppendEntry. intros H.
  destruct (LogEntry.Dump e) as [[len buf]|] eqn:HD; [|discriminate H].
  apply Dump_inv in HD as [Hf ->]. cbn in H. inversion H. auto.
Qed.

Lemma AppendEntry_fits b e :
  LogEntry.fits_int32 e -> is_Some (BinLogger.AppendEntry b e).
Proof.
  intros Hf. unfold BinLogger.AppendEntry.
  rewrite (proj1 (Dump_spec e) Hf). cbn. eauto.
Qed.

Lemma ReadSlot_insert_eq db len lt i buf :
  BinLogger.ReadSlot (BinLogger.mk (<[BinLogger.IntToString i := buf]> db) len lt) i
  = match LogEntry.Load buf with
    | Some e => BinLogger.SlotOk e
    | None => BinLogger.SlotBroken
    end.
Proof.
  unfold BinLogger.ReadSlot. cbn [BinLogger.db_].
  now rewrite lookup_insert_eq.
Qed.

Lemma ReadSlot_insert_ne db len lt len' lt' i j buf :
  to_int64 i <> to_int64 j ->
  BinLogger.ReadSlot (BinLogger.mk (<[BinLogger.IntToString i := buf]> db) len lt) j
  = BinLogger.ReadSlot (BinLogger.mk db len' lt') j.
Proof.
  intros Hne. unfold BinLogger.ReadSlot. cbn [BinLogger.db_].
  rewrite lookup_insert_ne; [reflexivity|].
  intros E. apply IntToString_eq in E. contradiction.
Qed.

Lemma ReadSlot_tag db v len lt len' lt' i :
  BinLogger.ReadSlot (BinLogger.mk (<[BinLogger.length_tag := v]> db) len lt) i
  = BinLogger.ReadSlot (BinLogger.mk db len' lt') i.
Proof.
  unfold BinLogger.ReadSlot. cbn [BinLogger.db_].
  rewrite lookup_insert_ne by (apply not_eq_sym, IntToString_ne_tag).
  reflexivity.
Qed.

Lemma ReadSlot_db b b' i :
  BinLogger.db_ b = BinLogger.db_ b' ->
  BinLogger.ReadSlot b i = BinLogger.ReadSlot b' i.
Proof. unfold BinLogger.ReadSlot. now intros ->. Qed.

Lemma StringToInt_IntToString i :
  BinLogger.StringToInt (BinLogger.IntToString i) = Some (to_int64 i).
Proof.
  unfold BinLogger.StringToInt. rewrite length_IntToString.
  rewrite decide_True by reflexivity. unfold BinLogger.IntToString.
  now rewrite load_store_int64_wrap.
Qed.

Lemma AppendEntry_slots b b' e :
  0 <= BinLogger.length_ b < int64_max ->
  BinLogger.AppendEntry b e = Some b' ->
  BinLogger.length_ b' = BinLogger.length_ b + 1
  /\ BinLogger.last_log_term_ b' = LogEntry.term e
  /\ BinLogger.ReadSlot b' (BinLogger.length_ b)
     = BinLogger.SlotOk (LogEntry.stored e)
  /\ (forall i, to_int64 i <> BinLogger.length_ b ->
        BinLogger.ReadSlot b' i = BinLogger.ReadSlot b i).
Proof.
  intros Hr HA. apply AppendEntry_inv in HA as [Hf ->].
  cbn [BinLogger.length_ BinLogger.last_log_term_].
  split; [apply to_int64_id; unfold int64_min, int64_max in *; lia|].
  split; [reflexivity|]. split.
  - rewrite (ReadSlot_tag _ _ _ _ 0 0), ReadSlot_insert_eq, Load_framing
      by exact Hf.
    reflexivity.
  - intros i Hi. rewrite (ReadSlot_tag _ _ _ _ 0 0).
    rewrite (ReadSlot_insert_ne _ _ _ (BinLogger.length_ b)
               (BinLogger.last_log_term_ b)).
    + now destruct b.
    + rewrite (to_int64_id (BinLogger.length_ b))
        by (unfold int64_min, int64_max in *; lia). auto.
Qed.

End BinLogRoundTrips.

(** X1.  The slot key of an index is its 8-byte image: [StringToInt] reads
    [IntToString i] back as [i] taken as an [int64_t], and two indices get
    the same key exactly when they are the same [int64_t]. *)
Theorem IntToString_StringToInt (i j : Z) :
  BinLogger.StringToInt (BinLogger.IntToString i) = Some (to_int64 i)
  /\ (BinLogger.IntToString i = BinLogger.IntToString j
      <-> to_int64 i = to_int64 j).
Proof.
  split.
  - apply StringToInt_IntToString.
  - apply IntToString_eq.
Qed.

(** X2.  Appending to a log of length [L] (an [int64_t] below its maximum)
    makes the length [L + 1], makes [(L, term)] the last index and term,
    stores the entry so that [ReadSlot(L)] loads it back (operation code as
    a byte, term as an [int64_t]), and leaves every other slot as it
    was. *)
Theorem AppendEntry_ReadSlot (b b' : BinLogger.t) (e : LogEntry.t) :
  0 <= BinLogger.GetLength b < int64_max ->
  BinLogger.AppendEntry b e = Some b' ->
  BinLogger.GetLength b' = BinLogger.GetLength b + 1
  /\ BinLogger.GetLastLogIndexAndTerm b' = (BinLogger.GetLength b, LogEntry.term e)
  /\ BinLogger.ReadSlot b' (BinLogger.GetLength b) = BinLogger.SlotOk (LogEntry.stored e)
  /\ (forall i, to_int64 i <> BinLogger.GetLength b ->
        BinLogger.ReadSlot b' i = BinLogger.ReadSlot b i).
Proof.
  unfold BinLogger.GetLength, BinLogger.GetLastLogIndexAndTerm.
  intros Hr HA.
  destruct (AppendEntry_slots b b' e Hr HA) as (Hl & Ht & Hs & Hrest).
  split; [exact Hl|]. split; [|split; [exact Hs|exact Hrest]].
  rewrite Hl, Ht. f_equal. rewrite Z.add_simpl_r. apply to_int64_id.
  unfold int64_min, int64_max in *. lia.
Qed.

(** An entry appended to the empty log is read back from slot 0. *)
Lemma AppendEntry_ReadSlot_witness :
  exists b',
    BinLogger.AppendEntry BinLogger.empty (nop_entry 3) = Some b'
    /\ BinLogger.GetLength b' = 1
    /\ BinLogger.ReadSlot b' 0 = BinLogger.SlotOk (nop_entry 3).
Proof.
  destruct (BinLogger.AppendEntry BinLogger.empty (nop_entry 3)) as [b'|] eqn:HA;
    [|vm_compute in HA; discriminate HA].
  exists b'. split; [reflexivity|].
  destruct (AppendEntry_ReadSlot BinLogger.empty b' (nop_entry 3))
    as (Hl & _ & Hs & _);
    [vm_compute; split; [discriminate | reflexivity] | exact HA |].
  split; [exact Hl | exact Hs].
Defined.

Section BinLogBatches.


Lemma put_entries_tag es :
  forall db lt cur v,
    BinLogger.put_entries (<[BinLogger.length_tag := v]> db) lt cur es
    = (fun r : gmap string string * Z =>
         (<[BinLogger.length_tag := v]> r.1, r.2))
      <$> BinLogger.put_entries db lt cur es.
Proof.
  induction es as [|e es IH]; intros db lt cur v; [reflexivity|].
  cbn [BinLogger.put_entries].
  destruct (LogEntry.Dump e) as [[len buf]|]; [|reflexivity].
  cbn [mbind option_bind].
  rewrite insert_insert_ne by apply IntToString_ne_tag.
  apply IH.
Qed.

Lemma foldl_append_None es :
  foldl (fun b e => b ≫= fun b => BinLogger.AppendEntry b e) None es = None.
Proof. induction es as [|e es IH]; [reflexivity|]. exact IH. Qed.


Lemma AppendEntryList_cons es :
  forall e b,
    BinLogger.AppendEntryList b (e :: es) = foldl (fun b e => b ≫= fun b => BinLogger.AppendEntry b e) (Some b) (e :: es).
Proof.
  induction es as [|e2 es IH]; intros e b.
  - unfold BinLogger.AppendEntryList, BinLogger.AppendEntry.
    cbn [foldl mbind option_bind BinLogger.put_entries length].
    unfold BinLogger.AppendEntry.
    destruct (LogEntry.Dump e) as [[len buf]|]; reflexivity.
  - change (foldl (fun b e => b ≫= fun b => BinLogger.AppendEntry b e) (Some b) (e :: e2 :: es))
      with (foldl (fun b e => b ≫= fun b => BinLogger.AppendEntry b e) (BinLogger.AppendEntry b e) (e2 :: es)).
    destruct (BinLogger.AppendEntry b e) as [b1|] eqn:HA.
    + rewrite <- IH.
      unfold BinLogger.AppendEntry in HA.
      unfold BinLogger.AppendEntryList.
      remember (e2 :: es) as l eqn:Hl.
      cbn [BinLogger.put_entries length].
      destruct (LogEntry.Dump e) as [[len buf]|]; [|discriminate HA].
      cbn [mbind option_bind] in HA |- *. inversion HA; subst b1; clear HA.
      cbn [BinLogger.db_ BinLogger.length_ BinLogger.last_log_term_].
      rewrite put_entries_tag.
      destruct (BinLogger.put_entries _ _ _ l) as [[db' lt']|];
        [|reflexivity].
      cbn [fmap option_fmap option_map fst snd mbind option_bind].
      rewrite insert_insert_eq.
      rewrite to_int64_add_l.
      replace (BinLogger.length_ b + 1 + Z.of_nat (length l))
        with (BinLogger.length_ b + Z.of_nat (S (length l))) by lia.
      reflexivity.
    + unfold BinLogger.AppendEntryList. unfold BinLogger.AppendEntry in HA.
      cbn [BinLogger.put_entries].
      destruct (LogEntry.Dump e) as [[len buf]|]; [discriminate HA|].
      cbn [mbind option_bind]. symmetry. clear.
      induction (e2 :: es) as [|x l IHl]; [reflexivity|exact IHl].
Qed.

Lemma put_entries_lookup es :
  forall db lt cur db' lt',
    0 <= cur -> cur + Z.of_nat (length es) <= int64_max ->
    BinLogger.put_entries db lt cur es = Some (db', lt') ->
    (forall (i : nat) e, es !! i = Some e ->
       db' !! BinLogger.IntToString (cur + Z.of_nat i)
       = Some (LogEntry.framing e) /\ LogEntry.fits_int32 e)
    /\ (forall k,
          (forall i : nat, (i < length es)%nat ->
             k <> BinLogger.IntToString (cur + Z.of_nat i)) ->
          db' !! k = db !! k)
    /\ lt' = default lt (LogEntry.term <$> last es).
Proof.
  induction es as [|e es IH]; intros db lt cur db' lt' Hc Hr H.
  - cbn in H. inversion H; subst. repeat split; try done.
  - cbn [BinLogger.put_entries] in H. cbn [length] in Hr.
    destruct (LogEntry.Dump e) as [[len buf]|] eqn:HD; [|discriminate H].
    apply Dump_inv in HD as [Hf ->]. cbn [mbind option_bind] in H.
    rewrite to_int64_id in H by (unfold int64_min, int64_max in *; lia).
    apply IH in H as (H1 & H2 & H3); [|lia|lia].
    split; [|split].
    + intros [|i] x Hx.
      * cbn in Hx. inversion Hx; subst x. split; [|exact Hf].
        rewrite H2.
        -- rewrite Z.add_0_r. apply lookup_insert_eq.
        -- intros i Hi. apply IntToString_ne;
             unfold int64_min, int64_max in *; lia.
      * cbn in Hx. specialize (H1 i x Hx).
        replace (cur + Z.of_nat (S i)) with (cur + 1 + Z.of_nat i) by lia.
        exact H1.
    + intros k Hk. rewrite H2.
      * apply lookup_insert_ne. specialize (Hk O ltac:(cbn; lia)).
        rewrite Z.add_0_r in Hk. auto.
      * intros i Hi. specialize (Hk (S i) ltac:(cbn; lia)).
        replace (cur + 1 + Z.of_nat i) with (cur + Z.of_nat (S i)) by lia.
        exact Hk.
    + rewrite H3. destruct es as [|e2 es]; [reflexivity|].
      change (last (e :: e2 :: es)) with (last (e2 :: es)).
      destruct (last (e2 :: es)) eqn:E; [reflexivity|].
      apply last_None in E. discriminate E.
Qed.

Lemma put_entries_fits es :
  forall db lt cur,
    Forall LogEntry.fits_int32 es ->
    is_Some (BinLogger.put_entries db lt cur es).
Proof.
  induction es as [|e es IH]; intros db lt cur Hf; [cbn; eauto|].
  inversion Hf as [|? ? He Hes]; subst. cbn [BinLogger.put_entries].
  rewrite (proj1 (Dump_spec e) He). cbn [mbind option_bind]. apply IH, Hes.
Qed.

(** What [AppendEntryList] leaves in the log. *)
Lemma AppendEntryList_slots b es b' :
  0 <= BinLogger.length_ b ->
  BinLogger.length_ b + Z.of_nat (length es) <= int64_max ->
  BinLogger.AppendEntryList b es = Some b' ->
  BinLogger.length_ b' = BinLogger.length_ b + Z.of_nat (length es)
  /\ BinLogger.last_log_term_ b'
     = default (BinLogger.last_log_term_ b) (LogEntry.term <$> last es)
  /\ BinLogger.db_ b' !! BinLogger.length_tag
     = Some (BinLogger.IntToString
               (BinLogger.length_ b + Z.of_nat (length es)))
  /\ (forall (i : nat) e, es !! i = Some e ->
        BinLogger.ReadSlot b' (BinLogger.length_ b + Z.of_nat i)
        = BinLogger.SlotOk (LogEntry.stored e))
  /\ (forall j, int64_min <= j <= int64_max ->
        j < BinLogger.length_ b
        \/ BinLogger.length_ b + Z.of_nat (length es) <= j ->
        BinLogger.ReadSlot b' j = BinLogger.ReadSlot b j).
Proof.
  intros Hc Hr H. unfold BinLogger.AppendEntryList in H.
  destruct (BinLogger.put_entries _ _ _ es) as [[db' lt']|] eqn:HP;
    [|discriminate H].
  cbn [mbind option_bind] in H. inversion H; subst b'; clear H.
  apply put_entries_lookup in HP as (H1 & H2 & H3); [|lia|lia].
  cbn [BinLogger.length_ BinLogger.last_log_term_ BinLogger.db_].
  rewrite to_int64_id by (unfold int64_min, int64_max in *; lia).
  split; [reflexivity|]. split; [exact H3|].
  split; [apply lookup_insert_eq|]. split.
  - intros i e Hi. destruct (H1 i e Hi) as [Hl Hf].
    rewrite (ReadSlot_tag _ _ _ _ 0 0). unfold BinLogger.ReadSlot.
    cbn [BinLogger.db_]. rewrite Hl, Load_framing by exact Hf. reflexivity.
  - intros j Hj Hout. rewrite (ReadSlot_tag _ _ _ _ 0 0).
    unfold BinLogger.ReadSlot. cbn [BinLogger.db_]. rewrite H2; [reflexivity|].
    intros i Hi. apply IntToString_ne; unfold int64_min, int64_max in *; lia.
Qed.

End BinLogBatches.

(** X3.  A batch of one or more entries appended by [AppendEntryList]
    leaves the log (database, length and last term) exactly as appending
    the entries one by one with [AppendEntry] does, and fails exactly when
    one of those appends fails. *)
Theorem AppendEntryList_one_by_one (b : BinLogger.t) (e : LogEntry.t)
    (es : list LogEntry.t) :
  BinLogger.AppendEntryList b (e :: es)
  = foldl (fun b e => b ≫= fun b => BinLogger.AppendEntry b e) (Some b)
          (e :: es).
Proof. apply AppendEntryList_cons. Qed.

Section BinLogRecovery.

Lemma Open_tagged db len lt :
  0 <= len <= int64_max ->
  db !! BinLogger.length_tag = Some (BinLogger.IntToString len) ->
  (0 < len ->
   exists e, BinLogger.ReadSlot (BinLogger.mk db len lt) (len - 1)
             = BinLogger.SlotOk e /\ LogEntry.term e = lt) ->
  (len = 0 -> lt = -1) ->
  BinLogger.Open db = Some (BinLogger.mk db len lt).
Proof.
  intros Hr Htag Hlast H0. unfold BinLogger.Open. rewrite Htag.
  destruct (decide (BinLogger.IntToString len = EmptyString)) as [E|_].
  { apply (f_equal String.length) in E. rewrite length_IntToString in E.
    discriminate E. }
  rewrite (StringToInt_IntToString len).
  cbn [mbind option_bind].
  rewrite to_int64_id by (unfold int64_min; lia).
  destruct (decide (len > 0)) as [Hp|Hn].
  - destruct Hlast as (e & He & Ht); [lia|].
    rewrite (ReadSlot_db _ (BinLogger.mk db len lt)) by reflexivity.
    rewrite He, Ht. reflexivity.
  - rewrite H0 by lia. reflexivity.
Qed.

Lemma Open_inv db b :
  BinLogger.Open db = Some b ->
  BinLogger.db_ b = db
  /\ (0 < BinLogger.length_ b ->
      exists e, BinLogger.ReadSlot b (BinLogger.length_ b - 1)
                = BinLogger.SlotOk e
                /\ LogEntry.term e = BinLogger.last_log_term_ b)
  /\ (BinLogger.length_ b <= 0 -> BinLogger.last_log_term_ b = -1).
Proof.
  unfold BinLogger.Open. intros H.
  destruct (db !! BinLogger.length_tag) as [v|].
  2:{ inversion H; subst b; cbn.
    split; [reflexivity|split; [intros; lia|intros; reflexivity]]. }
  destruct (decide (v = EmptyString)).
  { inversion H; subst b; cbn.
    split; [reflexivity|split; [intros; lia|intros; reflexivity]]. }
  destruct (BinLogger.StringToInt v) as [len|]; [|discriminate H].
  cbn [mbind option_bind] in H.
  destruct (decide (len > 0)).
  - destruct (BinLogger.ReadSlot _ _) as [e| |] eqn:E; try discriminate H.
    inversion H; subst b; cbn. split; [reflexivity|]. split; [|lia].
    intros _. exists e. split; [|reflexivity].
    rewrite <- E. now apply ReadSlot_db.
  - inversion H; subst b; cbn.
    split; [reflexivity|split; [intros; lia|intros; reflexivity]].
Qed.

End BinLogRecovery.

(** X4.  Restart recovery of the log: if the in-memory state of a log is
    what the constructor reads from its database, it still is after a
    batch of entries (with [int64_t] terms) is appended, the length
    staying an [int64_t]; so length and last term survive a restart. *)
Theorem Open_recovers_appended_log (b b' : BinLogger.t) (es : list LogEntry.t) :
  BinLogger.Open (BinLogger.db_ b) = Some b ->
  0 <= BinLogger.GetLength b ->
  BinLogger.GetLength b + Z.of_nat (length es) <= int64_max ->
  Forall (fun e => int64_min <= LogEntry.term e <= int64_max) es ->
  BinLogger.AppendEntryList b es = Some b' ->
  BinLogger.Open (BinLogger.db_ b') = Some b'.
Proof.
  unfold BinLogger.GetLength. intros HO Hc Hr Ht HA.
  apply Open_inv in HO as (_ & Hlast & Hzero).
  apply AppendEntryList_slots in HA as (Hlen & Hlt & Htag & Hin & Hout);
    [|exact Hc|exact Hr].
  destruct b' as [db' len' lt']. cbn in Hlen, Hlt, Htag. cbn [BinLogger.db_].
  subst len'. apply Open_tagged.
  - lia.
  - exact Htag.
  - intros Hpos. destruct (last es) as [e|] eqn:El.
    + exists (LogEntry.stored e). cbn in Hlt. split.
      * assert (es !! (length es - 1)%nat = Some e) as Hi.
        { rewrite last_lookup in El.
          replace (length es - 1)%nat with (pred (length es)) by lia.
          exact El. }
        assert (0 < length es)%nat
          by (destruct es; [discriminate El|cbn; lia]).
        specialize (Hin _ _ Hi).
        replace (BinLogger.length_ b + Z.of_nat (length es - 1))
          with (BinLogger.length_ b + Z.of_nat (length es) - 1) in Hin by lia.
        exact Hin.
      * cbn. rewrite Hlt. apply to_int64_id.
        rewrite Forall_forall in Ht. apply Ht.
        apply last_Some_elem_of in El. exact El.
    + apply last_None in El. subst es. cbn in Hlt, Hpos |- *.
      rewrite Z.add_0_r in *.
      destruct Hlast as (e & He & Hte); [exact Hpos|].
      exists e. rewrite Hlt. split; [|exact Hte].
      rewrite <- He. apply Hout; unfold int64_min, int64_max in *; lia.
  - intros H0. assert (es = []) as -> by (destruct es; [reflexivity|cbn in H0; lia]).
    cbn in Hlt. rewrite Hlt. apply Hzero. cbn in H0. lia.
Qed.

(** Two entries appended to the empty log are recovered with length 2 and
    last term 2. *)
Lemma Open_recovers_appended_log_witness :
  exists b',
    BinLogger.AppendEntryList BinLogger.empty [nop_entry 1; nop_entry 2] = Some b'
    /\ BinLogger.Open (BinLogger.db_ b') = Some b'
    /\ BinLogger.GetLastLogIndexAndTerm b' = (1, 2).
Proof.
  destruct (BinLogger.AppendEntryList BinLogger.empty [nop_entry 1; nop_entry 2])
    as [b'|] eqn:HA; [|vm_compute in HA; discriminate HA].
  exists b'. split; [reflexivity|]. split.
  - apply (Open_recovers_appended_log BinLogger.empty b'
             [nop_entry 1; nop_entry 2]).
    + reflexivity.
    + vm_compute. discriminate.
    + vm_compute. discriminate.
    + repeat constructor; vm_compute; discriminate.
    + exact HA.
  - assert (BinLogger.GetLastLogIndexAndTerm
              <$> BinLogger.AppendEntryList BinLogger.empty
                    [nop_entry 1; nop_entry 2] = Some (1, 2)) as H
      by (vm_compute; reflexivity).
    rewrite HA in H. cbn in H. inversion H. reflexivity.
Defined.

(** X5.  [Truncate(k)] and a restart.  For [k >= 0] the state left in
    memory is the state the constructor would read back.  For [k < 0] the
    log is emptied but [last_log_term_] keeps the term it had, so
    [GetLastLogIndexAndTerm] reports index -1 with the old term, where a
    restarted node would report term -1. *)
Theorem Truncate_then_Open (b b' : BinLogger.t) (k : Z) :
  int64_min <= k < int64_max ->
  BinLogger.Truncate b k = Some b' ->
  (0 <= k -> BinLogger.Open (BinLogger.db_ b') = Some b')
  /\ (k < 0 ->
      BinLogger.GetLastLogIndexAndTerm b' = (-1, BinLogger.last_log_term_ b)
      /\ BinLogger.Open (BinLogger.db_ b')
         = Some (BinLogger.mk (BinLogger.db_ b') 0 (-1))).
Proof.
  intros Hk HT. pose proof (Truncate_inv _ _ _ HT) as HI. cbv zeta in HI.
  unfold BinLogger.Truncate in HT. split.
  - intros Hpos. rewrite (decide_False (P := k < -1)) in HT, HI by lia.
    rewrite to_int64_id in HT, HI by (unfold int64_min, int64_max in *; lia).
    destruct HI as [Hlen Hdb].
    rewrite decide_True in HT by lia.
    destruct (BinLogger.ReadSlot _ _) as [e| |] eqn:E; try discriminate HT.
    inversion HT; subst b'; clear HT. cbn [BinLogger.db_].
    apply Open_tagged.
    + unfold int64_max in *. lia.
    + apply lookup_insert_eq.
    + intros _. exists e. split; [|reflexivity].
      rewrite <- E. apply ReadSlot_db. reflexivity.
    + lia.
  - intros Hneg.
    assert (to_int64 ((if decide (k < -1) then -1 else k) + 1) = 0) as E0.
    { destruct (decide (k < -1)); [reflexivity|].
      replace k with (-1) by lia. reflexivity. }
    rewrite E0 in HT, HI. destruct HI as [Hlen Hdb].
    rewrite decide_False in HT by lia. inversion HT; subst b'; clear HT.
    unfold BinLogger.GetLastLogIndexAndTerm.
    cbn [BinLogger.db_ BinLogger.length_ BinLogger.last_log_term_].
    split; [reflexivity|].
    apply Open_tagged; [unfold int64_max; lia|apply lookup_insert_eq|lia|reflexivity].
Qed.

Lemma Truncate_to_empty b k :
  k <= -1 -> exists b', BinLogger.Truncate b k = Some b'.
Proof.
  intros Hk. unfold BinLogger.Truncate.
  destruct (decide (k < -1)) as [|Hn].
  - eexists. reflexivity.
  - assert (k = -1) as -> by lia. eexists. reflexivity.
Qed.

(** A two-entry log emptied by [Truncate(-1)] still reports last term 2. *)
Lemma Truncate_then_Open_witness :
  exists b b',
    log_of [nop_entry 1; nop_entry 2] = Some b
    /\ BinLogger.Truncate b (-1) = Some b'
    /\ BinLogger.GetLastLogIndexAndTerm b' = (-1, 2)
    /\ BinLogger.Open (BinLogger.db_ b')
       = Some (BinLogger.mk (BinLogger.db_ b') 0 (-1)).
Proof.
  destruct (log_of [nop_entry 1; nop_entry 2]) as [b|] eqn:Hb;
    [|vm_compute in Hb; discriminate Hb].
  destruct (BinLogger.Truncate b (-1)) as [b'|] eqn:HT.
  - exists b, b'. split; [reflexivity|]. split; [exact HT|].
    destruct (Truncate_then_Open b b' (-1)) as [_ H];
      [vm_compute; split; [discriminate|reflexivity] | exact HT |].
    destruct H as [H1 H2]; [reflexivity|]. split; [|exact H2].
    rewrite H1. f_equal.
    assert (BinLogger.last_log_term_ <$> log_of [nop_entry 1; nop_entry 2]
            = Some 2) as H by (vm_compute; reflexivity).
    rewrite Hb in H. cbn in H. inversion H. reflexivity.
  - exfalso. destruct (Truncate_to_empty b (-1)) as [b' Hb']; [lia|].
    rewrite Hb' in HT. discriminate HT.
Defined.

(** X6.  [RemoveSlot] reports [false] exactly for a slot that is not
    there; afterwards the slot reads as not found, while the length, the
    last term and every other slot are as before. *)
Theorem RemoveSlot_ReadSlot (b : BinLogger.t) (i : Z) :
  ((BinLogger.RemoveSlot b i).1 = false
   <-> BinLogger.ReadSlot b i = BinLogger.SlotNotFound)
  /\ BinLogger.ReadSlot (BinLogger.RemoveSlot b i).2 i = BinLogger.SlotNotFound
  /\ BinLogger.GetLength (BinLogger.RemoveSlot b i).2 = BinLogger.GetLength b
  /\ BinLogger.GetLastLogIndexAndTerm (BinLogger.RemoveSlot b i).2
     = BinLogger.GetLastLogIndexAndTerm b
  /\ (forall j, to_int64 j <> to_int64 i ->
        BinLogger.ReadSlot (BinLogger.RemoveSlot b i).2 j
        = BinLogger.ReadSlot b j).
Proof.
  unfold BinLogger.RemoveSlot, BinLogger.ReadSlot.
  destruct (BinLogger.db_ b !! BinLogger.IntToString i) as [v|] eqn:E;
    cbn [fst snd BinLogger.db_].
  - split.
    { split; [discriminate|]. destruct (LogEntry.Load v); discriminate. }
    rewrite lookup_delete_eq. repeat split.
    intros j Hj. rewrite lookup_delete_ne; [reflexivity|].
    intros E'. apply IntToString_eq in E'. auto.
  - rewrite E. repeat split.
Qed.

(** ** The key/value store *)

Section StorageFacts.

Lemma key_lt_le a b : StorageManager.key_lt a b = false <-> String.le b a.
Proof.
  unfold StorageManager.key_lt, String.le, String.ltb, String.leb.
  rewrite (String.compare_antisym a b).
  destruct (b ?= a)%string; cbn; split; intros H;
    try reflexivity; try exact I; try discriminate H; try (destruct H).
Qed.

Lemma key_lt_true a b :
  StorageManager.key_lt a b = true <-> String.le a b /\ a <> b.
Proof.
  unfold StorageManager.key_lt, String.le, String.ltb, String.leb.
  destruct (a ?= b)%string eqn:E; cbn.
  - apply String.compare_eq_iff in E. subst. split; [discriminate|].
    intros [_ H]. now contradiction H.
  - split; [|reflexivity]. intros _. split; [exact I|].
    intros ->.
    pose proof (String.compare_antisym b b) as E'. rewrite E in E'.
    discriminate E'.
  - split; [discriminate|]. intros [H _]. destruct H.
Qed.

Lemma entry_le_trans : Transitive StorageManager.entry_le.
Proof.
  intros a b c. unfold StorageManager.entry_le. apply transitivity.
Qed.

Lemma entry_le_total : Total StorageManager.entry_le.
Proof.
  intros a b. unfold StorageManager.entry_le. apply total. apply _.
Qed.

#[local] Existing Instances entry_le_trans entry_le_total.

Lemma ordered_entries_elem db k v :
  (k, v) ∈ StorageManager.ordered_entries db <-> db !! k = Some v.
Proof.
  unfold StorageManager.ordered_entries.
  rewrite merge_sort_Permutation. apply elem_of_map_to_list.
Qed.

Lemma ordered_entries_sorted db :
  StronglySorted StorageManager.entry_le (StorageManager.ordered_entries db).
Proof. apply StronglySorted_merge_sort; apply _. Qed.

Lemma ordered_entries_NoDup db :
  NoDup (StorageManager.ordered_entries db).*1.
Proof.
  unfold StorageManager.ordered_entries.
  rewrite merge_sort_Permutation. apply NoDup_fst_map_to_list.
Qed.

Lemma seek_from_sorted target l :
  StronglySorted StorageManager.entry_le l ->
  forall e, e ∈ StorageManager.seek_from target l
            <-> e ∈ l /\ StorageManager.key_lt e.1 target = false.
Proof.
  induction 1 as [|x l Hs IH Hx]; intros e; cbn [StorageManager.seek_from].
  - rewrite elem_of_nil. tauto.
  - destruct (StorageManager.key_lt x.1 target) eqn:E.
    + rewrite IH, elem_of_cons. split; [tauto|].
      intros [[->|Hin] He]; [congruence|tauto].
    + rewrite !elem_of_cons. split; [|tauto].
      intros [->|Hin]; [tauto|]. split; [tauto|].
      rewrite Forall_forall in Hx. specialize (Hx e Hin).
      unfold StorageManager.entry_le in Hx.
      apply key_lt_le. apply key_lt_le in E. etransitivity; eassumption.
Qed.

Lemma seek_from_suffix target l :
  StorageManager.seek_from target l `suffix_of` l.
Proof.
  induction l as [|x l IH]; cbn; [reflexivity|].
  destruct (StorageManager.key_lt x.1 target); [|reflexivity].
  now apply suffix_cons_r.
Qed.

Lemma StronglySorted_suffix {A} (R : relation A) l1 l2 :
  l1 `suffix_of` l2 -> StronglySorted R l2 -> StronglySorted R l1.
Proof.
  intros [k ->]. induction k as [|x k IH]; [trivial|].
  cbn. intros H. apply IH. now inversion H.
Qed.

Lemma NoDup_fst_suffix (l1 l2 : list (string * string)) :
  l1 `suffix_of` l2 -> NoDup l2.*1 -> NoDup l1.*1.
Proof.
  intros [k ->]. rewrite fmap_app. apply NoDup_app.
Qed.

Lemma strictly_sorted (l : list (string * string)) :
  StronglySorted StorageManager.entry_le l -> NoDup l.*1 ->
  StronglySorted (fun a b => StorageManager.key_lt a.1 b.1 = true) l.
Proof.
  induction 1 as [|x l Hs IH Hx]; intros Hnd; constructor.
  - apply IH. cbn in Hnd. now inversion Hnd.
  - cbn in Hnd. inversion Hnd as [|? ? Hnotin Hnd']; subst.
    rewrite Forall_forall in Hx |- *. intros e He.
    apply key_lt_true. split; [apply Hx, He|].
    intros Heq. apply Hnotin. rewrite Heq.
    apply list_elem_of_fmap. exists e. auto.
Qed.

End StorageFacts.

(** X7.  In an open namespace [Put] and [Delete] always report [kOk]
    (also a [Delete] of a key that is not there); the key then reads as
    the value put, respectively as [kNotFound] with an empty value; every
    other key, of this or another namespace, reads as it did before. *)
Theorem StorageManager_Put_Get_Delete (sm : StorageManager.t)
    (name key value : string) :
  is_Some (StorageManager.dbs_ sm !! name) ->
  (StorageManager.Put sm name key value).1 = kOk
  /\ (StorageManager.Delete sm name key).1 = kOk
  /\ StorageManager.Get (StorageManager.Put sm name key value).2 name key
     = (kOk, value)
  /\ StorageManager.Get (StorageManager.Delete sm name key).2 name key
     = (kNotFound, EmptyString)
  /\ (forall name' key', (name', key') <> (name, key) ->
        StorageManager.Get (StorageManager.Put sm name key value).2 name' key'
        = StorageManager.Get sm name' key'
        /\ StorageManager.Get (StorageManager.Delete sm name key).2 name' key'
           = StorageManager.Get sm name' key').
Proof.
  intros [db Hdb].
  rewrite (Put_open _ _ _ _ _ Hdb), (Delete_open _ _ _ _ Hdb).
  cbn [fst snd].
  split; [reflexivity|]. split; [reflexivity|]. split; [|split].
  - erewrite Get_open by (cbn; apply lookup_insert_eq).
    now rewrite lookup_insert_eq.
  - erewrite Get_open by (cbn; apply lookup_insert_eq).
    now rewrite lookup_delete_eq.
  - intros name' key' Hne.
    destruct (decide (name' = name)) as [->|Hn].
    + rewrite (Get_open sm _ _ _ Hdb).
      erewrite !Get_open by (cbn; apply lookup_insert_eq).
      rewrite lookup_insert_ne, lookup_delete_ne by congruence. auto.
    + unfold StorageManager.Get, StorageManager.FindDB.
      cbn [StorageManager.dbs_].
      rewrite !lookup_insert_ne by congruence. auto.
Qed.

(** In a store with the namespace ["alice"] open, a key put is read back
    and a key deleted is not found. *)
Lemma StorageManager_Put_Get_Delete_witness :
  let sm := example_store "alice" [("k", "old")] in
  StorageManager.Get (StorageManager.Put sm "alice" "k" "new").2 "alice" "k"
  = (kOk, "new")
  /\ StorageManager.Get (StorageManager.Delete sm "alice" "k").2 "alice" "k"
     = (kNotFound, "").
Proof.
  intros sm.
  destruct (StorageManager_Put_Get_Delete sm "alice" "k" "new")
    as (_ & _ & Hp & Hd & _); [vm_compute; eauto|].
  split; [exact Hp | exact Hd].
Defined.

(** X8.  A namespace without a handle: [Get], [Put] and [Delete] answer
    [kUnknownUser] and change nothing, and there is no iterator.  If
    [OpenDatabase] then reports success, a second call reports success
    again and changes nothing, the other namespaces read as before, and
    the namespace holds what its database held in the data directory
    (nothing, if it did not exist). *)
Theorem StorageManager_unknown_user (sm : StorageManager.t)
    (name key value : string) :
  StorageManager.dbs_ sm !! name = None ->
  StorageManager.Get sm name key = (kUnknownUser, EmptyString)
  /\ StorageManager.Put sm name key value = (kUnknownUser, sm)
  /\ StorageManager.Delete sm name key = (kUnknownUser, sm)
  /\ StorageManager.NewIterator sm name = None
  /\ ((StorageManager.OpenDatabase sm name).1 = true ->
      let sm' := (StorageManager.OpenDatabase sm name).2 in
      StorageManager.OpenDatabase sm' name = (true, sm')
      /\ StorageManager.Get sm' name key
         = match default ∅ (StorageManager.disk_ sm !! name) !! key with
           | Some v => (kOk, v)
           | None => (kNotFound, EmptyString)
           end
      /\ (forall name' key', name' <> name ->
            StorageManager.Get sm' name' key' = StorageManager.Get sm name' key')).
Proof.
  intros Hn.
  unfold StorageManager.Put, StorageManager.Delete, StorageManager.Get,
    StorageManager.NewIterator, StorageManager.OpenDatabase,
    StorageManager.FindDB.
  rewrite Hn. cbn [fst snd StorageManager.dbs_].
  rewrite !lookup_insert_eq. repeat split.
  intros name' key' Hne. rewrite lookup_insert_ne by congruence. reflexivity.
Qed.

(** A namespace that was never opened answers [kUnknownUser]; once opened
    it is empty. *)
Lemma StorageManager_unknown_user_witness :
  let sm := example_store "alice" [("k", "v")] in
  StorageManager.Get sm "bob" "k" = (kUnknownUser, "")
  /\ StorageManager.Get (StorageManager.OpenDatabase sm "bob").2 "bob" "k"
     = (kNotFound, "").
Proof.
  intros sm.
  destruct (StorageManager_unknown_user sm "bob" "k" "")
    as (Hg & _ & _ & _ & Ho); [reflexivity|].
  split; [exact Hg|]. destruct (Ho eq_refl) as (_ & Hread & _). exact Hread.
Defined.

(** X9.  Closing a namespace and opening it again loses nothing: while it
    is closed its keys answer [kUnknownUser], and after [OpenDatabase]
    every key of every namespace reads as before the [CloseDatabase]. *)
Theorem CloseDatabase_OpenDatabase (sm : StorageManager.t) (name : string) :
  is_Some (StorageManager.dbs_ sm !! name) ->
  (forall key,
     StorageManager.Get (StorageManager.CloseDatabase sm name) name key
     = (kUnknownUser, EmptyString))
  /\ (forall name' key,
        StorageManager.Get
          (StorageManager.OpenDatabase
             (StorageManager.CloseDatabase sm name) name).2 name' key
        = StorageManager.Get sm name' key).
Proof.
  intros [db Hdb].
  unfold StorageManager.CloseDatabase, StorageManager.OpenDatabase,
    StorageManager.Get, StorageManager.FindDB.
  rewrite Hdb. cbn [fst snd StorageManager.dbs_ StorageManager.disk_].
  rewrite !lookup_delete_eq. cbn [fst snd StorageManager.dbs_ StorageManager.disk_].
  split; [reflexivity|]. intros name' key.
  rewrite lookup_insert_eq. cbn [default].
  destruct (decide (name' = name)) as [->|Hne].
  - rewrite lookup_insert_eq, Hdb. reflexivity.
  - rewrite lookup_insert_ne, lookup_delete_ne by congruence. reflexivity.
Qed.

Lemma CloseDatabase_OpenDatabase_witness :
  let sm := example_store "alice" [("k", "v")] in
  StorageManager.Get (StorageManager.CloseDatabase sm "alice") "alice" "k"
  = (kUnknownUser, "")
  /\ StorageManager.Get
       (StorageManager.OpenDatabase
          (StorageManager.CloseDatabase sm "alice") "alice").2 "alice" "k"
     = (kOk, "v").
Proof.
  intros sm.
  destruct (CloseDatabase_OpenDatabase sm "alice") as [Hc Ho];
    [vm_compute; eauto|].
  split; [apply Hc|]. rewrite Ho. reflexivity.
Defined.

(** X10.  An iterator positioned by [Seek(target)] walks exactly the
    entries of the namespace whose key is not below [target], each once,
    in strictly ascending key order. *)
Theorem Seek_walks_keys_from (sm : StorageManager.t) (name target : string)
    (it : StorageManager.Iterator) :
  StorageManager.NewIterator sm name = Some it ->
  let walk := StorageManager.it_ (StorageManager.Seek it target) in
  StronglySorted (fun a b => StorageManager.key_lt a.1 b.1 = true) walk
  /\ (forall k v,
        (k, v) ∈ walk
        <-> (StorageManager.FindDB sm name).2 !! k = Some v
            /\ StorageManager.key_lt k target = false).
Proof.
  unfold StorageManager.NewIterator. intros H. cbv zeta.
  destruct (StorageManager.FindDB sm name) as [[] db]; try discriminate H.
  inversion H; subst it; clear H.
  cbn [StorageManager.Seek StorageManager.it_ StorageManager.snapshot snd].
  split.
  - apply strictly_sorted.
    + eapply StronglySorted_suffix;
        [apply seek_from_suffix|apply ordered_entries_sorted].
    + eapply NoDup_fst_suffix;
        [apply seek_from_suffix|apply ordered_entries_NoDup].
  - intros k v.
    rewrite (seek_from_sorted target _ (ordered_entries_sorted db) (k, v)).
    rewrite ordered_entries_elem. reflexivity.
Qed.

(** Seeking to ["b"] in a namespace holding ["a"], ["b"] and ["c"]. *)
Lemma Seek_walks_keys_from_witness :
  let sm := example_store "alice" [("c", "3"); ("a", "1"); ("b", "2")] in
  exists it,
    StorageManager.NewIterator sm "alice" = Some it
    /\ ("b", "2") ∈ StorageManager.it_ (StorageManager.Seek it "b")
    /\ ("a", "1") ∉ StorageManager.it_ (StorageManager.Seek it "b").
Proof.
  intros sm.
  destruct (StorageManager.NewIterator sm "alice") as [it|] eqn:Hit;
    [|vm_compute in Hit; discriminate Hit].
  exists it. split; [reflexivity|].
  destruct (Seek_walks_keys_from sm "alice" "b" it Hit) as [_ H].
  split.
  - apply H. vm_compute. auto.
  - intros Hin. apply H in Hin as [_ Hlt]. vm_compute in Hlt. discriminate Hlt.
Defined.

(** ** Keys: parents and watch keys *)

Section KeyFacts.

Lemma rfind_None c s : rfind c s = None <-> c ∉ list_ascii_of_string s.
Proof.
  induction s as [|a s IH]; cbn [rfind list_ascii_of_string].
  - split; [intros _; apply not_elem_of_nil|reflexivity].
  - rewrite not_elem_of_cons. destruct (rfind c s) as [i|].
    + split; [discriminate|]. intros [_ H]. apply IH in H. discriminate H.
    + destruct (decide (a = c)) as [->|Hne].
      * split; [discriminate|]. intros [H _]. now contradiction H.
      * split; [|reflexivity]. intros _. split; [congruence|]. now apply IH.
Qed.

Lemma rfind_append c a b :
  rfind c b = None -> rfind c (a +:+ String c b) = Some (String.length a).
Proof.
  intros Hb. induction a as [|x a IH].
  - rewrite append_nil_l. cbn [rfind String.length]. rewrite Hb.
    now rewrite decide_True.
  - rewrite append_cons. cbn [rfind String.length]. now rewrite IH.
Qed.

Lemma substring_0_append a b : substring 0 (String.length a) (a +:+ b) = a.
Proof.
  induction a as [|x a IH].
  - rewrite append_nil_l. destruct b; reflexivity.
  - rewrite append_cons. cbn [String.length substring]. now rewrite IH.
Qed.

Lemma substring_all s : substring 0 (String.length s) s = s.
Proof.
  induction s as [|x s IH]; [reflexivity|].
  cbn [String.length substring]. now rewrite IH.
Qed.

Lemma substring_skip a b :
  substring (String.length a) (String.length b) (a +:+ b) = b.
Proof.
  induction a as [|x a IH].
  - rewrite append_nil_l. apply substring_all.
  - rewrite append_cons. cbn [String.length substring]. exact IH.
Qed.

Lemma rfind_split c s i :
  rfind c s = Some i ->
  exists rest, s = substring 0 i s +:+ String c rest /\ rfind c rest = None.
Proof.
  revert i. induction s as [|a s IH]; intros i; cbn [rfind]; [discriminate|].
  destruct (rfind c s) as [j|] eqn:E.
  - intros H. inversion H; subst i; clear H.
    destruct (IH j eq_refl) as (rest & Hs & Hr). exists rest.
    split; [|exact Hr]. cbn [substring]. rewrite append_cons. now rewrite <- Hs.
  - destruct (decide (a = c)) as [->|]; [|discriminate].
    intros H. inversion H; subst i; clear H. exists s.
    split; [|exact E]. cbn [substring]. now rewrite append_nil_l.
Qed.

Lemma find_first_of_append c a b :
  c ∉ list_ascii_of_string a ->
  find_first_of c (a +:+ String c b) = Some (String.length a).
Proof.
  induction a as [|x a IH]; intros Hn.
  - rewrite append_nil_l. cbn [find_first_of]. now rewrite decide_True.
  - rewrite append_cons. cbn [find_first_of String.length].
    cbn [list_ascii_of_string] in Hn. apply not_elem_of_cons in Hn as [Hx Ha].
    rewrite decide_False by congruence. now rewrite IH.
Qed.

Lemma append_assoc a b c : (a +:+ b) +:+ c = a +:+ b +:+ c.
Proof.
  induction a as [|x a IH]; [now rewrite !append_nil_l|].
  rewrite !append_cons. now rewrite IH.
Qed.

Lemma length_substring n m s :
  (n + m <= String.length s)%nat -> String.length (substring n m s) = m.
Proof.
  revert s. induction n as [|n IH]; intros s Hs.
  - now apply length_substring_0.
  - destruct s as [|a s]; cbn [String.length] in Hs; [lia|].
    cbn [substring]. apply IH. lia.
Qed.

Lemma find_first_of_prefix c a b :
  find_first_of c (a +:+ b) = Some (String.length a) ->
  c ∉ list_ascii_of_string a.
Proof.
  induction a as [|x a IH]; cbn [list_ascii_of_string String.length].
  - intros _. apply not_elem_of_nil.
  - rewrite append_cons. cbn [find_first_of].
    destruct (decide (x = c)) as [->|Hne]; [discriminate|].
    destruct (find_first_of c (a +:+ b)) as [i|] eqn:E; [|discriminate].
    cbn. intros H. inversion H; subst i. apply not_elem_of_cons.
    split; [congruence|]. now apply IH.
Qed.

Lemma GetParentKey_append parent child :
  "/"%char ∉ list_ascii_of_string child ->
  GetParentKey (parent +:+ "/" +:+ child) = Some parent.
Proof.
  intros Hc. apply rfind_None in Hc. unfold GetParentKey.
  change ("/" +:+ child) with (String "/" child).
  rewrite (rfind_append _ _ _ Hc). now rewrite substring_0_append.
Qed.

Lemma GetKeyFromEvent_bound user key :
  ":"%char ∉ list_ascii_of_string user ->
  GetKeyFromEvent (BindKeyAndUser user key) = Some key.
Proof.
  intros Hu. unfold GetKeyFromEvent, BindKeyAndUser.
  change ("::" +:+ key) with (String ":" (String ":" key)).
  rewrite (find_first_of_append _ _ _ Hu).
  rewrite length_append. cbn [String.length].
  rewrite decide_False by lia.
  replace (String.length user + S (S (String.length key))
           - (String.length user + 2))%nat
    with (String.length key) by lia.
  replace (String.length user + 2)%nat
    with (String.length (user +:+ "::")) by (rewrite length_append; reflexivity).
  replace (user +:+ String ":" (String ":" key)) with ((user +:+ "::") +:+ key)
    by apply append_assoc.
  apply f_equal, substring_skip.
Qed.

End KeyFacts.

(** X11.  [GetParentKey] cuts a key at its last ['/']: it yields
    [parent] for [parent/child] whenever [child] holds no ['/'], it fails
    exactly on the keys without a ['/'], and whatever it yields rebuilds
    the key with a slash-free last component. *)
Theorem GetParentKey_split (key parent child : string) :
  ("/"%char ∉ list_ascii_of_string child ->
   GetParentKey (parent +:+ "/" +:+ child) = Some parent)
  /\ (GetParentKey key = None <-> "/"%char ∉ list_ascii_of_string key)
  /\ (GetParentKey key = Some parent ->
      exists last_component,
        key = parent +:+ "/" +:+ last_component
        /\ "/"%char ∉ list_ascii_of_string last_component).
Proof.
  unfold GetParentKey. split; [|split].
  - apply GetParentKey_append.
  - rewrite <- rfind_None. destruct (rfind "/" key); split;
      intros H; (discriminate H || reflexivity).
  - destruct (rfind "/" key) as [i|] eqn:E; [|discriminate].
    intros H. inversion H as [Hp]. clear H.
    destruct (rfind_split _ _ _ E) as (rest & Hs & Hr).
    exists rest. split; [|now apply rfind_None].
    exact Hs.
Qed.

(** X12.  The watch key built by [BindKeyAndUser] gives the key back
    through [GetKeyFromEvent] exactly when the user name holds no [':'].
    With a [':'] in the user name, say the name is [a:b] with no [':'] in
    [a], [GetKeyFromEvent] cuts inside the user name: it yields [b::key]
    without its first character, which is longer than the key. *)
Theorem GetKeyFromEvent_BindKeyAndUser (user key : string) :
  (GetKeyFromEvent (BindKeyAndUser user key) = Some key
   <-> ":"%char ∉ list_ascii_of_string user)
  /\ (forall a b,
        user = a +:+ ":" +:+ b ->
        ":"%char ∉ list_ascii_of_string a ->
        exists c rest,
          b +:+ "::" +:+ key = String c rest
          /\ GetKeyFromEvent (BindKeyAndUser user key) = Some rest
          /\ (String.length key < String.length rest)%nat).
Proof.
  split.
  - split; [|apply GetKeyFromEvent_bound].
    unfold GetKeyFromEvent.
    destruct (find_first_of_bind user key) as (i & Hi & Hle).
    rewrite Hi.
    assert (String.length (BindKeyAndUser user key)
            = (String.length user + (2 + String.length key))%nat) as Hlen.
    { unfold BindKeyAndUser. now rewrite !length_append. }
    rewrite Hlen. rewrite decide_False by lia.
    intros H. inversion H as [Hk]. clear H.
    apply (f_equal String.length) in Hk.
    rewrite length_substring in Hk by (rewrite Hlen; lia).
    assert (i = String.length user) as -> by lia.
    unfold BindKeyAndUser in Hi. now apply find_first_of_prefix in Hi.
  - intros a b -> Ha.
    assert (exists c rest, b +:+ "::" +:+ key = String c rest) as (c & rest & E).
    { destruct b as [|c b]; [rewrite append_nil_l|rewrite append_cons]; eauto. }
    exists c, rest. split; [exact E|].
    assert (String.length rest = (String.length b + 1 + String.length key)%nat)
      as Hrest.
    { apply (f_equal String.length) in E. rewrite !length_append in E.
      cbn [String.length] in E. lia. }
    split; [|lia].
    assert (BindKeyAndUser (a +:+ ":" +:+ b) key
            = (a +:+ String ":" (String c EmptyString)) +:+ rest) as ->.
    { unfold BindKeyAndUser. rewrite !append_assoc.
      change (":" +:+ b +:+ "::" +:+ key) with (String ":" (b +:+ "::" +:+ key)).
      rewrite E. reflexivity. }
    unfold GetKeyFromEvent. rewrite append_assoc.
    change (String ":" (String c EmptyString) +:+ rest)
      with (String ":" (String c rest)).
    rewrite (find_first_of_append _ _ _ Ha).
    rewrite length_append. cbn [String.length].
    rewrite decide_False by lia. f_equal.
    replace (String.length a + S (S (String.length rest))
             - (String.length a + 2))%nat
      with (String.length rest) by lia.
    replace (String.length a + 2)%nat
      with (String.length (a +:+ String ":" (String c EmptyString)))
      by (rewrite length_append; reflexivity).
    change (String ":" (String c rest))
      with (String ":" (String c EmptyString) +:+ rest).
    rewrite <- append_assoc. apply substring_skip.
Qed.

(** For the user "alice" the key comes back; for the user "a:b" the
    watch key of "k" gives "::k". *)
Lemma GetKeyFromEvent_BindKeyAndUser_witness :
  GetKeyFromEvent (BindKeyAndUser "alice" "dir/key") = Some "dir/key"
  /\ GetKeyFromEvent (BindKeyAndUser "a:b" "k") = Some "::k".
Proof.
  split.
  - apply (proj2 (proj1 (GetKeyFromEvent_BindKeyAndUser "alice" "dir/key"))).
    intros H%list_elem_of_In. cbn in H.
    repeat (destruct H as [H|H]; [discriminate H|]). exact H.
  - destruct (proj2 (GetKeyFromEvent_BindKeyAndUser "a:b" "k") "a" "b" eq_refl)
      as (c & rest & E & HG & _).
    + intros H%list_elem_of_In. cbn in H.
      repeat (destruct H as [H|H]; [discriminate H|]). exact H.
    + vm_compute in E. inversion E; subst c rest. exact HG.
Defined.

(** ** Terms, votes and elections *)

Section ElectionFacts.

Context `{ops : LogOperationValues} `{um : UserManagerApi}.
Context (cfg : Config).

(** The node on which [Vote] looks up its vote: stepped down when the
    request carries a newer term. *)
Lemma Vote_cases (n : InsNodeImpl) (request : VoteRequest.t) :
  let n0 := if decide (VoteRequest.term request > current_term_ n)
            then TransToFollower n (VoteRequest.term request) else n in
  Vote n request = (n, VoteResponse.mk false (current_term_ n))
  \/ (VoteRequest.term request >= current_term_ n
      /\ current_term_ n0 = VoteRequest.term request
      /\ ((exists v, voted_for_ n0 !! current_term_ n0 = Some v
                     /\ v <> VoteRequest.candidate_id request
                     /\ Vote n request
                        = (n0, VoteResponse.mk false (current_term_ n0)))
          \/ (voted_for_ n0 !! current_term_ n0
              = Some (VoteRequest.candidate_id request)
              /\ Vote n request = (n0, VoteResponse.mk true (current_term_ n0)))
          \/ (voted_for_ n0 !! current_term_ n0 = None
              /\ Vote n request
                 = (set_meta_ (Meta.WriteVotedFor (meta_ n0) (current_term_ n0)
                                 (VoteRequest.candidate_id request))
                      (set_voted_for_
                         (<[current_term_ n0 := VoteRequest.candidate_id request]>
                            (voted_for_ n0)) n0),
                    VoteResponse.mk true (current_term_ n0))))).
Proof.
  cbv zeta. unfold Vote.
  destruct (BinLogger.GetLastLogIndexAndTerm (binlogger_ n))
    as [last_log_index last_log_term].
  destruct (decide (VoteRequest.term request < current_term_ n)); [now left|].
  destruct (decide (VoteRequest.last_log_term request < last_log_term));
    [now left|].
  destruct (decide (VoteRequest.last_log_term request = last_log_term
                    /\ VoteRequest.last_log_index request < last_log_index));
    [now left|].
  right. split; [lia|].
  set (m := if decide (VoteRequest.term request > current_term_ n)
            then TransToFollower n (VoteRequest.term request) else n).
  assert (current_term_ m = VoteRequest.term request) as Et.
  { subst m. destruct (decide _); [reflexivity|lia]. }
  split; [exact Et|].
  destruct (voted_for_ m !! current_term_ m) as [v|] eqn:Hv.
  - destruct (decide (v <> VoteRequest.candidate_id request)) as [Hne|He].
    + left. exists v. auto.
    + apply dec_stable in He. subst v. right. left. auto.
  - right. right. auto.
Qed.

Lemma DoAppendEntries_election (n n' : InsNodeImpl) request response signalled :
  DoAppendEntries cfg n request = Some (n', response, signalled) ->
  (AppendEntriesRequest.term request < current_term_ n /\ n' = n
   /\ AppendEntriesResponse.success response = false)
  \/ (AppendEntriesRequest.term request >= current_term_ n
      /\ current_term_ n' = AppendEntriesRequest.term request
      /\ status_ n' = kFollower
      /\ voted_for_ n' = voted_for_ n
      /\ meta_ n'
         = (if decide (AppendEntriesRequest.term request > current_term_ n)
            then Meta.WriteCurrentTerm (meta_ n)
                   (AppendEntriesRequest.term request)
            else meta_ n)
      /\ heartbeat_count_ n' = heartbeat_count_ n + 1
      /\ current_leader_ n' = AppendEntriesRequest.leader_id request).
Proof.
  unfold DoAppendEntries.
  destruct (decide (AppendEntriesRequest.term request < current_term_ n)).
  { intros H. inversion H; subst. left. auto. }
  intros H. right. split; [lia|]. revert H.
  destruct (decide (AppendEntriesRequest.term request > current_term_ n));
    destruct (decide (status_ n <> kFollower)) as [Hs|Hs];
    try (apply dec_stable in Hs);
    repeat match goal with
           | |- context [decide ?P] => destruct (decide P)
           | |- context [BinLogger.ReadSlot ?b ?i] =>
               destruct (BinLogger.ReadSlot b i)
           | |- context [BinLogger.Truncate ?b ?i] =>
               destruct (BinLogger.Truncate b i)
           | |- context [BinLogger.AppendEntryList ?b ?l] =>
               destruct (BinLogger.AppendEntryList b l)
           | |- _ => progress cbn [mbind option_bind]
           end;
    intros H; cbn in *; try lia; inversion H; subst; cbn;
    repeat split; try reflexivity; try lia; try assumption; try discriminate.
Qed.

Lemma TransToLeader_total (n : InsNodeImpl) replicating_ :
  exists n', TransToLeader cfg n replicating_ = Some n'
             /\ status_ n' = kLeader
             /\ in_safe_mode_ n' = true
             /\ current_leader_ n' = self_id_ cfg
             /\ current_term_ n' = current_term_ n
             /\ voted_for_ n' = voted_for_ n
             /\ meta_ n' = meta_ n.
Proof.
  unfold TransToLeader, StartReplicateLog.
  set (n1 := foldl _ _ _).
  assert (status_ n1 = kLeader /\ in_safe_mode_ n1 = true
          /\ current_leader_ n1 = self_id_ cfg
          /\ current_term_ n1 = current_term_ n
          /\ voted_for_ n1 = voted_for_ n /\ meta_ n1 = meta_ n) as Hn1.
  { subst n1. generalize (others_ cfg). intros l.
    set (n0 := set_current_leader_ _ _).
    assert (status_ n0 = kLeader /\ in_safe_mode_ n0 = true
            /\ current_leader_ n0 = self_id_ cfg
            /\ current_term_ n0 = current_term_ n
            /\ voted_for_ n0 = voted_for_ n /\ meta_ n0 = meta_ n) as H0
      by (repeat split).
    clearbody n0. revert n0 H0.
    induction l as [|x l IH]; intros n0 H0; [exact H0|].
    cbn [foldl]. apply IH. destruct (decide (x ∈ replicating_)); [exact H0|].
    cbn. exact H0. }
  clearbody n1.
  destruct (AppendEntry_fits (binlogger_ n1)
              (LogEntry.mk kNop EmptyString "Ping" EmptyString (current_term_ n1)))
    as [b Hb].
  { unfold LogEntry.fits_int32. cbn. vm_compute. discriminate. }
  rewrite Hb. cbn [mbind option_bind]. eexists. split; [reflexivity|].
  cbn. exact Hn1.
Qed.

End ElectionFacts.

Section RunFacts.

Context `{ops : LogOperationValues} `{um : UserManagerApi}.
Context (cfg : Config).

Lemma last_snoc_Some {A} (l : list A) x : last (l ++ [x]) = Some x.
Proof. apply last_snoc. Qed.

Lemma persisted_raise (n n' : InsNodeImpl) :
  persisted n ->
  current_term_ n < current_term_ n' ->
  voted_for_ n' = voted_for_ n ->
  Meta.term_file_ (meta_ n')
  = Meta.term_file_ (meta_ n) ++ [current_term_ n'] ->
  persisted n'.
Proof.
  intros (H1 & H2 & H3) Hlt Hv Hm. unfold persisted, Meta.ReadCurrentTerm.
  rewrite Hm, last_snoc_Some, Hv. split; [reflexivity|]. split.
  - intros t c Ht. specialize (H2 t c Ht). lia.
  - intros c Hc. specialize (H2 _ _ Hc). lia.
Qed.

Lemma persisted_same (n n' : InsNodeImpl) :
  persisted n ->
  current_term_ n' = current_term_ n ->
  voted_for_ n' = voted_for_ n ->
  meta_ n' = meta_ n ->
  persisted n'.
Proof.
  intros H Ht Hv Hm. unfold persisted in *. now rewrite Ht, Hv, Hm.
Qed.

Lemma persisted_vote (n n' : InsNodeImpl) c :
  persisted n ->
  current_term_ n' = current_term_ n ->
  voted_for_ n' = <[current_term_ n := c]> (voted_for_ n) ->
  meta_ n' = Meta.WriteVotedFor (meta_ n) (current_term_ n) c ->
  persisted n'.
Proof.
  intros (H1 & H2 & H3) Ht Hv Hm. unfold persisted.
  rewrite Ht, Hv, Hm. split; [exact H1|]. split.
  - intros t c'. destruct (decide (t = current_term_ n)) as [->|Hne].
    + intros _. lia.
    + rewrite lookup_insert_ne by congruence. apply H2.
  - intros c'. rewrite lookup_insert_eq. intros E. inversion E; subst c'.
    cbn. now rewrite last_snoc_Some.
Qed.

Lemma votes_recorded_raise (n n' : InsNodeImpl) votes :
  votes_recorded n votes ->
  current_term_ n < current_term_ n' ->
  votes_recorded n' votes.
Proof.
  intros [H1 H2] Hlt. split; [|exact H2].
  intros t c Hin. destruct (H1 t c Hin) as [Hle _]. split; lia.
Qed.

Lemma votes_recorded_same (n n' : InsNodeImpl) votes :
  votes_recorded n votes ->
  current_term_ n' = current_term_ n ->
  (forall c, voted_for_ n !! current_term_ n = Some c ->
             voted_for_ n' !! current_term_ n = Some c) ->
  votes_recorded n' votes.
Proof.
  intros [H1 H2] Ht Hv. split; [|exact H2].
  intros t c Hin. destruct (H1 t c Hin) as [Hle He]. rewrite Ht.
  split; [exact Hle|]. intros ->. apply Hv, He. reflexivity.
Qed.

Lemma votes_recorded_add (n : InsNodeImpl) votes c :
  votes_recorded n votes ->
  voted_for_ n !! current_term_ n = Some c ->
  votes_recorded n (votes ++ [(current_term_ n, c)]).
Proof.
  intros [H1 H2] Hc. split.
  - intros t c' Hin. apply elem_of_app in Hin as [Hin|Hin]; [now apply H1|].
    apply list_elem_of_singleton in Hin. inversion Hin; subst.
    split; [lia|]. intros _. exact Hc.
  - intros t c1 c2 Hi1 Hi2.
    apply elem_of_app in Hi1 as [Hi1|Hi1];
      apply elem_of_app in Hi2 as [Hi2|Hi2].
    + eapply H2; eassumption.
    + apply list_elem_of_singleton in Hi2. inversion Hi2; subst.
      destruct (H1 _ _ Hi1) as [_ He]. specialize (He eq_refl). congruence.
    + apply list_elem_of_singleton in Hi1. inversion Hi1; subst.
      destruct (H1 _ _ Hi2) as [_ He]. specialize (He eq_refl). congruence.
    + apply list_elem_of_singleton in Hi1. apply list_elem_of_singleton in Hi2.
      congruence.
Qed.

Lemma step_down_persisted (n : InsNodeImpl) t :
  persisted n -> t > current_term_ n -> persisted (TransToFollower n t).
Proof.
  intros H Ht. apply (persisted_raise n); [exact H|cbn; lia|reflexivity|reflexivity].
Qed.

(** One event keeps the term from decreasing, keeps the files in step with
    the node, and keeps the record of the votes cast. *)
Lemma on_event_inv replicating_ (n n' : InsNodeImpl) vg vg' ev vote votes :
  int64_min <= current_term_ n < int64_max ->
  persisted n ->
  votes_recorded n votes ->
  on_event cfg replicating_ (n, vg) ev = Some (n', vg', vote) ->
  current_term_ n <= current_term_ n'
  /\ persisted n'
  /\ votes_recorded n' (votes ++ from_option (fun v => [v]) [] vote).
Proof.
  intros Hr Hp Hv. destruct ev as [request|request| |response failed];
    cbn [on_event].
  - (* Vote *)
    pose proof (Vote_cases n request) as HV. cbv zeta in HV.
    set (n0 := if decide (VoteRequest.term request > current_term_ n)
               then TransToFollower n (VoteRequest.term request) else n) in HV.
    assert (current_term_ n <= current_term_ n0
            /\ persisted n0 /\ votes_recorded n0 votes) as (Hle0 & Hp0 & Hv0).
    { subst n0. destruct (decide _) as [Hgt|].
      - split; [cbn; lia|]. split; [now apply step_down_persisted|].
        apply (votes_recorded_raise n); [exact Hv|cbn; lia].
      - auto with zarith. }
    clearbody n0.
    destruct HV as [E|(Hge & Et & [(v & Hl & Hne & E)|[(Hl & E)|(Hl & E)]])];
      rewrite E; intros H; inversion H; subst; clear H;
      cbn [VoteResponse.vote_granted from_option].
    + rewrite app_nil_r. auto with zarith.
    + rewrite app_nil_r. auto.
    + split; [exact Hle0|]. split; [exact Hp0|].
      rewrite <- Et. now apply votes_recorded_add.
    + split; [cbn; exact Hle0|]. split.
      * apply (persisted_vote n0 _ (VoteRequest.candidate_id request));
          [exact Hp0|reflexivity|reflexivity|reflexivity].
      * rewrite <- Et.
        change (current_term_ n0)
          with (current_term_
                  (set_meta_
                     (Meta.WriteVotedFor (meta_ n0) (current_term_ n0)
                        (VoteRequest.candidate_id request))
                     (set_voted_for_
                        (<[current_term_ n0 := VoteRequest.candidate_id request]>
                           (voted_for_ n0)) n0))) at 3.
        apply votes_recorded_add.
        -- apply (votes_recorded_same n0); [exact Hv0|reflexivity|].
           intros c Hc. congruence.
        -- cbn. apply lookup_insert_eq.
  - (* AppendEntries *)
    destruct (DoAppendEntries cfg n request) as [[[n1 resp] sig]|] eqn:E;
      [|discriminate].
    intros H; inversion H; subst; clear H. cbn [from_option].
    rewrite app_nil_r.
    apply DoAppendEntries_election in E
      as [(_ & -> & _)|(Hge & Ht & _ & Hvf & Hm & _)]; [auto with zarith|].
    split; [lia|]. destruct (decide _) as [Hgt|Hngt].
    + split.
      * apply (persisted_raise n); [exact Hp|lia|exact Hvf|].
        rewrite Hm, Ht. reflexivity.
      * apply (votes_recorded_raise n); [exact Hv|lia].
    + split.
      * apply (persisted_same n); [exact Hp|lia|exact Hvf|exact Hm].
      * apply (votes_recorded_same n); [exact Hv|lia|]. now rewrite Hvf.
  - (* election timer *)
    unfold TryToBeLeader, starts_election.
    assert (to_int64 (current_term_ n + 1) = current_term_ n + 1) as E1
      by (apply to_int64_id; unfold int64_min, int64_max in *; lia).
    destruct (single_node_mode_ cfg).
    { intros H; inversion H; subst; clear H. cbn [negb andb from_option].
      rewrite app_nil_r. cbn.
      rewrite E1. split; [lia|]. split.
      - apply (persisted_raise n); [exact Hp|cbn; lia|reflexivity|reflexivity].
      - apply (votes_recorded_raise n); [exact Hv|cbn; lia]. }
    destruct (decide (status_ n = kLeader)) as [Hl|Hl].
    { intros H; inversion H; subst; clear H.
      rewrite bool_decide_eq_true_2 by exact Hl. cbn [negb andb from_option].
      rewrite app_nil_r. auto with zarith. }
    destruct (decide (status_ n = kFollower /\ heartbeat_count_ n > 0))
      as [Hf|Hf].
    { intros H; inversion H; subst; clear H.
      rewrite (bool_decide_eq_true_2 _ Hf), andb_false_r.
      cbn [from_option]. rewrite app_nil_r. split; [cbn; lia|]. split.
      - apply (persisted_same n); [exact Hp|reflexivity..].
      - apply (votes_recorded_same n); [exact Hv|reflexivity|auto]. }
    rewrite (bool_decide_eq_false_2 _ Hl), (bool_decide_eq_false_2 _ Hf).
    cbn [negb andb].
    destruct (BinLogger.GetLastLogIndexAndTerm _) as [lli llt].
    intros H; inversion H; subst; clear H. cbn [from_option].
    cbn.
    rewrite E1. split; [lia|]. split.
    + destruct Hp as (H1 & H2 & H3). unfold persisted, Meta.ReadCurrentTerm.
      cbn. rewrite !last_snoc_Some. split; [reflexivity|]. split.
      * intros t c Hl'. apply lookup_singleton_Some in Hl' as [<- _]. lia.
      * intros c Hl'. apply lookup_singleton_Some in Hl' as [_ <-]. reflexivity.
    + match goal with
      | |- votes_recorded ?m (_ ++ [(?t, _)]) =>
          change t with (current_term_ m); apply votes_recorded_add
      end.
      * apply (votes_recorded_raise n); [exact Hv|cbn; lia].
      * cbn. apply lookup_singleton_eq.
  - (* vote response *)
    unfold VoteCallback.
    destruct failed.
    { intros H; inversion H; subst; clear H. cbn. rewrite app_nil_r.
      auto with zarith. }
    destruct (decide (status_ n <> kCandidate)).
    { intros H; inversion H; subst; clear H. cbn. rewrite app_nil_r.
      auto with zarith. }
    destruct (VoteResponse.vote_granted response
              && bool_decide (VoteResponse.term response = current_term_ n)).
    + destruct (decide _).
      * destruct (TransToLeader_total cfg n replicating_)
          as (n1 & -> & _ & _ & _ & Ht & Hvf & Hm).
        cbn [mbind option_bind].
        intros H; inversion H; subst; clear H. cbn [from_option].
        rewrite app_nil_r. split; [lia|]. split.
        -- apply (persisted_same n); assumption.
        -- apply (votes_recorded_same n); [exact Hv|exact Ht|].
           now rewrite Hvf.
      * intros H; inversion H; subst; clear H. cbn. rewrite app_nil_r.
        auto with zarith.
    + destruct (decide _) as [Hgt|].
      * intros H; inversion H; subst; clear H. cbn [from_option].
        rewrite app_nil_r. split; [cbn; lia|]. split.
        -- now apply step_down_persisted.
        -- apply (votes_recorded_raise n); [exact Hv|cbn; lia].
      * intros H; inversion H; subst; clear H. cbn. rewrite app_nil_r.
        auto with zarith.
Qed.

End RunFacts.

(** ** The vote file read back *)

Section VoteFileFacts.

Import Meta.

Lemma scan_step_digit negative magnitude last c d :
  digit_of c = Some d ->
  scan_step (InNumber negative magnitude, last) c
  = (InNumber negative (10 * magnitude + d), last).
Proof. intros H. cbn [scan_step]. rewrite H. reflexivity. Qed.

Ltac scan_digit :=
  match goal with
  | |- context [scan_step (InNumber _ _, _) ?c] =>
      let k := eval vm_compute in (digit_of c) in
      match k with
      | Some ?d => rewrite (scan_step_digit _ _ _ c d eq_refl)
      end
  end.

(** The digits of a number that has begun. *)
Lemma scan_digits_acc negative last d :
  forall (acc : positive) rest,
    scan_chars (InNumber negative (Z.pos acc), last)
      (DecimalString.NilEmpty.string_of_uint d +:+ rest)
    = scan_chars (InNumber negative (Z.pos (Pos.of_uint_acc d acc)), last) rest.
Proof.
  induction d as [|d IH|d IH|d IH|d IH|d IH|d IH|d IH|d IH|d IH|d IH];
    intros acc rest; cbn [DecimalString.NilEmpty.string_of_uint Pos.of_uint_acc];
    [reflexivity|..];
    rewrite append_cons; cbn [scan_chars];
    scan_digit;
    rewrite <- IH;
    match goal with
    | |- scan_chars (InNumber _ ?a, _) _ = scan_chars (InNumber _ ?b, _) _ =>
        replace a with b by lia
    end; reflexivity.
Qed.

Lemma scan_digits_zero negative last d :
  forall rest,
    scan_chars (InNumber negative 0, last)
      (DecimalString.NilEmpty.string_of_uint d +:+ rest)
    = scan_chars (InNumber negative (Z.of_N (Pos.of_uint d)), last) rest.
Proof.
  induction d as [|d IH|d IH|d IH|d IH|d IH|d IH|d IH|d IH|d IH|d IH];
    intros rest; cbn [DecimalString.NilEmpty.string_of_uint Pos.of_uint];
    [reflexivity|..];
    rewrite append_cons; cbn [scan_chars];
    scan_digit;
    [exact (IH rest)|..];
    cbn [Z.of_N]; rewrite <- scan_digits_acc; reflexivity.
Qed.

(** The first digit, at the start of the number or after its sign, counts
    as a digit of a number that has begun with magnitude 0. *)
Lemma scan_first_digit last d rest :
  d <> Decimal.Nil ->
  scan_chars (AtNumber, last) (DecimalString.NilEmpty.string_of_uint d +:+ rest)
  = scan_chars (InNumber false 0, last)
      (DecimalString.NilEmpty.string_of_uint d +:+ rest).
Proof.
  destruct d; intros H; [now destruct H|..]; reflexivity.
Qed.

Lemma scan_first_digit_signed last negative d rest :
  d <> Decimal.Nil ->
  scan_chars (AfterSign negative, last)
    (DecimalString.NilEmpty.string_of_uint d +:+ rest)
  = scan_chars (InNumber negative 0, last)
      (DecimalString.NilEmpty.string_of_uint d +:+ rest).
Proof.
  destruct d; intros H; [now destruct H|..]; reflexivity.
Qed.

Lemma string_of_uint_nonnil d :
  d <> Decimal.Nil ->
  DecimalString.NilZero.string_of_uint d
  = DecimalString.NilEmpty.string_of_uint d.
Proof. destruct d; intros H; [now destruct H|..]; reflexivity. Qed.

(** [%ld] reads back what [%ld] printed. *)
Lemma scan_print_long last z rest :
  scan_chars (AtNumber, last) (print_long z +:+ rest)
  = scan_chars (InNumber (bool_decide (z < 0)) (Z.abs z), last) rest.
Proof.
  unfold print_long. destruct z as [|p|p];
    cbn [Z.to_int DecimalString.NilZero.string_of_int Z.abs].
  - reflexivity.
  - pose proof (DecimalPos.Unsigned.to_uint_nonnil p) as Hn.
    rewrite string_of_uint_nonnil, scan_first_digit, scan_digits_zero,
      DecimalPos.Unsigned.of_to by exact Hn.
    reflexivity.
  - pose proof (DecimalPos.Unsigned.to_uint_nonnil p) as Hn.
    rewrite append_cons. cbn [scan_chars].
    change (scan_step (AtNumber, last) "-"%char) with (AfterSign true, last).
    rewrite string_of_uint_nonnil, scan_first_digit_signed, scan_digits_zero,
      DecimalPos.Unsigned.of_to by exact Hn.
    reflexivity.
Qed.
Lemma strtol_id z :
  int64_min <= z <= int64_max -> strtol (bool_decide (z < 0)) (Z.abs z) = z.
Proof.
  intros H. unfold strtol. destruct (bool_decide_reflect (z < 0)); lia.
Qed.

Lemma c_str_id id :
  forallb (fun c => negb (isspace c) && negb (bool_decide (c = "000"%char)))
    (list_ascii_of_string id) = true ->
  c_str id = id.
Proof.
  induction id as [|c id IH]; [reflexivity|]. cbn [list_ascii_of_string forallb c_str].
  intros H. apply andb_true_iff in H as [Hc H].
  apply andb_true_iff in Hc as [_ Hc]. apply negb_true_iff in Hc.
  apply bool_decide_eq_false in Hc.
  destruct (decide (c = "000"%char)) as [E|_]; [contradiction|].
  now rewrite IH.
Qed.

(** The bytes of an id up to the bound of [%1023s]. *)
Lemma scan_id term last id :
  forall acc rest,
    forallb (fun c => negb (isspace c) && negb (bool_decide (c = "000"%char)))
      (list_ascii_of_string id) = true ->
    (String.length acc + String.length id <= 1023)%nat ->
    scan_chars (InId term acc, last) (id +:+ rest)
    = scan_chars (InId term (acc +:+ id), last) rest.
Proof.
  induction id as [|c id IH]; intros acc rest Hc Hlen.
  - now rewrite append_nil_l, append_nil_r.
  - cbn [list_ascii_of_string forallb] in Hc.
    apply andb_true_iff in Hc as [Hc Hrest].
    apply andb_true_iff in Hc as [Hs _]. apply negb_true_iff in Hs.
    cbn [String.length] in Hlen.
    rewrite append_cons. cbn [scan_chars scan_step]. rewrite Hs.
    destruct (decide (String.length acc < 1023)%nat) as [_|Hge]; [|lia].
    rewrite IH; [|exact Hrest|rewrite length_append; cbn [String.length]; lia].
    rewrite append_assoc. reflexivity.
Qed.

(** One record, as [WriteVotedFor] prints it, is one successful call. *)
Lemma scan_record last r rest :
  plain_record r = true ->
  scan_chars (AtNumber, last) (vote_record r +:+ rest)
  = scan_chars (AtNumber, Some r) rest.
Proof.
  destruct r as [term id]. unfold plain_record, token. cbn [fst snd].
  intros H. apply andb_true_iff in H as [Hterm H].
  apply andb_true_iff in H as [H Hchars].
  apply andb_true_iff in H as [Hne Hlen].
  apply bool_decide_eq_true in Hterm. apply bool_decide_eq_true in Hlen.
  apply negb_true_iff, bool_decide_eq_false in Hne.
  unfold vote_record. cbn [fst snd].
  rewrite (c_str_id id Hchars), !append_assoc, scan_print_long.
  rewrite append_cons, append_nil_l. cbn [scan_chars].
  change (scan_step (InNumber (bool_decide (term < 0)) (Z.abs term), last) " ")
    with (AtId (strtol (bool_decide (term < 0)) (Z.abs term)), last).
  rewrite (strtol_id term Hterm).
  destruct id as [|c id]; [now destruct Hne|].
  cbn [list_ascii_of_string forallb] in Hchars.
  apply andb_true_iff in Hchars as [Hc Hchars].
  apply andb_true_iff in Hc as [Hs _]. apply negb_true_iff in Hs.
  cbn [String.length] in Hlen.
  rewrite append_cons. cbn [scan_chars scan_step]. unfold start_id. rewrite Hs.
  rewrite scan_id; [|exact Hchars|cbn [String.length]; lia].
  rewrite append_cons, append_nil_l. cbn [scan_chars]. reflexivity.
Qed.

(** A file of plain records: the last successful call is the one that
    reads the last record. *)
Lemma scan_records records :
  Forall (fun r => plain_record r = true) records ->
  forall prev,
    scan_chars (AtNumber, prev)
      (foldr (fun r text => vote_record r +:+ text) EmptyString records)
    = (AtNumber, from_option Some prev (last records)).
Proof.
  induction 1 as [|r records Hr _ IH]; intros prev; [reflexivity|].
  cbn [foldr]. rewrite scan_record by exact Hr. rewrite IH.
  destruct records as [|p records]; [reflexivity|].
  rewrite last_cons_cons.
  destruct (last (p :: records)) eqn:E; [reflexivity|].
  apply last_None in E. discriminate E.
Qed.

(** What [ReadVotedFor] reads from a file of plain records. *)
Lemma ReadVotedFor_plain (m : Meta.t) :
  Forall (fun r => plain_record r = true) (vote_file_ m) ->
  ReadVotedFor m
  = match last (vote_file_ m) with
    | Some (term, id) => {[ term := id ]}
    | None => ∅
    end.
Proof.
  intros H. unfold ReadVotedFor, scan_text, vote_text.
  rewrite (scan_records _ H). cbn [scan_end].
  destruct (last (vote_file_ m)) as [[term id]|] eqn:E; [|reflexivity].
  cbn [from_option].
  assert (plain_record (term, id) = true) as Hp.
  { rewrite Forall_forall in H. apply H. apply last_Some in E as [l ->].
    apply elem_of_app. right. apply list_elem_of_singleton. reflexivity. }
  unfold plain_record, token in Hp. cbn [snd] in Hp.
  destruct (decide (id = EmptyString)) as [->|_]; [|reflexivity].
  rewrite !andb_true_iff in Hp. destruct Hp as (_ & (Hne & _) & _).
  discriminate Hne.
Qed.
(*HERE*)
End VoteFileFacts.

Section RunInvariant.

Context `{ops : LogOperationValues} `{um : UserManagerApi}.
Context (cfg : Config).

Lemma run_inv replicating_ evs :
  forall (n : InsNodeImpl) vg votes0 n' vg' votes,
    (forall k s v,
       run cfg replicating_ (n, vg) (take k evs) = Some (s, v) ->
       int64_min <= current_term_ s.1 < int64_max) ->
    persisted n ->
    votes_recorded n votes0 ->
    run cfg replicating_ (n, vg) evs = Some (n', vg', votes) ->
    current_term_ n <= current_term_ n'
    /\ persisted n'
    /\ votes_recorded n' (votes0 ++ votes).
Proof.
  induction evs as [|ev evs IH]; intros n vg votes0 n' vg' votes Hr Hp Hv H.
  - cbn in H. inversion H; subst. rewrite app_nil_r. auto with zarith.
  - cbn [run] in H.
    destruct (on_event cfg replicating_ (n, vg) ev) as [[[n1 vg1] vote]|] eqn:E;
      [|discriminate H].
    destruct (run cfg replicating_ (n1, vg1) evs) as [[s' votes']|] eqn:E';
      [|discriminate H].
    inversion H; subst; clear H.
    pose proof (Hr O (n, vg) [] eq_refl) as Hr0. cbn in Hr0.
    destruct (on_event_inv cfg _ _ _ _ _ _ _ _ Hr0 Hp Hv E) as (Hle & Hp1 & Hv1).
    destruct (IH n1 vg1 (votes0 ++ from_option (fun v => [v]) [] vote)
                n' vg' votes') as (Hle' & Hp' & Hv'); auto.
    + intros k s v Hk. apply (Hr (S k) s (from_option (fun v => [v]) [] vote ++ v)).
      cbn [take run]. rewrite E, Hk. reflexivity.
    + rewrite app_assoc. split; [lia|auto].
Qed.

End RunInvariant.

Section VoteFileRun.

Context `{ops : LogOperationValues} `{um : UserManagerApi}.
Context (cfg : Config).

(** One event leaves the vote file as it is or appends one record to it:
    a vote of the term the node is then in, for the candidate of the
    request or for the node itself. *)
Lemma on_event_vote_file replicating_ (n n' : InsNodeImpl) vg vg' ev vote :
  on_event cfg replicating_ (n, vg) ev = Some (n', vg', vote) ->
  Meta.vote_file_ (meta_ n') = Meta.vote_file_ (meta_ n)
  \/ exists c,
       Meta.vote_file_ (meta_ n')
       = Meta.vote_file_ (meta_ n) ++ [(current_term_ n', c)]
       /\ match ev with
          | RecvVote request => c = VoteRequest.candidate_id request
          | ElectionTimeout => c = self_id_ cfg
          | _ => False
          end.
Proof.
  destruct ev as [request|request| |response failed]; cbn [on_event].
  - pose proof (Vote_cases n request) as HV. cbv zeta in HV.
    set (n0 := if decide (VoteRequest.term request > current_term_ n)
               then TransToFollower n (VoteRequest.term request) else n) in HV.
    assert (Meta.vote_file_ (meta_ n0) = Meta.vote_file_ (meta_ n)) as Hf
      by (subst n0; destruct (decide _); reflexivity).
    clearbody n0.
    destruct HV as [E|(Hge & Et & [(v & Hl & Hne & E)|[(Hl & E)|(Hl & E)]])];
      rewrite E; intros H; inversion H; subst; clear H.
    + now left.
    + now left.
    + now left.
    + right. exists (VoteRequest.candidate_id request). cbn. rewrite Hf. auto.
  - destruct (DoAppendEntries cfg n request) as [[[n1 resp] sig]|] eqn:E;
      [|discriminate].
    intros H; inversion H; subst; clear H. left.
    apply DoAppendEntries_election in E
      as [(_ & -> & _)|(_ & _ & _ & _ & Hm & _)]; [reflexivity|].
    rewrite Hm. destruct (decide _); reflexivity.
  - unfold TryToBeLeader.
    destruct (single_node_mode_ cfg).
    { intros H; inversion H; subst; clear H. now left. }
    destruct (decide (status_ n = kLeader)).
    { intros H; inversion H; subst; clear H. now left. }
    destruct (decide (status_ n = kFollower /\ heartbeat_count_ n > 0)).
    { intros H; inversion H; subst; clear H. now left. }
    destruct (BinLogger.GetLastLogIndexAndTerm _) as [lli llt].
    intros H; inversion H; subst; clear H.
    right. exists (self_id_ cfg). cbn. auto.
  - unfold VoteCallback. destruct failed.
    { intros H; inversion H; subst; clear H. now left. }
    destruct (decide (status_ n <> kCandidate)).
    { intros H; inversion H; subst; clear H. now left. }
    destruct (VoteResponse.vote_granted response
              && bool_decide (VoteResponse.term response = current_term_ n)).
    + destruct (decide _).
      * destruct (TransToLeader_total cfg n replicating_)
          as (n1 & -> & _ & _ & _ & _ & _ & Hm).
        cbn [mbind option_bind].
        intros H; inversion H; subst; clear H. left. now rewrite Hm.
      * intros H; inversion H; subst; clear H. now left.
    + destruct (decide _).
      * intros H; inversion H; subst; clear H. now left.
      * intros H; inversion H; subst; clear H. now left.
Qed.

(** Over a run the vote file stays a file of plain records, when the ids
    that are written to it are tokens. *)
Lemma run_vote_file replicating_ evs :
  forall (n : InsNodeImpl) vg n' vg' votes,
    (forall k s v,
       run cfg replicating_ (n, vg) (take k evs) = Some (s, v) ->
       int64_min <= current_term_ s.1 < int64_max) ->
    Meta.token (self_id_ cfg) = true ->
    (forall request,
       RecvVote request ∈ evs ->
       Meta.token (VoteRequest.candidate_id request) = true) ->
    Forall (fun r => Meta.plain_record r = true) (Meta.vote_file_ (meta_ n)) ->
    run cfg replicating_ (n, vg) evs = Some (n', vg', votes) ->
    Forall (fun r => Meta.plain_record r = true) (Meta.vote_file_ (meta_ n')).
Proof.
  induction evs as [|ev evs IH]; intros n vg n' vg' votes Hr Hself Hreq Hp H.
  - cbn in H. inversion H; subst. exact Hp.
  - cbn [run] in H.
    destruct (on_event cfg replicating_ (n, vg) ev) as [[[n1 vg1] vote]|] eqn:E;
      [|discriminate H].
    destruct (run cfg replicating_ (n1, vg1) evs) as [[s' votes']|] eqn:E';
      [|discriminate H].
    inversion H; subst; clear H.
    apply (IH n1 vg1 n' vg' votes'); [| exact Hself | | | exact E'].
    + intros k s v Hk. apply (Hr (S k) s (from_option (fun v => [v]) [] vote ++ v)).
      cbn [take run]. rewrite E, Hk. reflexivity.
    + intros request Hin. apply Hreq. now apply list_elem_of_further.
    + pose proof (Hr 1%nat (n1, vg1) (from_option (fun v => [v]) [] vote ++ []))
        as Hr1.
      cbn [take run] in Hr1. rewrite take_0 in Hr1. cbn [run] in Hr1.
      rewrite E in Hr1. specialize (Hr1 eq_refl). cbn [fst] in Hr1.
      destruct (on_event_vote_file _ _ _ _ _ _ _ E) as [->|(c & -> & Hc)];
        [exact Hp|].
      apply Forall_app. split; [exact Hp|]. apply Forall_singleton.
      unfold Meta.plain_record. cbn [fst snd].
      rewrite bool_decide_eq_true_2 by lia. cbn [andb].
      destruct ev as [request|request| |response failed];
        [subst c; apply Hreq; apply list_elem_of_here| destruct Hc
        |subst c; exact Hself|destruct Hc].
Qed.

End VoteFileRun.

(** An id of two words is not read back: the second word is taken for the
    next term, and the scan stops there. *)
Lemma ReadVotedFor_two_words :
  Meta.ReadVotedFor (Meta.mk [5] [(5, "B C")]) = {[ 5 := "B" ]}.
Proof. vm_compute. reflexivity. Qed.

(** X13.  Over any run of vote requests, append-entries requests,
    election timeouts and vote responses (terms staying inside
    [int64_t]), the current term never decreases, and if the term and vote
    files agreed with the node at the start they do at the end: a restart
    reads back the current term.  It also reads back the vote the node
    remembers for that term, provided that what is printed into the vote
    file is scanned back as it was printed: the records on file at the
    start have terms inside [int64_t], and their ids, the node's own id
    and the candidate ids of the vote requests are tokens of [%1023s]
    (not empty, at most 1023 bytes, without white space and without
    NUL). *)
Theorem restart_reads_term_and_vote `{ops : LogOperationValues}
    `{um : UserManagerApi} (cfg : Config) (replicating_ : gset string)
    (n n' : InsNodeImpl) (vg vg' : gmap Z Z) (evs : list Event)
    (votes : list (Z * string)) :
  persisted n ->
  (forall k s v,
     run cfg replicating_ (n, vg) (take k evs) = Some (s, v) ->
     int64_min <= current_term_ s.1 < int64_max) ->
  run cfg replicating_ (n, vg) evs = Some (n', vg', votes) ->
  current_term_ n <= current_term_ n'
  /\ Meta.ReadCurrentTerm (meta_ n') = current_term_ n'
  /\ (Forall (fun r => Meta.plain_record r = true) (Meta.vote_file_ (meta_ n)) ->
      Meta.token (self_id_ cfg) = true ->
      (forall request,
         RecvVote request ∈ evs ->
         Meta.token (VoteRequest.candidate_id request) = true) ->
      forall c,
        voted_for_ n' !! current_term_ n' = Some c ->
        Meta.ReadVotedFor (meta_ n') !! current_term_ n' = Some c).
Proof.
  intros Hp Hr H.
  destruct (run_inv cfg replicating_ evs n vg [] n' vg' votes Hr Hp)
    as (Hle & (H1 & H2 & H3) & _); [|exact H|].
  { split; intros t c; [|intros c2]; intros Hin; now apply elem_of_nil in Hin. }
  split; [exact Hle|]. split; [exact H1|].
  intros Hfile Hself Hreq c Hl.
  rewrite (ReadVotedFor_plain (meta_ n')).
  - rewrite (H3 c Hl). apply lookup_singleton_eq.
  - exact (run_vote_file cfg replicating_ evs n vg n' vg' votes
             Hr Hself Hreq Hfile H).
Qed.

(** X14.  Over any such run a node casts its vote, for another candidate
    or for itself, for at most one server per term. *)
Theorem one_vote_per_term `{ops : LogOperationValues}
    `{um : UserManagerApi} (cfg : Config) (replicating_ : gset string)
    (n n' : InsNodeImpl) (vg vg' : gmap Z Z) (evs : list Event)
    (votes : list (Z * string)) :
  persisted n ->
  (forall k s v,
     run cfg replicating_ (n, vg) (take k evs) = Some (s, v) ->
     int64_min <= current_term_ s.1 < int64_max) ->
  run cfg replicating_ (n, vg) evs = Some (n', vg', votes) ->
  forall t c1 c2, (t, c1) ∈ votes -> (t, c2) ∈ votes -> c1 = c2.
Proof.
  intros Hp Hr H.
  destruct (run_inv cfg replicating_ evs n vg [] n' vg' votes Hr Hp)
    as (_ & _ & _ & Hu); [|exact H|exact Hu].
  split; intros t c; [|intros c2]; intros Hin; now apply elem_of_nil in Hin.
Qed.

(** A node whose vote map is empty and whose term file ends in its term
    (or is empty, at term 0) is in step with its files. *)
Lemma persisted_fresh `{um : UserManagerApi} (n : InsNodeImpl) :
  voted_for_ n = ∅ ->
  Meta.ReadCurrentTerm (meta_ n) = current_term_ n ->
  persisted n.
Proof.
  intros Hv Ht. split; [exact Ht|]. rewrite Hv.
  split; intros *; rewrite lookup_empty; discriminate.
Qed.

(** A follower of a three-node cluster grants B in term 1, refuses C in
    term 1, times out and votes for itself in term 2, and refuses B in
    term 2. *)
Lemma one_vote_per_term_witness :
  let cfg := example_config ["A"; "B"; "C"] in
  let n := example_node kFollower 0 BinLogger.empty (example_store "" []) ∅
             true (-1) (-1) in
  let evs := [RecvVote (VoteRequest.mk 1 "B" (-1) (-1));
              RecvVote (VoteRequest.mk 1 "C" (-1) (-1));
              ElectionTimeout;
              RecvVote (VoteRequest.mk 2 "B" (-1) (-1))] in
  exists n' vg' votes,
    run (ops := example_ops) cfg ∅ (n, ∅) evs = Some (n', vg', votes)
    /\ (1, "B") ∈ votes /\ ((1, "C") ∉ votes) /\ ((2, "B") ∉ votes).
Proof.
  intros cfg n evs.
  destruct (run (ops := example_ops) cfg ∅ (n, ∅) evs)
    as [[[n' vg'] votes]|] eqn:E; [|vm_compute in E; discriminate E].
  exists n', vg', votes. split; [reflexivity|].
  project E (fun r : @InsNodeImpl example_um * gmap Z Z * list (Z * string) =>
               r.2)
    [(1, "B"); (2, "A")] as Hvotes.
  assert ((1, "B") ∈ votes) as HB by (rewrite Hvotes; constructor).
  assert ((2, "A") ∈ votes) as HA by (rewrite Hvotes; do 2 constructor).
  assert (forall t c1 c2, (t, c1) ∈ votes -> (t, c2) ∈ votes -> c1 = c2) as Hu.
  { apply (one_vote_per_term (ops := example_ops) cfg ∅ n n' ∅ vg' evs votes).
    - apply persisted_fresh; reflexivity.
    - intros k s v H.
      destruct k as [|[|[|[|k]]]];
        [| | | |rewrite (take_ge evs) in H by (cbn; lia)];
        cbn [take evs] in H; vm_compute in H;
        inversion H; subst; vm_compute; split; (discriminate || reflexivity).
    - exact E. }
  split; [exact HB|]. split; intros Hin.
  - specialize (Hu _ _ _ HB Hin). discriminate Hu.
  - specialize (Hu _ _ _ HA Hin). discriminate Hu.
Defined.

(** After the same run a restart reads term 2 and the vote for A. *)
Lemma restart_reads_term_and_vote_witness :
  let cfg := example_config ["A"; "B"; "C"] in
  let n := example_node kFollower 0 BinLogger.empty (example_store "" []) ∅
             true (-1) (-1) in
  let evs := [RecvVote (VoteRequest.mk 1 "B" (-1) (-1));
              ElectionTimeout] in
  exists n' vg' votes,
    run (ops := example_ops) cfg ∅ (n, ∅) evs = Some (n', vg', votes)
    /\ current_term_ n' = 2
    /\ Meta.ReadCurrentTerm (meta_ n') = 2
    /\ Meta.ReadVotedFor (meta_ n') !! 2 = Some "A".
Proof.
  intros cfg n evs.
  destruct (run (ops := example_ops) cfg ∅ (n, ∅) evs)
    as [[[n' vg'] votes]|] eqn:E; [|vm_compute in E; discriminate E].
  exists n', vg', votes. split; [reflexivity|].
  project E (fun r : @InsNodeImpl example_um * gmap Z Z * list (Z * string) =>
               (current_term_ r.1.1, voted_for_ r.1.1 !! 2))
    (2, Some "A") as Hp.
  injection Hp as Ht Hv.
  destruct (restart_reads_term_and_vote (ops := example_ops) cfg ∅ n n' ∅ vg'
              evs votes)
    as (_ & Hterm & Hvote).
  - apply persisted_fresh; reflexivity.
  - intros k s v H.
    destruct k as [|[|k]];
      [| |rewrite (take_ge evs) in H by (cbn; lia)];
      cbn [take evs] in H; vm_compute in H;
      inversion H; subst; vm_compute; split; (discriminate || reflexivity).
  - exact E.
  - rewrite Ht in Hterm, Hvote. split; [exact Ht|]. split; [exact Hterm|].
    apply Hvote; [constructor|reflexivity| |exact Hv].
    intros request Hin. apply list_elem_of_In in Hin.
    destruct Hin as [Heq|[Hin|[]]];
      [injection Heq as <-; reflexivity|discriminate Hin].
Defined.

Section MajorityOfVotes.

Context `{ops : LogOperationValues} `{um : UserManagerApi}.
Context (cfg : Config).

Lemma VoteCallbacks_done (n : InsNodeImpl) vg replicating_ responses :
  status_ n <> kCandidate ->
  VoteCallbacks cfg n vg replicating_ responses = Some (n, vg).
Proof.
  intros Hs. induction responses as [|[r failed] rs IH]; [reflexivity|].
  cbn [VoteCallbacks]. unfold VoteCallback.
  destruct failed; [exact IH|].
  rewrite decide_True by exact Hs. exact IH.
Qed.

Lemma VoteCallbacks_count replicating_ responses :
  forall (n : InsNodeImpl) vg c,
    status_ n = kCandidate ->
    vg !! current_term_ n = Some c ->
    2 * c <= Z.of_nat (length (members_ cfg)) ->
    Forall (fun r : VoteResponse.t * bool =>
              r.2 = true \/ VoteResponse.term r.1 <= current_term_ n)
           responses ->
    exists n' vg',
      VoteCallbacks cfg n vg replicating_ responses = Some (n', vg')
      /\ current_term_ n' = current_term_ n
      /\ (status_ n' = kLeader
          <-> 2 * (c + Z.of_nat (length (List.filter (counted_vote n) responses)))
              > Z.of_nat (length (members_ cfg)))
      /\ (status_ n' = kLeader \/ status_ n' = kCandidate).
Proof.
  induction responses as [|[r failed] rs IH]; intros n vg c Hs Hc Hle Hok.
  - exists n, vg. cbn. split; [reflexivity|]. split; [reflexivity|].
    split; [|now right]. rewrite Hs. split; [discriminate|lia].
  - inversion Hok as [|? ? Hr Hrs]; subst. cbn [fst snd] in Hr.
    cbn [VoteCallbacks List.filter]. unfold VoteCallback, counted_vote at 1.
    cbn [fst snd].
    destruct failed.
    { cbn [negb andb]. apply IH; assumption. }
    rewrite decide_False by (rewrite Hs; auto). cbn [negb andb].
    destruct (VoteResponse.vote_granted r
              && bool_decide (VoteResponse.term r = current_term_ n)) eqn:Eg.
    + rewrite Hc. change (default 0 (Some c)) with c. cbn [length].
      destruct (decide (2 * (c + 1) > Z.of_nat (length (members_ cfg))))
        as [Hmaj|Hmin].
      * destruct (TransToLeader_total cfg n replicating_)
          as (n1 & -> & Hl & _ & _ & Ht & _).
        cbn [mbind option_bind].
        rewrite VoteCallbacks_done by (rewrite Hl; discriminate).
        exists n1, (<[current_term_ n := c + 1]> vg).
        split; [reflexivity|]. split; [exact Ht|]. split; [|now left].
        split; [intros _; lia|intros _; exact Hl].
      * destruct (IH n (<[current_term_ n := c + 1]> vg) (c + 1))
          as (n' & vg' & E & Ht & Hiff & Hst);
          [exact Hs|apply lookup_insert_eq|lia|exact Hrs|].
        exists n', vg'. split; [exact E|]. split; [exact Ht|].
        split; [|exact Hst]. rewrite Hiff. lia.
    + destruct Hr as [Hr|Hr]; [discriminate Hr|].
      rewrite decide_False by lia. apply IH; assumption.
Qed.

End MajorityOfVotes.

(** X15.  An election in a cluster of two or more members.  When the
    timer fires on a node that is not the leader and has heard no
    heartbeat, the node becomes a candidate of the next term and sends one
    vote request carrying that term to every other member.  If no response
    reports a newer term, it ends up the leader exactly when its own vote
    plus the delivered grants for that term are more than half of the
    members, and stays a candidate otherwise. *)
Theorem election_needs_majority `{ops : LogOperationValues}
    `{um : UserManagerApi} (cfg : Config) (replicating_ : gset string)
    (n n1 : InsNodeImpl) (vg vg1 : gmap Z Z)
    (requests : list (string * VoteRequest.t))
    (responses : list (VoteResponse.t * bool)) :
  (2 <= length (members_ cfg))%nat ->
  status_ n <> kLeader ->
  ~ (status_ n = kFollower /\ heartbeat_count_ n > 0) ->
  int64_min <= current_term_ n < int64_max ->
  TryToBeLeader cfg n vg = (n1, vg1, requests) ->
  Forall (fun r : VoteResponse.t * bool =>
            r.2 = true \/ VoteResponse.term r.1 <= current_term_ n1)
         responses ->
  status_ n1 = kCandidate
  /\ current_term_ n1 = current_term_ n + 1
  /\ requests.*1 = others_ cfg
  /\ Forall (fun q : string * VoteRequest.t =>
               VoteRequest.term q.2 = current_term_ n + 1
               /\ VoteRequest.candidate_id q.2 = self_id_ cfg) requests
  /\ exists n2 vg2,
       VoteCallbacks cfg n1 vg1 replicating_ responses = Some (n2, vg2)
       /\ current_term_ n2 = current_term_ n + 1
       /\ (status_ n2 = kLeader
           <-> 2 * (1 + Z.of_nat (length (List.filter (counted_vote n1) responses)))
               > Z.of_nat (length (members_ cfg)))
       /\ (status_ n2 = kLeader \/ status_ n2 = kCandidate).
Proof.
  intros HN Hl Hf Hr HT Hok.
  assert (to_int64 (current_term_ n + 1) = current_term_ n + 1) as E1
    by (apply to_int64_id; unfold int64_min, int64_max in *; lia).
  unfold TryToBeLeader in HT.
  assert (single_node_mode_ cfg = false) as Hsingle.
  { unfold single_node_mode_. apply bool_decide_eq_false_2. lia. }
  rewrite Hsingle in HT.
  rewrite decide_False in HT by exact Hl.
  rewrite decide_False in HT by exact Hf.
  destruct (BinLogger.GetLastLogIndexAndTerm _) as [lli llt].
  inversion HT; subst n1 vg1 requests; clear HT.
  cbn [status_ current_term_ set_meta_ set_voted_for_ set_status_
       set_current_term_] in *.
  rewrite E1 in *.
  split; [reflexivity|]. split; [reflexivity|]. split.
  { rewrite <- list_fmap_compose. cbn. apply list_fmap_id. }
  split.
  { apply Forall_forall. intros q Hq. apply list_elem_of_fmap in Hq as (x & -> & _).
    cbn. auto. }
  match goal with
  | |- context [VoteCallbacks cfg ?m ?g _ _] =>
      destruct (VoteCallbacks_count cfg replicating_ responses m g 1)
        as (n2 & vg2 & E & Ht & Hiff & Hst)
  end.
  - reflexivity.
  - cbn. apply lookup_singleton_eq.
  - lia.
  - cbn. exact Hok.
  - exists n2, vg2. split; [exact E|]. cbn in Ht.
    split; [exact Ht|]. split; [exact Hiff|exact Hst].
Qed.

(** In a three-node cluster one grant makes the candidate the leader; a
    refusal and a lost response do not. *)
Lemma election_needs_majority_witness :
  let cfg := example_config ["A"; "B"; "C"] in
  let n := example_node kFollower 4 BinLogger.empty (example_store "" []) ∅
             true (-1) (-1) in
  exists n1 vg1 requests n2 vg2 n3 vg3,
    TryToBeLeader cfg n ∅ = (n1, vg1, requests)
    /\ current_term_ n1 = 5
    /\ VoteCallbacks (ops := example_ops) cfg n1 vg1 ∅
         [(VoteResponse.mk false 5, false); (VoteResponse.mk true 5, true)]
       = Some (n2, vg2)
    /\ status_ n2 = kCandidate
    /\ VoteCallbacks (ops := example_ops) cfg n1 vg1 ∅
         [(VoteResponse.mk false 5, false); (VoteResponse.mk true 5, false)]
       = Some (n3, vg3)
    /\ status_ n3 = kLeader.
Proof.
  intros cfg n.
  destruct (TryToBeLeader cfg n ∅)
    as [[n1 vg1] requests] eqn:HT.
  assert (current_term_ (TryToBeLeader cfg n ∅).1.1 = 5) as Ht5
    by (vm_compute; reflexivity).
  rewrite HT in Ht5. cbn [fst] in Ht5.
  assert ((2 <= length (members_ cfg))%nat) as H2 by (cbn; lia).
  assert (status_ n <> kLeader) as Hl by discriminate.
  assert (~ (status_ n = kFollower /\ heartbeat_count_ n > 0)) as Hh
    by (intros [_ H]; vm_compute in H; discriminate H).
  assert (int64_min <= current_term_ n < int64_max) as Hr
    by (vm_compute; split; [discriminate|reflexivity]).
  destruct (election_needs_majority (ops := example_ops) cfg ∅ n n1 ∅ vg1
              requests
              [(VoteResponse.mk false 5, false); (VoteResponse.mk true 5, true)]
              H2 Hl Hh Hr HT)
    as (_ & _ & _ & _ & n2 & vg2 & E2 & _ & Hiff2 & Hst2).
  { rewrite Ht5. repeat constructor; cbn; lia. }
  destruct (election_needs_majority (ops := example_ops) cfg ∅ n n1 ∅ vg1
              requests
              [(VoteResponse.mk false 5, false); (VoteResponse.mk true 5, false)]
              H2 Hl Hh Hr HT)
    as (_ & _ & _ & _ & n3 & vg3 & E3 & _ & Hiff3 & _).
  { rewrite Ht5. repeat constructor; cbn; lia. }
  exists n1, vg1, requests, n2, vg2, n3, vg3.
  split; [reflexivity|]. split; [exact Ht5|]. split; [exact E2|]. split.
  - destruct Hst2 as [Hlead|Hc]; [|exact Hc].
    apply Hiff2 in Hlead. unfold counted_vote in Hlead. rewrite Ht5 in Hlead.
    vm_compute in Hlead. discriminate Hlead.
  - split; [exact E3|]. apply Hiff3. unfold counted_vote. rewrite Ht5.
    vm_compute. reflexivity.
Defined.

Section LeaderStart.

Context `{ops : LogOperationValues} `{um : UserManagerApi}.
Context (cfg : Config).

Lemma StartReplicateLog_indices (replicating_ : gset string) (l : list string) :
  forall n : InsNodeImpl,
    let step := fun (n : InsNodeImpl) uuid =>
                  if decide (uuid ∈ replicating_) then n
                  else
                    set_match_index_ (<[uuid := -1]> (match_index_ n))
                      (set_next_index_
                         (<[uuid := BinLogger.GetLength (binlogger_ n)]>
                            (next_index_ n)) n) in
    let n' := foldl step n l in
    binlogger_ n' = binlogger_ n
    /\ current_term_ n' = current_term_ n
    /\ commit_index_ n' = commit_index_ n
    /\ (forall f, f ∈ l -> f ∉ replicating_ ->
          next_index_ n' !! f = Some (BinLogger.GetLength (binlogger_ n))
          /\ match_index_ n' !! f = Some (-1))
    /\ (forall f, f ∉ l \/ f ∈ replicating_ ->
          next_index_ n' !! f = next_index_ n !! f
          /\ match_index_ n' !! f = match_index_ n !! f).
Proof.
  induction l as [|x l IH]; intros n; cbv zeta.
  - cbn. split; [reflexivity|]. split; [reflexivity|]. split; [reflexivity|].
    split; [|auto]. intros f Hf. now apply elem_of_nil in Hf.
  - cbn [foldl].
    match goal with |- context [foldl ?s ?m l] => specialize (IH m) end.
    cbv zeta in IH. destruct IH as (Hb & Ht & Hci & Hin & Hout).
    destruct (decide (x ∈ replicating_)) as [Hx|Hx].
    + split; [exact Hb|]. split; [exact Ht|]. split; [exact Hci|]. split.
      * intros f Hf Hr. apply elem_of_cons in Hf as [->|Hf]; [contradiction|].
        now apply Hin.
      * intros f [Hf|Hf].
        -- apply not_elem_of_cons in Hf as [_ Hf]. apply Hout. now left.
        -- apply Hout. now right.
    + cbn in Hb, Ht, Hci, Hin, Hout.
      split; [exact Hb|]. split; [exact Ht|]. split; [exact Hci|]. split.
      * intros f Hf Hr. destruct (decide (f ∈ l)) as [Hl|Hl].
        -- now apply Hin.
        -- apply elem_of_cons in Hf as [->|Hf]; [|contradiction].
           destruct (Hout x) as [H1 H2]; [now left|].
           rewrite H1, H2, !lookup_insert_eq. auto.
      * intros f [Hf|Hf].
        -- apply not_elem_of_cons in Hf as [Hne Hf].
           destruct (Hout f) as [H1 H2]; [now left|].
           rewrite H1, H2, !lookup_insert_ne by congruence. auto.
        -- destruct (Hout f) as [H1 H2]; [now right|].
           rewrite H1, H2.
           rewrite !lookup_insert_ne by (intros ->; contradiction). auto.
Qed.

End LeaderStart.

(** X16.  A node that wins an election becomes the leader in safe mode,
    records itself as the current leader, appends a no-op of its term at
    the end of its log, and for every other member without a running
    replicator starts with [next_index_] at the old end of the log and
    [match_index_] at -1; its term and its commit index are unchanged. *)
Theorem TransToLeader_state `{ops : LogOperationValues} `{um : UserManagerApi}
    (cfg : Config) (n : InsNodeImpl) (replicating_ : gset string) :
  0 <= BinLogger.GetLength (binlogger_ n) < int64_max ->
  int64_min <= current_term_ n <= int64_max ->
  0 <= kNop < 256 ->
  exists n',
    TransToLeader cfg n replicating_ = Some n'
    /\ status_ n' = kLeader /\ in_safe_mode_ n' = true
    /\ current_leader_ n' = self_id_ cfg
    /\ current_term_ n' = current_term_ n
    /\ commit_index_ n' = commit_index_ n
    /\ BinLogger.GetLength (binlogger_ n')
       = BinLogger.GetLength (binlogger_ n) + 1
    /\ BinLogger.ReadSlot (binlogger_ n') (BinLogger.GetLength (binlogger_ n))
       = BinLogger.SlotOk
           (LogEntry.mk kNop EmptyString "Ping" EmptyString (current_term_ n))
    /\ (forall i, to_int64 i <> BinLogger.GetLength (binlogger_ n) ->
          BinLogger.ReadSlot (binlogger_ n') i
          = BinLogger.ReadSlot (binlogger_ n) i)
    /\ (forall f, f ∈ others_ cfg -> f ∉ replicating_ ->
          next_index_ n' !! f = Some (BinLogger.GetLength (binlogger_ n))
          /\ match_index_ n' !! f = Some (-1)).
Proof.
  intros Hlen Hterm Hnop.
  destruct (TransToLeader_total cfg n replicating_)
    as (n' & E & Hs & Hsafe & Hlead & Ht & _ & _).
  exists n'. split; [exact E|]. split; [exact Hs|]. split; [exact Hsafe|].
  split; [exact Hlead|]. split; [exact Ht|].
  unfold TransToLeader, StartReplicateLog in E.
  pose proof (StartReplicateLog_indices replicating_ (others_ cfg)
                (set_current_leader_ (self_id_ cfg)
                   (set_status_ kLeader (set_in_safe_mode_ true n)))) as HI.
  cbv zeta in HI.
  set (n1 := foldl _ _ _) in E, HI. clearbody n1.
  destruct HI as (Hb & Ht1 & Hci & Hin & _).
  cbn in Hb, Ht1, Hci, Hin.
  destruct (BinLogger.AppendEntry (binlogger_ n1) _) as [b|] eqn:HA;
    [|discriminate E].
  cbn [mbind option_bind] in E. inversion E; subst n'; clear E.
  cbn [commit_index_ binlogger_ next_index_ match_index_ set_binlogger_].
  rewrite Hb in HA.
  destruct (AppendEntry_slots _ _ _ Hlen HA) as (Hl & _ & Hslot & Hrest).
  unfold BinLogger.GetLength.
  split; [exact Hci|]. split; [exact Hl|]. split; [|split; [exact Hrest|exact Hin]].
  rewrite Hslot, Ht1. unfold LogEntry.stored. cbn. f_equal.
  unfold to_uint8. rewrite Z.mod_small by lia.
  rewrite to_int64_id by exact Hterm. reflexivity.
Qed.

(** The winner of the election of term 1 in a five-node cluster. *)
Lemma TransToLeader_state_witness :
  let cfg := example_config ["A"; "B"; "C"; "D"; "E"] in
  let n := example_node kCandidate 1 BinLogger.empty (example_store "" []) ∅
             true (-1) (-1) in
  exists n',
    TransToLeader (ops := example_ops) cfg n ∅ = Some n'
    /\ in_safe_mode_ n' = true
    /\ BinLogger.ReadSlot (binlogger_ n') 0 = BinLogger.SlotOk (nop_entry 1)
    /\ next_index_ n' !! "B" = Some 0
    /\ match_index_ n' !! "B" = Some (-1).
Proof.
  intros cfg n.
  destruct (TransToLeader_state (ops := example_ops) cfg n ∅)
    as (n' & E & _ & Hsafe & _ & _ & _ & _ & Hslot & _ & Hidx).
  - vm_compute. split; [discriminate|reflexivity].
  - vm_compute. split; discriminate.
  - vm_compute. split; [discriminate|reflexivity].
  - exists n'. split; [exact E|]. split; [exact Hsafe|]. split; [exact Hslot|].
    apply (Hidx "B").
    + vm_compute. apply list_elem_of_In. cbn. auto.
    + apply not_elem_of_empty.
Defined.

(** X17.  A follower that has just accepted the leader's term in an
    append-entries request (a heartbeat or a replication batch) records
    that leader and does not start an election at the next timeout: the
    timeout only clears the heartbeat counter, and it is the timeout after
    that, if no further request came in, that makes the node a candidate. *)
Theorem heartbeat_suppresses_election `{ops : LogOperationValues}
    `{um : UserManagerApi} (cfg : Config) (n n' : InsNodeImpl)
    (request : AppendEntriesRequest.t) (response : AppendEntriesResponse.t)
    (signalled : bool) (vg : gmap Z Z) :
  (2 <= length (members_ cfg))%nat ->
  0 <= heartbeat_count_ n ->
  AppendEntriesRequest.term request >= current_term_ n ->
  DoAppendEntries cfg n request = Some (n', response, signalled) ->
  status_ n' = kFollower
  /\ current_term_ n' = AppendEntriesRequest.term request
  /\ current_leader_ n' = AppendEntriesRequest.leader_id request
  /\ TryToBeLeader cfg n' vg = (set_heartbeat_count_ 0 n', vg, [])
  /\ status_ (TryToBeLeader cfg (set_heartbeat_count_ 0 n') vg).1.1 = kCandidate.
Proof.
  intros HN Hh Hge HD.
  apply DoAppendEntries_election in HD
    as [(Hlt & _)|(_ & Ht & Hs & _ & _ & Hc & Hl)]; [lia|].
  assert (single_node_mode_ cfg = false) as Hsingle.
  { unfold single_node_mode_. apply bool_decide_eq_false_2. lia. }
  split; [exact Hs|]. split; [exact Ht|]. split; [exact Hl|].
  unfold TryToBeLeader. rewrite Hsingle. split.
  - rewrite decide_False by (rewrite Hs; discriminate).
    rewrite decide_True by (split; [exact Hs|lia]). reflexivity.
  - cbn [status_ set_heartbeat_count_ heartbeat_count_].
    rewrite decide_False by (rewrite Hs; discriminate).
    rewrite decide_False by (intros [_ H]; lia).
    destruct (BinLogger.GetLastLogIndexAndTerm _). reflexivity.
Qed.

Lemma heartbeat_suppresses_election_witness :
  let cfg := example_config ["A"; "B"; "C"] in
  let n := example_node kFollower 1 BinLogger.empty (example_store "" []) ∅
             true (-1) (-1) in
  exists n' response signalled,
    DoAppendEntries cfg n (AppendEntriesRequest.mk 1 "B" 0 0 (-1) [])
    = Some (n', response, signalled)
    /\ TryToBeLeader cfg n' ∅ = (set_heartbeat_count_ 0 n', ∅, []).
Proof.
  intros cfg n.
  destruct (DoAppendEntries cfg n (AppendEntriesRequest.mk 1 "B" 0 0 (-1) []))
    as [[[n' response] signalled]|] eqn:E; [|vm_compute in E; discriminate E].
  exists n', response, signalled. split; [reflexivity|].
  destruct (heartbeat_suppresses_election (ops := example_ops) cfg n n'
              (AppendEntriesRequest.mk 1 "B" 0 0 (-1) []) response signalled ∅)
    as (_ & _ & _ & H & _).
  - cbn. lia.
  - vm_compute. discriminate.
  - vm_compute. discriminate.
  - exact E.
  - exact H.
Defined.

(** ** Replication *)

Section ReplicationFacts.

Context `{ops : LogOperationValues} `{um : UserManagerApi}.
Context (cfg : Config).

Lemma read_bytes_length n p s rest :
  read_bytes n p = Some (s, rest) -> String.length s = n.
Proof.
  revert p s rest. induction n as [|n IH]; intros p s rest; cbn [read_bytes].
  - intros H. inversion H. reflexivity.
  - destruct p as [|c p]; [discriminate|].
    destruct (read_bytes n p) as [[s' rest']|] eqn:E; [|discriminate].
    cbn. intros H. inversion H; subst. cbn. f_equal. eapply IH, E.
Qed.

Lemma Load_stored buf e : LogEntry.Load buf = Some e -> LogEntry.stored e = e.
Proof.
  unfold LogEntry.Load. intros H.
  destruct (read_bytes 1 buf) as [[opcode p1]|] eqn:E1; [|discriminate H].
  cbn [mbind option_bind] in H.
  destruct (LogEntry.read_field p1) as [[u p2]|]; [|discriminate H].
  cbn [mbind option_bind] in H.
  destruct (LogEntry.read_field p2) as [[k p3]|]; [|discriminate H].
  cbn [mbind option_bind] in H.
  destruct (LogEntry.read_field p3) as [[v p4]|]; [|discriminate H].
  cbn [mbind option_bind] in H.
  destruct (read_bytes 8 p4) as [[raw p5]|]; [|discriminate H].
  cbn [mbind option_bind] in H. inversion H; subst e; clear H.
  unfold LogEntry.stored. cbn. f_equal.
  - apply read_bytes_length in E1.
    destruct opcode as [|c [|? ?]]; try discriminate E1.
    cbn [le_value]. unfold to_uint8. pose proof (byte_val_bound c).
    rewrite Z.mod_small by lia. lia.
  - unfold load_int64. apply to_int64_idem.
Qed.

Lemma ReadSlot_stored b i e :
  BinLogger.ReadSlot b i = BinLogger.SlotOk e -> LogEntry.stored e = e.
Proof.
  unfold BinLogger.ReadSlot.
  destruct (BinLogger.db_ b !! _) as [v|]; [|discriminate].
  destruct (LogEntry.Load v) as [e'|] eqn:E; [|discriminate].
  intros H. inversion H; subst. eapply Load_stored, E.
Qed.

Lemma batch_entries_spec b k :
  forall idx es,
    batch_entries b idx k = Some es ->
    length es = k
    /\ (forall (i : nat) e, es !! i = Some e ->
          BinLogger.ReadSlot b (idx + Z.of_nat i) = BinLogger.SlotOk e).
Proof.
  induction k as [|k IH]; intros idx es; cbn [batch_entries].
  - intros H. inversion H. split; [reflexivity|]. intros i e Hi. discriminate Hi.
  - destruct (BinLogger.ReadSlot b idx) as [e0| |] eqn:E; try discriminate.
    destruct (batch_entries b (idx + 1) k) as [rest|] eqn:Er; [|discriminate].
    cbn. intros H. inversion H; subst es; clear H.
    destruct (IH _ _ Er) as [Hl Hs]. split; [cbn; now rewrite Hl|].
    intros [|i] e Hi.
    + cbn in Hi. inversion Hi; subst. now rewrite Z.add_0_r.
    + cbn in Hi. specialize (Hs i e Hi).
      replace (idx + Z.of_nat (S i)) with (idx + 1 + Z.of_nat i) by lia.
      exact Hs.
Qed.

(** What an accepted request with entries has gone through. *)
Lemma DoAppendEntries_accept (n n' : InsNodeImpl) request response signalled :
  DoAppendEntries cfg n request = Some (n', response, signalled) ->
  AppendEntriesResponse.success response = true ->
  (0 < length (AppendEntriesRequest.entries request))%nat ->
  let prev := AppendEntriesRequest.prev_log_index request in
  AppendEntriesRequest.term request >= current_term_ n
  /\ prev < BinLogger.GetLength (binlogger_ n)
  /\ (if decide (prev >= 0)
      then exists e, BinLogger.ReadSlot (binlogger_ n) prev = BinLogger.SlotOk e
                     /\ LogEntry.term e
                        = AppendEntriesRequest.prev_log_term request
      else AppendEntriesRequest.prev_log_term request = -1)
  /\ (exists b1,
        (if decide (BinLogger.GetLength (binlogger_ n) > to_int64 (prev + 1))
         then BinLogger.Truncate (binlogger_ n) prev = Some b1
         else b1 = binlogger_ n)
        /\ BinLogger.AppendEntryList b1 (AppendEntriesRequest.entries request)
           = Some (binlogger_ n'))
  /\ commit_index_ n'
     = Z.min (BinLogger.GetLastLogIndex (binlogger_ n'))
             (AppendEntriesRequest.leader_commit_index request)
  /\ AppendEntriesResponse.log_length response
     = BinLogger.GetLength (binlogger_ n')
  /\ AppendEntriesResponse.current_term response
     = AppendEntriesRequest.term request.
Proof.
  intros H Hs Hne. cbv zeta. revert H. unfold DoAppendEntries.
  destruct (decide (AppendEntriesRequest.term request < current_term_ n)).
  { intros H. inversion H; subst. discriminate Hs. }
  rewrite (decide_True (P := (0 < length _)%nat)) by exact Hne.
  set (n1 := set_heartbeat_count_ _ _).
  assert (binlogger_ n1 = binlogger_ n /\ commit_index_ n1 = commit_index_ n
          /\ current_term_ n1 = AppendEntriesRequest.term request)
    as (Hb1 & Hc1 & Ht1).
  { subst n1.
    destruct (decide (status_ n <> kFollower));
      destruct (decide (AppendEntriesRequest.term request > current_term_ _));
      cbn in *; repeat split; lia. }
  clearbody n1. rewrite Hb1.
  destruct (decide (AppendEntriesRequest.prev_log_index request
                    >= BinLogger.GetLength (binlogger_ n))) as [Hp|Hp].
  { intros H. inversion H; subst. discriminate Hs. }
  destruct (decide (AppendEntriesRequest.prev_log_index request >= 0)) as [H0|H0].
  - destruct (BinLogger.ReadSlot (binlogger_ n) _) as [e| |] eqn:Er;
      try discriminate.
    cbn [mbind option_bind].
    destruct (decide (LogEntry.term e <> _)) as [Hm|Hm].
    { destruct (BinLogger.Truncate _ _); [|discriminate].
      cbn. intros H. inversion H; subst. discriminate Hs. }
    apply dec_stable in Hm.
    destruct (decide (to_int64 _ > _)).
    { intros H. inversion H; subst. discriminate Hs. }
    destruct (decide (BinLogger.GetLength (binlogger_ n) > to_int64 _)) as [Hg|Hg].
    + destruct (BinLogger.Truncate (binlogger_ n) _) as [b1|] eqn:Et;
        [|discriminate].
      cbn [mbind option_bind].
      destruct (BinLogger.AppendEntryList b1 _) as [b2|] eqn:Ea; [|discriminate].
      cbn [mbind option_bind]. intros H. inversion H; subst; clear H. cbn.
      split; [lia|]. split; [lia|]. split; [eauto|]. split; [eauto|].
      auto.
    + cbn [mbind option_bind].
      destruct (BinLogger.AppendEntryList (binlogger_ n) _) as [b2|] eqn:Ea;
        [|discriminate].
      cbn [mbind option_bind]. intros H. inversion H; subst; clear H. cbn.
      split; [lia|]. split; [lia|]. split; [eauto|]. split; [eauto|].
      auto.
  - cbn [mbind option_bind].
    destruct (decide (-1 <> _)) as [Hm|Hm].
    { destruct (BinLogger.Truncate _ _); [|discriminate].
      cbn. intros H. inversion H; subst. discriminate Hs. }
    apply dec_stable in Hm.
    destruct (decide (to_int64 _ > _)).
    { intros H. inversion H; subst. discriminate Hs. }
    destruct (decide (BinLogger.GetLength (binlogger_ n) > to_int64 _)) as [Hg|Hg].
    + destruct (BinLogger.Truncate (binlogger_ n) _) as [b1|] eqn:Et;
        [|discriminate].
      cbn [mbind option_bind].
      destruct (BinLogger.AppendEntryList b1 _) as [b2|] eqn:Ea; [|discriminate].
      cbn [mbind option_bind]. intros H. inversion H; subst; clear H. cbn.
      split; [lia|]. split; [lia|]. split; [auto|]. split; [eauto|].
      auto.
    + cbn [mbind option_bind].
      destruct (BinLogger.AppendEntryList (binlogger_ n) _) as [b2|] eqn:Ea;
        [|discriminate].
      cbn [mbind option_bind]. intros H. inversion H; subst; clear H. cbn.
      split; [lia|]. split; [lia|]. split; [auto|]. split; [eauto|].
      auto.
Qed.

End ReplicationFacts.

Section FollowerLog.

Context `{ops : LogOperationValues} `{um : UserManagerApi}.

Lemma DoAppendEntries_slots (cfg : Config) (n n' : InsNodeImpl)
    (request : AppendEntriesRequest.t) (response : AppendEntriesResponse.t)
    (signalled : bool) :
  let prev := AppendEntriesRequest.prev_log_index request in
  let entries := AppendEntriesRequest.entries request in
  -1 <= prev ->
  prev + 1 + Z.of_nat (length entries) <= int64_max ->
  (0 < length entries)%nat ->
  DoAppendEntries cfg n request = Some (n', response, signalled) ->
  AppendEntriesResponse.success response = true ->
  BinLogger.length_ (binlogger_ n') = prev + 1 + Z.of_nat (length entries)
  /\ (forall (i : nat) e, entries !! i = Some e ->
        BinLogger.ReadSlot (binlogger_ n') (prev + 1 + Z.of_nat i)
        = BinLogger.SlotOk (LogEntry.stored e))
  /\ (forall j, int64_min <= j <= prev ->
        BinLogger.ReadSlot (binlogger_ n') j
        = BinLogger.ReadSlot (binlogger_ n) j)
  /\ (0 <= prev ->
      exists e, BinLogger.ReadSlot (binlogger_ n) prev = BinLogger.SlotOk e
                /\ LogEntry.term e = AppendEntriesRequest.prev_log_term request).
Proof.
  intros prev entries Hp Hmax Hne HD Hs.
  destruct (DoAppendEntries_accept cfg n n' request response signalled HD Hs Hne)
    as (_ & Hlt & Hprev & (b1 & Hb1 & Ha) & _).
  fold prev in Hlt, Hprev, Hb1. fold entries in Ha.
  assert (to_int64 (prev + 1) = prev + 1) as E1
    by (apply to_int64_id; unfold int64_min, int64_max in *; lia).
  assert (BinLogger.length_ b1 = prev + 1
          /\ forall j, BinLogger.ReadSlot b1 j
                       = BinLogger.ReadSlot (binlogger_ n) j) as [Hl1 Hs1].
  { rewrite E1 in Hb1. unfold BinLogger.GetLength in *.
    destruct (decide (BinLogger.length_ (binlogger_ n) > prev + 1)) as [Hg|Hg].
    - apply Truncate_inv in Hb1. cbv zeta in Hb1.
      rewrite decide_False in Hb1 by lia. rewrite E1 in Hb1.
      destruct Hb1 as [Hl Hdb]. split; [exact Hl|]. intros j.
      destruct b1 as [db1 l1 t1]. cbn in Hdb. subst db1.
      apply ReadSlot_put_tag.
    - subst b1. split; [lia|reflexivity]. }
  apply AppendEntryList_slots in Ha as (Hlen & _ & _ & Hin & Hout);
    [|lia|lia].
  unfold BinLogger.GetLength, BinLogger.GetLastLogIndex in *.
  rewrite Hl1 in *. split; [exact Hlen|]. split; [exact Hin|]. split.
  - intros j Hj. rewrite Hout by (unfold int64_max in *; lia). apply Hs1.
  - intros H0. rewrite decide_True in Hprev by lia. exact Hprev.
Qed.

End FollowerLog.

(** X18.  A follower that accepts an append-entries request with entries
    (previous index [p >= -1]) ends with a log of length
    [p + 1 + number of entries]; slot [p + 1 + i] reads as the [i]-th entry
    of the request, the slots up to [p] read as before, slot [p] held an
    entry of the term the request names, the commit index becomes the
    lesser of the new last index and the leader's commit index, and the
    response reports the new length. *)
Theorem DoAppendEntries_stores_entries `{ops : LogOperationValues}
    `{um : UserManagerApi} (cfg : Config) (n n' : InsNodeImpl)
    (request : AppendEntriesRequest.t) (response : AppendEntriesResponse.t)
    (signalled : bool) :
  let prev := AppendEntriesRequest.prev_log_index request in
  let entries := AppendEntriesRequest.entries request in
  -1 <= prev ->
  prev + 1 + Z.of_nat (length entries) <= int64_max ->
  (0 < length entries)%nat ->
  DoAppendEntries cfg n request = Some (n', response, signalled) ->
  AppendEntriesResponse.success response = true ->
  BinLogger.GetLength (binlogger_ n') = prev + 1 + Z.of_nat (length entries)
  /\ AppendEntriesResponse.log_length response
     = prev + 1 + Z.of_nat (length entries)
  /\ (forall (i : nat) e, entries !! i = Some e ->
        BinLogger.ReadSlot (binlogger_ n') (prev + 1 + Z.of_nat i)
        = BinLogger.SlotOk (LogEntry.stored e))
  /\ (forall j, int64_min <= j <= prev ->
        BinLogger.ReadSlot (binlogger_ n') j
        = BinLogger.ReadSlot (binlogger_ n) j)
  /\ (0 <= prev ->
      exists e, BinLogger.ReadSlot (binlogger_ n) prev = BinLogger.SlotOk e
                /\ LogEntry.term e = AppendEntriesRequest.prev_log_term request)
  /\ commit_index_ n'
     = Z.min (prev + Z.of_nat (length entries))
             (AppendEntriesRequest.leader_commit_index request).
Proof.
  intros prev entries Hp Hmax Hne HD Hs.
  destruct (DoAppendEntries_slots cfg n n' request response signalled
              Hp Hmax Hne HD Hs) as (Hlen & Hin & Hout & Hprev).
  destruct (DoAppendEntries_accept cfg n n' request response signalled HD Hs Hne)
    as (_ & _ & _ & _ & Hci & Hll & _).
  unfold BinLogger.GetLength, BinLogger.GetLastLogIndex in *.
  fold prev entries in Hlen, Hin, Hout, Hprev.
  split; [exact Hlen|]. split; [now rewrite Hll|].
  split; [exact Hin|]. split; [exact Hout|]. split; [exact Hprev|].
  rewrite Hci, Hlen. f_equal.
  replace (prev + 1 + Z.of_nat (length entries) - 1)
    with (prev + Z.of_nat (length entries)) by lia.
  apply to_int64_id. unfold int64_min, int64_max in *. lia.
Qed.

(** A follower holding one entry of term 1 accepts two entries of term 2
    after it. *)
Lemma DoAppendEntries_stores_entries_witness :
  match log_of [nop_entry 1] with
  | Some b =>
      let cfg := example_config ["A"; "B"; "C"] in
      let n := example_node kFollower 1 b (example_store "" []) ∅ true 0 0 in
      let request :=
        AppendEntriesRequest.mk 2 "B" 0 1 1 [nop_entry 2; nop_entry 2] in
      exists n' response signalled,
        DoAppendEntries cfg n request = Some (n', response, signalled)
        /\ BinLogger.GetLength (binlogger_ n') = 3
        /\ BinLogger.ReadSlot (binlogger_ n') 2 = BinLogger.SlotOk (nop_entry 2)
        /\ commit_index_ n' = 1
  | None => False
  end.
Proof.
  destruct (log_of [nop_entry 1]) as [b|] eqn:Hb;
    [|vm_compute in Hb; discriminate Hb].
  vm_compute in Hb. apply (inj Some) in Hb. subst b.
  intros cfg n request.
  destruct (DoAppendEntries cfg n request) as [[[n' response] signalled]|] eqn:E;
    [|vm_compute in E; discriminate E].
  exists n', response, signalled. split; [reflexivity|].
  project E (fun r : @InsNodeImpl example_um * AppendEntriesResponse.t * bool =>
               AppendEntriesResponse.success r.1.2) true as Hs.
  destruct (DoAppendEntries_stores_entries (ops := example_ops) cfg n n' request
              response signalled) as (Hl & _ & Hin & _ & _ & Hc).
  - vm_compute. discriminate.
  - vm_compute. discriminate.
  - cbn. lia.
  - exact E.
  - exact Hs.
  - split; [exact Hl|]. split; [|exact Hc].
    exact (Hin 1%nat (nop_entry 2) eq_refl).
Defined.

Section ReplicationRound.

Context `{ops : LogOperationValues} `{um : UserManagerApi}.

Lemma index_at_lookup (m : gmap string Z) x y v :
  m !! y = Some v -> (index_at m x).2 !! y = Some v.
Proof.
  unfold index_at. intros H. destruct (m !! x) eqn:E; [exact H|].
  cbn. rewrite lookup_insert_ne; [exact H|]. intros ->. congruence.
Qed.

Lemma count_matches_lookup l a :
  forall (m : gmap string Z) c y v,
    m !! y = Some v -> (count_matches l a m c).2 !! y = Some v.
Proof.
  induction l as [|x l IH]; intros m c y v H; [exact H|].
  cbn [count_matches].
  pose proof (index_at_lookup m x y v H) as H'.
  destruct (index_at m x) as [w m']. cbn in H'. now apply IH.
Qed.

Lemma UpdateCommitIndex_indices cfg (n : InsNodeImpl) a f v :
  match_index_ n !! f = Some v ->
  next_index_ (UpdateCommitIndex cfg n a).1 = next_index_ n
  /\ match_index_ (UpdateCommitIndex cfg n a).1 !! f = Some v.
Proof.
  intros H. unfold UpdateCommitIndex.
  pose proof (count_matches_lookup (members_ cfg) a (match_index_ n) 0 f v H)
    as H'.
  destruct (count_matches _ _ _ _) as [c m]. cbn in H'.
  destruct (decide _); cbn; auto.
Qed.

(** What [ReplicateLog] puts into a request. *)
Lemma ReplicateLog_request_inv cfg (n n1 : InsNodeImpl) f okb request index span
    max_term :
  0 <= default 0 (next_index_ n !! f) ->
  default 0 (next_index_ n !! f) < BinLogger.GetLength (binlogger_ n) ->
  BinLogger.GetLength (binlogger_ n) <= int64_max ->
  0 < FLAGS_log_rep_batch_max cfg ->
  ReplicateLog_request cfg n f okb = Some (n1, request, index, span, max_term) ->
  index = default 0 (next_index_ n !! f)
  /\ 0 < span /\ index + span <= BinLogger.GetLength (binlogger_ n)
  /\ binlogger_ n1 = binlogger_ n
  /\ status_ n1 = status_ n /\ current_term_ n1 = current_term_ n
  /\ AppendEntriesRequest.term request = current_term_ n
  /\ AppendEntriesRequest.leader_id request = self_id_ cfg
  /\ AppendEntriesRequest.leader_commit_index request = commit_index_ n
  /\ AppendEntriesRequest.prev_log_index request = index - 1
  /\ (0 < index ->
      exists e, BinLogger.ReadSlot (binlogger_ n) (index - 1)
                = BinLogger.SlotOk e
                /\ LogEntry.term e = AppendEntriesRequest.prev_log_term request)
  /\ length (AppendEntriesRequest.entries request) = Z.to_nat span
  /\ (forall (i : nat) e,
        AppendEntriesRequest.entries request !! i = Some e ->
        BinLogger.ReadSlot (binlogger_ n) (index + Z.of_nat i)
        = BinLogger.SlotOk e).
Proof.
  intros H0 Hlt Hmax Hflag. unfold ReplicateLog_request.
  pose proof (index_at_spec (next_index_ n) f) as (Hidx & _ & _).
  destruct (index_at (next_index_ n) f) as [idx m]. cbn in Hidx. subst idx.
  set (idx := default 0 (next_index_ n !! f)) in *.
  cbn [binlogger_ set_next_index_ current_term_ commit_index_].
  unfold BinLogger.GetLength in *.
  rewrite (to_int64_id (idx - 1))
    by (unfold int64_min, int64_max in *; lia).
  rewrite (to_int64_id (BinLogger.length_ (binlogger_ n) - idx))
    by (unfold int64_min, int64_max in *; lia).
  set (span0 := if okb
                then Z.min (BinLogger.length_ (binlogger_ n) - idx)
                       (FLAGS_log_rep_batch_max cfg)
                else Z.min 1 (Z.min (BinLogger.length_ (binlogger_ n) - idx)
                                (FLAGS_log_rep_batch_max cfg))).
  assert (0 < span0 <= BinLogger.length_ (binlogger_ n) - idx) as Hspan
    by (subst span0; destruct okb; lia).
  clearbody span0.
  destruct (decide (idx - 1 > -1)) as [Hp|Hp].
  - destruct (BinLogger.ReadSlot (binlogger_ n) (idx - 1)) as [e| |] eqn:Er;
      try discriminate.
    cbn [mbind option_bind].
    destruct (batch_entries _ _ _) as [es|] eqn:Eb; [|discriminate].
    cbn [mbind option_bind].
    destruct (batch_max_term _ _ _ _) as [mt|]; [|discriminate].
    cbn [mbind option_bind]. intros H. inversion H; subst; clear H. cbn.
    apply batch_entries_spec in Eb as [Hl Hs].
    repeat split; try lia; try assumption; eauto.
  - cbn [mbind option_bind].
    destruct (batch_entries _ _ _) as [es|] eqn:Eb; [|discriminate].
    cbn [mbind option_bind].
    destruct (batch_max_term _ _ _ _) as [mt|]; [|discriminate].
    cbn [mbind option_bind]. intros H. inversion H; subst; clear H. cbn.
    apply batch_entries_spec in Eb as [Hl Hs].
    repeat split; try lia; try assumption; eauto.
Qed.

End ReplicationRound.

(** X19.  One successful round of log replication.  The leader builds the
    request for a follower from its [next_index_] (a batch of at least one
    entry, within its log); if the follower accepts it, the follower's log
    ends where the batch ends, holds in the slots of the batch exactly
    what the leader holds there, keeps its earlier slots, and agreed with
    the leader on the term of the entry before the batch; and a leader
    that then processes the response (no newer term in it) has
    [next_index_] at the follower's log length and [match_index_] at the
    follower's last index. *)
Theorem replication_round_copies_batch `{ops : LogOperationValues}
    `{um : UserManagerApi} (cfgL cfgF : Config)
    (leader leader1 follower follower' : InsNodeImpl) (f : string)
    (latest_replicating_ok : bool) (request : AppendEntriesRequest.t)
    (index span max_term : Z) (response : AppendEntriesResponse.t)
    (signalled : bool) :
  0 <= default 0 (next_index_ leader !! f) ->
  default 0 (next_index_ leader !! f) < BinLogger.GetLength (binlogger_ leader) ->
  BinLogger.GetLength (binlogger_ leader) <= int64_max ->
  0 < FLAGS_log_rep_batch_max cfgL ->
  ReplicateLog_request cfgL leader f latest_replicating_ok
  = Some (leader1, request, index, span, max_term) ->
  DoAppendEntries cfgF follower request = Some (follower', response, signalled) ->
  AppendEntriesResponse.success response = true ->
  0 < span
  /\ index + span <= BinLogger.GetLength (binlogger_ leader)
  /\ BinLogger.GetLength (binlogger_ follower') = index + span
  /\ (forall j, index <= j < index + span ->
        BinLogger.ReadSlot (binlogger_ follower') j
        = BinLogger.ReadSlot (binlogger_ leader) j)
  /\ (forall j, int64_min <= j < index ->
        BinLogger.ReadSlot (binlogger_ follower') j
        = BinLogger.ReadSlot (binlogger_ follower) j)
  /\ (0 < index ->
      exists e e',
        BinLogger.ReadSlot (binlogger_ leader) (index - 1) = BinLogger.SlotOk e
        /\ BinLogger.ReadSlot (binlogger_ follower) (index - 1)
           = BinLogger.SlotOk e'
        /\ LogEntry.term e = LogEntry.term e')
  /\ (status_ leader = kLeader ->
      AppendEntriesResponse.current_term response <= current_term_ leader ->
      let leader2 :=
        (ReplicateLog_response cfgL leader1 f index span max_term true
           response).1 in
      next_index_ leader2 !! f = Some (BinLogger.GetLength (binlogger_ follower'))
      /\ match_index_ leader2 !! f
         = Some (BinLogger.GetLastLogIndex (binlogger_ follower'))).
Proof.
  intros H0 Hlt Hmax Hflag HR HD Hs.
  destruct (ReplicateLog_request_inv cfgL leader leader1 f latest_replicating_ok
              request index span max_term H0 Hlt Hmax Hflag HR)
    as (Hidx & Hsp & Hend & Hb1 & Hst1 & Ht1 & _ & _ & _ & Hprev & Hpt & Hlen & Hes).
  assert (Z.of_nat (length (AppendEntriesRequest.entries request)) = span)
    as Hlen' by (rewrite Hlen; lia).
  destruct (DoAppendEntries_slots cfgF follower follower' request
              response signalled)
    as (Hl & Hin & Hout & Hpf); try assumption.
  { rewrite Hprev. lia. }
  { rewrite Hprev, Hlen'. lia. }
  { rewrite Hlen. lia. }
  rewrite Hprev, Hlen' in Hl. rewrite Hprev in Hin, Hout, Hpf.
  replace (index - 1 + 1 + span) with (index + span) in Hl by lia.
  split; [exact Hsp|]. split; [exact Hend|]. split; [exact Hl|]. split.
  { intros j Hj.
    destruct (AppendEntriesRequest.entries request !! Z.to_nat (j - index))
      as [e|] eqn:E.
    - pose proof (Hes _ _ E) as HL. pose proof (Hin _ _ E) as HF.
      rewrite Z2Nat.id in HL, HF by lia.
      replace (index - 1 + 1 + (j - index)) with j in HF by lia.
      replace (index + (j - index)) with j in HL by lia.
      rewrite HF, HL. f_equal. eapply ReadSlot_stored, HL.
    - apply lookup_ge_None in E. lia. }
  split.
  { intros j Hj. apply Hout. lia. }
  split.
  { intros Hi. destruct (Hpt Hi) as (e & He & Hte).
    destruct Hpf as (e' & He' & Hte'); [lia|].
    exists e, e'. split; [exact He|]. split; [exact He'|]. congruence. }
  intros Hlead Hterm. cbv zeta. unfold ReplicateLog_response.
  rewrite Ht1.
  rewrite (bool_decide_eq_false_2 (AppendEntriesResponse.current_term response
                                    > current_term_ leader)) by lia.
  cbn [andb]. rewrite decide_False by (rewrite Hst1, Hlead; auto).
  rewrite Hs.
  unfold BinLogger.GetLastLogIndex, BinLogger.GetLength in *. rewrite Hl.
  rewrite to_int64_id by (unfold int64_min, int64_max in *; lia).
  destruct (decide (max_term = _)).
  - match goal with
    | |- context [UpdateCommitIndex cfgL ?m ?a] =>
        destruct (UpdateCommitIndex_indices cfgL m a f (index + span - 1))
          as [Hn Hm]; [cbn; apply lookup_insert_eq|];
        rewrite Hn, Hm
    end.
    cbn. rewrite lookup_insert_eq. auto.
  - cbn. rewrite !lookup_insert_eq. auto.
Qed.

(** A leader whose first three slots go to a follower that holds only the
    first one. *)
Lemma replication_round_copies_batch_witness :
  match log_of [nop_entry 1; nop_entry 1; nop_entry 2], log_of [nop_entry 1] with
  | Some bl, Some bf =>
      let cfgL := example_config ["A"; "B"; "C"] in
      let cfgF := mkConfig ["A"; "B"; "C"] "B" 0 10000 10000 6000000 150 500 in
      let leader :=
        set_next_index_ {[ "B" := 1 ]}
          (example_node kLeader 2 bl (example_store "" []) ∅ false 0 0) in
      let follower :=
        example_node kFollower 1 bf (example_store "" []) ∅ true 0 0 in
      exists leader1 request index span max_term follower' response signalled,
        ReplicateLog_request cfgL leader "B" true
        = Some (leader1, request, index, span, max_term)
        /\ DoAppendEntries cfgF follower request
           = Some (follower', response, signalled)
        /\ index = 1 /\ span = 2
        /\ BinLogger.GetLength (binlogger_ follower') = 3
        /\ BinLogger.ReadSlot (binlogger_ follower') 2
           = BinLogger.ReadSlot (binlogger_ leader) 2
  | _, _ => False
  end.
Proof.
  destruct (log_of [nop_entry 1; nop_entry 1; nop_entry 2]) as [bl|] eqn:Hbl;
    [|vm_compute in Hbl; discriminate Hbl].
  destruct (log_of [nop_entry 1]) as [bf|] eqn:Hbf;
    [|vm_compute in Hbf; discriminate Hbf].
  vm_compute in Hbl. apply (inj Some) in Hbl. subst bl.
  vm_compute in Hbf. apply (inj Some) in Hbf. subst bf.
  intros cfgL cfgF leader follower.
  destruct (ReplicateLog_request cfgL leader "B" true)
    as [[[[[leader1 request] index] span] max_term]|] eqn:HR;
    [|vm_compute in HR; discriminate HR].
  project HR (fun r : @InsNodeImpl example_um * AppendEntriesRequest.t
                      * Z * Z * Z => (r.1.1.1.2, r.1.1.2, r.1.2))
    (AppendEntriesRequest.mk 2 "A" 0 1 0 [nop_entry 1; nop_entry 2], 1, 2)
    as Hreq.
  injection Hreq as Hq Hi Hsp. subst request index span.
  destruct (DoAppendEntries cfgF follower
              (AppendEntriesRequest.mk 2 "A" 0 1 0 [nop_entry 1; nop_entry 2]))
    as [[[follower' response] signalled]|] eqn:HD;
    [|vm_compute in HD; discriminate HD].
  exists leader1, (AppendEntriesRequest.mk 2 "A" 0 1 0 [nop_entry 1; nop_entry 2]),
    1, 2, max_term, follower', response, signalled.
  split; [reflexivity|]. split; [exact HD|].
  project HD (fun r : @InsNodeImpl example_um * AppendEntriesResponse.t * bool =>
                AppendEntriesResponse.success r.1.2) true as Hs.
  destruct (replication_round_copies_batch (ops := example_ops) cfgL cfgF leader
              leader1 follower follower' "B" true
              (AppendEntriesRequest.mk 2 "A" 0 1 0 [nop_entry 1; nop_entry 2])
              1 2 max_term response signalled) as (_ & _ & Hl & Hcopy & _).
  - vm_compute. discriminate.
  - vm_compute. reflexivity.
  - vm_compute. discriminate.
  - vm_compute. reflexivity.
  - exact HR.
  - exact HD.
  - exact Hs.
  - split; [reflexivity|]. split; [reflexivity|].
    split; [exact Hl|]. apply Hcopy. lia.
Defined.

Section RejectedRound.

Context `{ops : LogOperationValues} `{um : UserManagerApi}.

Lemma ReplicateLog_request_frame cfg (n n1 : InsNodeImpl) f okb request index
    span max_term :
  ReplicateLog_request cfg n f okb = Some (n1, request, index, span, max_term) ->
  next_index_ n1 !! f = Some index
  /\ match_index_ n1 = match_index_ n
  /\ commit_index_ n1 = commit_index_ n
  /\ (AppendEntriesRequest.prev_log_index request > -1
      \/ AppendEntriesRequest.prev_log_term request = -1).
Proof.
  unfold ReplicateLog_request.
  assert ((index_at (next_index_ n) f).2 !! f = Some (index_at (next_index_ n) f).1)
    as Hf.
  { unfold index_at. destruct (next_index_ n !! f) eqn:E; cbn; [exact E|].
    apply lookup_insert_eq. }
  destruct (index_at (next_index_ n) f) as [idx m]. cbn in Hf.
  destruct (decide _) as [Hgt|Hgt].
  - destruct (BinLogger.ReadSlot _ _); try discriminate.
    cbn [mbind option_bind].
    destruct (batch_entries _ _ _); [|discriminate]. cbn [mbind option_bind].
    destruct (batch_max_term _ _ _ _); [|discriminate]. cbn [mbind option_bind].
    intros H. inversion H; subst. cbn. auto.
  - cbn [mbind option_bind].
    destruct (batch_entries _ _ _); [|discriminate]. cbn [mbind option_bind].
    destruct (batch_max_term _ _ _ _); [|discriminate]. cbn [mbind option_bind].
    intros H. inversion H; subst. cbn. auto.
Qed.

(** What a refusal that is neither for a stale term nor for being busy has
    gone through. *)
Lemma DoAppendEntries_reject cfg (n n' : InsNodeImpl) request response signalled :
  DoAppendEntries cfg n request = Some (n', response, signalled) ->
  AppendEntriesResponse.success response = false ->
  AppendEntriesResponse.is_busy response = false ->
  AppendEntriesRequest.term request >= current_term_ n ->
  let prev := AppendEntriesRequest.prev_log_index request in
  AppendEntriesResponse.log_length response = BinLogger.GetLength (binlogger_ n')
  /\ ((prev >= BinLogger.GetLength (binlogger_ n)
       /\ binlogger_ n' = binlogger_ n)
      \/ (prev < BinLogger.GetLength (binlogger_ n)
          /\ (if decide (prev >= 0)
              then exists e,
                     BinLogger.ReadSlot (binlogger_ n) prev = BinLogger.SlotOk e
                     /\ LogEntry.term e
                        <> AppendEntriesRequest.prev_log_term request
              else AppendEntriesRequest.prev_log_term request <> -1)
          /\ BinLogger.Truncate (binlogger_ n) (to_int64 (prev - 1))
             = Some (binlogger_ n'))).
Proof.
  intros H Hs Hbusy Hge. cbv zeta. revert H. unfold DoAppendEntries.
  rewrite decide_False by lia.
  set (n1 := set_heartbeat_count_ _ _).
  assert (binlogger_ n1 = binlogger_ n) as Hb1.
  { subst n1.
    destruct (decide (status_ n <> kFollower));
      destruct (decide (AppendEntriesRequest.term request > current_term_ _));
      reflexivity. }
  clearbody n1.
  destruct (decide (0 < length _)%nat).
  2:{ intros H. inversion H; subst. discriminate Hs. }
  rewrite Hb1.
  destruct (decide (AppendEntriesRequest.prev_log_index request
                    >= BinLogger.GetLength (binlogger_ n))) as [Hp|Hp].
  { intros H. inversion H; subst. cbn. rewrite Hb1. auto. }
  destruct (decide (AppendEntriesRequest.prev_log_index request >= 0)) as [H0|H0].
  - destruct (BinLogger.ReadSlot (binlogger_ n) _) as [e| |] eqn:Er;
      try discriminate.
    cbn [mbind option_bind].
    destruct (decide (LogEntry.term e <> _)) as [Hm|Hm].
    { destruct (BinLogger.Truncate _ _) as [b|] eqn:Et; [|discriminate].
      cbn. intros H. inversion H; subst. cbn. split; [reflexivity|].
      right. split; [lia|]. split; [eauto|reflexivity]. }
    destruct (decide (to_int64 _ > _)).
    { intros H. inversion H; subst. discriminate Hbusy. }
    destruct (decide (BinLogger.GetLength _ > _));
      [destruct (BinLogger.Truncate _ _); [|discriminate]|];
      cbn [mbind option_bind];
      (destruct (BinLogger.AppendEntryList _ _); [|discriminate]);
      cbn; intros H; inversion H; subst; discriminate Hs.
  - cbn [mbind option_bind].
    destruct (decide (-1 <> _)) as [Hm|Hm].
    { destruct (BinLogger.Truncate _ _) as [b|] eqn:Et; [|discriminate].
      cbn. intros H. inversion H; subst. cbn. split; [reflexivity|].
      right. split; [lia|]. split; [congruence|reflexivity]. }
    destruct (decide (to_int64 _ > _)).
    { intros H. inversion H; subst. discriminate Hbusy. }
    destruct (decide (BinLogger.GetLength _ > _));
      [destruct (BinLogger.Truncate _ _); [|discriminate]|];
      cbn [mbind option_bind];
      (destruct (BinLogger.AppendEntryList _ _); [|discriminate]);
      cbn; intros H; inversion H; subst; discriminate Hs.
Qed.

End RejectedRound.

(** X20.  One refused round of log replication.  If the follower refuses
    the leader's batch (not as busy, and without reporting a newer term),
    the follower has not altered any slot, and after the response the
    leader's [next_index_] for it is strictly smaller than before, not
    negative, and not beyond the end of the follower's log; the leader's
    [match_index_] and commit index are as before the round. *)
Theorem rejected_round_backs_off `{ops : LogOperationValues}
    `{um : UserManagerApi} (cfgL cfgF : Config)
    (leader leader1 follower follower' : InsNodeImpl) (f : string)
    (latest_replicating_ok : bool) (request : AppendEntriesRequest.t)
    (index span max_term : Z) (response : AppendEntriesResponse.t)
    (signalled : bool) :
  0 <= default 0 (next_index_ leader !! f) ->
  default 0 (next_index_ leader !! f) < BinLogger.GetLength (binlogger_ leader) ->
  BinLogger.GetLength (binlogger_ leader) <= int64_max ->
  0 < FLAGS_log_rep_batch_max cfgL ->
  0 <= BinLogger.GetLength (binlogger_ follower) ->
  status_ leader = kLeader ->
  ReplicateLog_request cfgL leader f latest_replicating_ok
  = Some (leader1, request, index, span, max_term) ->
  DoAppendEntries cfgF follower request = Some (follower', response, signalled) ->
  AppendEntriesResponse.success response = false ->
  AppendEntriesResponse.is_busy response = false ->
  AppendEntriesResponse.current_term response <= current_term_ leader ->
  let leader2 :=
    (ReplicateLog_response cfgL leader1 f index span max_term true response).1 in
  (exists next,
     next_index_ leader2 !! f = Some next
     /\ 0 <= next <= BinLogger.GetLength (binlogger_ follower')
     /\ next < index)
  /\ match_index_ leader2 = match_index_ leader
  /\ commit_index_ leader2 = commit_index_ leader
  /\ (forall j, BinLogger.ReadSlot (binlogger_ follower') j
                = BinLogger.ReadSlot (binlogger_ follower) j).
Proof.
  intros H0 Hlt Hmax Hflag HF Hlead HR HD Hs Hbusy Hterm. cbv zeta.
  destruct (ReplicateLog_request_inv cfgL leader leader1 f latest_replicating_ok
              request index span max_term H0 Hlt Hmax Hflag HR)
    as (Hidx & Hsp & Hend & Hb1 & Hst1 & Ht1 & Hrt & _ & _ & Hprev & Hpt & _ & _).
  destruct (ReplicateLog_request_frame cfgL leader leader1 f _ _ _ _ _ HR)
    as (Hn1 & Hm1 & Hc1 & Hpm).
  assert (AppendEntriesRequest.term request >= current_term_ follower) as Hge.
  { destruct (decide (AppendEntriesRequest.term request < current_term_ follower))
      as [Hstale|]; [|lia].
    exfalso. unfold DoAppendEntries in HD. rewrite decide_True in HD by exact Hstale.
    inversion HD; subst. cbn in Hterm. lia. }
  destruct (DoAppendEntries_reject cfgF follower follower' request response
              signalled HD Hs Hbusy Hge) as [Hll Hcase].
  cbv zeta in Hcase. rewrite Hprev in Hcase.
  unfold ReplicateLog_response. rewrite Ht1.
  rewrite (bool_decide_eq_false_2 (AppendEntriesResponse.current_term response
                                    > current_term_ leader)) by lia.
  cbn [andb]. rewrite decide_False by (rewrite Hst1, Hlead; auto).
  rewrite Hs, Hbusy.
  unfold index_at. rewrite Hn1. cbn [fst snd next_index_ match_index_
                                     commit_index_ set_next_index_].
  rewrite lookup_insert_eq, Hll.
  unfold BinLogger.GetLength in *.
  destruct Hcase as [[Hbeyond Hb]|(Hin & Hmis & HT)].
  - rewrite Hb. split; [|split; [exact Hm1|split; [exact Hc1|reflexivity]]].
    eexists. split; [reflexivity|]. destruct (decide (_ < 0)); lia.
  - assert (0 < index) as Hpos.
    { destruct (decide (index - 1 >= 0)) as [|Hneg]; [lia|].
      exfalso. rewrite Hprev in Hpm. destruct Hpm as [Hpm|Hpm]; [lia|].
      contradiction. }
    apply Truncate_inv in HT. cbv zeta in HT.
    rewrite (to_int64_id (index - 1 - 1)) in HT
      by (unfold int64_min, int64_max in *; lia).
    rewrite decide_False in HT by lia.
    rewrite (to_int64_id (index - 1 - 1 + 1)) in HT
      by (unfold int64_min, int64_max in *; lia).
    destruct HT as [Hl Hdb]. rewrite Hl.
    split; [|split; [exact Hm1|split; [exact Hc1|]]].
    + eexists. split; [reflexivity|]. destruct (decide (_ < 0)); lia.
    + intros j. destruct (binlogger_ follower') as [db' l' t'].
      cbn in Hdb. subst db'. apply ReadSlot_put_tag.
Qed.

(** A follower whose only entry has another term than the leader's first
    entry refuses the batch after it; the leader falls back from index 1 to
    index 0. *)
Lemma rejected_round_backs_off_witness :
  match log_of [nop_entry 2; nop_entry 2], log_of [nop_entry 1] with
  | Some bl, Some bf =>
      let cfgL := example_config ["A"; "B"; "C"] in
      let cfgF := mkConfig ["A"; "B"; "C"] "B" 0 10000 10000 6000000 150 500 in
      let leader :=
        set_next_index_ {[ "B" := 1 ]}
          (example_node kLeader 2 bl (example_store "" []) ∅ false 0 0) in
      let follower :=
        example_node kFollower 1 bf (example_store "" []) ∅ true 0 0 in
      exists leader1 request index span max_term follower' response signalled,
        ReplicateLog_request cfgL leader "B" true
        = Some (leader1, request, index, span, max_term)
        /\ DoAppendEntries cfgF follower request
           = Some (follower', response, signalled)
        /\ index = 1
        /\ next_index_
             (ReplicateLog_response cfgL leader1 "B" index span max_term true
                response).1 !! "B" = Some 0
  | _, _ => False
  end.
Proof.
  destruct (log_of [nop_entry 2; nop_entry 2]) as [bl|] eqn:Hbl;
    [|vm_compute in Hbl; discriminate Hbl].
  destruct (log_of [nop_entry 1]) as [bf|] eqn:Hbf;
    [|vm_compute in Hbf; discriminate Hbf].
  vm_compute in Hbl. apply (inj Some) in Hbl. subst bl.
  vm_compute in Hbf. apply (inj Some) in Hbf. subst bf.
  intros cfgL cfgF leader follower.
  destruct (ReplicateLog_request cfgL leader "B" true)
    as [[[[[leader1 request] index] span] max_term]|] eqn:HR;
    [|vm_compute in HR; discriminate HR].
  project HR (fun r : @InsNodeImpl example_um * AppendEntriesRequest.t
                      * Z * Z * Z => (r.1.1.1.2, r.1.1.2))
    (AppendEntriesRequest.mk 2 "A" 0 2 0 [nop_entry 2], 1) as Hreq.
  injection Hreq as Hq Hi. subst request index.
  destruct (DoAppendEntries cfgF follower
              (AppendEntriesRequest.mk 2 "A" 0 2 0 [nop_entry 2]))
    as [[[follower' response] signalled]|] eqn:HD;
    [|vm_compute in HD; discriminate HD].
  exists leader1, (AppendEntriesRequest.mk 2 "A" 0 2 0 [nop_entry 2]),
    1, span, max_term, follower', response, signalled.
  split; [reflexivity|]. split; [exact HD|].
  project HD (fun r : @InsNodeImpl example_um * AppendEntriesResponse.t * bool =>
                (AppendEntriesResponse.success r.1.2,
                 AppendEntriesResponse.is_busy r.1.2,
                 AppendEntriesResponse.current_term r.1.2))
    (false, false, 2) as Hresp.
  injection Hresp as Hs Hbusy Ht.
  destruct (rejected_round_backs_off (ops := example_ops) cfgL cfgF leader
              leader1 follower follower' "B" true
              (AppendEntriesRequest.mk 2 "A" 0 2 0 [nop_entry 2])
              1 span max_term response signalled)
    as ((next & Hn & Hr & Hlt) & _).
  - vm_compute. discriminate.
  - vm_compute. reflexivity.
  - vm_compute. discriminate.
  - vm_compute. reflexivity.
  - vm_compute. discriminate.
  - reflexivity.
  - exact HR.
  - exact HD.
  - exact Hs.
  - exact Hbusy.
  - rewrite Ht. vm_compute. discriminate.
  - split; [reflexivity|]. rewrite Hn. f_equal. lia.
Defined.

(** ** The application worker *)

Section ApplyWorkerFacts.

Context `{ops : LogOperationValues} `{um : UserManagerApi}.

Ltac apply_switch_cases :=
  repeat match goal with
         | |- context [decide ?P] => destruct (decide P)
         | |- context [retry_opening ?s ?u ?f] =>
             destruct (retry_opening s u f) as [? ?]
         | |- context [StorageManager.Get ?s ?u ?k] =>
             destruct (StorageManager.Get s u k) as [? ?]
         | |- context [ParseValue ?v ?o ?r] => destruct (ParseValue v o r) as [? ?]
         | |- context [um_Login ?m ?k ?v ?u] => destruct (um_Login m k v u) as [? ?]
         | |- context [um_Logout ?m ?u] => destruct (um_Logout m u) as [? ?]
         | |- context [um_Register ?m ?k ?v] => destruct (um_Register m k v) as [? ?]
         end.

(** The [switch] touches the store, the user manager and the lock sets,
    nothing else of the node. *)
Lemma apply_switch_frame (n : InsNodeImpl) e nop op0 a :
  apply_switch n e nop op0 = Some a ->
  status_ (applied_node a) = status_ n
  /\ current_term_ (applied_node a) = current_term_ n
  /\ in_safe_mode_ (applied_node a) = in_safe_mode_ n
  /\ client_ack_ (applied_node a) = client_ack_ n
  /\ binlogger_ (applied_node a) = binlogger_ n
  /\ sessions_ (applied_node a) = sessions_ n
  /\ last_applied_index_ (applied_node a) = last_applied_index_ n
  /\ commit_index_ (applied_node a) = commit_index_ n.
Proof.
  unfold apply_switch. apply_switch_cases;
    intros H; inversion H; subst; cbn; repeat split; reflexivity.
Qed.

Lemma apply_switch_nop (n : InsNodeImpl) e nop op0 a :
  enumerators_wf ->
  apply_switch n e nop op0 = Some a ->
  nop_committed a
  = nop || bool_decide (LogEntry.op e = kNop
                        /\ LogEntry.term e = current_term_ n).
Proof.
  intros [Hnd _].
  assert (kNop <> kPut /\ kNop <> kLock /\ kNop <> kDel) as (H1 & H2 & H3).
  { repeat match goal with
           | H : NoDup (_ :: _) |- _ => apply NoDup_cons in H as [? ?]
           end.
    set_solver. }
  unfold apply_switch.
  destruct (decide (LogEntry.op e = kPut \/ LogEntry.op e = kLock)) as [Hp|Hp].
  { rewrite bool_decide_eq_false_2 by (intros [E _]; destruct Hp; congruence).
    rewrite orb_false_r.
    destruct (retry_opening _ _ _) as [s sm]. destruct (decide (s = kOk));
      [|discriminate]. intros H. inversion H. reflexivity. }
  destruct (decide (LogEntry.op e = kDel)) as [Hd|Hd].
  { rewrite bool_decide_eq_false_2 by (intros [E _]; congruence).
    rewrite orb_false_r.
    destruct (retry_opening _ _ _) as [s sm]. destruct (decide (s = kOk));
      [|discriminate]. intros H. inversion H. reflexivity. }
  destruct (decide (LogEntry.op e = kNop)) as [Hn|Hn].
  { intros H. inversion H. cbn.
    destruct (decide (LogEntry.term e = current_term_ n)) as [Ht|Ht].
    - rewrite bool_decide_eq_true_2 by auto. now rewrite orb_true_r.
    - rewrite bool_decide_eq_false_2 by (intros [_ E]; auto).
      now rewrite orb_false_r. }
  rewrite bool_decide_eq_false_2 by (intros [E _]; auto).
  rewrite orb_false_r.
  apply_switch_cases; intros H; inversion H; reflexivity.
Qed.

(** One round of the worker, taken apart. *)
Lemma apply_entry_inv (n n' : InsNodeImpl) i nop op0 nop' ts rs :
  apply_entry n i nop op0 = Some (n', nop', ts, rs) ->
  exists e a,
    BinLogger.ReadSlot (binlogger_ n) i = BinLogger.SlotOk e
    /\ apply_switch n e nop op0 = Some a
    /\ nop' = nop_committed a /\ ts = tasks a
    /\ status_ n' = status_ n
    /\ current_term_ n' = current_term_ n
    /\ binlogger_ n' = binlogger_ n
    /\ sessions_ n' = sessions_ n
    /\ commit_index_ n' = commit_index_ n
    /\ in_safe_mode_ n'
       = (if bool_decide (status_ n = kLeader) && nop' then false
          else in_safe_mode_ n)
    /\ last_applied_index_ n' = to_int64 (last_applied_index_ n + 1)
    /\ StorageManager.Put (data_store_ (applied_node a))
         StorageManager.anonymous_user tag_last_applied_index
         (BinLogger.IntToString (last_applied_index_ n'))
       = (kOk, data_store_ n')
    /\ (client_ack_ n', rs)
       = match client_ack_ n !! i with
         | Some ack =>
             if decide (status_ n = kLeader)
             then (delete i (client_ack_ n),
                   ack_replies ack (log_status a) (new_uuid a))
             else (client_ack_ n, [])
         | None => (client_ack_ n, [])
         end.
Proof.
  unfold apply_entry.
  destruct (BinLogger.ReadSlot (binlogger_ n) i) as [e| |]; try discriminate.
  cbn [mbind option_bind].
  destruct (apply_switch n e nop op0) as [a|] eqn:HA; [|discriminate].
  cbn [mbind option_bind]. intros H. exists e, a.
  destruct (apply_switch_frame _ _ _ _ _ HA)
    as (Hs & Ht & Hsafe & Hack & Hb & Hse & Hla & Hci).
  split; [reflexivity|]. split; [exact HA|]. revert H.
  rewrite Hs.
  set (m := if bool_decide (status_ n = kLeader) && nop_committed a
            then set_in_safe_mode_ false (applied_node a) else applied_node a).
  assert (status_ m = status_ n /\ current_term_ m = current_term_ n
          /\ binlogger_ m = binlogger_ n /\ sessions_ m = sessions_ n
          /\ commit_index_ m = commit_index_ n
          /\ client_ack_ m = client_ack_ n
          /\ last_applied_index_ m = last_applied_index_ n
          /\ data_store_ m = data_store_ (applied_node a)
          /\ in_safe_mode_ m
             = (if bool_decide (status_ n = kLeader) && nop_committed a
                then false else in_safe_mode_ n))
    as (Hs1 & Ht1 & Hb1 & Hse1 & Hci1 & Hack1 & Hla1 & Hds1 & Hsafe1).
  { subst m. destruct (_ && _); cbn; repeat split; assumption. }
  clearbody m. rewrite Hack1, Hs1.
  destruct (client_ack_ n !! i) as [ack|];
    [destruct (decide (status_ n = kLeader))|];
    cbn [last_applied_index_ data_store_ set_client_ack_
         set_last_applied_index_];
    rewrite Hla1, Hds1;
    (destruct (StorageManager.Put _ _ _ _) as [sp sm] eqn:EP);
    (destruct (decide (sp = kOk)) as [->|]; [|discriminate]);
    intros H; inversion H; subst; cbn;
    repeat split; try assumption; try reflexivity;
    rewrite ?Hack1; reflexivity.
Qed.

End ApplyWorkerFacts.

(** X21.  A leader leaves safe mode when the worker applies a no-op of
    its current term, and at no other entry: after one round of the worker
    [in_safe_mode_] is cleared exactly if the node is the leader and the
    entry (or an earlier one of the same batch) was such a no-op; the role
    and the term are untouched. *)
Theorem leader_leaves_safe_mode_on_own_nop `{ops : LogOperationValues}
    `{um : UserManagerApi} (n n' : InsNodeImpl) (i : Z) (e : LogEntry.t)
    (nop nop' : bool) (op0 : LogOperation) (ts : list Task)
    (rs : list AckReply) :
  enumerators_wf ->
  BinLogger.ReadSlot (binlogger_ n) i = BinLogger.SlotOk e ->
  apply_entry n i nop op0 = Some (n', nop', ts, rs) ->
  nop' = nop || bool_decide (LogEntry.op e = kNop
                             /\ LogEntry.term e = current_term_ n)
  /\ in_safe_mode_ n'
     = (if bool_decide (status_ n = kLeader) && nop' then false
        else in_safe_mode_ n)
  /\ status_ n' = status_ n
  /\ current_term_ n' = current_term_ n.
Proof.
  intros Hwf Hslot H.
  apply apply_entry_inv in H
    as (e' & a & He & Ha & -> & _ & Hs & Ht & _ & _ & _ & Hsafe & _).
  rewrite Hslot in He. inversion He; subst e'.
  split; [now apply (apply_switch_nop n e nop op0)|].
  split; [exact Hsafe|]. split; [exact Hs|exact Ht].
Qed.

(** A leader of term 2 applying its own no-op leaves safe mode; a no-op of
    term 1 would not do. *)
Lemma leader_leaves_safe_mode_on_own_nop_witness :
  match log_of [nop_entry 1; nop_entry 2] with
  | Some b =>
      let n := example_node kLeader 2 b (example_store "" []) ∅ true 1 (-1) in
      exists n1 nop1 ts1 rs1 n2 nop2 ts2 rs2,
        apply_entry (ops := example_ops) n 0 false 0 = Some (n1, nop1, ts1, rs1)
        /\ in_safe_mode_ n1 = true
        /\ apply_entry (ops := example_ops) n1 1 nop1 0
           = Some (n2, nop2, ts2, rs2)
        /\ in_safe_mode_ n2 = false
  | None => False
  end.
Proof.
  destruct (log_of [nop_entry 1; nop_entry 2]) as [b|] eqn:Hb;
    [|vm_compute in Hb; discriminate Hb].
  vm_compute in Hb. apply (inj Some) in Hb. subst b.
  intros n.
  destruct (apply_entry (ops := example_ops) n 0 false 0)
    as [[[[n1 nop1] ts1] rs1]|] eqn:E1; [|vm_compute in E1; discriminate E1].
  destruct (leader_leaves_safe_mode_on_own_nop (ops := example_ops) n n1 0
              (nop_entry 1) false nop1 0 ts1 rs1 example_ops_wf)
    as (Hn1 & Hs1 & Hst1 & Ht1); [reflexivity|exact E1|].
  assert (nop1 = false) as -> by (rewrite Hn1; reflexivity).
  destruct (apply_entry (ops := example_ops) n1 1 false 0)
    as [[[[n2 nop2] ts2] rs2]|] eqn:E2.
  2:{ exfalso. vm_compute in E1. apply (inj Some) in E1.
      injection E1 as <- _ _. vm_compute in E2. discriminate E2. }
  assert (BinLogger.ReadSlot (binlogger_ n1) 1 = BinLogger.SlotOk (nop_entry 2))
    as Hslot.
  { apply apply_entry_inv in E1 as (_ & _ & _ & _ & _ & _ & _ & _ & Hb1 & _).
    rewrite Hb1. reflexivity. }
  destruct (leader_leaves_safe_mode_on_own_nop (ops := example_ops) n1 n2 1
              (nop_entry 2) false nop2 0 ts2 rs2 example_ops_wf Hslot E2)
    as (Hn2 & Hs2 & _ & _).
  exists n1, false, ts1, rs1, n2, nop2, ts2, rs2.
  split; [reflexivity|]. split; [rewrite Hs1; reflexivity|].
  split; [exact E2|]. rewrite Hs2, Hn2, Hst1, Ht1. reflexivity.
Defined.

(** X22.  Every round of the worker advances [last_applied_index_] by one
    and leaves it in the store under the applied-index tag, so that
    [InitStorage] reads the same index back after a restart. *)
Theorem worker_persists_last_applied `{ops : LogOperationValues}
    `{um : UserManagerApi} (n n' : InsNodeImpl) (i : Z) (nop nop' : bool)
    (op0 : LogOperation) (ts : list Task) (rs : list AckReply) :
  int64_min <= last_applied_index_ n < int64_max ->
  apply_entry n i nop op0 = Some (n', nop', ts, rs) ->
  last_applied_index_ n' = last_applied_index_ n + 1
  /\ InitStorage_last_applied (data_store_ n') = Some (last_applied_index_ n').
Proof.
  intros Hr H.
  apply apply_entry_inv in H
    as (e & a & _ & _ & _ & _ & _ & _ & _ & _ & _ & _ & Hla & HP & _).
  rewrite to_int64_id in Hla by (unfold int64_min, int64_max in *; lia).
  split; [exact Hla|].
  unfold InitStorage_last_applied. rewrite (Get_after_Put _ _ _ _ _ HP).
  rewrite (StringToInt_IntToString (last_applied_index_ n')).
  f_equal. apply to_int64_id. unfold int64_min, int64_max in *. lia.
Qed.

Lemma worker_persists_last_applied_witness :
  match log_of [nop_entry 1] with
  | Some b =>
      let n := example_node kFollower 1 b (example_store "" []) ∅ true 0 (-1) in
      exists n' nop' ts rs,
        apply_entry (ops := example_ops) n 0 false 0 = Some (n', nop', ts, rs)
        /\ last_applied_index_ n' = 0
        /\ InitStorage_last_applied (data_store_ n') = Some 0
  | None => False
  end.
Proof.
  destruct (log_of [nop_entry 1]) as [b|] eqn:Hb;
    [|vm_compute in Hb; discriminate Hb].
  vm_compute in Hb. apply (inj Some) in Hb. subst b.
  intros n.
  destruct (apply_entry (ops := example_ops) n 0 false 0)
    as [[[[n' nop'] ts] rs]|] eqn:E; [|vm_compute in E; discriminate E].
  exists n', nop', ts, rs. split; [reflexivity|].
  destruct (worker_persists_last_applied (ops := example_ops) n n' 0 false nop'
              0 ts rs) as [Hl Hi].
  - vm_compute. split; [discriminate|reflexivity].
  - exact E.
  - split; [exact Hl|]. rewrite Hi, Hl. reflexivity.
Defined.

Section ReapplyFacts.

Context `{ops : LogOperationValues} `{um : UserManagerApi}.

Lemma OpenDatabase_open sm user :
  is_Some (StorageManager.dbs_ (StorageManager.OpenDatabase sm user).2 !! user).
Proof.
  unfold StorageManager.OpenDatabase.
  destruct (StorageManager.dbs_ sm !! user) eqn:E; cbn.
  - rewrite E. eauto.
  - rewrite lookup_insert_eq. eauto.
Qed.

Lemma OpenDatabase_idem sm user :
  is_Some (StorageManager.dbs_ sm !! user) ->
  StorageManager.OpenDatabase sm user = (true, sm).
Proof.
  intros [db E]. unfold StorageManager.OpenDatabase. now rewrite E.
Qed.

Lemma retry_opening_Put sm user key value :
  retry_opening sm user (fun sm => StorageManager.Put sm user key value)
  = StorageManager.Put (StorageManager.OpenDatabase sm user).2 user key value.
Proof.
  unfold retry_opening.
  destruct (StorageManager.dbs_ sm !! user) as [db|] eqn:E.
  - rewrite (Put_open _ _ _ _ _ E). rewrite decide_False by discriminate.
    rewrite OpenDatabase_idem by eauto. cbn. now rewrite (Put_open _ _ _ _ _ E).
  - rewrite (Put_closed _ _ _ _ E). rewrite decide_True by reflexivity.
    destruct (StorageManager.OpenDatabase sm user) as [[] sm'] eqn:EO;
      [reflexivity|].
    unfold StorageManager.OpenDatabase in EO. rewrite E in EO. discriminate EO.
Qed.

Lemma retry_opening_Delete sm user key :
  retry_opening sm user (fun sm => StorageManager.Delete sm user key)
  = StorageManager.Delete (StorageManager.OpenDatabase sm user).2 user key.
Proof.
  unfold retry_opening.
  destruct (StorageManager.dbs_ sm !! user) as [db|] eqn:E.
  - rewrite (Delete_open _ _ _ _ E). rewrite decide_False by discriminate.
    rewrite OpenDatabase_idem by eauto. cbn. now rewrite (Delete_open _ _ _ _ E).
  - rewrite (Delete_closed _ _ _ E). rewrite decide_True by reflexivity.
    destruct (StorageManager.OpenDatabase sm user) as [[] sm'] eqn:EO;
      [reflexivity|].
    unfold StorageManager.OpenDatabase in EO. rewrite E in EO. discriminate EO.
Qed.

(** Writing a key of an open namespace twice is writing it once; so is
    writing a key and then another one, twice over. *)
Lemma Put_Put sm user key value :
  is_Some (StorageManager.dbs_ sm !! user) ->
  StorageManager.Put (StorageManager.Put sm user key value).2 user key value
  = StorageManager.Put sm user key value.
Proof.
  intros [db E]. rewrite (Put_open _ _ _ _ _ E). cbn [snd].
  erewrite Put_open by (cbn; apply lookup_insert_eq). cbn.
  now rewrite !insert_insert_eq.
Qed.

Lemma Delete_Delete sm user key :
  is_Some (StorageManager.dbs_ sm !! user) ->
  StorageManager.Delete (StorageManager.Delete sm user key).2 user key
  = StorageManager.Delete sm user key.
Proof.
  intros [db E]. rewrite (Delete_open _ _ _ _ E). cbn [snd].
  erewrite Delete_open by (cbn; apply lookup_insert_eq). cbn.
  rewrite insert_insert_eq. do 3 f_equal.
  apply delete_id, lookup_delete_eq.
Qed.

Lemma Put_Put_pair sm user k1 v1 k2 v2 :
  is_Some (StorageManager.dbs_ sm !! user) ->
  k1 <> k2 ->
  let twice sm :=
    (StorageManager.Put (StorageManager.Put sm user k1 v1).2 user k2 v2).2 in
  twice (twice sm) = twice sm.
Proof.
  intros [db E] Hne twice. subst twice. cbv beta.
  rewrite (Put_open sm _ _ _ _ E). cbn [snd].
  erewrite (Put_open (StorageManager.mk _ _))
    by (cbn; apply lookup_insert_eq). cbn [snd].
  erewrite (Put_open (StorageManager.mk _ _))
    by (cbn; apply lookup_insert_eq). cbn [snd].
  erewrite (Put_open (StorageManager.mk _ _))
    by (cbn; apply lookup_insert_eq). cbn.
  rewrite !insert_insert_eq.
  rewrite (insert_insert_ne (<[k1:=v1]> db) k1 k2) by exact Hne.
  now rewrite !insert_insert_eq.
Qed.

Lemma Put_keeps_open sm user key value name :
  is_Some (StorageManager.dbs_ sm !! name) ->
  is_Some (StorageManager.dbs_ (StorageManager.Put sm user key value).2 !! name).
Proof.
  intros Hn. unfold StorageManager.Put, StorageManager.FindDB.
  destruct (StorageManager.dbs_ sm !! user) eqn:E; cbn; [|exact Hn].
  destruct (decide (name = user)) as [->|Hne].
  - rewrite lookup_insert_eq. eauto.
  - now rewrite lookup_insert_ne by congruence.
Qed.

Lemma Delete_keeps_open sm user key name :
  is_Some (StorageManager.dbs_ sm !! name) ->
  is_Some (StorageManager.dbs_ (StorageManager.Delete sm user key).2 !! name).
Proof.
  intros Hn. unfold StorageManager.Delete, StorageManager.FindDB.
  destruct (StorageManager.dbs_ sm !! user) eqn:E; cbn; [|exact Hn].
  destruct (decide (name = user)) as [->|Hne].
  - rewrite lookup_insert_eq. eauto.
  - now rewrite lookup_insert_ne by congruence.
Qed.

Lemma TouchParentKey_keeps_open sm user key session action name :
  is_Some (StorageManager.dbs_ sm !! name) ->
  is_Some (StorageManager.dbs_ (TouchParentKey sm user key session action)
           !! name).
Proof.
  intros Hn. unfold TouchParentKey.
  destruct (GetParentKey key); [now apply Put_keeps_open|exact Hn].
Qed.

End ReapplyFacts.

(** X23.  Applying a committed Put, Lock, Del, UnLock or no-op entry a
    second time (as happens when the node stops between writing the data
    and writing the applied-index tag) succeeds again and leaves the store
    and the lock sets exactly as the first application left them. *)
Theorem apply_switch_idempotent `{ops : LogOperationValues}
    `{um : UserManagerApi} (n : InsNodeImpl) (e : LogEntry.t) (nop : bool)
    (op0 : LogOperation) (a : Applied) :
  enumerators_wf ->
  LogEntry.op e ∈ [kPut; kLock; kDel; kUnLock; kNop] ->
  apply_switch n e nop op0 = Some a ->
  exists a',
    apply_switch (applied_node a) e nop op0 = Some a'
    /\ data_store_ (applied_node a') = data_store_ (applied_node a)
    /\ session_locks_ (applied_node a') = session_locks_ (applied_node a).
Proof.
  intros Hwf Hop.
  destruct (enumerators_distinct Hwf) as (HPL & HDP & HDL & HUP & HUL & HUD & HUN).
  assert (kNop <> kPut /\ kNop <> kLock /\ kNop <> kDel) as (HNP & HNL & HND).
  { destruct Hwf as [Hnd _].
    repeat match goal with
           | H : NoDup (_ :: _) |- _ => apply NoDup_cons in H as [? ?]
           end.
    set_solver. }
  unfold apply_switch.
  destruct (decide (LogEntry.op e = kPut \/ LogEntry.op e = kLock)) as [Hp|Hp].
  { rewrite !retry_opening_Put.
    pose proof (OpenDatabase_open (data_store_ n) (LogEntry.user e)) as Hopen.
    set (sm0 := (StorageManager.OpenDatabase (data_store_ n) (LogEntry.user e)).2)
      in *.
    destruct (StorageManager.Put sm0 _ _ _) as [s sm1] eqn:EP.
    destruct (decide (s = kOk)) as [->|]; [|discriminate].
    intros H. inversion H; subst a; clear H.
    cbn [applied_node data_store_ session_locks_ set_session_locks_
         set_data_store_].
    destruct (decide (LogEntry.op e = kLock)) as [Hl|Hl].
    - (* Lock *)
      assert (is_Some (StorageManager.dbs_ sm1 !! LogEntry.user e)) as Hopen1.
      { replace sm1 with (StorageManager.Put sm0 (LogEntry.user e)
                            (LogEntry.key e)
                            (tagged (LogEntry.op e) (LogEntry.value e))).2
          by now rewrite EP.
        now apply Put_keeps_open. }
      rewrite OpenDatabase_idem by now apply TouchParentKey_keeps_open.
      cbn [snd].
      unfold TouchParentKey.
      destruct (GetParentKey (LogEntry.key e)) as [p|] eqn:Eg.
      + pose proof (Put_Put_pair sm0 (LogEntry.user e) (LogEntry.key e)
                      (tagged (LogEntry.op e) (LogEntry.value e)) p
                      (tagged kPut ("lock" +:+ "," +:+ LogEntry.value e)) Hopen)
          as Hpair.
        cbv zeta beta in Hpair. rewrite EP in Hpair. cbn [snd] in Hpair.
        specialize (Hpair (not_eq_sym (GetParentKey_ne _ _ Eg))).
        destruct (StorageManager.Put
                    (StorageManager.Put sm1 (LogEntry.user e) p _).2 _ _ _)
          as [s2 sm2] eqn:EP2.
        assert (s2 = kOk) as ->.
        { pose proof (Put_ok_inv _ _ _ _ _ _ EP2) as [_ Hok]. apply Hok.
          now apply Put_keeps_open. }
        rewrite decide_True by reflexivity.
        eexists. split; [reflexivity|]. cbn. split; [exact Hpair|].
        unfold add_session_lock. rewrite lookup_insert_eq. cbn [default].
        rewrite insert_insert_eq. f_equal. set_solver.
      + destruct (StorageManager.Put sm1 _ _ _) as [s2 sm2] eqn:EP2.
        pose proof (Put_Put sm0 (LogEntry.user e) (LogEntry.key e)
                      (tagged (LogEntry.op e) (LogEntry.value e)) Hopen) as HPP.
        rewrite EP in HPP. cbn [snd] in HPP. rewrite EP2 in HPP.
        inversion HPP; subst. rewrite decide_True by reflexivity.
        eexists. split; [reflexivity|]. cbn. split; [reflexivity|].
        unfold add_session_lock. rewrite lookup_insert_eq. cbn [default].
        rewrite insert_insert_eq. f_equal. set_solver.
    - (* Put *)
      assert (is_Some (StorageManager.dbs_ sm1 !! LogEntry.user e)) as Hopen1.
      { replace sm1 with (StorageManager.Put sm0 (LogEntry.user e)
                            (LogEntry.key e)
                            (tagged (LogEntry.op e) (LogEntry.value e))).2
          by now rewrite EP.
        now apply Put_keeps_open. }
      rewrite OpenDatabase_idem by exact Hopen1. cbn [snd].
      destruct (StorageManager.Put sm1 _ _ _) as [s2 sm2] eqn:EP2.
      pose proof (Put_Put sm0 (LogEntry.user e) (LogEntry.key e)
                    (tagged (LogEntry.op e) (LogEntry.value e)) Hopen) as HPP.
      rewrite EP in HPP. cbn [snd] in HPP. rewrite EP2 in HPP.
      inversion HPP; subst. rewrite decide_True by reflexivity.
      eexists. split; [reflexivity|]. cbn. auto. }
  destruct (decide (LogEntry.op e = kDel)) as [Hd|Hd].
  { rewrite !retry_opening_Delete.
    pose proof (OpenDatabase_open (data_store_ n) (LogEntry.user e)) as Hopen.
    set (sm0 := (StorageManager.OpenDatabase (data_store_ n) (LogEntry.user e)).2)
      in *.
    destruct (StorageManager.Delete sm0 _ _) as [s sm1] eqn:EP.
    destruct (decide (s = kOk)) as [->|]; [|discriminate].
    intros H. inversion H; subst a; clear H.
    cbn [applied_node data_store_ session_locks_ set_data_store_].
    assert (is_Some (StorageManager.dbs_ sm1 !! LogEntry.user e)) as Hopen1.
    { replace sm1 with (StorageManager.Delete sm0 (LogEntry.user e)
                          (LogEntry.key e)).2 by now rewrite EP.
      now apply Delete_keeps_open. }
    rewrite OpenDatabase_idem by exact Hopen1. cbn [snd].
    destruct (StorageManager.Delete sm1 _ _) as [s2 sm2] eqn:EP2.
    pose proof (Delete_Delete sm0 (LogEntry.user e) (LogEntry.key e) Hopen)
      as HDD.
    rewrite EP in HDD. cbn [snd] in HDD. rewrite EP2 in HDD.
    inversion HDD; subst. rewrite decide_True by reflexivity.
    eexists. split; [reflexivity|]. cbn. auto. }
  destruct (decide (LogEntry.op e = kNop)) as [Hn|Hn].
  { intros H. inversion H; subst a; clear H. cbn [applied_node].
    eexists. split; [reflexivity|]. cbn. auto. }
  destruct (decide (LogEntry.op e = kUnLock)) as [Hu|Hu].
  2:{ exfalso. set_solver. }
  destruct (StorageManager.Get (data_store_ n) _ _) as [s stored] eqn:EG.
  destruct (decide (s = kOk)) as [->|Hs].
  2:{ intros H. inversion H; subst a; clear H. cbn [applied_node].
      rewrite EG. rewrite decide_False by exact Hs.
      eexists. split; [reflexivity|]. cbn. auto. }
  destruct (ParseValue stored op0 EmptyString) as [stored_op cur_session] eqn:EPV.
  destruct (decide (stored_op = kLock /\ cur_session = LogEntry.value e))
    as [Hm|Hm].
  2:{ intros H. inversion H; subst a; clear H. cbn [applied_node].
      rewrite EG. rewrite decide_True by reflexivity. rewrite EPV.
      rewrite decide_False by exact Hm.
      eexists. split; [reflexivity|]. cbn. auto. }
  assert (exists db, StorageManager.dbs_ (data_store_ n) !! LogEntry.user e
                     = Some db) as [db Hdb].
  { unfold StorageManager.Get, StorageManager.FindDB in EG.
    destruct (StorageManager.dbs_ (data_store_ n) !! LogEntry.user e) as [db|];
      [eauto|discriminate EG]. }
  rewrite retry_opening_Delete. rewrite OpenDatabase_idem by eauto. cbn [snd].
  rewrite (Delete_open _ _ _ _ Hdb). rewrite decide_True by reflexivity.
  intros H. inversion H; subst a; clear H.
  cbn [applied_node data_store_ session_locks_ set_data_store_].
  match goal with
  | |- context [StorageManager.Get ?sm ?u ?k] =>
      assert (StorageManager.Get sm u k = (kNotFound, EmptyString)) as EG2
  end.
  { unfold TouchParentKey.
    destruct (GetParentKey (LogEntry.key e)) as [p|] eqn:Eg.
    - erewrite Put_open by (cbn; apply lookup_insert_eq). cbn [snd].
      erewrite Get_open by (cbn; apply lookup_insert_eq).
      rewrite lookup_insert_ne by (apply GetParentKey_ne; exact Eg).
      now rewrite lookup_delete_eq.
    - erewrite Get_open by (cbn; apply lookup_insert_eq).
      now rewrite lookup_delete_eq. }
  rewrite EG2. rewrite decide_False by discriminate.
  eexists. split; [reflexivity|]. cbn. auto.
Qed.

(** Applying Lock("dir/k", S) twice leaves the store as applying it
    once. *)
Lemma apply_switch_idempotent_witness :
  let n := example_node kFollower 1 BinLogger.empty (example_store "" []) ∅
             false (-1) (-1) in
  let e := LogEntry.mk (@kLock example_ops) "" "dir/k" "S" 1 in
  exists a a',
    apply_switch (ops := example_ops) n e false 0 = Some a
    /\ apply_switch (ops := example_ops) (applied_node a) e false 0 = Some a'
    /\ data_store_ (applied_node a') = data_store_ (applied_node a).
Proof.
  intros n e.
  destruct (apply_switch (ops := example_ops) n e false 0) as [a|] eqn:HA;
    [|vm_compute in HA; discriminate HA].
  destruct (apply_switch_idempotent (ops := example_ops) n e false 0 a
              example_ops_wf) as (a' & Ha' & Hd & _).
  - apply list_elem_of_In. cbn. auto.
  - exact HA.
  - exists a, a'. split; [reflexivity|]. split; [exact Ha'|exact Hd].
Defined.

(** ** The client surface *)

(** X24.  A node that is not the leader serves no client request: Get,
    Put, Delete, Lock, UnLock, Scan, Watch and a client's own KeepAlive are
    answered at once with [success = false] and the leader the node knows
    of (a follower) or an empty leader id (a candidate); nothing is
    appended to the log, no watch is registered, no session is touched. *)
Theorem not_leader_redirects `{ops : LogOperationValues}
    `{um : UserManagerApi} (cfg : Config) (n : InsNodeImpl) :
  status_ n <> kLeader ->
  let leader :=
    if decide (status_ n = kFollower) then current_leader_ n
    else EmptyString in
  (forall request now op0,
      Get cfg n request now op0
      = GetReplied (GetResponse.mk false false leader EmptyString false))
  /\ (forall request h,
        Put cfg n request h = Some (n, Replied (refuse leader false), false))
  /\ (forall request h,
        Delete cfg n request h = Some (n, Replied (refuse leader false), false))
  /\ (forall request h now op0,
        Lock cfg n request h now op0
        = Some (n, Replied (refuse leader false), false))
  /\ (forall request h,
        UnLock cfg n request h = Some (n, Replied (refuse leader false), false))
  /\ (forall request now op0,
        Scan cfg n request now op0 = refuse_scan leader false)
  /\ (forall request h now op0,
        Watch cfg n request h now op0
        = Some (n, Replied (refuse_watch leader false), []))
  /\ (forall request now,
        KeepAliveRequest.forward_from_leader request = false ->
        KeepAlive cfg n request now
        = (n, KeepAliveResponse.mk false leader, [])).
Proof.
  intros Hs leader. subst leader.
  unfold Get, Put, Delete, Lock, UnLock, Scan, Watch, KeepAlive.
  destruct (status_ n) eqn:E; [| |contradiction].
  - destruct (decide (kFollower = kFollower)) as [_|Hd];
      [|now contradiction Hd].
    repeat split; try reflexivity.
    intros request now ->. reflexivity.
  - destruct (decide (kCandidate = kFollower)) as [Hd|_]; [discriminate Hd|].
    destruct (decide (kCandidate = kCandidate)) as [_|Hd];
      [|now contradiction Hd].
    repeat split; try reflexivity.
    intros request now ->. reflexivity.
Qed.

(** A follower that knows the leader "B" redirects a Put and a Scan to
    it. *)
Lemma not_leader_redirects_witness :
  let n := set_current_leader_ "B"
             (example_node kFollower 1 BinLogger.empty (example_store "" []) ∅
                false (-1) (-1)) in
  Put (ops := example_ops) (example_config ["A"; "B"; "C"]) n
    (PutRequest.mk "k" "v" "") 7%nat
  = Some (n, Replied (WriteResponse.mk false "B" false), false)
  /\ ScanResponse.leader_id
       (Scan (ops := example_ops) (example_config ["A"; "B"; "C"]) n
          (ScanRequest.mk "" "" 10 "") 0 0) = "B".
Proof.
  intros n.
  destruct (not_leader_redirects (ops := example_ops)
              (example_config ["A"; "B"; "C"]) n)
    as (_ & HP & _ & _ & _ & HS & _); [discriminate|].
  split; [apply HP|]. rewrite HS. reflexivity.
Defined.

(** X25.  A Watch that the leader admits is held, never answered at once
    with a refusal, and replaces what the session had registered on the
    key: every earlier registration of the session on the key is erased and
    its response marked [canceled]; the registrations of other sessions and
    on other keys stay as they are; and of this session on this key there
    is afterwards either exactly the new registration, or none because the
    new one was fired on the spot with [success = true].  Until the
    session-expiry time has passed since the start of the server it is never
    fired on the spot.  Nothing but the watch list changes. *)
Theorem Watch_replaces_registration `{ops : LogOperationValues}
    `{um : UserManagerApi} (cfg : Config) (n : InsNodeImpl)
    (request : WatchRequest.t) (h : rpc_handle) (now : Z) (op0 : LogOperation) :
  status_ n = kLeader ->
  uuid_unknown n (WatchRequest.uuid request) = false ->
  let session := WatchRequest.session_id request in
  let bk := BindKeyAndUser
              (GetUsernameFromUuid (user_manager_ n) (WatchRequest.uuid request))
              (WatchRequest.key request) in
  let hit (e : WatchEvent) :=
    bool_decide (watch_session_id_ e = session)
    && bool_decide (watch_key_ e = bk) in
  let cancelled :=
    List.map (fun e => (ack_ e,
                        WatchResponse.mk EmptyString EmptyString EmptyString
                          false false EmptyString true false))
             (List.filter hit (watch_events_ n)) in
  exists events completed,
    Watch cfg n request h now op0
    = Some (set_watch_events_ events n, Held, completed)
    /\ List.filter (fun e => negb (hit e)) events
       = List.filter (fun e => negb (hit e)) (watch_events_ n)
    /\ ((List.filter hit events = [mkWatchEvent bk session h]
         /\ completed = cancelled)
        \/ (List.filter hit events = []
            /\ now - server_start_timestamp_ cfg
               > FLAGS_session_expire_timeout cfg
            /\ exists stripped value deleted,
                 completed
                 = cancelled
                   ++ [(h, WatchResponse.mk stripped stripped value deleted
                             true EmptyString false false)])).
Proof.
  intros Hl Hu session bk hit cancelled.
  assert (hit (mkWatchEvent bk session h) = true) as Hh.
  { unfold hit. cbn. now rewrite !bool_decide_eq_true_2. }
  assert (forall events,
             events = List.filter (fun e => negb (hit e)) (watch_events_ n)
                      ++ [mkWatchEvent bk session h] ->
             List.filter (fun e => negb (hit e)) events
             = List.filter (fun e => negb (hit e)) (watch_events_ n)
             /\ List.filter hit events = [mkWatchEvent bk session h])
    as Hkept.
  { intros events ->.
    destruct (filter_snoc_fresh hit (watch_events_ n) _ Hh) as [H1 H2].
    now split. }
  assert (forall value deleted,
             exists completed,
               (TriggerEventBySessionAndKey
                  (List.filter (fun e => negb (hit e)) (watch_events_ n)
                     ++ [mkWatchEvent bk session h]) session bk value deleted
                ≫= fun '(events, fired) =>
                     Some (set_watch_events_ events n, @Held WatchResponse.t,
                           cancelled ++ fired))
               = Some (set_watch_events_
                         (List.filter (fun e => negb (hit e)) (watch_events_ n))
                         n, Held, completed)
               /\ exists stripped,
                    completed
                    = cancelled
                      ++ [(h, WatchResponse.mk stripped stripped value deleted
                                true EmptyString false false)]) as Hfire.
  { intros value deleted. subst cancelled hit bk session. cbv beta.
    destruct (TriggerEventBySessionAndKey_fresh (watch_events_ n)
                (WatchRequest.session_id request)
                (GetUsernameFromUuid (user_manager_ n)
                   (WatchRequest.uuid request))
                (WatchRequest.key request) h value deleted)
      as (stripped & _ & ->).
    cbn. eexists. split; [reflexivity|]. eauto. }
  unfold Watch. rewrite Hl, Hu. leader_cases.
  unfold RemoveEventBySessionAndKey.
  subst cancelled hit bk session. cbv beta zeta in *.
  destruct (decide (now - server_start_timestamp_ cfg
                    > FLAGS_session_expire_timeout cfg)) as [Hlate|Hearly].
  2:{ eexists _, _. split; [reflexivity|].
      destruct (Hkept _ eq_refl) as [H1 H2]. split; [exact H1|].
      left. split; [exact H2|reflexivity]. }
  destruct (StorageManager.Get _ _ _) as [s raw_value].
  destruct (ParseValue _ _ _) as [op real_value].
  destruct (decide _) as [Hchg|Hsame].
  - destruct (Hfire real_value (bool_decide (s = kNotFound)))
      as (completed & -> & stripped & ->).
    eexists _, _. split; [reflexivity|].
    rewrite filter_negb_idem, filter_filter_negb. split; [reflexivity|].
    right. split; [reflexivity|]. split; [exact Hlate|]. eauto.
  - destruct (bool_decide (op = kLock) && IsExpiredSession n real_value).
    + destruct (Hfire EmptyString true) as (completed & -> & stripped & ->).
      eexists _, _. split; [reflexivity|].
      rewrite filter_negb_idem, filter_filter_negb. split; [reflexivity|].
      right. split; [reflexivity|]. split; [exact Hlate|]. eauto.
    + eexists _, _. split; [reflexivity|].
      destruct (Hkept _ eq_refl) as [H1 H2]. split; [exact H1|].
      left. split; [exact H2|reflexivity].
Qed.

(** A session that watches a key again, long after the start of the
    server and with the value it knows still current: the Watch is held,
    and no registration of another session or key is left or added. *)
Lemma Watch_replaces_registration_witness :
  let cfg := example_config ["A"; "B"; "C"] in
  let n := set_watch_events_ [mkWatchEvent "::k" "s" 5%nat]
             (example_node kLeader 1 BinLogger.empty
                (example_store "" [("k", tagged (@kPut example_ops) "v")]) ∅
                false (-1) (-1)) in
  exists events completed,
    Watch (ops := example_ops) cfg n (WatchRequest.mk "k" "s" "v" true "")
      7%nat 10000000 0
    = Some (set_watch_events_ events n, Held, completed)
    /\ List.filter
         (fun e => negb (bool_decide (watch_session_id_ e = "s")
                         && bool_decide (watch_key_ e = "::k"))) events
       = [].
Proof.
  intros cfg n.
  destruct (Watch_replaces_registration (ops := example_ops) cfg n
              (WatchRequest.mk "k" "s" "v" true "") 7%nat 10000000 0
              eq_refl eq_refl) as (events & completed & HW & Hkeep & _).
  exists events, completed. split; [exact HW|].
  etransitivity; [exact Hkeep|]. vm_compute. reflexivity.
Defined.

Section TriggerFacts.

Lemma filter_nil_negb {A} (f : A -> bool) (l : list A) :
  List.filter f l = [] ->
  List.filter (fun e => negb (f e)) l = l /\ existsb f l = false.
Proof.
  induction l as [|a l IH]; [now split|]. cbn.
  destruct (f a); [discriminate|]. intros H. destruct (IH H) as [-> ->].
  now split.
Qed.

Lemma filter_cons_existsb {A} (f : A -> bool) (l : list A) a rest :
  List.filter f l = a :: rest -> existsb f l = true.
Proof.
  induction l as [|b l IH]; [discriminate|]. cbn.
  destruct (f b); [reflexivity|]. exact IH.
Qed.

(** What [TriggerEvent] does when both keys are bound keys. *)
Lemma TriggerEvent_spec events watch_key key value deleted stripped_watch_key
    stripped_key :
  GetKeyFromEvent watch_key = Some stripped_watch_key ->
  GetKeyFromEvent key = Some stripped_key ->
  TriggerEvent events watch_key key value deleted
  = Some (List.filter
            (fun e => negb (bool_decide (watch_key_ e = watch_key))) events,
          List.map (fun e => (ack_ e,
                              WatchResponse.mk stripped_watch_key stripped_key
                                value deleted true EmptyString false false))
                   (List.filter
                      (fun e => bool_decide (watch_key_ e = watch_key)) events),
          existsb (fun e => bool_decide (watch_key_ e = watch_key)) events).
Proof.
  intros Hw Hk. unfold TriggerEvent. cbv zeta.
  destruct (List.filter _ events) as [|a rest] eqn:E.
  - destruct (filter_nil_negb _ _ E) as [-> ->]. reflexivity.
  - rewrite Hw, Hk. cbn [mbind option_bind].
    now rewrite (filter_cons_existsb _ _ _ _ E).
Qed.

Lemma filter_filter_other {A} (f g : A -> bool) (l : list A) :
  (forall e, g e = true -> f e = false) ->
  List.filter g (List.filter (fun e => negb (f e)) l) = List.filter g l
  /\ existsb g (List.filter (fun e => negb (f e)) l) = existsb g l.
Proof.
  intros Hfg. induction l as [|a l [IH1 IH2]]; [now split|]. cbn.
  destruct (f a) eqn:Ef; cbn.
  - destruct (g a) eqn:Eg; [apply Hfg in Eg; congruence|]. now split.
  - rewrite IH1, IH2. now split.
Qed.

Lemma filter_filter_andb {A} (f g : A -> bool) (l : list A) :
  List.filter g (List.filter f l) = List.filter (fun e => f e && g e) l.
Proof.
  induction l as [|a l IH]; [reflexivity|]. cbn.
  destruct (f a); cbn; [|exact IH]. destruct (g a); now rewrite IH.
Qed.

Lemma append_length_ne a b : b <> EmptyString -> a +:+ b <> a.
Proof.
  intros Hb E. apply (f_equal String.length) in E.
  rewrite length_append in E. destruct b; [congruence|]. cbn in E. lia.
Qed.

End TriggerFacts.

(** X26.  The watches fired by a change of a key [parent/child] (the
    last component without ['/']) in the namespace of a user whose name
    holds no [':'].  Every watch registered on the key itself and every
    watch registered on the parent key is completed once, with
    [success = true], the changed key, the new value and the deletion flag,
    all without the user prefix, and with its own key as [watch_key]; these
    registrations are erased and all others stay; the call on the parent is
    put off by two seconds exactly when no watch was registered on the
    parent.  A change of a key without ['/'] (in a namespace whose name has
    none either) fires the watches on that key only. *)
Theorem watches_fire_on_key_and_parent (events : list WatchEvent)
    (user value : string) (deleted : bool) :
  ":"%char ∉ list_ascii_of_string user ->
  let on k (e : WatchEvent) :=
    bool_decide (watch_key_ e = BindKeyAndUser user k) in
  let completed watched key :=
    List.map (fun e => (ack_ e,
                        WatchResponse.mk watched key value deleted true
                          EmptyString false false))
             (List.filter (on watched) events) in
  (forall parent child,
      "/"%char ∉ list_ascii_of_string child ->
      let key := parent +:+ "/" +:+ child in
      run_TriggerEventWithParent events (BindKeyAndUser user key) value deleted
      = Some (List.filter (fun e => negb (on key e) && negb (on parent e)) events,
              completed key key ++ completed parent key,
              if existsb (on parent) events then None
              else Some (mkDelayedTrigger (BindKeyAndUser user parent)
                           (BindKeyAndUser user key) value deleted)))
  /\ (forall key,
        "/"%char ∉ list_ascii_of_string user ->
        "/"%char ∉ list_ascii_of_string key ->
        run_TriggerEventWithParent events (BindKeyAndUser user key) value
          deleted
        = Some (List.filter (fun e => negb (on key e)) events,
                completed key key, None)).
Proof.
  intros Hu on completed. split.
  - intros parent child Hc key.
    unfold run_TriggerEventWithParent.
    pose proof (GetKeyFromEvent_bound user key Hu) as Hk.
    pose proof (GetKeyFromEvent_bound user parent Hu) as Hp.
    rewrite (TriggerEvent_spec _ _ _ _ _ _ _ Hk Hk).
    cbn [mbind option_bind].
    assert (GetParentKey (BindKeyAndUser user key)
            = Some (BindKeyAndUser user parent)) as ->.
    { unfold BindKeyAndUser, key.
      rewrite <- (append_assoc "::" parent), <- (append_assoc user).
      now apply GetParentKey_append. }
    rewrite (TriggerEvent_spec _ _ _ _ _ _ _ Hp Hk).
    cbn [mbind option_bind].
    destruct (filter_filter_other
                (fun e => bool_decide (watch_key_ e = BindKeyAndUser user key))
                (fun e => bool_decide (watch_key_ e = BindKeyAndUser user parent))
                events) as [H1 H2].
    { intros e He. apply bool_decide_eq_true_1 in He.
      apply bool_decide_eq_false_2. rewrite He. unfold BindKeyAndUser.
      intros E. apply (inj (String.app user)), (inj (String.app "::")) in E.
      symmetry in E. revert E. apply append_length_ne. discriminate. }
    subst on completed. cbv beta in *. rewrite H1, H2.
    rewrite filter_filter_andb. reflexivity.
  - intros key Hus Hks. unfold run_TriggerEventWithParent.
    pose proof (GetKeyFromEvent_bound user key Hu) as Hk.
    rewrite (TriggerEvent_spec _ _ _ _ _ _ _ Hk Hk).
    cbn [mbind option_bind].
    assert (GetParentKey (BindKeyAndUser user key) = None) as ->.
    { unfold GetParentKey.
      assert (rfind "/" (BindKeyAndUser user key) = None) as ->; [|reflexivity].
      apply rfind_None. unfold BindKeyAndUser.
      clear -Hus Hks. induction user as [|x u IH].
      - rewrite append_nil_l.
        change ("::" +:+ key) with (String ":" (String ":" key)).
        cbn [list_ascii_of_string]. rewrite !not_elem_of_cons.
        split; [discriminate|]. split; [discriminate|]. exact Hks.
      - rewrite append_cons. cbn [list_ascii_of_string] in *.
        apply not_elem_of_cons in Hus as [Hx Hu'].
        apply not_elem_of_cons. split; [exact Hx|]. now apply IH. }
    reflexivity.
Qed.

(** Alice's key "dir/k" changes: the watch on the key (handle 1) and the
    watch on "dir" (handle 2) fire, the watch on "other" stays. *)
Lemma watches_fire_on_key_and_parent_witness :
  run_TriggerEventWithParent
    [mkWatchEvent "alice::dir/k" "s1" 1%nat; mkWatchEvent "alice::dir" "s2" 2%nat;
     mkWatchEvent "alice::other" "s1" 3%nat]
    (BindKeyAndUser "alice" "dir/k") "v" false
  = Some ([mkWatchEvent "alice::other" "s1" 3%nat],
          [(1%nat, WatchResponse.mk "dir/k" "dir/k" "v" false true "" false false);
           (2%nat, WatchResponse.mk "dir" "dir/k" "v" false true "" false false)],
          None).
Proof.
  assert (":"%char ∉ list_ascii_of_string "alice") as Hu.
  { intros H%list_elem_of_In. cbn in H.
    repeat (destruct H as [H|H]; [discriminate H|]). exact H. }
  assert ("/"%char ∉ list_ascii_of_string "k") as Hc.
  { intros H%list_elem_of_In. cbn in H.
    repeat (destruct H as [H|H]; [discriminate H|]). exact H. }
  pose proof (proj1 (watches_fire_on_key_and_parent
                       [mkWatchEvent "alice::dir/k" "s1" 1%nat;
                        mkWatchEvent "alice::dir" "s2" 2%nat;
                        mkWatchEvent "alice::other" "s1" 3%nat]
                       "alice" "v" false Hu) "dir" "k" Hc) as H.
  cbv zeta in H. etransitivity; [exact H|]. vm_compute. reflexivity.
Defined.

Section QuorumReadFacts.

Context `{ops : LogOperationValues} `{um : UserManagerApi}.
Context (cfg : Config).

Lemma serve_read_success (n : InsNodeImpl) request op0 response :
  GetResponse.success (serve_read n request op0 response) = true.
Proof.
  unfold serve_read.
  destruct (StorageManager.Get _ _ _) as [s value].
  destruct (ParseValue _ _ _) as [op real_value].
  destruct (decide (s = kOk)); [|reflexivity].
  destruct (decide (op = kLock)); [|reflexivity].
  destruct (IsExpiredSession n real_value); reflexivity.
Qed.

(** One callback: a pending read stays pending or completes, a completed
    read is left alone; [acks] bounds the successes counted. *)
Lemma HeartbeatForReadCallback_step (n : InsNodeImpl) response failed context
    now op0 acks :
  (read_pending cfg context /\ runs context = []
   \/ read_completed cfg context) ->
  succ_count context <= 1 + acks ->
  let context' :=
    (HeartbeatForReadCallback cfg n response failed context now op0).2 in
  (read_pending cfg context' /\ runs context' = []
   \/ read_completed cfg context')
  /\ succ_count context' <= 1 + acks + (if failed then 0 else 1).
Proof.
  intros Hinv Hacks. cbv zeta.
  assert (0 <= (if failed then 0 else 1)) as Hf by (destruct failed; lia).
  destruct Hinv as [[(Ht & Hs & He) Hr]|(Ht & Hdone)].
  2:{ unfold HeartbeatForReadCallback. rewrite Ht. cbn [snd].
      split; [right; split; assumption|lia]. }
  unfold HeartbeatForReadCallback, read_pending, read_completed.
  fold (quorum_half cfg). set (hf := quorum_half cfg) in *. clearbody hf.
  destruct context as [rq rs sc ec tr ru]. cbn in Ht, Hs, He, Hacks, Hr.
  subst tr ru. cbn [triggered].
  destruct (decide (status_ n <> kLeader)).
  { cbn. split; [right; split; [reflexivity|]|lia].
    eexists. split; [reflexivity|]. cbn. auto. }
  destruct (negb failed && _) eqn:Enewer.
  { cbn. split; [right; split; [reflexivity|]|lia].
    eexists. split; [reflexivity|]. cbn. auto. }
  destruct failed; cbn [negb]; cbv [err_count succ_count].
  - rewrite (decide_False (P := sc > hf)) by lia.
    destruct (decide (ec + 1 > hf)); cbn.
    + split; [right; split; [reflexivity|]|lia].
      eexists. split; [reflexivity|]. cbn. auto.
    + split; [left; repeat split; lia|lia].
  - destruct (decide (sc + 1 > hf)); cbn.
    + rewrite (decide_False (P := ec > hf)) by lia. cbn.
      split; [right; split; [reflexivity|]|lia].
      eexists. split; [reflexivity|]. rewrite serve_read_success. cbn. lia.
    + rewrite (decide_False (P := ec > hf)) by lia. cbn.
      split; [left; repeat split; lia|lia].
Qed.

Lemma HeartbeatForReadCallbacks_inv responses :
  forall (n : InsNodeImpl) context op0 acks,
    (read_pending cfg context /\ runs context = []
     \/ read_completed cfg context) ->
    succ_count context <= 1 + acks ->
    let context' := (HeartbeatForReadCallbacks cfg n responses context op0).2 in
    (read_pending cfg context' /\ runs context' = []
     \/ read_completed cfg context')
    /\ succ_count context'
       <= 1 + acks
          + Z.of_nat (length (List.filter (fun x => negb x.1.2) responses)).
Proof.
  induction responses as [|[[response failed] now] rest IH];
    intros n context op0 acks Hinv Hacks; cbv zeta.
  - cbn. split; [exact Hinv|lia].
  - cbn [HeartbeatForReadCallbacks].
    pose proof (HeartbeatForReadCallback_step n response failed context now
                  op0 acks Hinv Hacks) as [Hinv1 Hacks1].
    destruct (HeartbeatForReadCallback cfg n response failed context now op0)
      as [n1 context1].
    cbn [snd] in Hinv1, Hacks1.
    destruct (IH n1 context1 op0 (acks + (if failed then 0 else 1)) Hinv1
                ltac:(lia)) as [Hinv2 Hacks2].
    split; [exact Hinv2|]. cbn [List.filter fst snd].
    destruct failed; cbn [negb length] in *; lia.
Qed.

End QuorumReadFacts.

(** X27.  A quorum read completes at most once.  Whatever heartbeat
    callbacks come in after [Get] has sent the heartbeats, and in whatever
    order, [done] runs at most once, and it has run exactly when the
    context is marked triggered.  If the response it ran with reports
    success, then the successful heartbeat responses received, together
    with the leader itself, are more than half of the members; if it
    reports failure, [hit] is false and the leader id is empty. *)
Theorem quorum_read_completes_once `{ops : LogOperationValues}
    `{um : UserManagerApi} (cfg : Config) (n : InsNodeImpl)
    (request : GetRequest.t) (now : Z) (op0 : LogOperation)
    (context : ClientReadAck)
    (responses : list (AppendEntriesResponse.t * bool * Z)) :
  Get cfg n request now op0 = GetBroadcast context ->
  let context' := (HeartbeatForReadCallbacks cfg n responses context op0).2 in
  let acks := Z.of_nat (length (List.filter (fun x => negb x.1.2) responses)) in
  (triggered context' = false /\ runs context' = []
   \/ triggered context' = true /\ exists r, runs context' = [r])
  /\ (forall r, r ∈ runs context' ->
        if GetResponse.success r
        then 1 + acks > Z.of_nat (length (members_ cfg)) / 2
        else GetResponse.hit r = false
             /\ GetResponse.leader_id r = EmptyString).
Proof.
  intros HG context' acks.
  destruct (Get_broadcast_pending cfg n request now op0 context HG)
    as (Hp & _ & Hr).
  assert (succ_count context <= 1 + 0) as H0.
  { unfold Get in HG.
    repeat match type of HG with
           | (if ?c then _ else _) = _ => destruct c; try discriminate HG
           end.
    inversion HG. cbn. lia. }
  destruct (HeartbeatForReadCallbacks_inv cfg responses n context op0 0
              (or_introl (conj Hp Hr)) H0) as [Hinv Hacks].
  fold context' in Hinv, Hacks. fold acks in Hacks.
  destruct Hinv as [[(Ht & _) Hr']|(Ht & r & Hr' & Hsucc)].
  - split; [left; split; assumption|]. rewrite Hr'. intros r Hin.
    now apply elem_of_nil in Hin.
  - split; [right; split; [exact Ht|eauto]|]. rewrite Hr'. intros r' Hin.
    apply list_elem_of_singleton in Hin. subst r'.
    destruct (GetResponse.success r); [|exact Hsucc].
    unfold quorum_half in Hsucc. lia.
Qed.

(** In a cluster of three, whatever the two other members answer to the
    heartbeats of a read, the read has either not completed or completed
    once. *)
Lemma quorum_read_completes_once_witness :
  let cfg := example_config ["A"; "B"; "C"] in
  let n := example_node kLeader 1 BinLogger.empty
             (example_store "" [("k", tagged (@kPut example_ops) "v")]) ∅
             false (-1) (-1) in
  let responses :=
    [(AppendEntriesResponse.mk 1 true 0 false, false, 1000001);
     (AppendEntriesResponse.mk 1 true 0 false, true, 1000002)] in
  exists context,
    Get (ops := example_ops) cfg n (GetRequest.mk "k" "") 1000000 0
    = GetBroadcast context
    /\ let context' :=
         (HeartbeatForReadCallbacks (ops := example_ops) cfg n responses
            context 0).2 in
       triggered context' = false /\ runs context' = []
       \/ triggered context' = true /\ exists r, runs context' = [r].
Proof.
  intros cfg n responses.
  destruct (Get (ops := example_ops) cfg n (GetRequest.mk "k" "") 1000000 0)
    as [r|context] eqn:HG; [vm_compute in HG; discriminate HG|].
  exists context. split; [reflexivity|].
  exact (proj1 (quorum_read_completes_once (ops := example_ops) cfg n
                  (GetRequest.mk "k" "") 1000000 0 context responses HG)).
Defined.

(** ** Scan *)

Section ScanRangeFacts.

Context `{ops : LogOperationValues} `{um : UserManagerApi}.

Lemma key_lt_above k k' target :
  StorageManager.key_lt k target = false ->
  StorageManager.key_lt k k' = true ->
  StorageManager.key_lt k' target = false.
Proof.
  intros H1 H2. apply key_lt_le. apply key_lt_le in H1.
  apply key_lt_true in H2 as [H2 _]. etransitivity; eassumption.
Qed.

(** The loop of [Scan] over a strictly ascending walk: it consumes a
    prefix of the walk, adds the entries of the prefix that are shown, in
    order, and unless it reports [has_more] everything it has not consumed
    is outside the range. *)
Lemma scan_loop_spec (n : InsNodeImpl) end_key size_limit op0 it :
  StronglySorted (fun a b => StorageManager.key_lt a.1 b.1 = true) it ->
  forall count pb_size items items' more,
    scan_loop n it end_key size_limit op0 count pb_size items = (items', more) ->
    exists (j : nat) new,
      items' = items ++ new
      /\ (forall x, x ∈ new ->
            exists v, (ScanItem.key x, v) ∈ take j it
                      /\ ScanItem.key x <> tag_last_applied_index
                      /\ bool_decide ((ParseValue v op0 EmptyString).1 = kLock)
                         && IsExpiredSession n (ParseValue v op0 EmptyString).2
                         = false
                      /\ ScanItem.value x = (ParseValue v op0 EmptyString).2)
      /\ (forall k v, (k, v) ∈ take j it ->
            k <> tag_last_applied_index ->
            bool_decide ((ParseValue v op0 EmptyString).1 = kLock)
            && IsExpiredSession n (ParseValue v op0 EmptyString).2 = false ->
            ScanItem.mk k (ParseValue v op0 EmptyString).2 ∈ new)
      /\ (forall k v, (k, v) ∈ take j it ->
            StorageManager.key_lt k end_key
            || bool_decide (end_key = EmptyString) = true)
      /\ (more = false ->
          forall k v, (k, v) ∈ drop j it ->
            StorageManager.key_lt k end_key
            || bool_decide (end_key = EmptyString) = false)
      /\ StronglySorted
           (fun a b => StorageManager.key_lt (ScanItem.key a) (ScanItem.key b)
                       = true) new.
Proof.
  induction 1 as [|[k value] rest Hs IH Hk];
    intros count pb_size items items' more; cbn [scan_loop].
  - intros H. inversion H; subst. exists O, []. rewrite app_nil_r.
    split; [reflexivity|]. cbn.
    repeat split; try (intros; exfalso; eapply elem_of_nil; eassumption).
    constructor.
  - destruct (StorageManager.key_lt k end_key
              || bool_decide (end_key = EmptyString)) eqn:Er; cbn [negb].
    2:{ intros H. inversion H; subst. exists O, []. rewrite app_nil_r.
        split; [reflexivity|]. cbn [take drop].
        split; [intros x Hx; now apply elem_of_nil in Hx|].
        split; [intros k' v' Hx; now apply elem_of_nil in Hx|].
        split; [intros k' v' Hx; now apply elem_of_nil in Hx|].
        split; [|constructor].
        intros _ k' v' Hin. apply orb_false_iff in Er as [Er1 Er2].
        apply orb_false_iff. split; [|exact Er2].
        apply elem_of_cons in Hin as [Hin|Hin]; [congruence|].
        rewrite Forall_forall in Hk. specialize (Hk _ Hin). cbn in Hk.
        eapply key_lt_above; eassumption. }
    assert (forall more',
               (items, true) = (items', more') ->
               exists (j : nat) new,
                 items' = items ++ new
                 /\ (forall x, x ∈ new ->
                       exists v, (ScanItem.key x, v) ∈ take j ((k, value) :: rest)
                         /\ ScanItem.key x <> tag_last_applied_index
                         /\ bool_decide
                              ((ParseValue v op0 EmptyString).1 = kLock)
                            && IsExpiredSession n
                                 (ParseValue v op0 EmptyString).2 = false
                         /\ ScanItem.value x
                            = (ParseValue v op0 EmptyString).2)
                 /\ (forall k0 v, (k0, v) ∈ take j ((k, value) :: rest) ->
                       k0 <> tag_last_applied_index ->
                       bool_decide ((ParseValue v op0 EmptyString).1 = kLock)
                       && IsExpiredSession n (ParseValue v op0 EmptyString).2
                       = false ->
                       ScanItem.mk k0 (ParseValue v op0 EmptyString).2 ∈ new)
                 /\ (forall k0 v, (k0, v) ∈ take j ((k, value) :: rest) ->
                       StorageManager.key_lt k0 end_key
                       || bool_decide (end_key = EmptyString) = true)
                 /\ (more' = false ->
                     forall k0 v, (k0, v) ∈ drop j ((k, value) :: rest) ->
                       StorageManager.key_lt k0 end_key
                       || bool_decide (end_key = EmptyString) = false)
                 /\ StronglySorted
                      (fun a b =>
                         StorageManager.key_lt (ScanItem.key a) (ScanItem.key b)
                         = true) new) as Hfull.
    { intros more' H. inversion H; subst. exists O, []. rewrite app_nil_r.
      split; [reflexivity|]. cbn [take].
      split; [intros x Hx; now apply elem_of_nil in Hx|].
      split; [intros k' v' Hx; now apply elem_of_nil in Hx|].
      split; [intros k' v' Hx; now apply elem_of_nil in Hx|].
      split; [discriminate|constructor]. }
    destruct (decide (count > size_limit)); [apply Hfull|].
    destruct (decide (pb_size > sMaxPBSize)); [apply Hfull|]. clear Hfull.
    destruct (decide (k = tag_last_applied_index)) as [Htag|Htag].
    { intros H. destruct (IH _ _ _ _ _ H)
        as (j & new & -> & Hin & Hall & Hrange & Hmore & Hsorted).
      exists (S j), new. split; [reflexivity|]. cbn [take drop].
      split.
      { intros x Hx. destruct (Hin x Hx) as (v & Hv & Hrest).
        exists v. split; [now apply elem_of_cons; right|exact Hrest]. }
      split.
      { intros k' v' Hx Hnt Hshown.
        apply elem_of_cons in Hx as [Hx|Hx]; [congruence|]. eauto. }
      split.
      { intros k' v' Hx.
        apply elem_of_cons in Hx as [Hx|Hx]; [congruence|]. eauto. }
      split; assumption. }
    destruct (ParseValue value op0 EmptyString) as [op real_value] eqn:EP.
    destruct (bool_decide (op = kLock) && IsExpiredSession n real_value)
      eqn:Ehidden.
    { intros H. destruct (IH _ _ _ _ _ H)
        as (j & new & -> & Hin & Hall & Hrange & Hmore & Hsorted).
      exists (S j), new. split; [reflexivity|]. cbn [take drop].
      split.
      { intros x Hx. destruct (Hin x Hx) as (v & Hv & Hrest).
        exists v. split; [now apply elem_of_cons; right|exact Hrest]. }
      split.
      { intros k' v' Hx Hnt Hshown.
        apply elem_of_cons in Hx as [Hx|Hx]; [|eauto].
        inversion Hx; subst k' v'. rewrite EP in Hshown. cbn in Hshown.
        congruence. }
      split.
      { intros k' v' Hx.
        apply elem_of_cons in Hx as [Hx|Hx]; [congruence|]. eauto. }
      split; assumption. }
    intros H. destruct (IH _ _ _ _ _ H)
      as (j & new & -> & Hin & Hall & Hrange & Hmore & Hsorted).
    exists (S j), (ScanItem.mk k real_value :: new).
    split; [now rewrite <- app_assoc|]. cbn [take drop].
    split.
    { intros x Hx. apply elem_of_cons in Hx as [->|Hx].
      - exists value. cbn [ScanItem.key ScanItem.value]. rewrite EP. cbn [fst snd].
        split; [now apply elem_of_cons; left|]. auto.
      - destruct (Hin x Hx) as (v & Hv & Hrest).
        exists v. split; [now apply elem_of_cons; right|exact Hrest]. }
    split.
    { intros k' v' Hx Hnt Hshown.
      apply elem_of_cons in Hx as [Hx|Hx].
      - inversion Hx; subst k' v'. rewrite EP. cbn [snd].
        apply elem_of_cons. now left.
      - apply elem_of_cons. right. eauto. }
    split.
    { intros k' v' Hx.
      apply elem_of_cons in Hx as [Hx|Hx]; [congruence|]. eauto. }
    split; [assumption|]. constructor; [exact Hsorted|].
    apply Forall_forall. intros x Hx. cbn [ScanItem.key].
    destruct (Hin x Hx) as (v & Hv & _).
    rewrite Forall_forall in Hk.
    apply (Hk (ScanItem.key x, v)). eapply subseteq_take, Hv.
Qed.

End ScanRangeFacts.

(** X28.  What a Scan lists.  On a leader out of safe mode, past the
    session-expiry wait, for a logged-in user with an open namespace, the
    response reports success, and its items are entries of the namespace:
    each has a key not below [start_key] and below [end_key] (any key, if
    [end_key] is empty), is not the applied-index tag, carries the stored
    value without its tag byte, and is not a lock of an expired session;
    the items come in strictly ascending key order; and when [has_more] is
    false no such entry of the namespace is missing. *)
Theorem Scan_lists_range `{ops : LogOperationValues} `{um : UserManagerApi}
    (cfg : Config) (n : InsNodeImpl) (request : ScanRequest.t) (tm_now : Z)
    (op0 : LogOperation) (db : gmap string string) :
  status_ n = kLeader ->
  in_safe_mode_ n = false ->
  uuid_unknown n (ScanRequest.uuid request) = false ->
  FLAGS_session_expire_timeout cfg <= tm_now - server_start_timestamp_ cfg ->
  StorageManager.dbs_ (data_store_ n)
  !! GetUsernameFromUuid (user_manager_ n) (ScanRequest.uuid request)
  = Some db ->
  let response := Scan cfg n request tm_now op0 in
  let in_range k :=
    StorageManager.key_lt k (ScanRequest.start_key request) = false
    /\ StorageManager.key_lt k (ScanRequest.end_key request)
       || bool_decide (ScanRequest.end_key request = EmptyString) = true in
  let shown k stored :=
    k <> tag_last_applied_index
    /\ bool_decide ((ParseValue stored op0 EmptyString).1 = kLock)
       && IsExpiredSession n (ParseValue stored op0 EmptyString).2 = false in
  ScanResponse.success response = true
  /\ (forall item, item ∈ ScanResponse.items response ->
        exists stored,
          db !! ScanItem.key item = Some stored
          /\ in_range (ScanItem.key item)
          /\ shown (ScanItem.key item) stored
          /\ ScanItem.value item = (ParseValue stored op0 EmptyString).2)
  /\ (ScanResponse.has_more response = false ->
      forall k stored,
        db !! k = Some stored -> in_range k -> shown k stored ->
        ScanItem.mk k (ParseValue stored op0 EmptyString).2
        ∈ ScanResponse.items response)
  /\ StronglySorted
       (fun a b => StorageManager.key_lt (ScanItem.key a) (ScanItem.key b)
                   = true)
       (ScanResponse.items response).
Proof.
  intros Hl Hsafe Hu Hlate Hdb response in_range shown.
  subst response in_range shown. cbv beta.
  unfold Scan. rewrite Hl, Hu, Hsafe. leader_cases.
  cbn [andb]. rewrite bool_decide_eq_true_2 by reflexivity. cbn [andb].
  rewrite (decide_False (P := kLeader = kLeader /\ _)) by lia.
  unfold StorageManager.NewIterator, StorageManager.FindDB. rewrite Hdb.
  cbn [StorageManager.Seek StorageManager.it_ StorageManager.snapshot].
  set (walk := StorageManager.seek_from _ _).
  assert (StronglySorted
            (fun a b => StorageManager.key_lt a.1 b.1 = true) walk) as Hsorted.
  { apply strictly_sorted.
    - eapply StronglySorted_suffix;
        [apply seek_from_suffix|apply ordered_entries_sorted].
    - eapply NoDup_fst_suffix;
        [apply seek_from_suffix|apply ordered_entries_NoDup]. }
  assert (forall k v, (k, v) ∈ walk
                      <-> db !! k = Some v
                          /\ StorageManager.key_lt k
                               (ScanRequest.start_key request) = false)
    as Hwalk.
  { intros k v. unfold walk.
    rewrite (seek_from_sorted _ _ (ordered_entries_sorted db) (k, v)).
    now rewrite ordered_entries_elem. }
  destruct (scan_loop n walk _ _ op0 0 0 []) as [items more] eqn:E.
  destruct (scan_loop_spec n _ _ op0 walk Hsorted _ _ _ _ _ E)
    as (j & new & -> & Hin & Hall & Hrange & Hmore & Hord).
  cbn [ScanResponse.success ScanResponse.items ScanResponse.has_more app].
  split; [reflexivity|]. split; [|split; [|exact Hord]].
  - intros item Hitem. destruct (Hin item Hitem) as (v & Hv & Hnt & Hshown & Hval).
    exists v. pose proof (subseteq_take _ _ _ Hv) as Hw.
    apply Hwalk in Hw as [Hd Hstart].
    split; [exact Hd|]. split; [split; [exact Hstart|eauto]|]. auto.
  - intros -> k v Hd [Hstart Hend] [Hnt Hshown].
    assert ((k, v) ∈ walk) as Hw by (apply Hwalk; auto).
    rewrite <- (take_drop j walk) in Hw. apply elem_of_app in Hw as [Hw|Hw].
    + now apply Hall.
    + rewrite (Hmore eq_refl k v Hw) in Hend. discriminate Hend.
Qed.

(** A scan of ["b", "d") over the keys a, b, c, d lists b and c. *)
Lemma Scan_lists_range_witness :
  let cfg := example_config ["A"; "B"; "C"] in
  let put := tagged (@kPut example_ops) in
  let n := example_node kLeader 1 BinLogger.empty
             (example_store "" [("a", put "1"); ("b", put "2");
                                ("c", put "3"); ("d", put "4")]) ∅
             false (-1) (-1) in
  let response :=
    Scan (ops := example_ops) cfg n (ScanRequest.mk "b" "d" 10 "") 7000000 0 in
  ScanResponse.has_more response = false
  /\ ScanItem.mk "c" "3" ∈ ScanResponse.items response
  /\ forall item, item ∈ ScanResponse.items response ->
       StorageManager.key_lt (ScanItem.key item) "b" = false.
Proof.
  intros cfg put n response.
  assert (ScanResponse.has_more response = false) as Hm
    by (vm_compute; reflexivity).
  destruct (Scan_lists_range (ops := example_ops) cfg n
              (ScanRequest.mk "b" "d" 10 "") 7000000 0
              (list_to_map [("a", put "1"); ("b", put "2");
                            ("c", put "3"); ("d", put "4")]))
    as (_ & Hsound & Hcomplete & _);
    [reflexivity|reflexivity|reflexivity|vm_compute; discriminate
    |vm_compute; reflexivity|].
  fold response in Hsound, Hcomplete.
  split; [exact Hm|]. split.
  - apply (Hcomplete Hm "c" (put "3")).
    + vm_compute. reflexivity.
    + split; vm_compute; reflexivity.
    + split; [discriminate|vm_compute; reflexivity].
  - intros item Hitem. destruct (Hsound item Hitem) as (v & _ & [Hs _] & _).
    exact Hs.
Defined.

(** ** A single-node cluster, end to end *)

Section SingleNodeFacts.

Context `{ops : LogOperationValues} `{um : UserManagerApi}.
Context (cfg : Config).

Lemma index_at_size (m : gmap string Z) x :
  dom m ⊆ {[x]} -> size (index_at m x).2 = 1%nat.
Proof.
  intros Hd. unfold index_at. destruct (m !! x) as [v|] eqn:E; cbn [snd].
  - rewrite <- size_dom. replace (dom m) with ({[x]} : gset string).
    + apply size_singleton.
    + apply set_eq. intros y. split; [|now apply Hd].
      intros ->%elem_of_singleton. apply elem_of_dom. eauto.
  - rewrite <- size_dom, dom_insert_L.
    replace ({[x]} ∪ dom m) with ({[x]} : gset string) by set_solver.
    apply size_singleton.
Qed.

(** With one member every index above the commit index is committed at
    once. *)
Lemma UpdateCommitIndex_single_node (n : InsNodeImpl) a_index :
  members_ cfg = [self_id_ cfg] ->
  dom (match_index_ n) ⊆ {[self_id_ cfg]} ->
  a_index > commit_index_ n ->
  UpdateCommitIndex cfg n a_index
  = (set_commit_index_ a_index
       (set_match_index_ (index_at (match_index_ n) (self_id_ cfg)).2 n),
     true).
Proof.
  intros Hm Hd Ha. unfold UpdateCommitIndex. rewrite Hm.
  cbn [count_matches].
  pose proof (index_at_size _ _ Hd) as Hsize.
  destruct (index_at (match_index_ n) (self_id_ cfg)) as [v m]. cbn [snd] in *.
  cbn [commit_index_ set_match_index_]. rewrite Hsize.
  change (Z.of_nat 1 / 2) with 0.
  rewrite decide_True; [reflexivity|].
  split; [|exact Ha]. destruct (decide (v >= a_index)); [|lia].
  change ((0 + 1) mod 2 ^ 32) with 1. lia.
Qed.

(** Applying a Put entry. *)
Lemma apply_switch_Put (n : InsNodeImpl) e nop op0 :
  LogEntry.op e = kPut -> kPut <> kLock ->
  apply_switch n e nop op0
  = Some (mkApplied
            (set_session_locks_ (session_locks_ n)
               (set_data_store_
                  (StorageManager.Put
                     (StorageManager.OpenDatabase (data_store_ n)
                        (LogEntry.user e)).2
                     (LogEntry.user e) (LogEntry.key e)
                     (tagged kPut (LogEntry.value e))).2 n))
            nop
            [TriggerEventWithParent
               (BindKeyAndUser (LogEntry.user e) (LogEntry.key e))
               (LogEntry.value e) false]
            kError EmptyString).
Proof.
  intros Hop Hne. unfold apply_switch. rewrite Hop.
  rewrite decide_True by auto. rewrite retry_opening_Put.
  destruct (OpenDatabase_open (data_store_ n) (LogEntry.user e)) as [db Hdb].
  rewrite (Put_open _ _ _ _ _ Hdb).
  rewrite !(decide_False (P := kPut = kLock)) by exact Hne.
  rewrite decide_True by reflexivity. reflexivity.
Qed.

Lemma OpenDatabase_keeps_open sm user name :
  is_Some (StorageManager.dbs_ sm !! name) ->
  is_Some (StorageManager.dbs_ (StorageManager.OpenDatabase sm user).2 !! name).
Proof.
  intros Hn. unfold StorageManager.OpenDatabase.
  destruct (StorageManager.dbs_ sm !! user) eqn:E; cbn; [exact Hn|].
  destruct (decide (name = user)) as [->|Hne].
  - rewrite lookup_insert_eq. eauto.
  - now rewrite lookup_insert_ne by congruence.
Qed.

(** One round of the worker on a leader, for a Put entry with a pending
    response. *)
Lemma apply_entry_Put (n : InsNodeImpl) i e ack op0 :
  BinLogger.ReadSlot (binlogger_ n) i = BinLogger.SlotOk e ->
  LogEntry.op e = kPut -> kPut <> kLock ->
  status_ n = kLeader ->
  client_ack_ n !! i = Some ack ->
  is_Some (StorageManager.dbs_ (data_store_ n)
           !! StorageManager.anonymous_user) ->
  let sm :=
    (StorageManager.Put
       (StorageManager.OpenDatabase (data_store_ n) (LogEntry.user e)).2
       (LogEntry.user e) (LogEntry.key e)
       (tagged kPut (LogEntry.value e))).2 in
  let applied := to_int64 (last_applied_index_ n + 1) in
  apply_entry n i false op0
  = Some (set_data_store_
            (StorageManager.Put sm StorageManager.anonymous_user
               tag_last_applied_index (BinLogger.IntToString applied)).2
            (set_last_applied_index_ applied
               (set_client_ack_ (delete i (client_ack_ n))
                  (set_session_locks_ (session_locks_ n)
                     (set_data_store_ sm n)))),
          false,
          [TriggerEventWithParent
             (BindKeyAndUser (LogEntry.user e) (LogEntry.key e))
             (LogEntry.value e) false],
          ack_replies ack kError EmptyString).
Proof.
  intros Hslot Hop Hne Hl Hack Hanon sm applied.
  unfold apply_entry. rewrite Hslot. cbn [mbind option_bind].
  rewrite apply_switch_Put by assumption. fold sm.
  cbn [mbind option_bind applied_node nop_committed tasks log_status new_uuid].
  set (n1 := set_session_locks_ _ _).
  assert (status_ n1 = kLeader) as -> by exact Hl.
  rewrite andb_false_r. cbv iota.
  assert (status_ n1 = kLeader) as -> by exact Hl.
  assert (client_ack_ n1 = client_ack_ n) as -> by reflexivity.
  rewrite Hack. rewrite decide_True by reflexivity.
  set (n2 := set_client_ack_ _ n1).
  assert (last_applied_index_ n2 = last_applied_index_ n) as -> by reflexivity.
  fold applied. set (n3 := set_last_applied_index_ applied n2).
  assert (last_applied_index_ n3 = applied) as -> by reflexivity.
  assert (data_store_ n3 = sm) as -> by reflexivity.
  assert (is_Some (StorageManager.dbs_ sm !! StorageManager.anonymous_user))
    as [db Hdb] by (apply Put_keeps_open, OpenDatabase_keeps_open, Hanon).
  rewrite (Put_open _ _ _ _ _ Hdb). rewrite decide_True by reflexivity.
  reflexivity.
Qed.

End SingleNodeFacts.

(** X29.  A write on a single-node cluster, end to end.  On a leader that
    is the only member, out of safe mode and with nothing left to apply, a
    Put by a logged-in user is held, appended to the log and committed at
    once; the next run of the worker applies it, completes the held
    response with [success = true], asks for the watches on the key and its
    parent to be fired, and leaves commit index and applied index at the
    index of the entry; and a Get of the key then hits with the value that
    was put. *)
Theorem single_node_Put_then_Get `{ops : LogOperationValues}
    `{um : UserManagerApi} (cfg : Config) (n : InsNodeImpl)
    (key value uuid : string) (h : rpc_handle) (op0 : LogOperation) :
  enumerators_wf ->
  members_ cfg = [self_id_ cfg] ->
  status_ n = kLeader ->
  in_safe_mode_ n = false ->
  uuid_unknown n uuid = false ->
  Z.of_nat (size (client_ack_ n)) <= FLAGS_max_write_pending cfg mod 2 ^ 64 ->
  let user := GetUsernameFromUuid (user_manager_ n) uuid in
  let L := BinLogger.GetLength (binlogger_ n) in
  0 <= L < int64_max ->
  commit_index_ n = L - 1 ->
  last_applied_index_ n = L - 1 ->
  int64_min <= current_term_ n <= int64_max ->
  dom (match_index_ n) ⊆ {[self_id_ cfg]} ->
  client_ack_ n !! L = None ->
  is_Some (StorageManager.dbs_ (data_store_ n)
           !! StorageManager.anonymous_user) ->
  (user, key) <> (StorageManager.anonymous_user, tag_last_applied_index) ->
  LogEntry.fits_int32 (LogEntry.mk kPut user key value (current_term_ n)) ->
  exists n1 n2,
    Put cfg n (PutRequest.mk key value uuid) h = Some (n1, Held, true)
    /\ CommitIndexObserv n1 op0
       = Some (n2,
               [TriggerEventWithParent (BindKeyAndUser user key) value false],
               [AckWrite h (WriteResponse.mk true EmptyString false)])
    /\ commit_index_ n2 = L
    /\ last_applied_index_ n2 = L
    /\ client_ack_ n2 !! L = None
    /\ forall now op0',
         Get cfg n2 (GetRequest.mk key uuid) now op0'
         = GetReplied (GetResponse.mk true true EmptyString value false).
Proof.
  intros Hwf Hm Hl Hsafe Hu Hpend user L HL Hci Hla Hterm Hmi Hack Hanon Hkey
    Hfits.
  destruct (enumerators_distinct Hwf) as (HPL & _).
  assert (0 <= kPut < 128) as Hput.
  { destruct Hwf as [_ Hr]. rewrite Forall_forall in Hr. apply Hr.
    apply list_elem_of_In. cbn. auto. }
  subst L. unfold BinLogger.GetLength in *.
  set (L := BinLogger.length_ (binlogger_ n)) in *.
  destruct (AppendEntry_fits (binlogger_ n) _ Hfits) as [b' HA].
  destruct (AppendEntry_slots _ _ _ HL HA) as (Hlen & _ & Hslot & _).
  fold L in Hlen, Hslot.
  assert (BinLogger.GetLastLogIndex b' = L) as Hlast.
  { unfold BinLogger.GetLastLogIndex. rewrite Hlen, Z.add_simpl_r.
    apply to_int64_id. unfold int64_min, int64_max in *. lia. }
  assert (LogEntry.stored (LogEntry.mk kPut user key value (current_term_ n))
          = LogEntry.mk kPut user key value (current_term_ n)) as Hstored.
  { unfold LogEntry.stored, to_uint8. cbn.
    rewrite Z.mod_small by lia. now rewrite to_int64_id. }
  rewrite Hstored in Hslot.
  pose (n1 := set_commit_index_ L
                (set_match_index_
                   (index_at (match_index_ n) (self_id_ cfg)).2
                   (set_client_ack_
                      (<[L := ack_put h ClientAck_new]> (client_ack_ n))
                      (set_binlogger_ b' n)))).
  exists n1. eexists. split.
  { (* the request is admitted, appended and committed *)
    unfold Put. cbn [PutRequest.uuid PutRequest.key PutRequest.value].
    rewrite Hl, Hu. leader_cases. rewrite decide_False by lia.
    fold user. unfold append_and_ack. rewrite HA. cbn [mbind option_bind].
    cbn [binlogger_ set_binlogger_ client_ack_ set_client_ack_].
    rewrite Hlast, Hack. cbn [default].
    unfold single_node_mode_. rewrite Hm.
    rewrite bool_decide_eq_true_2 by reflexivity.
    rewrite UpdateCommitIndex_single_node; [|exact Hm|exact Hmi|cbn; lia].
    reflexivity. }
  (* the worker applies the entry *)
  assert (last_applied_index_ n1 = L - 1) as Hla1 by exact Hla.
  assert (commit_index_ n1 = L) as Hci1 by reflexivity.
  assert (binlogger_ n1 = b') as Hb1 by reflexivity.
  assert (status_ n1 = kLeader) as Hl1 by exact Hl.
  assert (client_ack_ n1 = <[L := ack_put h ClientAck_new]> (client_ack_ n))
    as Hack1 by reflexivity.
  assert (data_store_ n1 = data_store_ n) as Hds1 by reflexivity.
  unfold CommitIndexObserv. rewrite Hla1, Hci1.
  replace (L - 1 + 1) with L by lia.
  replace (Z.to_nat (L - (L - 1))) with 1%nat by lia.
  cbn [apply_range].
  rewrite (apply_entry_Put n1 L
             (LogEntry.mk kPut user key value (current_term_ n))
             (ack_put h ClientAck_new) op0);
    [|now rewrite Hb1|reflexivity|exact HPL|exact Hl1
     |rewrite Hack1; apply lookup_insert_eq|now rewrite Hds1].
  cbn [mbind option_bind LogEntry.user LogEntry.key LogEntry.value app].
  rewrite Hla1, Hds1. replace (L - 1 + 1) with L by lia.
  rewrite (to_int64_id L) by (unfold int64_min, int64_max in *; lia).
  split; [reflexivity|].
  cbn [commit_index_ last_applied_index_ client_ack_ set_data_store_
       set_last_applied_index_ set_client_ack_ set_session_locks_].
  split; [exact Hci1|]. split; [reflexivity|].
  split; [apply lookup_delete_eq|].
  (* the read *)
  match goal with
  | |- forall now op0', Get cfg ?x _ _ _ = _ => set (n2 := x)
  end.
  assert (status_ n2 = kLeader) as Hl2 by exact Hl.
  assert (in_safe_mode_ n2 = false) as Hsafe2 by exact Hsafe.
  assert (user_manager_ n2 = user_manager_ n) as Hum2 by reflexivity.
  assert (StorageManager.Get (data_store_ n2) user key
          = (kOk, tagged kPut value)) as Hget.
  { cbn [n2 data_store_ set_data_store_].
    destruct (OpenDatabase_open (data_store_ n) user) as [db0 Hdb0].
    rewrite (Put_open _ _ _ _ _ Hdb0). cbn [snd].
    destruct (decide (user = StorageManager.anonymous_user)) as [Hua|Hua].
    - assert (key <> tag_last_applied_index) as Hk by congruence.
      erewrite Put_open by (cbn; rewrite <- Hua; apply lookup_insert_eq).
      cbn [snd]. erewrite Get_open by (cbn; rewrite <- Hua; apply lookup_insert_eq).
      rewrite lookup_insert_ne by congruence.
      now rewrite lookup_insert_eq.
    - assert (is_Some (StorageManager.dbs_
                         (StorageManager.OpenDatabase (data_store_ n) user).2
                       !! StorageManager.anonymous_user)) as [dba Hdba]
        by (apply OpenDatabase_keeps_open, Hanon).
      erewrite Put_open
        by (cbn; rewrite lookup_insert_ne by exact Hua; exact Hdba).
      cbn [snd]. erewrite Get_open
        by (cbn; rewrite lookup_insert_ne by congruence;
            apply lookup_insert_eq).
      now rewrite lookup_insert_eq. }
  clearbody n2. intros now op0'. unfold Get. rewrite Hl2, Hsafe2.
  unfold uuid_unknown in *. rewrite Hum2.
  cbn [GetRequest.uuid GetRequest.key]. rewrite Hu. leader_cases.
  rewrite andb_false_r. rewrite Hm.
  rewrite decide_False by (cbn; lia).
  unfold serve_read. cbn [GetRequest.uuid GetRequest.key]. rewrite Hum2.
  fold user. rewrite Hget. rewrite ParseValue_tagged by exact Hput.
  rewrite decide_True by reflexivity. now rewrite decide_False by exact HPL.
Qed.


(** The first write on a fresh single-node cluster is read back. *)
Lemma single_node_Put_then_Get_witness :
  let cfg := example_config ["A"] in
  let n := example_node kLeader 1 BinLogger.empty (example_store "" []) ∅
             false (-1) (-1) in
  exists n1 n2,
    Put (ops := example_ops) cfg n (PutRequest.mk "k" "v" "") 7%nat
    = Some (n1, Held, true)
    /\ CommitIndexObserv (ops := example_ops) n1 0
       = Some (n2, [TriggerEventWithParent "::k" "v" false],
               [AckWrite 7%nat (WriteResponse.mk true "" false)])
    /\ Get (ops := example_ops) cfg n2 (GetRequest.mk "k" "") 0 0
       = GetReplied (GetResponse.mk true true "" "v" false).
Proof.
  intros cfg n.
  destruct (single_node_Put_then_Get (ops := example_ops) cfg n "k" "v" ""
              7%nat 0) as (n1 & n2 & HP & HC & _ & _ & _ & HG).
  - exact example_ops_wf.
  - reflexivity.
  - reflexivity.
  - reflexivity.
  - reflexivity.
  - vm_compute. discriminate.
  - vm_compute. split; [discriminate|reflexivity].
  - reflexivity.
  - reflexivity.
  - vm_compute. split; discriminate.
  - cbn. set_solver.
  - reflexivity.
  - vm_compute. eauto.
  - discriminate.
  - vm_compute. discriminate.
  - exists n1, n2. split; [exact HP|]. split; [exact HC|apply HG].
Defined.

(** ** Sessions *)

(** X30.  A KeepAlive on the leader and its forwarding.  The leader
    records the session with the time of arrival and replaces the lock set
    it holds for the session by the one in the request, so that the
    session is not expired; other sessions are left alone; it answers with
    [success = true] and forwards the request, marked as forwarded, once to
    every other member.  A member that is not the leader accepts such a
    forwarded request where it would refuse the client's own: it records
    the same session and lock set, and forwards nothing. *)
Theorem KeepAlive_forwarded `{um : UserManagerApi} (cfgL cfgF : Config)
    (leader follower : InsNodeImpl)
    (request : KeepAliveRequest.t) (now now' : Z) :
  status_ leader = kLeader ->
  status_ follower <> kLeader ->
  let sid := KeepAliveRequest.session_id request in
  let locks : gset string := list_to_set (KeepAliveRequest.locks request) in
  let result := KeepAlive cfgL leader request now in
  result.1.2 = KeepAliveResponse.mk true EmptyString
  /\ sessions_ result.1.1 !! sid
     = Some (mkSession sid now (KeepAliveRequest.uuid request))
  /\ IsExpiredSession result.1.1 sid = false
  /\ session_locks_ result.1.1 !! sid = Some locks
  /\ (forall other, other <> sid ->
        sessions_ result.1.1 !! other = sessions_ leader !! other
        /\ session_locks_ result.1.1 !! other = session_locks_ leader !! other)
  /\ result.2.*1 = others_ cfgL
  /\ (forall server forwarded, (server, forwarded) ∈ result.2 ->
        let result' := KeepAlive cfgF follower forwarded now' in
        KeepAliveRequest.forward_from_leader forwarded = true
        /\ result'.1.2 = KeepAliveResponse.mk true EmptyString
        /\ result'.2 = []
        /\ sessions_ result'.1.1 !! sid
           = Some (mkSession sid now' (KeepAliveRequest.uuid request))
        /\ session_locks_ result'.1.1 !! sid = Some locks).
Proof.
  intros Hl Hf sid locks result.
  assert (result
          = (set_session_locks_ (<[sid := locks]> (session_locks_ leader))
               (set_sessions_
                  (<[sid := mkSession sid now (KeepAliveRequest.uuid request)]>
                     (sessions_ leader)) leader),
             KeepAliveResponse.mk true EmptyString,
             List.map (fun server =>
                         (server,
                          KeepAliveRequest.mk sid
                            (KeepAliveRequest.uuid request)
                            (KeepAliveRequest.locks request) true))
                      (others_ cfgL))) as ->.
  { subst result. unfold KeepAlive. rewrite Hl.
    rewrite (bool_decide_eq_false_2 (kLeader = kFollower)) by discriminate.
    rewrite (bool_decide_eq_false_2 (kLeader = kCandidate)) by discriminate.
    cbn [andb]. rewrite decide_False by (intros H; now apply H).
    reflexivity. }
  cbn [fst snd sessions_ session_locks_ set_sessions_ set_session_locks_].
  unfold IsExpiredSession.
  cbn [sessions_ set_sessions_ set_session_locks_].
  rewrite !lookup_insert_eq.
  split; [reflexivity|]. split; [reflexivity|].
  split; [now apply bool_decide_eq_false_2|]. split; [reflexivity|].
  split.
  { intros other Ho. now rewrite !lookup_insert_ne by congruence. }
  split.
  { rewrite <- list_fmap_compose. apply list_fmap_id. }
  intros server forwarded Hin.
  apply list_elem_of_fmap in Hin as (s & Heq & _). inversion Heq; subst.
  cbv zeta. unfold KeepAlive.
  cbn [KeepAliveRequest.forward_from_leader KeepAliveRequest.session_id
       KeepAliveRequest.uuid KeepAliveRequest.locks negb].
  rewrite !andb_false_r.
  cbn [fst snd sessions_ session_locks_ set_sessions_ set_session_locks_
       session_id status_].
  rewrite decide_True by exact Hf.
  rewrite !lookup_insert_eq. repeat split; reflexivity.
Qed.

(** A session reported to the leader "A" of a three-member cluster is
    forwarded to "B" and "C" and recorded by a follower that receives
    it. *)
Lemma KeepAlive_forwarded_witness :
  let cfg := example_config ["A"; "B"; "C"] in
  let leader := example_node kLeader 1 BinLogger.empty (example_store "" []) ∅
                  false (-1) (-1) in
  let follower := example_node kFollower 1 BinLogger.empty
                    (example_store "" []) ∅ false (-1) (-1) in
  let request := KeepAliveRequest.mk "s" "" ["k"] false in
  (KeepAlive cfg leader request 5).2.*1 = ["B"; "C"]
  /\ IsExpiredSession (KeepAlive cfg leader request 5).1.1
       "s" = false
  /\ IsExpiredSession
       (KeepAlive cfg follower
          (KeepAliveRequest.mk "s" "" ["k"] true) 6).1.1 "s" = false.
Proof.
  intros cfg leader follower request.
  destruct (KeepAlive_forwarded cfg cfg leader follower
              request 5 6 eq_refl) as (_ & _ & He & _ & _ & Hfw & Hf);
    [discriminate|].
  split; [exact Hfw|]. split; [exact He|].
  destruct (Hf "B" (KeepAliveRequest.mk "s" "" ["k"] true))
    as (_ & _ & _ & Hs & _).
  { rewrite list_elem_of_In. vm_compute. auto. }
  unfold IsExpiredSession. apply bool_decide_eq_false_2.
  cbv zeta in Hs. change (KeepAliveRequest.session_id request) with "s" in Hs.
  rewrite Hs. discriminate.
Defined.
